(* ===== verification/_CoqProject ===== *)
-Q . S2P
Prelude.v
GoLib.v
React.v
Mount.v
Immutable.v
Elements.v
CoreGen.v
GoGenerate.v
GoDirective.v
GoAst.v
StateTree.v
StateGen.v
ReactGen.v
ReactGenOrder.v
ReactVet.v
HtmlNode.v
HtmlNodeOps.v
JsxWalk.v
Jsx.v
JsxCss.v
JsxGen.v
CssGen.v
Gopher.v
Rand.v
Client.v
ClientState.v
ClientRender.v
ClientJsx.v
ReactGenClient.v
Runtime.v
ClientTypes.v
Todo.v
ImmSelect.v
GlobalState.v
GlobalRun.v
GlobalPage.v
GlobalSite.v
Timer.v
GoFmt.v
Latency.v
Present.v
SyntaxViewer.v
ExamplesText.v
Examples.v
ExamplesRun.v
SmallExamples.v
Blog.v
SiteMains.v
GeneratorMain.v
Flags.v
Witnesses.v
