(* ===== verification/Prelude.v ===== *)
(** * gopherize.me: a verification of the client and of the framework it runs on

    ** The program

    [src/client] is a single-page application, compiled to JavaScript with
    GopherJS: the user puts a gopher together from parts.  It is written with
    [myitcv.io/react] (vendored in [src/_vendor/src/myitcv.io/react], by the same
    author), Go bindings of React in which

    - a component is a struct around a [ComponentDef]; its props and its state are
      Go values hidden in JavaScript objects ([react.go]);
    - the 44 HTML elements are constructors that the program [coreGen] generates
      from a table ([cmd/coreGen], output [gen_react_coreGen.go]);
    - package [jsx] turns HTML text into such elements at run time, with functions
      generated from the same table ([jsx/jsx.go], [jsx/gen_jsx_coreGen.go]);
    - [reactGen] writes the proxies of a component, [cssGen] the CSS struct,
      [stateGen] a tree of global state ([cmd/reactGen], [cmd/cssGen],
      [cmd/stateGen]), and [reactVet] checks the calls of [jsx] ([cmd/reactVet]);
    - immutableGen, another tool of the author, writes slices, maps and structs whose
      values do not change once they are not mutable any more; the examples and the
      component [Select] ([components/imm]) keep such values in their states;
    - the generators are found by the [go:generate] lines of a package and name
      their outputs through [myitcv.io/gogenerate].

    The client has four components.  [Outer] holds the current gopher and the
    operations on it ([outer.go]); it renders [Preview] ([preview.go]), which
    draws the parts on top of each other, and [Chooser] ([chooser.go]), which
    draws three buttons, one [Panel] per category ([panel.go]) and a footer parsed
    by [jsx].  A click runs the [OnClick] method of a click struct; the methods
    call [Outer] through the interface [UpdateGopher], or [Chooser] through
    [ExpandPanel]; these set a new state, which makes React render again.
    [gopher.go] is the configuration: the categories and the names of their parts.

    The repository also has the examples of the framework.  The [globalstate] site has
    three components that share a state tree: the chooser of a person subscribes to the
    current person and draws a [Select], the viewer subscribes while it is on the page,
    and a button shows and hides it.  The page of examples shows the other examples with
    their sources, which goroutines fetch; the syntax viewer draws the tree of a text, and
    the present site the slides at an address.

    ** The files, in order

    - [Prelude]: panics and results, the state-passing monad, slices, stores of
      immutable cells, tactics, generic lemmas.
    - [GoLib]: the functions of [strings], [strconv], [os], [sort] and
      [path/filepath] in use, as in Go 1.10, the version the project builds with.
    - [React]: [react.go], [custom_elements.go], [unsafe_js.go].  State: a heap of
      JavaScript objects, the map [compMap] of React classes, the re-renders asked
      for.  One definition per method of [ComponentDef], per lifecycle function of
      [buildReactComponent], and [CreateElement].
    - [Mount]: the calls React makes for one instance: mounting, new props, unmounting;
      and the render of an element with the components below it ([mount_tree]).
    - [Immutable]: what immutableGen writes, as in the generated file of [immtodoapp],
      over a heap of values; a program gives its heaps by the class [HasCells].
    - [Elements]: the CSS struct with [hack], and the props and the constructor of
      each element (module [El]).
    - [CoreGen]: the tables and [dogen] of the generator (module [Gen]); what its
      templates write is data, with its meaning [run_decl].
    - [GoGenerate]: the names of generated files and the license header
      ([gogenerate.go]).
    - [GoDirective]: the directives of a file ([coregogenerate.go]) and
      [FilesContainingCmd]; slices of words live in a store of arrays, so that the
      sharing between them is as in the code.
    - [GoAst]: the part of [go/ast] two generators look at.
    - [StateTree]: the run time of a generated state tree, the store, the
      subscriptions and [set], with the abstract tree it implements.
    - [StateGen]: [cmd/stateGen/gen.go], the reading of node structs, the work lists
      of [gen] and what its templates write; the keys of a generated tree.
    - [ReactGen], [ReactGenOrder]: [cmd/reactGen/gen.go] and [comp_gen.go], what is
      collected from a package and decided for a component; and that the order of
      Go's maps does not show.
    - [ReactVet]: [cmd/reactVet], the walk over a file, the packages of a directory
      and the sorted list of errors.
    - [HtmlNode]: nodes of [golang.org/x/net/html] as a heap of linked records,
      [RemoveChild], and the trees such records stand for.
    - [HtmlNodeOps]: the other operations on nodes, and the stack of nodes.
    - [JsxWalk], [Jsx], [JsxCss], [JsxGen]: package [jsx].  The loop that removes
      white space, [HTML] with its cache, the parse functions, [parseCSS], and the
      agreement of the generated parse functions with the generator.
    - [CssGen]: [cmd/cssGen], with the meaning of what it writes.
    - [Gopher]: the configuration [hackConfig], complete.
    - [Rand]: [Intn] of [math/rand] on top of a source that is a parameter.
    - [Client]: the four components and [main], method by method; the click
      structs are the type [click].
    - [ClientState]: what the operations do: the invariant [App] of a running
      application, the abstract specification [spec_click] (a gopher and an open
      panel, one transition per click), and the refinement of it.
    - [ClientRender]: what the components draw.
    - [ClientJsx]: the client with the footer that [jsx] parses.
    - [ReactGenClient]: the declarations of the client as [reactGen] reads them, and
      its generated files as [reactGen] writes them.
    - [Runtime]: the calls React makes, in its documented order: the first render, a click,
      the re-render it asked for; [reachable] worlds and their invariant.
    - [ClientTypes]: the classes and the props of the component elements.
    - [Todo]: the examples [todoapp] (module [TodoApp]) and [immtodoapp] (module
      [ImmTodoApp]), and what both are to do.
    - [ImmSelect]: [components/imm/select.go], for any labels; what it needs of the
      program it is part of is the class [SelectProgram], with laws [SelectLaws].
    - [GlobalState], [GlobalRun], [GlobalPage], [GlobalSite]: the [globalstate] site;
      its definitions, React's calls and the effect of its callbacks, the invariant of
      a running page, and the site from [main] on.
    - [Timer]: [examples/timer], with its goroutine and its ticker.
    - [GoFmt]: how Go prints durations and a [float64].
    - [Latency]: the [latency] site, with the goroutines that sleep.
    - [Present]: the [present] site, [app.go] and [dir.go]; its goroutines are jobs that
      go on when an answer comes.
    - [SyntaxViewer]: the [syntaxviewer] site and its listener on the hash of the page.
    - [ExamplesText], [Examples], [ExamplesRun]: the page of examples; the literals of its
      sources, the three pages with the sources they share and the site that shows one of
      them at a time, and its invariant.
    - [SmallExamples], [Blog]: [hellomessage], [markdowneditor], [helloworld] and the
      component of the blog; [SiteMains]: the mains of the sites of one component.
    - [GeneratorMain]: the mains of [reactGen], [stateGen] and [coreGen], and the
      application that [reactGen -init] writes.
    - [Flags]: package [flag] as the generators use it, the flags of gogenerate and of the
      generators, and the command line of [reactGen].
    - [Witnesses]: a concrete page, and the properties of the client and of the bindings
      applied to it; the other files end with the instances of their own properties.

    ** What the theorems show

    - The running application ([Runtime], [ClientState]): from any document URL that
      parses, the first render, down to every panel, succeeds and shows the default gopher;
      from every world any
      sequence of clicks can lead to, every click the page offers succeeds and does
      what the specification says, and the gopher on show always has one part of
      each category; every gopher of the configuration can be reached; no gopher
      that was handed out is ever changed; an index that is not of a category is
      refused.
    - Drawing ([ClientRender], [ClientJsx]): the clicks on the page are exactly the
      offered ones; a panel draws its options in order with one marked; the preview
      draws the worn parts in layer order; React re-renders a panel exactly when it
      has changed, and not re-rendering it is right.
    - Types ([ClientTypes]): in every run each component element has the class of a
      component that accepts its props, so no generated type assertion fails; they are one
      preview, one chooser and the panel of each category.
    - Immutable values ([Immutable]): a value that is not mutable never changes,
      whatever is called on it; a batch of changes in [WithMutable] is the changes one
      by one, with one copy; [IsDeeplyNonMutable] is right although it remembers what
      it has seen.
    - The examples ([Todo], [ImmSelect], [GlobalSite]): both todo applications implement
      one specification, so replacing a slice and a hand-written [Equals] by immutable
      values changes nothing; [Select] holds the labels it was last given and calls
      [OnSelect] with the label that was shown under the chosen value; whatever the user
      picks and clicks, the [globalstate] site shows the people sorted by name, the
      current person selected, and the viewer in step with the tree, and a hidden viewer
      leaves no subscription behind.
    - Goroutines ([Timer], [Latency]): the timer counts its ticks in any interleaving of
      ticks, rounds and an unmount, up to 2^24; in every run of the [latency] site the
      results are those of the goroutines of the current request that woke since the last
      click, in any order, or one of them slept for no time and panics.  Two more theorems
      are about what goes wrong: a time of 0, and classes the wrong way round.  The present site ([Present]) does what its specification says in
      any order of answers, and its slides are those of a URL that was entered, but not
      always of the last one.  No source of the page of examples ([ExamplesRun]) is lost,
      whatever the order of the answers, but a page that was mounted later misses them.
    - The syntax viewer ([SyntaxViewer]): whatever is typed and chosen, it shows what its
      specification says of the text of each language; its listener outlives it.
    - The small examples ([SmallExamples], [Blog]): what they draw after any events; children
      that change under the same props are not drawn again.
    - Nodes ([HtmlNodeOps]): [RemoveChild] undoes [InsertBefore] pointer for pointer;
      [reparentChildren] ends and moves all children; the node stack behaves as one.
    - The bindings ([React]): [SetState] is guarded by [EqualsIntf], is seen by
      [State] at once and asks for one re-render; [shouldComponentUpdate] depends on
      the props only; one React class per component type, for ever.
    - The generators of the client ([ReactGenClient], [ReactGen], [ReactGenOrder],
      [CssGen]): the four [gen_X_reactGen.go] files, the CSS struct and [parseCSS]
      are what the generators write, in whatever order maps are ranged over and
      with or without earlier output; which proxies a component gets.  Three
      theorems are about what goes wrong: templates of props, methods without
      results, and the receiver of a slice.
    - State trees ([StateTree], [StateGen]): a generated tree implements an abstract
      one; [set] calls exactly the subscriptions on the path; the generator ends
      also on types that refer to each other in circles and writes each once; leaves
      of different types are independent, leaves of one type are not, and a type
      below itself has a constructor that never returns.
    - The vet program ([ReactVet]): it reports exactly the calls with an argument
      that is not constant, sorted, whatever the order of maps; files with a dot
      import escape it.
    - The generator ([CoreGen], [JsxGen]): its output files are what its tables
      say, for all 44 elements, constructors and parse functions; it is
      deterministic although it ranges over Go maps; it refuses clashing attributes
      and nothing else.
    - Directives and file names ([GoDirective], [GoGenerate]): reading through the
      buffer is taking lines one by one, for every file; the words of a directive are
      read back as written; files are counted right; a generator is read back from
        the names of its outputs.  A generator runs exactly when the file it was called for
      has one directive for it ([GeneratorMain]), and [-init] writes its three files and
      no other.  Flags do what their last settings say,
      in whatever way these are written ([Flags]).  Four theorems are about what goes wrong: a
      shorthand that is overwritten, generators with an underscore, a license that
      ends with a blank line, and a guard that is never taken.
    - [jsx] ([Jsx], [JsxCss], [JsxGen]): [HTML] is a function of its argument,
      whatever is cached; its pointer loops end and compute [parse_tree] of [strip];
      parsed elements hold no handler and no component; styles are read back as
      printed.  Two theorems are about inputs it refuses although it should not:
      white space in two places of a list, and a style that ends with a semicolon.

    ** Conventions, bounds and fuel

    A Go function that can panic returns a [res]; [int] is [Z] (indices are checked
    at every use), strings are byte strings.  Loops that are not structural take
    fuel, and the theorems show that there is enough: the pointer loops of [HTML]
    get the number of nodes, which [walk_run] and [parse_run] prove sufficient; the
    loops over a file and over the words of a line get its length, which
    [matches_content] and [split_words_fuel] prove sufficient; the work list of
    [stateGen] gets one round per node type, which [node_loop_run] proves
    sufficient; [reparentChildren] gets more rounds than the node has children, which
    [reparentChildren_moves] proves sufficient; the redraw loops of [Intn]
    and [Int63n] get [fuel] draws, under the hypotheses [fuel_enough] and [accepts63] that
    one of any [fuel] consecutive draws is accepted, as a source of random numbers
    documented to be uniform ensures.

    Parameters, with what is assumed of them: the source behind a [math/rand] seed
    ([source_ok]: non-negative 63-bit values), the clock, the query of the document
    URL, [html.ParseFragment] ([ParseFragment_ok]: detached trees), blackfriday,
    the files, the environment and the packages [gogenerate] reads, the packages and
    the type checker of [reactVet] ([order_free]: what it finds does not depend on
    the order of the files), the callbacks of a state tree, [sort.Sort] for the people of
    the [globalstate] site ([sort_ok]: it leaves a slice sorted, using only [Len], [Less]
    and [Swap]; an insertion sort is proved to do so), and the order of [range] over a Go
    map ([range_ok], [range_set]); for the sites, the two parsers of the viewer with their
    printers, [net/url], package [present] with its templates, what the network answers,
    the highlighter and the [Render] of remarkable; for [-init], the execution of a
    template, [gofmt] and [go generate].  The builders of the components that the page of
    examples shows are the class [Shown], without laws.

    ** Not modelled

    React and ReactDOM themselves (their calls into the program are the functions
    of [Runtime] and [Mount]), GopherJS, the HTML parser with its stack of insertion modes,
    blackfriday, the browser; the text of generated files (white space, [gofmt]), which
    are kept as lists of declarations; the text of usage
    messages; the event structs of [core.go], which are bindings without logic; the embedded templates
    of the present site, a generated file of compressed data; and the vendored code of
    other authors. *)

From Stdlib Require Export ZArith Lia.
From stdpp Require Export base list strings gmap sets option.
From Stdlib Require Ascii.
Export Stdlib.Strings.Ascii (ascii(..)).
Export (notations) Stdlib.Strings.Ascii.

#[export] Set Default Goal Selector "!".

(** ** Go panics and results

    A Go expression either yields a value or panics.  The constructors are the
    panics the sources can raise: the runtime ones (index out of range, nil
    dereference, failed type assertion) and the explicit ones
    [panic(fmt.Errorf(...))], which carry their formatted message.  [OutOfFuel]
    is a loop that used up the fuel of its model: never an outcome of the code. *)
Inductive gopanic :=
  | OutOfFuel
  | IndexOutOfRange
  | NilDeref
  | TypeAssertion
  | PanicMsg (msg : string).

Inductive res (A : Type) :=
  | Ok (a : A)
  | Panic (e : gopanic).
Arguments Ok {A} a.
Arguments Panic {A} e.

#[export] Instance gopanic_eq_dec : EqDecision gopanic.
Proof. solve_decision. Defined.
#[export] Instance res_eq_dec `{EqDecision A} : EqDecision (res A).
Proof. solve_decision. Defined.

#[export] Instance res_ret : MRet res := @Ok.
#[export] Instance res_bind : MBind res := λ A B f m,
  match m with Ok a => f a | Panic e => Panic e end.
#[export] Instance res_fmap : FMap res := λ A B f m,
  match m with Ok a => Ok (f a) | Panic e => Panic e end.

(** Running [f] over a list from left to right, the way a [for range] loop
    that appends does: the first panic stops the loop. *)
Fixpoint res_map {A B} (f : A → res B) (l : list A) : res (list B) :=
  match l with
  | [] => Ok []
  | x :: l => y ← f x; ys ← res_map f l; Ok (y :: ys)
  end.

(** The same with the loop index, [for i, x := range l]. *)
Fixpoint res_imap_go {A B} (f : nat → A → res B) (n : nat) (l : list A) : res (list B) :=
  match l with
  | [] => Ok []
  | x :: l => y ← f n x; ys ← res_imap_go f (S n) l; Ok (y :: ys)
  end.
Definition res_imap {A B} (f : nat → A → res B) : list A → res (list B) :=
  res_imap_go f 0.

Definition of_option {A} (e : gopanic) (o : option A) : res A :=
  match o with Some a => Ok a | None => Panic e end.

(** ** State-passing code

    [M W A] is code that reads and changes a world of type [W] and may panic;
    a panic discards the continuation, and the world with it. *)
Definition M (W A : Type) : Type := W → res (A * W).

#[export] Instance M_ret W : MRet (M W) := λ A a w, Ok (a, w).
#[export] Instance M_bind W : MBind (M W) := λ A B f m w,
  match m w with Ok (a, w') => f a w' | Panic e => Panic e end.

Definition mget {W A} (f : W → A) : M W A := λ w, Ok (f w, w).
Definition mmodify {W} (f : W → W) : M W unit := λ w, Ok (tt, f w).
Definition mlift {W A} (r : res A) : M W A := λ w,
  match r with Ok a => Ok (a, w) | Panic e => Panic e end.
Definition mpanic {W A} (e : gopanic) : M W A := λ _, Panic e.

Fixpoint mmap {W A B} (f : A → M W B) (l : list A) : M W (list B) :=
  match l with
  | [] => mret []
  | x :: l => y ← f x; ys ← mmap f l; mret (y :: ys)
  end.

(** ** Go slices

    Slice indices are Go [int]s; a negative or too large index panics. *)
Definition go_index {A} (l : list A) (i : Z) : res A :=
  if (0 <=? i)%Z then of_option IndexOutOfRange (l !! Z.to_nat i)
  else Panic IndexOutOfRange.

(** [l[i] = x]: a write through an index that is out of range panics. *)
Definition go_update {A} (l : list A) (i : Z) (x : A) : res (list A) :=
  if ((0 <=? i) && (i <? Z.of_nat (length l)))%Z then Ok (<[Z.to_nat i := x]> l)
  else Panic IndexOutOfRange.

(** ** Pointers to immutable cells

    Values that the sources allocate with [&T{...}] and compare by address
    live in a store that only grows; a pointer is an address, [None] is nil. *)
Abbreviation ptr := (option nat).

Definition store_alloc {A} (st : list A) (a : A) : ptr * list A :=
  (Some (length st), st ++ [a]).
Definition store_deref {A} (st : list A) (p : ptr) : res A :=
  match p with
  | Some n => of_option NilDeref (st !! n)
  | None => Panic NilDeref
  end.

(** [st'] holds every cell of [st], unchanged. *)
Definition store_extends {A} (st st' : list A) : Prop := st `prefix_of` st'.

(** ** Automation *)
Create HintDb go.

Ltac res_simpl :=
  repeat (
    unfold mbind, mret, fmap, res_bind, res_ret, res_fmap, M_bind, M_ret,
      mget, mmodify, mlift, mpanic in * || simpl in * ).

Ltac inv_res :=
  repeat match goal with
  | H : Ok _ = Ok _ |- _ => injection H as H; try subst
  | H : (_, _) = (_, _) |- _ => injection H as H; try subst
  | H : Ok _ = Panic _ |- _ => discriminate H
  | H : Panic _ = Ok _ |- _ => discriminate H
  end.

(** Case analysis on the first [res] a hypothesis of the form
    [match r with ... end = Ok _] is stuck on. *)
Ltac res_case H :=
  match type of H with
  | context [match ?r with Ok _ => _ | Panic _ => _ end] =>
      let E := fresh "E" in destruct r as [?|?] eqn:E; try discriminate H
  end.

(** ** Generic lemmas *)
Lemma bind_Ok {A B} (m : res A) (f : A → res B) b :
  (m ≫= f) = Ok b ↔ ∃ a, m = Ok a ∧ f a = Ok b.
Proof. destruct m; simpl; [naive_solver|]. split; [done|]. by intros (? & ? & ?). Qed.

Section res_lemmas.
Context {A B : Type}.
Implicit Types (f : A → res B) (l : list A).

Lemma res_map_Forall2 f l ys :
  res_map f l = Ok ys ↔ Forall2 (λ x y, f x = Ok y) l ys.
Proof.
  revert ys; induction l as [|x l IH]; intros ys; simpl.
  - split; [by intros [= <-]|by intros ->%Forall2_nil_inv_l].
  - rewrite bind_Ok. split.
    + intros (y & Hy & (zs & Hzs & [= <-])%bind_Ok).
      constructor; [done|by apply IH].
    + intros (y & zs & Hy & Hzs%IH & ->)%Forall2_cons_inv_l.
      exists y. split; [done|]. by rewrite Hzs.
Qed.

Lemma res_map_length f l ys : res_map f l = Ok ys → length ys = length l.
Proof. intros H%res_map_Forall2%Forall2_length. done. Qed.

Lemma res_map_total f l :
  Forall (λ x, ∃ y, f x = Ok y) l → ∃ ys, res_map f l = Ok ys.
Proof.
  induction 1 as [|x l [y Hy] _ [ys Hys]]; simpl; [eauto|].
  exists (y :: ys). by rewrite Hy, Hys.
Qed.

Lemma res_map_perm f l l' ys :
  l ≡ₚ l' → res_map f l = Ok ys → ∃ ys', res_map f l' = Ok ys' ∧ ys ≡ₚ ys'.
Proof.
  setoid_rewrite res_map_Forall2. intros Hp. revert ys.
  induction Hp as [|x l l' _ IH|x y l|l1 l2 l3 _ IH1 _ IH2]; intros ys.
  - intros ->%Forall2_nil_inv_l. by exists [].
  - intros (z & zs & Hz & (zs' & Hzs' & Hp')%IH & ->)%Forall2_cons_inv_l.
    exists (z :: zs'). split; [by constructor|by rewrite Hp'].
  - intros (z & zs & Hz & (u & us & Hu & Hus & ->)%Forall2_cons_inv_l & ->)%Forall2_cons_inv_l.
    exists (u :: z :: us). split; [by repeat constructor|apply Permutation_swap].
  - intros (ys2 & H2 & Hp2)%IH1. apply IH2 in H2 as (ys3 & H3 & Hp3).
    exists ys3. split; [done|by rewrite Hp2].
Qed.

Lemma res_map_ext_Ok f g l ys :
  (∀ x y, x ∈ l → f x = Ok y → g x = Ok y) → res_map f l = Ok ys → res_map g l = Ok ys.
Proof.
  revert ys; induction l as [|x l IH]; intros ys H; simpl; [done|].
  rewrite bind_Ok. intros (y & Hy & (zs & Hzs & [= <-])%bind_Ok).
  rewrite (H x y) by (done || left). simpl. rewrite (IH zs); [done| |done].
  intros x' y' Hx'. apply H. by right.
Qed.
End res_lemmas.

Lemma res_imap_go_lookup {A B} (f : nat → A → res B) n (l : list A) ys :
  res_imap_go f n l = Ok ys →
  length ys = length l ∧
  ∀ i x, l !! i = Some x → ∃ y, ys !! i = Some y ∧ f (n + i) x = Ok y.
Proof.
  revert n ys; induction l as [|x l IH]; intros n ys; simpl.
  - intros [= <-]. split; [done|]. by intros [].
  - rewrite bind_Ok. intros (y & Hy & (zs & Hzs & [= <-])%bind_Ok).
    apply IH in Hzs as [Hlen Hlk]. split; [by f_equal/=|].
    intros [|i] z; simpl.
    + intros [= <-]. exists y. by rewrite Nat.add_0_r.
    + intros Hz. destruct (Hlk i z Hz) as (y' & ? & ?). exists y'.
      by rewrite <-Nat.add_succ_comm.
Qed.

Lemma res_imap_go_total {A B} (f : nat → A → res B) n (l : list A) :
  (∀ i x, l !! i = Some x → ∃ y, f (n + i) x = Ok y) →
  ∃ ys, res_imap_go f n l = Ok ys.
Proof.
  revert n; induction l as [|x l IH]; intros n H; simpl; [eauto|].
  destruct (H 0 x eq_refl) as [y Hy]. rewrite Nat.add_0_r in Hy.
  destruct (IH (S n)) as [ys Hys].
  { intros i z Hz. destruct (H (S i) z Hz) as [w Hw].
    exists w. by rewrite Nat.add_succ_comm. }
  exists (y :: ys). by rewrite Hy; simpl; rewrite Hys.
Qed.

(** Running the first step of a state-passing computation. *)
Lemma M_bind_run {W A B} (m : M W A) (f : A → M W B) w a w' :
  m w = Ok (a, w') → (m ≫= f) w = f a w'.
Proof. intros H. unfold mbind, M_bind. by rewrite H. Qed.

Lemma M_bind_Ok {W A B} (m : M W A) (f : A → M W B) w b w'' :
  (m ≫= f) w = Ok (b, w'') ↔ ∃ a w', m w = Ok (a, w') ∧ f a w' = Ok (b, w'').
Proof.
  unfold mbind, M_bind. destruct (m w) as [[a w']|e]; split; try done.
  - eauto.
  - by intros (? & ? & [= -> ->] & ?).
  - by intros (? & ? & ? & ?).
Qed.

Lemma mlift_run {W A} (r : res A) (w : W) a : r = Ok a → mlift r w = Ok (a, w).
Proof. by intros ->. Qed.

(** [mstep H] runs the first step of a bind with the equation [H]. *)
Ltac mstep H := erewrite (M_bind_run _ _ _ _ _ H).

Section slice_lemmas.
Context {A : Type}.
Implicit Types (l : list A).

Lemma go_index_Ok l i a :
  go_index l i = Ok a ↔ (0 ≤ i)%Z ∧ l !! Z.to_nat i = Some a.
Proof.
  unfold go_index. destruct (Z.leb_spec 0 i); [|naive_solver lia].
  destruct (l !! Z.to_nat i); naive_solver.
Qed.

Lemma go_index_nat l (n : nat) a : go_index l (Z.of_nat n) = Ok a ↔ l !! n = Some a.
Proof. rewrite go_index_Ok, Nat2Z.id. naive_solver lia. Qed.

Lemma go_update_Ok l i x l' :
  go_update l i x = Ok l' ↔
  (0 ≤ i < Z.of_nat (length l))%Z ∧ l' = <[Z.to_nat i := x]> l.
Proof.
  unfold go_update. destruct (Z.leb_spec 0 i), (Z.ltb_spec i (Z.of_nat (length l))); simpl;
    naive_solver lia.
Qed.

Lemma go_update_panic l i x :
  ¬ (0 ≤ i < Z.of_nat (length l))%Z → go_update l i x = Panic IndexOutOfRange.
Proof.
  unfold go_update. intros H.
  destruct (Z.leb_spec 0 i), (Z.ltb_spec i (Z.of_nat (length l))); simpl; done || lia.
Qed.

Lemma store_deref_extends (st st' : list A) p a :
  store_extends st st' → store_deref st p = Ok a → store_deref st' p = Ok a.
Proof.
  intros Hp. destruct p as [n|]; simpl; [|done].
  destruct (st !! n) eqn:E; simpl; [|done].
  intros [= <-]. by erewrite prefix_lookup_Some.
Qed.

Lemma store_alloc_deref (st : list A) a :
  store_deref (store_alloc st a).2 (store_alloc st a).1 = Ok a.
Proof. simpl. by rewrite lookup_app_r, Nat.sub_diag by done. Qed.

Lemma store_alloc_extends (st : list A) a : store_extends st (store_alloc st a).2.
Proof. by eexists. Qed.

(** A freshly allocated pointer differs from every valid older one. *)
Lemma store_alloc_fresh (st : list A) a p b :
  store_deref st p = Ok b → p ≠ (store_alloc st a).1.
Proof.
  simpl. intros Hp ->. simpl in Hp.
  rewrite lookup_ge_None_2 in Hp by lia. done.
Qed.
End slice_lemmas.

#[export] Hint Resolve store_alloc_deref store_alloc_extends : go.
#[export] Hint Resolve store_deref_extends : go.
