(* ===== verification/GoLib.v ===== *)
(** * The parts of Go's standard library the sources call

    Go strings are byte strings: [string] with one [ascii] per byte.  Module
    [Strings] models the functions of package [strings] the sources use, module
    [Filepath] those of [path/filepath] (on a Unix target, where the separator
    is the slash), and module [Sort] [sort.Strings].  [ToLower] is the ASCII
    part of Go's function: the sources only apply it to ASCII identifiers. *)

From stdpp Require Import sorting.
From S2P Require Import Prelude.

(** GopherJS has [int] 32 bits wide. *)
Definition wrap32 (z : Z) : Z := ((z + 2 ^ 31) mod 2 ^ 32 - 2 ^ 31)%Z.

(** [s[n:]] and [s[:n]] on bytes. *)
Fixpoint str_drop (n : nat) (s : string) : string :=
  match n, s with
  | O, _ => s
  | S n, EmptyString => EmptyString
  | S n, String _ s => str_drop n s
  end.
Fixpoint str_take (n : nat) (s : string) : string :=
  match n, s with
  | S n, String c s => String c (str_take n s)
  | _, _ => EmptyString
  end.
Fixpoint str_rev_app (s t : string) : string :=
  match s with
  | EmptyString => t
  | String c s => str_rev_app s (String c t)
  end.
Definition str_rev (s : string) : string := str_rev_app s EmptyString.

Abbreviation str_len := String.length.

(** The byte test [s == t] of Go. *)
Definition str_eqb (s t : string) : bool := bool_decide (s = t).

Fixpoint str_has (c : ascii) (s : string) : bool :=
  match s with
  | EmptyString => false
  | String d s => bool_decide (c = d) || str_has c s
  end.

Definition newline : ascii := Ascii.ascii_of_nat 10.
Definition cr : ascii := Ascii.ascii_of_nat 13.
Abbreviation nl := (String newline "").

Module Strings.
Definition HasPrefix (s p : string) : bool := String.prefix p s.

Definition HasSuffix (s p : string) : bool :=
  (str_len p <=? str_len s) && str_eqb (str_drop (str_len s - str_len p) s) p.

Definition TrimPrefix (s p : string) : string :=
  if HasPrefix s p then str_drop (str_len p) s else s.

Definition TrimSuffix (s p : string) : string :=
  if HasSuffix s p then str_take (str_len s - str_len p) s else s.

(** [Split] at a one-byte separator. *)
Fixpoint Split (s : string) (sep : ascii) : list string :=
  match s with
  | EmptyString => [EmptyString]
  | String c s =>
      if bool_decide (c = sep) then EmptyString :: Split s sep
      else match Split s sep with
           | w :: ws => String c w :: ws
           | [] => [String c EmptyString]
           end
  end.

Fixpoint Join (ws : list string) (sep : string) : string :=
  match ws with
  | [] => EmptyString
  | [w] => w
  | w :: ws => w +:+ sep +:+ Join ws sep
  end.

(** The UTF-8 encodings of the runes [unicode.IsSpace] accepts: the ASCII
    ones, U+0085, U+00A0, U+1680, U+2000 to U+200A, U+2028, U+2029, U+202F,
    U+205F and U+3000. *)
Definition bytes (l : list nat) : string :=
  foldr (λ n s, String (Ascii.ascii_of_nat n) s) EmptyString l.
Definition spaces : list string :=
  map bytes ([[9]; [10]; [11]; [12]; [13]; [32]; [194; 133]; [194; 160];
              [225; 154; 128]] ++
             map (λ n, [226; 128; 128 + n]) (seq 0 11) ++
             [[226; 128; 168]; [226; 128; 169]; [226; 128; 175];
              [226; 129; 159]; [227; 128; 128]]).

(** Drop elements of [cut] from the front while there is one.  Every element
    of [cut] is non-empty, so [str_len s] steps are enough. *)
Fixpoint trim_left_go (cut : list string) (fuel : nat) (s : string) : string :=
  match fuel with
  | O => s
  | S fuel =>
      match find (λ w, HasPrefix s w) cut with
      | Some w => trim_left_go cut fuel (str_drop (str_len w) s)
      | None => s
      end
  end.
Definition trim_left (cut : list string) (s : string) : string :=
  trim_left_go cut (str_len s) s.
Definition trim_right (cut : list string) (s : string) : string :=
  str_rev (trim_left (map str_rev cut) (str_rev s)).

Definition TrimSpace (s : string) : string :=
  trim_right spaces (trim_left spaces s).

(** [Trim] and [TrimLeft] with a cutset of ASCII bytes. *)
Definition singletons (cut : string) : list string :=
  map (λ c, String c EmptyString) (String.list_ascii_of_string cut).
Definition TrimLeft (s cut : string) : string := trim_left (singletons cut) s.
Definition Trim (s cut : string) : string :=
  trim_right (singletons cut) (trim_left (singletons cut) s).

(** [IndexAny] with ASCII bytes to look for: the first index, or [None]. *)
Fixpoint IndexAny (s chars : string) : option nat :=
  match s with
  | EmptyString => None
  | String c s =>
      if str_has c chars then Some 0 else S <$> IndexAny s chars
  end.

Definition lower_byte (c : ascii) : ascii :=
  let n := Ascii.nat_of_ascii c in
  if (65 <=? n) && (n <=? 90) then Ascii.ascii_of_nat (n + 32) else c.
Fixpoint ToLower (s : string) : string :=
  match s with
  | EmptyString => EmptyString
  | String c s => String (lower_byte c) (ToLower s)
  end.

(** The order of Go's [<] on strings: lexicographic on bytes. *)
Definition ltb (s t : string) : bool := String.ltb s t.
Definition leb (s t : string) : bool := String.leb s t.

(** Splitting what was joined. *)
Lemma Split_sep s t sep :
  str_has sep s = false → Split (s +:+ String sep t) sep = s :: Split t sep.
Proof.
  induction s as [|c s IH]; simpl; [by rewrite bool_decide_eq_true_2|].
  intros [Hc Hs]%orb_false_iff. apply bool_decide_eq_false in Hc.
  rewrite bool_decide_eq_false_2 by congruence. by rewrite IH.
Qed.
Lemma Split_one s sep : str_has sep s = false → Split s sep = [s].
Proof.
  induction s as [|c s IH]; simpl; [done|]. intros [Hc Hs]%orb_false_iff.
  apply bool_decide_eq_false in Hc. rewrite bool_decide_eq_false_2 by congruence. by rewrite IH.
Qed.
Lemma Split_Join ws sep :
  ws ≠ [] → Forall (λ w, str_has sep w = false) ws →
  Split (Join ws (String sep "")) sep = ws.
Proof.
  intros Hne H. induction H as [|w ws Hw Hws IH]; [done|]. destruct ws as [|w' ws].
  - by apply Split_one.
  - change (Join (w :: w' :: ws) (String sep "")) with
      (w +:+ String sep (Join (w' :: ws) (String sep ""))).
    rewrite Split_sep by done. by rewrite IH.
Qed.
Lemma Split_ne s sep : Split s sep ≠ [].
Proof. destruct s; simpl; [done|]. case_bool_decide; [done|]. by destruct (Split s sep). Qed.
Lemma Split_app s t sep : Split (s +:+ String sep t) sep = Split s sep ++ Split t sep.
Proof.
  induction s as [|c s IH]; simpl; [by case_bool_decide|].
  case_bool_decide; rewrite IH; [done|].
  pose proof (Split_ne s sep). by destruct (Split s sep).
Qed.
Lemma Split_no_sep s sep : Forall (λ w, str_has sep w = false) (Split s sep).
Proof.
  induction s as [|c s IH]; simpl; [by repeat constructor|].
  case_bool_decide as Hc; [by constructor|]. destruct IH as [|w ws Hw Hws]; constructor; simpl; try done.
  - by rewrite bool_decide_eq_false_2 by congruence.
  - by rewrite bool_decide_eq_false_2 by congruence.
Qed.
Lemma Split_last s sep : Split (s +:+ String sep "") sep = Split s sep ++ [""].
Proof. apply Split_app. Qed.
End Strings.

(** [strconv]: Go string literals.  Bytes above 127 are copied, which is what
    [Quote] does with printable and [Unquote] with valid UTF-8 text. *)
Module Strconv.
(** [None] is its error. *)
Definition ParseBool (s : string) : option bool :=
  if bool_decide (s ∈ ["1"; "t"; "T"; "true"; "TRUE"; "True"]) then Some true
  else if bool_decide (s ∈ ["0"; "f"; "F"; "false"; "FALSE"; "False"]) then Some false
  else None.

Definition dq : ascii := Ascii.ascii_of_nat 34.
Definition bslash : ascii := Ascii.ascii_of_nat 92.

(** The escapes of one letter: the letter and the byte it stands for. *)
Definition letters : list (ascii * N) :=
  [("a"%char, 7%N); ("b"%char, 8%N); ("f"%char, 12%N); ("n"%char, 10%N);
   ("r"%char, 13%N); ("t"%char, 9%N); ("v"%char, 11%N)].

Definition hex_digit (d : N) : ascii :=
  Ascii.ascii_of_N (if (d <? 10)%N then 48 + d else 87 + d).
Definition hex_val (c : ascii) : option N :=
  let n := Ascii.N_of_ascii c in
  if ((48 <=? n) && (n <=? 57))%N then Some (n - 48)%N
  else if ((97 <=? n) && (n <=? 102))%N then Some (n - 87)%N
  else if ((65 <=? n) && (n <=? 70))%N then Some (n - 55)%N
  else None.

Definition quote_byte (c : ascii) : string :=
  let n := Ascii.N_of_ascii c in
  if bool_decide (c = dq ∨ c = bslash) then String bslash (String c "")
  else match list_find (λ e, e.2 = n) letters with
       | Some (_, (l, _)) => String bslash (String l "")
       | None =>
           if (n <? 32)%N then
             String bslash (String "x" (String (hex_digit (n / 16)) (String (hex_digit (n mod 16)) "")))
           else if (n =? 127)%N then String bslash "u007f"
           else String c ""
       end.
Fixpoint quote_bytes (s : string) : string :=
  match s with
  | EmptyString => String dq ""
  | String c s => quote_byte c +:+ quote_bytes s
  end.
Definition Quote (s : string) : string := String dq (quote_bytes s).

(** [utf8.EncodeRune]; a surrogate is encoded as U+FFFD. *)
Definition EncodeRune (r : N) : string :=
  let r := if ((55296 <=? r) && (r <=? 57343))%N then 65533%N else r in
  let b n := Ascii.ascii_of_N n in
  if (r <? 128)%N then String (b r) ""
  else if (r <? 2048)%N then String (b (192 + r / 64)%N) (String (b (128 + r mod 64)%N) "")
  else if (r <? 65536)%N then
    String (b (224 + r / 4096)%N) (String (b (128 + r / 64 mod 64)%N) (String (b (128 + r mod 64)%N) ""))
  else String (b (240 + r / 262144)%N) (String (b (128 + r / 4096 mod 64)%N)
         (String (b (128 + r / 64 mod 64)%N) (String (b (128 + r mod 64)%N) ""))).

(** [n] hexadecimal digits: their value and the rest. *)
Fixpoint hex_run (n : nat) (v : N) (s : string) : option (N * string) :=
  match n, s with
  | O, _ => Some (v, s)
  | S n, String c s => d ← hex_val c; hex_run n (16 * v + d)%N s
  | S _, EmptyString => None
  end.
Definition octal_val (c : ascii) : option N :=
  let n := Ascii.N_of_ascii c in
  if ((48 <=? n) && (n <=? 55))%N then Some (n - 48)%N else None.

(** [UnquoteChar] after a backslash, in a literal with double quotes. *)
Definition unquote_escape (s : string) : option (string * string) :=
  match s with
  | EmptyString => None
  | String c s =>
      match list_find (λ e, e.1 = c) letters with
      | Some (_, (_, n)) => Some (String (Ascii.ascii_of_N n) "", s)
      | None =>
          if bool_decide (c = "x"%char) then
            '(v, s) ← hex_run 2 0 s; Some (String (Ascii.ascii_of_N v) "", s)
          else if bool_decide (c = "u"%char) then
            '(v, s) ← hex_run 4 0 s; Some (EncodeRune v, s)
          else if bool_decide (c = "U"%char) then
            '(v, s) ← hex_run 8 0 s; if (1114111 <? v)%N then None else Some (EncodeRune v, s)
          else match octal_val c, s with
               | Some d0, String c1 (String c2 s) =>
                   d1 ← octal_val c1; d2 ← octal_val c2;
                   let v := (64 * d0 + 8 * d1 + d2)%N in
                   if (255 <? v)%N then None else Some (String (Ascii.ascii_of_N v) "", s)
               | Some _, _ => None
               | None, _ => if bool_decide (c = bslash ∨ c = dq) then Some (String c "", s) else None
               end
      end
  end.

(** The text between the quotes; every step takes a byte at least. *)
Fixpoint unquote_go (fuel : nat) (s : string) : option string :=
  match s, fuel with
  | EmptyString, _ => Some ""
  | String _ _, O => None
  | String c s, S fuel =>
      if bool_decide (c = dq ∨ c = Ascii.ascii_of_nat 10) then None
      else if bool_decide (c = bslash) then
        '(b, s) ← unquote_escape s; t ← unquote_go fuel s; Some (b +:+ t)
      else t ← unquote_go fuel s; Some (String c t)
  end.

(** [Unquote] on a text that starts with a double quote. *)
Definition Unquote (s : string) : option string :=
  match s with
  | String _ s =>
      if Strings.HasSuffix s (String dq "") then
        let s := str_take (str_len s - 1) s in unquote_go (str_len s) s
      else None
  | EmptyString => None
  end.
End Strconv.

(** [os.Expand] and its helpers. *)
Module Os.
Definition is_digit (c : ascii) : bool :=
  let n := Ascii.nat_of_ascii c in (48 <=? n) && (n <=? 57).
Definition isShellSpecialVar (c : ascii) : bool := str_has c "*#$@!?-" || is_digit c.
Definition isAlphaNum (c : ascii) : bool :=
  let n := Ascii.nat_of_ascii c in
  bool_decide (c = "_"%char) || is_digit c || ((97 <=? n) && (n <=? 122)) || ((65 <=? n) && (n <=? 90)).

Fixpoint alnum_run (s : string) : string :=
  match s with
  | String c s => if isAlphaNum c then String c (alnum_run s) else ""
  | EmptyString => ""
  end.
Fixpoint to_brace (s : string) : option string :=
  match s with
  | String c s => if bool_decide (c = "}"%char) then Some "" else String c <$> to_brace s
  | EmptyString => None
  end.

(** [getShellName]: the name of the variable at the front of [s], which follows
    a dollar, and the bytes it takes. *)
Definition getShellName (s : string) : string * nat :=
  match s with
  | EmptyString => ("", 0)
  | String c s' =>
      if bool_decide (c = "{"%char) then
        match s' with
        | String v (String b _) =>
            if isShellSpecialVar v && bool_decide (b = "}"%char) then (String v "", 3)
            else match to_brace s' with Some n => (n, str_len n + 2) | None => ("", 1) end
        | _ => match to_brace s' with Some n => (n, str_len n + 2) | None => ("", 1) end
        end
      else if isShellSpecialVar c then (String c "", 1)
      else let n := alnum_run s in (n, str_len n)
  end.

(** The loop goes one byte at least each time, so [str_len s] rounds are enough. *)
Fixpoint expand_go (mapping : string → string) (fuel : nat) (s : string) : string :=
  match fuel, s with
  | S fuel, String c s' =>
      if bool_decide (c = "$"%char) && negb (str_eqb s' "") then
        let '(name, w) := getShellName s' in
        mapping name +:+ expand_go mapping fuel (str_drop w s')
      else String c (expand_go mapping fuel s')
  | _, _ => s
  end.
Definition Expand (s : string) (mapping : string → string) : string :=
  expand_go mapping (str_len s) s.
End Os.

Module Sort.
(** [sort.Strings]: the sorted permutation of a slice (Go's introsort; equal
    strings are indistinguishable, so every sort gives this one). *)
Fixpoint insert (s : string) (l : list string) : list string :=
  match l with
  | [] => [s]
  | t :: l => if String.leb s t then s :: t :: l else t :: insert s l
  end.
Definition Strings (l : list string) : list string := foldr insert [] l.

Lemma insert_perm s l : insert s l ≡ₚ s :: l.
Proof.
  induction l as [|t l IH]; simpl; [done|].
  destruct (String.leb s t); [done|]. by rewrite IH, Permutation_swap.
Qed.
Lemma Strings_perm l : Strings l ≡ₚ l.
Proof. induction l as [|s l IH]; simpl; [done|]. by rewrite insert_perm, IH. Qed.

Definition le (s t : string) : Prop := String.leb s t = true.

#[export] Instance le_trans : Transitive le.
Proof.
  unfold le, String.leb.
  intros s; induction s as [|a s IH]; intros [|b t] [|c u]; simpl; try done.
  unfold Ascii.compare.
  destruct (N.compare_spec (Ascii.N_of_ascii a) (Ascii.N_of_ascii b)) as [Hab|Hab|Hab]; [..|done];
    destruct (N.compare_spec (Ascii.N_of_ascii b) (Ascii.N_of_ascii c)) as [Hbc|Hbc|Hbc]; try done;
    destruct (N.compare_spec (Ascii.N_of_ascii a) (Ascii.N_of_ascii c)) as [Hac|Hac|Hac]; try done;
    try lia.
  apply IH.
Qed.
#[export] Instance le_antisym : AntiSymm (=) le.
Proof. intros s t. apply String.leb_antisym. Qed.
#[export] Instance le_total : Total le.
Proof. intros s t. apply String.leb_total. Qed.

Lemma insert_sorted s l : Sorted le l → Sorted le (insert s l).
Proof.
  induction 1 as [|t l Hl IH Hhd]; simpl; [by repeat constructor|].
  destruct (String.leb s t) eqn:Hst; [by repeat constructor|].
  assert (le t s) by (destruct (total le s t); [unfold le in *; congruence|done]).
  constructor; [done|]. destruct l as [|u l]; simpl in *; [by constructor|].
  destruct (String.leb s u); constructor; [done|]. by inversion Hhd.
Qed.
Lemma Strings_sorted l : Sorted le (Strings l).
Proof. induction l as [|s l IH]; simpl; [constructor|by apply insert_sorted]. Qed.

(** Sorting forgets the order its argument came in. *)
Lemma Strings_unique l l' : l ≡ₚ l' → Strings l = Strings l'.
Proof.
  intros Hp. apply (Sorted_unique le); [apply Strings_sorted..|].
  by rewrite !Strings_perm.
Qed.
End Sort.

Module Filepath.
Import Strings.

Definition slash : ascii := "/"%char.

(** Element by element rewriting of [Clean]'s rules 1 to 4. [acc] holds the
    elements kept so far, last first. *)
Definition clean_step (rooted : bool) (acc : list string) (e : string) : list string :=
  if str_eqb e "" || str_eqb e "." then acc
  else if str_eqb e ".." then
    match acc with
    | x :: acc' => if str_eqb x ".." then e :: acc else acc'
    | [] => if rooted then [] else [e]
    end
  else e :: acc.

Definition Clean (path : string) : string :=
  let rooted := HasPrefix path "/" in
  let es := reverse (foldl (clean_step rooted) [] (Split path slash)) in
  let body := Strings.Join es "/" in
  if rooted then "/" +:+ body
  else if str_eqb body "" then "." else body.

(** Join skips empty leading elements. *)
Fixpoint Join (elems : list string) : string :=
  match elems with
  | [] => ""
  | e :: es => if str_eqb e "" then Join es else Clean (Strings.Join (e :: es) "/")
  end.

(** The text after the last slash of [s], and the text up to it. *)
Definition after_slash (s : string) : string :=
  default "" (list.last (Split s slash)).
Definition upto_slash (s : string) : string :=
  str_take (str_len s - str_len (after_slash s)) s.

Definition Base (path : string) : string :=
  if str_eqb path "" then "."
  else let stripped := trim_right ["/"] path in
       let b := after_slash stripped in
       if str_eqb b "" then "/" else b.

Definition Dir (path : string) : string := Clean (upto_slash path).

(** The text from the last dot of the last element on: [ext] is the text from the last dot
    met so far, unless there was a slash after it. *)
Fixpoint ext_go (s ext : string) : string :=
  match s with
  | "" => ext
  | String c s' => ext_go s' (if bool_decide (c = slash) then "" else if bool_decide (c = "."%char) then s else ext)
  end.
Definition Ext (path : string) : string := ext_go path "".
End Filepath.

(** ** Facts about strings *)
Lemma str_app_assoc (s t u : string) : (s +:+ t) +:+ u = s +:+ t +:+ u.
Proof. induction s as [|c s IH]; [done|]. exact (f_equal (String c) IH). Qed.
Lemma str_len_app s t : str_len (s +:+ t) = str_len s + str_len t.
Proof. induction s as [|c s IH]; [done|]. exact (f_equal S IH). Qed.
Lemma str_drop_app s t : str_drop (str_len s) (s +:+ t) = t.
Proof. induction s as [|c s IH]; simpl; [by destruct t|]. apply IH. Qed.
Lemma str_take_app s t : str_take (str_len s) (s +:+ t) = s.
Proof. induction s as [|c s IH]; simpl; [by destruct t|]. by rewrite IH. Qed.
Lemma str_take_drop n s : str_take n s +:+ str_drop n s = s.
Proof.
  revert n; induction s as [|c s IH]; intros [|n]; try done. exact (f_equal (String c) (IH n)).
Qed.
Lemma str_has_app c s t : str_has c (s +:+ t) = str_has c s || str_has c t.
Proof. induction s as [|d s IH]; simpl; [done|]. by rewrite IH, orb_assoc. Qed.

Lemma HasPrefix_app s p : Strings.HasPrefix (p +:+ s) p = true.
Proof.
  unfold Strings.HasPrefix. induction p as [|c p IH]; simpl; [by destruct s|].
  by rewrite Ascii.eqb_refl || (case_match; [apply IH|done]).
Qed.
Lemma TrimPrefix_app s p : Strings.TrimPrefix (p +:+ s) p = s.
Proof. unfold Strings.TrimPrefix. by rewrite HasPrefix_app, str_drop_app. Qed.

Lemma HasSuffix_spec s p : Strings.HasSuffix s p = true ↔ ∃ t, s = t +:+ p.
Proof.
  unfold Strings.HasSuffix, str_eqb. rewrite andb_true_iff, Nat.leb_le, bool_decide_eq_true. split.
  - intros [Hl Hd]. exists (str_take (str_len s - str_len p) s).
    transitivity (str_take (str_len s - str_len p) s +:+ str_drop (str_len s - str_len p) s);
      [symmetry; apply str_take_drop|by rewrite Hd].
  - intros [t ->]. rewrite str_len_app. split; [lia|].
    replace (str_len t + str_len p - str_len p) with (str_len t) by lia. apply str_drop_app.
Qed.
Lemma HasSuffix_app s p : Strings.HasSuffix (s +:+ p) p = true.
Proof. apply HasSuffix_spec. eauto. Qed.
Lemma TrimSuffix_app s p : Strings.TrimSuffix (s +:+ p) p = s.
Proof.
  unfold Strings.TrimSuffix. rewrite HasSuffix_app, str_len_app.
  replace (str_len s + str_len p - str_len p) with (str_len s) by lia. apply str_take_app.
Qed.

Lemma str_app_nil (s : string) : s +:+ "" = s.
Proof. induction s as [|c s IH]; [done|]. exact (f_equal (String c) IH). Qed.
Lemma str_rev_app_spec s t : str_rev_app s t = str_rev s +:+ t.
Proof.
  unfold str_rev. revert t; induction s as [|c s IH]; intros t; simpl; [done|].
  rewrite (IH (String c t)), (IH (String c "")), str_app_assoc. done.
Qed.
Lemma str_rev_cons c s : str_rev (String c s) = str_rev s +:+ String c "".
Proof. apply (str_rev_app_spec s (String c "")). Qed.
Lemma str_rev_append s t : str_rev (s +:+ t) = str_rev t +:+ str_rev s.
Proof.
  induction s as [|c s IH]; [symmetry; apply str_app_nil|].
  change (String c s +:+ t) with (String c (s +:+ t)).
  by rewrite !str_rev_cons, IH, str_app_assoc.
Qed.
Lemma str_rev_invol s : str_rev (str_rev s) = s.
Proof. induction s as [|c s IH]; [done|]. by rewrite str_rev_cons, str_rev_append, IH. Qed.
Lemma HasPrefix_byte c d s : Strings.HasPrefix (String c s) (String d "") = bool_decide (d = c).
Proof.
  unfold Strings.HasPrefix, String.prefix. case_bool_decide; destruct (Ascii.ascii_dec d c); by destruct s.
Qed.

(** ** Quoting *)
Lemma unquote_quote_byte c r fuel :
  Strconv.unquote_go (S fuel) (Strconv.quote_byte c +:+ r) =
  (t ← Strconv.unquote_go fuel r; Some (String c t)).
Proof. destruct c as [[] [] [] [] [] [] [] []]; reflexivity. Qed.

Fixpoint quote_body (s : string) : string :=
  match s with
  | EmptyString => ""
  | String c s => Strconv.quote_byte c +:+ quote_body s
  end.
Lemma quote_bytes_body s : Strconv.quote_bytes s = quote_body s +:+ String Strconv.dq "".
Proof. induction s as [|c s IH]; simpl; [done|]. by rewrite IH, str_app_assoc. Qed.
Lemma quote_byte_len c : 1 ≤ str_len (Strconv.quote_byte c).
Proof. destruct c as [[] [] [] [] [] [] [] []]; apply (bool_decide_unpack _); vm_compute; exact I. Qed.
Lemma quote_body_len s : str_len s ≤ str_len (quote_body s).
Proof.
  induction s as [|c s IH]; simpl; [done|]. rewrite str_len_app. pose proof (quote_byte_len c). lia.
Qed.
Lemma unquote_body s fuel : str_len s ≤ fuel → Strconv.unquote_go fuel (quote_body s) = Some s.
Proof.
  revert fuel; induction s as [|c s IH]; intros fuel Hf; [by destruct fuel|].
  cbn [quote_body String.length] in *. destruct fuel as [|fuel]; [lia|].
  rewrite unquote_quote_byte, IH by lia. done.
Qed.
Lemma Unquote_Quote s : Strconv.Unquote (Strconv.Quote s) = Some s.
Proof.
  unfold Strconv.Unquote, Strconv.Quote. rewrite quote_bytes_body, HasSuffix_app, str_len_app.
  rewrite Nat.add_sub, str_take_app. apply unquote_body, quote_body_len.
Qed.

(** ** Expansion *)
Lemma expand_go_id f fuel s : str_has "$" s = false → Os.expand_go f fuel s = s.
Proof.
  revert s; induction fuel as [|fuel IH]; intros [|c s]; try done.
  cbn [str_has]. intros [Hc Hs]%orb_false_iff. apply bool_decide_eq_false in Hc.
  cbn [Os.expand_go]. rewrite bool_decide_eq_false_2 by congruence. cbn [andb]. by rewrite IH.
Qed.
Lemma Expand_id s f : str_has "$" s = false → Os.Expand s f = s.
Proof. apply expand_go_id. Qed.

(** ** Trimming and searching bytes *)
Lemma TrimLeft_step c s cut :
  Strings.TrimLeft (String c s) cut =
  if str_has c cut then Strings.TrimLeft s cut else String c s.
Proof.
  unfold Strings.TrimLeft, Strings.trim_left. cbn [String.length Strings.trim_left_go].
  assert (find (λ w, Strings.HasPrefix (String c s) w) (Strings.singletons cut) =
          if str_has c cut then Some (String c "") else None) as ->; [|by destruct (str_has c cut)].
  unfold Strings.singletons. induction cut as [|d cut IH]; [done|].
  cbn [String.list_ascii_of_string map find str_has]. rewrite HasPrefix_byte.
  case_bool_decide; [subst; by rewrite bool_decide_eq_true_2|].
  rewrite bool_decide_eq_false_2 by congruence. apply IH.
Qed.
Lemma TrimLeft_len s cut : str_len (Strings.TrimLeft s cut) ≤ str_len s.
Proof.
  induction s as [|c s IH]; [done|]. rewrite TrimLeft_step. simpl. case_match; simpl; lia.
Qed.
Lemma TrimLeft_head s cut c r : Strings.TrimLeft s cut = String c r → str_has c cut = false.
Proof.
  induction s as [|d s IH]; [done|]. rewrite TrimLeft_step.
  destruct (str_has d cut) eqn:Hd; [done|]. by intros [= <- <-].
Qed.

Definition avoids (s chars : string) : Prop := ∀ c, str_has c chars = true → str_has c s = false.

Lemma avoids_cons c s chars : avoids (String c s) chars ↔ str_has c chars = false ∧ avoids s chars.
Proof.
  unfold avoids. simpl. split.
  - intros H. split.
    + apply not_true_iff_false. intros Hc. specialize (H c Hc). by rewrite bool_decide_eq_true_2 in H.
    + intros d Hd. by destruct (proj1 (orb_false_iff _ _) (H d Hd)).
  - intros [Hc Hs] d Hd. rewrite (Hs d Hd), orb_false_r. apply bool_decide_eq_false. congruence.
Qed.
Lemma IndexAny_avoids s chars : avoids s chars → Strings.IndexAny s chars = None.
Proof.
  induction s as [|c s IH]; [done|]. intros [Hc Hs]%avoids_cons. simpl. by rewrite Hc, IH.
Qed.
Lemma IndexAny_app s c t chars :
  avoids s chars → str_has c chars = true → Strings.IndexAny (s +:+ String c t) chars = Some (str_len s).
Proof.
  intros Hs Hc. induction s as [|d s IH]; simpl; [by rewrite Hc|].
  apply avoids_cons in Hs as [Hd Hs]. by rewrite Hd, IH.
Qed.
Lemma IndexAny_bound s chars i : Strings.IndexAny s chars = Some i → i < str_len s.
Proof.
  revert i; induction s as [|c s IH]; intros i; simpl; [done|]. case_match; [intros [= <-]; lia|].
  intros (j & Hj & ->)%fmap_Some. apply IH in Hj. lia.
Qed.
Lemma str_drop_len n s : str_len (str_drop n s) = str_len s - n.
Proof. revert n; induction s as [|c s IH]; intros [|n]; simpl; auto. Qed.
Lemma str_take_len n s : str_len (str_take n s) = n `min` str_len s.
Proof. revert n; induction s as [|c s IH]; intros [|n]; simpl; auto. Qed.

(** Trimming takes bytes away. *)
Lemma str_has_drop c n s : str_has c s = false → str_has c (str_drop n s) = false.
Proof.
  intros Hs. rewrite <-(str_take_drop n s), str_has_app in Hs. by apply orb_false_iff in Hs as [_ ?].
Qed.
Lemma str_has_rev c s : str_has c (str_rev s) = str_has c s.
Proof.
  induction s as [|d s IH]; [done|]. rewrite str_rev_cons, str_has_app, IH. simpl.
  by rewrite orb_false_r, orb_comm.
Qed.
Lemma str_has_trim_left c cut s : str_has c s = false → str_has c (Strings.trim_left cut s) = false.
Proof.
  unfold Strings.trim_left. generalize (str_len s) as fuel. intros fuel. revert s.
  induction fuel as [|fuel IH]; intros s Hs; simpl; [done|]. case_match; [|done].
  by apply IH, str_has_drop.
Qed.
Lemma str_has_TrimSpace c s : str_has c s = false → str_has c (Strings.TrimSpace s) = false.
Proof.
  intros Hs. unfold Strings.TrimSpace, Strings.trim_right. rewrite str_has_rev.
  apply str_has_trim_left. rewrite str_has_rev. by apply str_has_trim_left.
Qed.
Lemma app_last s t p c : p ≠ "" → s +:+ p = t +:+ String c "" → ∃ q, p = q +:+ String c "".
Proof.
  intros Hp H. apply (f_equal str_rev) in H. rewrite !str_rev_append in H. simpl in H.
  destruct (str_rev p) as [|d q] eqn:Hr.
  - destruct Hp. by rewrite <-(str_rev_invol p), Hr.
  - simpl in H. injection H as -> _. exists (str_rev q).
    by rewrite <-(str_rev_invol p), Hr, str_rev_cons.
Qed.
Lemma snoc_last s t a b : s +:+ String a "" = t +:+ String b "" → a = b.
Proof.
  intros H. apply (f_equal str_rev) in H. rewrite !str_rev_append in H. by injection H as ->.
Qed.
Lemma snoc_inj s t c : s +:+ String c "" = t +:+ String c "" → s = t.
Proof.
  intros H. apply (f_equal (λ u, Strings.TrimSuffix u (String c ""))) in H. by rewrite !TrimSuffix_app in H.
Qed.
