(* ===== verification/React.v ===== *)
(** * myitcv.io/react: the GopherJS bindings of React

    Models [react.go], [custom_elements.go], [internal/core/core.go] and
    [unsafe_js.go] of [src/_vendor/src/myitcv.io/react].

    - JavaScript objects that are mutated or compared by identity (component
      instances, their [state] object and the [_state] object inside it) live
      in a heap; objects that are built, handed to React and never changed
      again are plain property lists.
    - The Go values the bindings smuggle through JavaScript with
      [wrapValue]/[unwrapValue] are the constructors [JProps], [JState] and
      [JElems]; [unwrapValue] followed by a type assertion is a case analysis.
      A nil [Element], which React gets as [null] and draws as nothing, is [ENil].
    - [react.Call("createElement", ...)], [react.Call("createClass", ...)] and
      [forceUpdate] are calls into React itself: an element is the record of
      the [createElement] call that made it, a class is a fresh identity, and a
      [forceUpdate] call is recorded in [updates], in order. *)

From S2P Require Import Prelude.

Abbreviation loc := nat.

(** A [reflect.Type], identified by its name and package path. *)
Record rtype := RType { rt_Name : string; rt_PkgPath : string }.
#[export] Instance rtype_eq_dec : EqDecision rtype.
Proof. solve_decision. Defined.
#[export] Instance rtype_countable : Countable rtype.
Proof.
  refine (inj_countable' (λ t, (rt_Name t, rt_PkgPath t)) (λ p, RType p.1 p.2) _).
  by intros [].
Defined.

(** The dynamic values behind the interfaces [Props] and [State] of a program,
    their [EqualsIntf] methods, and the method values it installs as event
    handlers.  [EqualsIntf] may panic: it asserts the type of its argument. *)
Class ReactValues := {
  Props : Type;
  State : Type;
  Handler : Type;
  Props_EqualsIntf : Props → option Props → res bool;
  State_EqualsIntf : State → State → res bool;
}.

(** First argument of [React.createElement]. *)
Inductive elem_type :=
  | Tag (s : string)
  | ClassT (c : nat)
  | FragmentSymbol.
#[export] Instance elem_type_eq_dec : EqDecision elem_type.
Proof. solve_decision. Defined.

Section React.
Context {RV : ReactValues}.

#[local] Unset Elimination Schemes.
Inductive jsval :=
  | JUndefined
  | JNull
  | JBool (b : bool)
  | JStr (s : string)
  | JObject (o : list (string * jsval))
  | JRef (l : loc)
  | JProps (p : Props)
  | JState (s : State)
  | JElems (es : list Element)
  | JFunc (h : Handler)
with Element : Type :=
  | ENil
  | ES (s : string)
  | Elem (ty : elem_type) (props : jsval) (children : list Element).

#[local] Set Elimination Schemes.

Definition object : Type := list (string * jsval).

Fixpoint obj_get (o : object) (k : string) : jsval :=
  match o with
  | [] => JUndefined
  | (k', v) :: o => if bool_decide (k = k') then v else obj_get o k
  end.

(** Assignment keeps the position of an existing key and appends a new one. *)
Fixpoint obj_set (o : object) (k : string) (v : jsval) : object :=
  match o with
  | [] => [(k, v)]
  | (k', v') :: o => if bool_decide (k = k') then (k', v) :: o
                     else (k', v') :: obj_set o k v
  end.

Definition obj_has (o : object) (k : string) : bool := bool_decide (k ∈ map fst o).

(** The JavaScript side of the world: the heap of mutable objects, the map
    [compMap] from component types to their React class, the classes made by
    [createClass] so far, and the [forceUpdate] calls in order. *)
Record js := JS {
  heap : gmap loc object;
  next_loc : loc;
  compMap : gmap rtype nat;
  classes : list rtype;
  updates : list loc;
}.

Definition empty_js : js := JS ∅ 0 ∅ [] [].

Definition set_heap (j : js) (h : gmap loc object) : js :=
  JS h (next_loc j) (compMap j) (classes j) (updates j).

Context {E : Type}.

(** The world: JavaScript and the program's own mutable state [E]. *)
Record world := World { w_js : js; w_ext : E }.

Definition on_js (f : js → js) : M world unit :=
  mmodify (λ w, World (f (w_js w)) (w_ext w)).
Definition get_js : M world js := mget w_js.

(** ** GopherJS objects *)

(** [object.New()] where the result is shared and mutated later. *)
Definition js_New : M world loc :=
  j ← get_js;
  _ ← on_js (λ j, JS (<[next_loc j := []]> (heap j)) (S (next_loc j))
                     (compMap j) (classes j) (updates j));
  mret (next_loc j).

Definition TypeError : gopanic := PanicMsg "TypeError".

(** [v.Get(k)]; a property of [null] or [undefined] is a TypeError. *)
Definition js_Get (v : jsval) (k : string) : M world jsval :=
  match v with
  | JRef l => j ← get_js;
              mlift (of_option TypeError ((λ o, obj_get o k) <$> heap j !! l))
  | JObject o => mret (obj_get o k)
  | JUndefined | JNull => mpanic TypeError
  | _ => mret JUndefined
  end.

(** [v.Set(k, x)] on a shared object. *)
Definition js_Set (l : loc) (k : string) (x : jsval) : M world unit :=
  j ← get_js;
  match heap j !! l with
  | Some o => on_js (λ j, set_heap j (<[l := obj_set o k x]> (heap j)))
  | None => mpanic TypeError
  end.

(** [jsbuiltin.In(k, v)]: [None] stands for its error. *)
Definition js_In (k : string) (v : jsval) : M world (option bool) :=
  match v with
  | JRef l => j ← get_js; mret ((λ o, obj_has o k) <$> heap j !! l)
  | JObject o => mret (Some (obj_has o k))
  | JProps _ | JState _ | JElems _ => mret (Some false)
  | _ => mret None
  end.

Definition js_is_nil (v : jsval) : bool :=
  match v with JNull => true | _ => false end.

(** ** Names of the properties used, [react.go] *)
Definition reactCompProps := "props".
Definition reactCompLastState := "__lastState".
Definition reactCompState := "state".
Definition nestedChildren := "_children".
Definition nestedProps := "_props".
Definition nestedState := "_state".

(** ** Wrapped Go values, [unsafe_js.go] *)
Definition unwrapProps (v : jsval) : res Props :=
  match v with
  | JProps p => Ok p
  | JUndefined | JNull => Panic TypeError
  | _ => Panic TypeAssertion
  end.
Definition unwrapState (v : jsval) : res State :=
  match v with
  | JState s => Ok s
  | JUndefined | JNull => Panic TypeError
  | _ => Panic TypeAssertion
  end.
Definition unwrapElems (v : jsval) : res (list Element) :=
  match v with
  | JElems es => Ok es
  | JUndefined | JNull => Panic TypeError
  | _ => Panic TypeAssertion
  end.

(** ** ComponentDef *)

(** [ComponentDef{elem}]; [elem] is the JavaScript component instance. *)
Record ComponentDef := { cd_elem : option loc }.

Definition elem_val (c : ComponentDef) : jsval :=
  match cd_elem c with Some l => JRef l | None => JNull end.

Definition ComponentDef_Props (c : ComponentDef) : M world Props :=
  ps ← js_Get (elem_val c) reactCompProps;
  v ← js_Get ps nestedProps;
  mlift (unwrapProps v).

Definition ComponentDef_Children (c : ComponentDef) : M world (list Element) :=
  ps ← js_Get (elem_val c) reactCompProps;
  v ← js_Get ps nestedChildren;
  match v with
  | JUndefined => mret []
  | _ => mlift (unwrapElems v)
  end.

Definition ComponentDef_ForceUpdate (c : ComponentDef) : M world unit :=
  match cd_elem c with
  | Some l => on_js (λ j, JS (heap j) (next_loc j) (compMap j) (classes j)
                             (updates j ++ [l]))
  | None => mpanic TypeError
  end.

Definition ComponentDef_State (c : ComponentDef) : M world State :=
  rs ← js_Get (elem_val c) reactCompState;
  is' ← js_Get rs nestedState;
  v ← js_Get is' reactCompLastState;
  mlift (unwrapState v).

Definition ComponentDef_SetState (c : ComponentDef) (i : State) : M world unit :=
  rs ← js_Get (elem_val c) reactCompState;
  is' ← js_Get rs nestedState;
  v ← js_Get is' reactCompLastState;
  cur ← mlift (unwrapState v);
  eq ← mlift (State_EqualsIntf i cur);
  if eq : bool then mret tt
  else match is' with
       | JRef l => _ ← js_Set l reactCompLastState (JState i);
                   ComponentDef_ForceUpdate c
       | _ => mpanic TypeError
       end.

(** ** Components

    A [Component] value: its dynamic type, [RendersElement], and the optional
    methods [react.go] looks for with type assertions. *)
Record Component := {
  cmp_type : rtype;
  RendersElement : M world Element;
  ComponentWillMount : option (M world unit);
  ComponentDidMount : option (M world unit);
  ComponentWillReceivePropsIntf : option (Props → M world unit);
  GetInitialStateIntf : option (M world State);
  ComponentWillUnmount : option (M world unit);
}.

Definition ComponentBuilder : Type := ComponentDef → Component.

(** The functions [buildReactComponent] puts in the class definition it hands
    to [createClass]; [this] is the instance. *)
Record ReactClass := {
  displayName : string;
  getInitialState : loc → M world jsval;
  shouldComponentUpdate : loc → list jsval → M world bool;
  componentDidMount : loc → M world unit;
  componentWillReceiveProps : loc → list jsval → M world unit;
  componentWillUnmount : loc → M world unit;
  componentWillMount : loc → M world unit;
  render : loc → M world Element;
}.

Definition opt_call (m : option (M world unit)) : M world unit :=
  match m with Some m => m | None => mret tt end.

Definition mk_def (this : loc) : ComponentDef := {| cd_elem := Some this |}.

Definition class_getInitialState (builder : ComponentBuilder) (this : loc) : M world jsval :=
  let cmp := builder (mk_def this) in
  res ← js_New;
  is' ← js_New;
  wv ← match GetInitialStateIntf cmp with
       | Some get => x ← get; mret (JState x)
       | None => mret JNull
       end;
  _ ← js_Set res nestedState (JRef is');
  _ ← js_Set is' reactCompLastState wv;
  mret (JRef res).

Definition class_shouldComponentUpdate (this : loc) (arguments : list jsval) : M world bool :=
  p ← js_Get (JRef this) reactCompProps;
  cur ← (if js_is_nil p then mret (Some None)
         else ok ← js_In nestedProps p;
              match ok with
              | Some true =>
                  v ← js_Get p nestedProps;
                  if js_is_nil v then mret (Some None)
                  else x ← mlift (unwrapProps v); mret (Some (Some x))
              | _ => mret None
              end);
  match cur with
  | None => mret false
  | Some curProps =>
      a ← mlift (go_index arguments 0);
      nextProps ← (if js_is_nil a then mret None
                   else ok ← js_In nestedProps a;
                        match ok with
                        | Some true =>
                            v ← js_Get a nestedProps;
                            x ← mlift (unwrapProps v); mret (Some x)
                        | _ => mret None
                        end);
      match curProps with
      | Some p => b ← mlift (Props_EqualsIntf p nextProps); mret (negb b)
      | None => mpanic NilDeref
      end
  end.

Definition class_componentWillReceiveProps (builder : ComponentBuilder) (this : loc)
    (arguments : list jsval) : M world unit :=
  match ComponentWillReceivePropsIntf (builder (mk_def this)) with
  | Some recv =>
      a ← mlift (go_index arguments 0);
      v ← js_Get a nestedProps;
      ourProps ← mlift (unwrapProps v);
      recv ourProps
  | None => mret tt
  end.

Definition buildReactComponent (typ : rtype) (builder : ComponentBuilder) : ReactClass := {|
  displayName := rt_Name typ +:+ "(" +:+ rt_PkgPath typ +:+ ")";
  getInitialState := class_getInitialState builder;
  shouldComponentUpdate := class_shouldComponentUpdate;
  componentDidMount := λ this, opt_call (ComponentDidMount (builder (mk_def this)));
  componentWillReceiveProps := class_componentWillReceiveProps builder;
  componentWillUnmount := λ this, opt_call (ComponentWillUnmount (builder (mk_def this)));
  componentWillMount := λ this, opt_call (ComponentWillMount (builder (mk_def this)));
  render := λ this, RendersElement (builder (mk_def this));
|}.

(** [react.Call(reactCreateClass, compDef)]: a new class identity.  [classes]
    records the component type it was made for; the functions of [compDef] are
    React's to call from then on. *)
Definition react_createClass (typ : rtype) (compDef : ReactClass) : M world nat :=
  j ← get_js;
  _ ← on_js (λ j, JS (heap j) (next_loc j) (compMap j) (classes j ++ [typ]) (updates j));
  mret (length (classes j)).

(** ** Elements

    A variadic [children] argument is a slice; the empty list is the nil slice
    a call without children passes. *)

(** [propsWrap]: the object with the wrapped props and children. *)
Definition wrap_props (newprops : option Props) (children : list Element) : object :=
  let propsWrap := match newprops with
                   | Some p => obj_set [] nestedProps (JProps p)
                   | None => []
                   end in
  match children with
  | [] => propsWrap
  | _ => obj_set propsWrap nestedChildren (JElems children)
  end.

Definition CreateElement (buildCmp : ComponentBuilder) (newprops : option Props)
    (children : list Element) : M world Element :=
  let typ := cmp_type (buildCmp {| cd_elem := None |}) in
  j ← get_js;
  comp ← match compMap j !! typ with
         | Some comp => mret comp
         | None =>
             comp ← react_createClass typ (buildReactComponent typ buildCmp);
             _ ← on_js (λ j, JS (heap j) (next_loc j) (<[typ := comp]> (compMap j))
                                (classes j) (updates j));
             mret comp
         end;
  mret (Elem (ClassT comp) (JObject (wrap_props newprops children)) children).

Definition createElement (cmp : elem_type) (props : jsval) (children : list Element) : Element :=
  Elem cmp props children.

(** [custom_elements.go] *)
Definition NewDangerousInnerHTML (s : string) : object := obj_set [] "__html" (JStr s).
Definition Fragment (children : list Element) : Element :=
  createElement FragmentSymbol JNull children.


(** ** Instances

    [inst j this i s]: [this] is a component instance whose private [_state]
    object is [i] and holds the state [s].  [has_props j this p]: React gave
    the instance the props [p]. *)
Definition inst (j : js) (this i : loc) (s : State) : Prop :=
  ∃ o rs ro io,
    heap j !! this = Some o ∧ obj_get o reactCompState = JRef rs ∧
    heap j !! rs = Some ro ∧ obj_get ro nestedState = JRef i ∧
    heap j !! i = Some io ∧ obj_get io reactCompLastState = JState s.

Definition has_props (j : js) (this : loc) (p : Props) : Prop :=
  ∃ o ps, heap j !! this = Some o ∧ obj_get o reactCompProps = JObject ps ∧
    obj_has ps nestedProps = true ∧ obj_get ps nestedProps = JProps p.

Definition has_no_props (j : js) (this : loc) : Prop :=
  ∃ o ps, heap j !! this = Some o ∧ obj_get o reactCompProps = JObject ps ∧
    obj_has ps nestedProps = false.

(** Locations in use are below [next_loc]. *)
Definition heap_wf (j : js) : Prop := ∀ l, is_Some (heap j !! l) → l < next_loc j.

(** [compMap] and the classes created so far describe the same one-to-one
    correspondence between component types and classes. *)
Definition classes_wf (j : js) : Prop :=
  ∀ t c, compMap j !! t = Some c ↔ classes j !! c = Some t.

(** ** Property lists *)
#[local] Arguments js_Get : simpl never.
#[local] Arguments js_Set : simpl never.

Lemma obj_get_set o k v k' :
  obj_get (obj_set o k v) k' = if bool_decide (k' = k) then v else obj_get o k'.
Proof.
  induction o as [|[k0 v0] o IH]; simpl; [done|].
  repeat case_bool_decide; simpl; repeat case_bool_decide; congruence.
Qed.

Lemma obj_get_set_ne o k v k' : k' ≠ k → obj_get (obj_set o k v) k' = obj_get o k'.
Proof. intros H. rewrite obj_get_set. by rewrite bool_decide_eq_false_2. Qed.

Lemma obj_get_set_eq o k v : obj_get (obj_set o k v) k = v.
Proof. rewrite obj_get_set. by rewrite bool_decide_eq_true_2. Qed.

Lemma elem_of_obj_set o k v k' :
  k' ∈ map fst (obj_set o k v) ↔ k' = k ∨ k' ∈ map fst o.
Proof.
  induction o as [|[k0 v0] o IH]; simpl; [set_solver|].
  case_bool_decide; subst; simpl; rewrite !elem_of_cons, ?IH; naive_solver.
Qed.

Lemma obj_has_set o k v k' : obj_has (obj_set o k v) k' = bool_decide (k' = k) || obj_has o k'.
Proof.
  unfold obj_has.
  rewrite (bool_decide_ext _ _ (elem_of_obj_set o k v k')), bool_decide_or. done.
Qed.

Lemma js_Get_ref w l o k :
  heap (w_js w) !! l = Some o → js_Get (JRef l) k w = Ok (obj_get o k, w).
Proof. intros H. unfold js_Get. res_simpl. by rewrite H. Qed.

Lemma js_Set_ref w l o k v :
  heap (w_js w) !! l = Some o →
  js_Set l k v w = Ok (tt, World (set_heap (w_js w) (<[l:=obj_set o k v]> (heap (w_js w)))) (w_ext w)).
Proof. intros H. unfold js_Set. res_simpl. by rewrite H. Qed.

(** ** State *)
Lemma State_inst w this i s :
  inst (w_js w) this i s → ComponentDef_State (mk_def this) w = Ok (s, w).
Proof.
  intros (o & rs & ro & io & Ho & Hs & Hro & Hi & Hio & Hst).
  unfold ComponentDef_State. unfold mbind, M_bind, elem_val; simpl.
  rewrite (js_Get_ref _ _ _ _ Ho), Hs, (js_Get_ref _ _ _ _ Hro), Hi,
    (js_Get_ref _ _ _ _ Hio), Hst. done.
Qed.

(** The world [SetState] leaves behind when it stores [s]. *)
Definition stored (w : world) (this i : loc) (s : State) (io : object) : world :=
  World (JS (<[i := obj_set io reactCompLastState (JState s)]> (heap (w_js w)))
            (next_loc (w_js w)) (compMap (w_js w)) (classes (w_js w))
            (updates (w_js w) ++ [this])) (w_ext w).

Lemma SetState_inst w this i s new b :
  inst (w_js w) this i s → State_EqualsIntf new s = Ok b →
  ∃ io, heap (w_js w) !! i = Some io ∧
    ComponentDef_SetState (mk_def this) new w =
    Ok (tt, if b then w else stored w this i new io).
Proof.
  intros (o & rs & ro & io & Ho & Hs & Hro & Hi & Hio & Hst) Heq.
  exists io. split; [done|].
  unfold ComponentDef_SetState. unfold mbind, M_bind, elem_val; simpl.
  rewrite (js_Get_ref _ _ _ _ Ho), Hs, (js_Get_ref _ _ _ _ Hro), Hi,
    (js_Get_ref _ _ _ _ Hio), Hst; simpl. rewrite Heq. destruct b; [done|].
  unfold M_bind, mlift. rewrite (js_Set_ref _ _ _ _ _ Hio). done.
Qed.

(** Overwriting one object with an update of a key the chain does not use
    keeps an instance, with its state if the object is not its own. *)
Lemma inst_stored w this i s io this' i' s' :
  heap (w_js w) !! i = Some io → inst (w_js w) this' i' s' →
  inst (w_js (stored w this i s io)) this' i' (if decide (i' = i) then s else s').
Proof.
  intros Hio (o & rs & ro & io' & Ho & Hs & Hro & Hi & Hio' & Hst).
  assert (Hlk : ∀ l ob, heap (w_js w) !! l = Some ob → ∃ ob',
      heap (w_js (stored w this i s io)) !! l = Some ob' ∧
      (∀ k, k ≠ reactCompLastState → obj_get ob' k = obj_get ob k)).
  { intros l ob Hl. simpl. destruct (decide (l = i)) as [->|].
    - rewrite lookup_insert_eq. eexists; split; [done|].
      intros k Hk. rewrite obj_get_set_ne by done. by simplify_eq.
    - rewrite lookup_insert_ne by done. eauto. }
  destruct (Hlk _ _ Ho) as (o2 & ? & Ho2), (Hlk _ _ Hro) as (ro2 & ? & Hro2).
  exists o2, rs, ro2.
  destruct (decide (i' = i)) as [->|Hne].
  - exists (obj_set io reactCompLastState (JState s)).
    rewrite Ho2, Hro2 by done. split_and!; try done.
    + simpl. by rewrite lookup_insert_eq.
    + by rewrite obj_get_set_eq.
  - exists io'. rewrite Ho2, Hro2 by done. split_and!; try done.
    simpl. by rewrite lookup_insert_ne.
Qed.

Lemma has_props_stored w this i s io this' p :
  heap (w_js w) !! i = Some io → has_props (w_js w) this' p →
  has_props (w_js (stored w this i s io)) this' p.
Proof.
  intros Hio (o & ps & Ho & Hps & Hhas & Hget).
  destruct (decide (this' = i)) as [->|Hne].
  - exists (obj_set o reactCompLastState (JState s)), ps. simpl.
    rewrite lookup_insert_eq, obj_get_set_ne by done. by simplify_eq.
  - exists o, ps. simpl. by rewrite lookup_insert_ne.
Qed.

Lemma Props_has_props w this p :
  has_props (w_js w) this p → ComponentDef_Props (mk_def this) w = Ok (p, w).
Proof.
  intros (o & ps & Ho & Hps & Hhas & Hget).
  unfold ComponentDef_Props. unfold mbind, M_bind, elem_val; simpl.
  rewrite (js_Get_ref _ _ _ _ Ho), Hps. simpl. by rewrite Hget.
Qed.

(** A change of the heap that keeps the properties an instance is read through
    keeps the instance. *)
Lemma inst_preserve j j' this i s :
  inst j this i s →
  (∀ l o, heap j !! l = Some o → ∃ o', heap j' !! l = Some o' ∧
     (l = this → obj_get o' reactCompState = obj_get o reactCompState) ∧
     obj_get o' nestedState = obj_get o nestedState ∧
     (l = i → obj_get o' reactCompLastState = obj_get o reactCompLastState)) →
  inst j' this i s.
Proof.
  intros (o & rs & ro & io & Ho & Hs & Hro & Hi & Hio & Hst) Hpres.
  destruct (Hpres _ _ Ho) as (o' & ? & Ho' & _).
  destruct (Hpres _ _ Hro) as (ro' & ? & _ & Hro' & _).
  destruct (Hpres _ _ Hio) as (io' & ? & _ & _ & Hio').
  exists o', rs, ro', io'. rewrite Ho', Hro', Hio' by done. done.
Qed.

(** ** Mounting

    What React does with [getInitialState]: its result becomes the [state]
    property of the instance. *)
Definition init_instance (builder : ComponentBuilder) (this : loc) : M world unit :=
  v ← class_getInitialState builder this;
  js_Set this reactCompState v.

Lemma js_New_fresh w :
  js_New w = Ok (next_loc (w_js w),
    World (JS (<[next_loc (w_js w) := []]> (heap (w_js w))) (S (next_loc (w_js w)))
              (compMap (w_js w)) (classes (w_js w)) (updates (w_js w))) (w_ext w)).
Proof. done. Qed.

Lemma heap_wf_fresh j : heap_wf j → ∀ n, next_loc j ≤ n → heap j !! n = None.
Proof.
  intros Hwf n Hn. destruct (heap j !! n) as [o|] eqn:Hlk; [|done].
  assert (n < next_loc j) by (apply Hwf; eauto). lia.
Qed.

(** The heap after [init_instance]. *)
Definition init_heap (h : gmap loc object) (n : loc) (this : loc) (o : object)
    (v : jsval) : gmap loc object :=
  <[this := obj_set o reactCompState (JRef n)]>
    (<[S n := [(reactCompLastState, v)]]> (<[n := [(nestedState, JRef (S n))]]> h)).

(** What [getInitialState] keeps as the first state. *)
Definition first_state (cmp : Component) : M world jsval :=
  match GetInitialStateIntf cmp with
  | Some get => x ← get; mret (JState x)
  | None => mret JNull
  end.

Lemma init_instance_eq builder this w o v e :
  heap_wf (w_js w) → heap (w_js w) !! this = Some o →
  (∀ j, first_state (builder (mk_def this)) (World j (w_ext w)) = Ok (v, World j e)) →
  init_instance builder this w =
  Ok (tt, World (JS (init_heap (heap (w_js w)) (next_loc (w_js w)) this o v)
                    (S (S (next_loc (w_js w)))) (compMap (w_js w)) (classes (w_js w))
                    (updates (w_js w))) e).
Proof.
  intros Hwf Ho He. set (n := next_loc (w_js w)).
  assert (Hn : this < n) by (apply Hwf; eauto).
  unfold init_instance, class_getInitialState.
  fold (first_state (builder (mk_def this))).
  unfold mbind, M_bind. rewrite js_New_fresh, js_New_fresh. simpl. fold n.
  unfold mret, M_ret. rewrite He.
  erewrite js_Set_ref by (simpl; rewrite lookup_insert_ne, lookup_insert_eq by lia; done).
  simpl. erewrite js_Set_ref
    by (simpl; rewrite lookup_insert_ne, lookup_insert_eq by lia; done).
  simpl. erewrite js_Set_ref by (simpl; rewrite !lookup_insert_ne by lia; exact Ho).
  simpl. do 2 f_equal. unfold init_heap, set_heap; simpl. do 2 f_equal.
  apply map_eq. intros l.
  rewrite !lookup_insert. repeat case_decide; subst; done || lia.
Qed.

(** The initial state may allocate in the program's own part of the world. *)
Lemma init_instance_run_with builder this w o get s0 e :
  heap_wf (w_js w) → heap (w_js w) !! this = Some o →
  GetInitialStateIntf (builder (mk_def this)) = Some get →
  (∀ j, get (World j (w_ext w)) = Ok (s0, World j e)) →
  let n := next_loc (w_js w) in
  ∃ j', init_instance builder this w = Ok (tt, World j' e) ∧
    inst j' this (S n) s0 ∧ heap_wf j' ∧ next_loc j' = S (S n) ∧
    heap j' !! this = Some (obj_set o reactCompState (JRef n)) ∧
    updates j' = updates (w_js w) ∧ compMap j' = compMap (w_js w) ∧
    classes j' = classes (w_js w) ∧
    (∀ l, l ≠ this → l < n → heap j' !! l = heap (w_js w) !! l).
Proof.
  intros Hwf Ho Hget He n. rewrite (init_instance_eq builder this w o (JState s0) e Hwf Ho).
  2: { intros j. unfold first_state. rewrite Hget. by mstep (He j). }
  fold n.
  assert (Hn : this < n) by (apply Hwf; eauto).
  eexists. split; [done|]. unfold init_heap; simpl. split_and!; try done.
  - exists (obj_set o reactCompState (JRef n)), n, [(nestedState, JRef (S n))],
      [(reactCompLastState, JState s0)]. simpl.
    rewrite obj_get_set_eq, lookup_insert_eq.
    rewrite (lookup_insert_ne _ this n), (lookup_insert_ne _ (S n) n), lookup_insert_eq by lia.
    by rewrite (lookup_insert_ne _ this (S n)), lookup_insert_eq by lia.
  - intros l. simpl. rewrite !lookup_insert. fold n. repeat case_decide; try (intros; lia).
    intros Hl%Hwf. fold n in Hl. lia.
  - by rewrite lookup_insert_eq.
  - intros l Hne Hl. by rewrite !lookup_insert_ne by lia.
Qed.
Lemma init_instance_run builder this w o s0 :
  heap_wf (w_js w) → heap (w_js w) !! this = Some o →
  GetInitialStateIntf (builder (mk_def this)) = Some (mret s0) →
  let n := next_loc (w_js w) in
  ∃ j', init_instance builder this w = Ok (tt, World j' (w_ext w)) ∧
    inst j' this (S n) s0 ∧ heap_wf j' ∧ next_loc j' = S (S n) ∧
    heap j' !! this = Some (obj_set o reactCompState (JRef n)) ∧
    updates j' = updates (w_js w) ∧ compMap j' = compMap (w_js w) ∧
    classes j' = classes (w_js w) ∧
    (∀ l, l ≠ this → l < n → heap j' !! l = heap (w_js w) !! l).
Proof. intros Hwf Ho Hget. by eapply init_instance_run_with. Qed.

(** Mounting a component gives it the state its [GetInitialStateIntf]
    returns, in a fresh [_state] object; it leaves every other instance's state
    alone and requests no re-render. *)
Theorem getInitialState_mounts builder this w o s0 :
  heap_wf (w_js w) → heap (w_js w) !! this = Some o →
  GetInitialStateIntf (builder (mk_def this)) = Some (mret s0) →
  ∃ w' i, init_instance builder this w = Ok (tt, w') ∧
    inst (w_js w') this i s0 ∧ heap (w_js w) !! i = None ∧
    heap_wf (w_js w') ∧ updates (w_js w') = updates (w_js w) ∧ w_ext w' = w_ext w ∧
    (∀ this' i' s', this' ≠ this → inst (w_js w) this' i' s' → inst (w_js w') this' i' s').
Proof.
  intros Hwf Ho Hget.
  destruct (init_instance_run _ _ _ _ _ Hwf Ho Hget)
    as (j' & -> & Hi & Hwf' & _ & Hthis & Hu & _ & _ & Hother).
  eexists _, _. split; [done|]. split; [exact Hi|]. split_and!; try done.
  - apply heap_wf_fresh; [done|lia].
  - intros this' i' s' Hne Hi'. eapply inst_preserve; [exact Hi'|]. simpl.
    intros l ob Hl. destruct (decide (l = this)) as [->|].
    + rewrite Hthis. eexists; split; [done|]. simplify_eq.
      split_and!; [congruence|by rewrite obj_get_set_ne..].
    + rewrite Hother; eauto.
Qed.

(** [state_changed j j' this i s]: between [j] and [j'] the instance [this] got
    the state [s] and one re-render request; nothing else that the program can
    observe changed. *)
Record state_changed (j j' : js) (this i : loc) (s : State) : Prop := {
  sc_inst : inst j' this i s;
  sc_updates : updates j' = updates j ++ [this];
  sc_others : ∀ this' i' s', i' ≠ i → inst j this' i' s' → inst j' this' i' s';
  sc_props : ∀ this' p, has_props j this' p → has_props j' this' p;
  sc_compMap : compMap j' = compMap j;
  sc_classes : classes j' = classes j;
  sc_next : next_loc j' = next_loc j;
  sc_wf : heap_wf j → heap_wf j';
}.

Lemma stored_changed w this i s io new :
  heap (w_js w) !! i = Some io → inst (w_js w) this i s →
  state_changed (w_js w) (w_js (stored w this i new io)) this i new.
Proof.
  intros Hio Hinst. constructor; try done.
  - pose proof (inst_stored w this i new io this i s Hio Hinst) as Hnew.
    by rewrite decide_True in Hnew.
  - intros this' i' s' Hne Hi'.
    pose proof (inst_stored w this i new io this' i' s' Hio Hi') as Hnew.
    by rewrite decide_False in Hnew.
  - intros. by apply has_props_stored.
  - intros Hwf l. simpl. rewrite lookup_insert. case_decide; [|apply Hwf].
    intros _. subst l. apply Hwf. eauto.
Qed.

(** The two outcomes of [SetState]. *)
Lemma SetState_equal w this i s new :
  inst (w_js w) this i s → State_EqualsIntf new s = Ok true →
  ComponentDef_SetState (mk_def this) new w = Ok (tt, w).
Proof. intros H1 H2. by destruct (SetState_inst _ _ _ _ _ _ H1 H2) as (io & _ & ->). Qed.

Lemma SetState_differs w this i s new :
  inst (w_js w) this i s → State_EqualsIntf new s = Ok false →
  ∃ j', ComponentDef_SetState (mk_def this) new w = Ok (tt, World j' (w_ext w)) ∧
        state_changed (w_js w) j' this i new.
Proof.
  intros H1 H2. destruct (SetState_inst _ _ _ _ _ _ H1 H2) as (io & Hio & ->).
  eexists. split; [done|]. by eapply stored_changed.
Qed.

(** C9: [SetState] is guarded by [EqualsIntf]: a state equal to the current one
    changes nothing; any other state is what [State] returns from then on and
    requests exactly one re-render, of this instance.  The state of an instance
    with another [_state] object, its props and the rest of the program's state
    are untouched. *)
Theorem SetState_State w this i s new b :
  inst (w_js w) this i s → State_EqualsIntf new s = Ok b →
  ∃ w', ComponentDef_SetState (mk_def this) new w = Ok (tt, w') ∧
    ComponentDef_State (mk_def this) w' = Ok (if b then s else new, w') ∧
    updates (w_js w') = updates (w_js w) ++ (if b then [] else [this]) ∧
    w_ext w' = w_ext w ∧ (b = true → w' = w) ∧
    (∀ this' i' s', i' ≠ i → inst (w_js w) this' i' s' → inst (w_js w') this' i' s') ∧
    (∀ this' p, has_props (w_js w) this' p → has_props (w_js w') this' p).
Proof.
  intros Hinst Heq. destruct b.
  - exists w. rewrite app_nil_r. split_and!; eauto using State_inst, SetState_equal.
  - destruct (SetState_differs _ _ _ _ _ Hinst Heq) as (j' & -> & [Hi Hu Ho Hp _ _ _ _]).
    eexists. split; [done|]. split_and!; try done. by eapply State_inst.
Qed.

Lemma shouldComponentUpdate_run w this p next q b :
  has_props (w_js w) this p → obj_has next nestedProps = true →
  obj_get next nestedProps = JProps q → Props_EqualsIntf p (Some q) = Ok b →
  class_shouldComponentUpdate this [JObject next] w = Ok (negb b, w).
Proof.
  intros (o & ps & Ho & Hps & Hhas & Hget) Hnext Hq Heq.
  unfold class_shouldComponentUpdate. unfold mbind, M_bind.
  rewrite (js_Get_ref _ _ _ _ Ho), Hps. simpl. unfold js_In, mret, M_ret.
  rewrite Hhas. unfold js_Get, mret, M_ret. rewrite Hget. simpl.
  rewrite Hnext, Hq. simpl. unfold mlift. by rewrite Heq.
Qed.

(** [shouldComponentUpdate] is a function of the props only: for an instance
    with props it answers whether the next props differ (by [EqualsIntf]) from
    the current ones, and for an instance without props it always answers no.
    It changes nothing. *)
Theorem shouldComponentUpdate_props w this p next q b :
  (has_props (w_js w) this p → obj_has next nestedProps = true →
   obj_get next nestedProps = JProps q → Props_EqualsIntf p (Some q) = Ok b →
   class_shouldComponentUpdate this [JObject next] w = Ok (negb b, w)) ∧
  (has_no_props (w_js w) this → ∀ args,
   class_shouldComponentUpdate this args w = Ok (false, w)).
Proof.
  split; [apply shouldComponentUpdate_run|].
  intros (o & ps & Ho & Hps & Hhas) args.
  unfold class_shouldComponentUpdate. unfold mbind, M_bind.
  rewrite (js_Get_ref _ _ _ _ Ho), Hps. simpl. unfold js_In, mret, M_ret.
  by rewrite Hhas.
Qed.

Lemma classes_wf_empty : classes_wf empty_js.
Proof. intros t c. simpl. by rewrite lookup_empty, lookup_nil. Qed.

Lemma wrap_props_get newprops children :
  obj_get (wrap_props newprops children) nestedProps = from_option JProps JUndefined newprops ∧
  obj_has (wrap_props newprops children) nestedProps = bool_decide (is_Some newprops).
Proof. unfold wrap_props. by destruct newprops, children. Qed.

(** Creating an element only touches the class registry: [c] is the class the
    registry then has for the component's type. *)
Record registered (j j' : js) (t : rtype) (c : nat) : Prop := {
  reg_wf : classes_wf j';
  reg_class : compMap j' !! t = Some c;
  reg_sub : compMap j ⊆ compMap j';
  reg_heap : heap j' = heap j;
  reg_updates : updates j' = updates j;
  reg_next : next_loc j' = next_loc j;
}.

Lemma CreateElement_eq build newprops children w :
  classes_wf (w_js w) →
  let t := cmp_type (build {| cd_elem := None |}) in
  ∃ c j', CreateElement build newprops children w =
    Ok (Elem (ClassT c) (JObject (wrap_props newprops children)) children, World j' (w_ext w)) ∧
    registered (w_js w) j' t c.
Proof.
  intros Hwf t. unfold CreateElement. fold t. unfold mbind, M_bind; simpl.
  destruct (compMap (w_js w) !! t) as [c|] eqn:Ht; simpl.
  - exists c, (w_js w). split; [by destruct w|]. by constructor.
  - eexists _, _. split; [done|]. constructor; simpl; try done.
    + intros t' c'. simpl. destruct (decide (t' = t)) as [->|Hne].
      * rewrite lookup_insert_eq. split.
        -- intros [= <-]. by apply list_lookup_middle.
        -- intros H. destruct (decide (c' < length (classes (w_js w)))) as [Hlt|].
           ++ rewrite lookup_app_l in H by done. apply Hwf in H. congruence.
           ++ apply lookup_lt_Some in H as Hlen. rewrite length_app in Hlen; simpl in Hlen.
              f_equal. lia.
      * rewrite lookup_insert_ne by done. rewrite (Hwf t' c'). split.
        -- intros H. by apply lookup_app_l_Some.
        -- intros [H|[_ H]]%lookup_app_Some; [done|].
           apply list_lookup_singleton_Some in H as [_ [=]]. congruence.
    + by rewrite lookup_insert_eq.
    + by apply insert_subseteq.
Qed.

(** Elements of one component type always carry the same React class and
    elements of different types different classes, however many elements were
    created in between: the condition under which React keeps a component's
    instance, and so its state, across renders. *)
Theorem CreateElement_class b1 p1 c1 w b2 p2 c2 wm :
  classes_wf (w_js w) →
  ∀ e1 w1, CreateElement b1 p1 c1 w = Ok (e1, w1) →
  classes_wf (w_js wm) → compMap (w_js w1) ⊆ compMap (w_js wm) →
  ∃ e2 w2 k1 k2 o1 o2, CreateElement b2 p2 c2 wm = Ok (e2, w2) ∧
    e1 = Elem (ClassT k1) o1 c1 ∧ e2 = Elem (ClassT k2) o2 c2 ∧
    (k1 = k2 ↔ cmp_type (b1 {| cd_elem := None |}) = cmp_type (b2 {| cd_elem := None |})).
Proof.
  intros Hwf e1 w1 H1 Hwfm Hsub.
  destruct (CreateElement_eq b1 p1 c1 w Hwf) as (k1 & j1 & He1 & [_ Hk1 _ _ _ _]).
  destruct (CreateElement_eq b2 p2 c2 wm Hwfm) as (k2 & j2 & He2 & [Hwf2 Hk2 Hsub2 _ _ _]).
  rewrite He1 in H1. injection H1 as <- <-.
  eexists _, _, k1, k2, _, _. split; [exact He2|]. split_and!; try done.
  assert (Hk1' : compMap j2 !! cmp_type (b1 {| cd_elem := None |}) = Some k1)
    by eauto using lookup_weaken.
  split.
  - intros ->. apply Hwf2 in Hk1', Hk2. congruence.
  - intros Ht. rewrite Ht in Hk1'. congruence.
Qed.

(** An instance has one state. *)
Lemma inst_fun j this i s i' s' : inst j this i s → inst j this i' s' → i = i' ∧ s = s'.
Proof.
  intros (o & rs & ro & io & ? & ? & ? & ? & ? & ?) (o' & rs' & ro' & io' & ? & ? & ? & ? & ? & ?).
  simplify_eq. split; congruence.
Qed.

(** An instance and its props are read off the heap alone. *)
Lemma inst_heap j j' this i s : heap j' = heap j → inst j this i s → inst j' this i s.
Proof. intros Hh. unfold inst. by rewrite Hh. Qed.
Lemma has_props_heap j j' this p : heap j' = heap j → has_props j this p → has_props j' this p.
Proof. intros Hh. unfold has_props. by rewrite Hh. Qed.

End React.

Arguments jsval {RV}.
Arguments Element {RV}.
Arguments object {RV}.
Arguments js {RV}.
Arguments world {RV} E.
Arguments Component {RV} E.
Arguments ComponentBuilder {RV} E.
Arguments ReactClass {RV} E.
