(* ===== verification/Mount.v ===== *)
(** * Mounting

    The calls React makes to put a component on the page, in the order its documentation
    gives them: a new instance gets its props, then the state [getInitialState] returns,
    then [componentWillMount] is called.  [update_instance] is a re-render by a parent:
    [componentWillReceiveProps], then [shouldComponentUpdate], then the new props. *)

From S2P Require Import Prelude React.

Section Mount.
Context {RV : ReactValues} {E : Type}.

Definition create_instance (builder : ComponentBuilder E) (props : jsval) : M (world E) loc :=
  this ← js_New;
  _ ← js_Set this reactCompProps props;
  _ ← init_instance builder this;
  mret this.

Definition mount_instance (builder : ComponentBuilder E) (props : jsval) : M (world E) loc :=
  this ← create_instance builder props;
  _ ← opt_call (ComponentWillMount (builder (mk_def this)));
  mret this.

(** A parent rendered again and gives the instance other props: whether the instance has
    to render. *)
Definition update_instance (builder : ComponentBuilder E) (this : loc) (props : jsval) : M (world E) bool :=
  _ ← class_componentWillReceiveProps builder this [props];
  b ← class_shouldComponentUpdate this [props];
  _ ← js_Set this reactCompProps props;
  mret b.

Definition unmount_instance (builder : ComponentBuilder E) (this : loc) : M (world E) unit :=
  opt_call (ComponentWillUnmount (builder (mk_def this))).

(** React's render of an element: the host elements are drawn as they are, and each
    component element is mounted, rendered and replaced by what its rendering draws;
    [componentDidMount] is called when that is done.  [builder_of] finds the component of a
    class; [fuel] bounds how deep components are nested in each other. *)
Fixpoint mount_tree (builder_of : rtype → option (ComponentBuilder E)) (fuel : nat)
    : Element → M (world E) Element :=
  fix draw e :=
    match e with
    | ENil | ES _ => mret e
    | Elem (ClassT c) props _ =>
        match fuel with
        | O => mpanic OutOfFuel
        | S fuel =>
            j ← get_js;
            match classes j !! c ≫= builder_of with
            | None => mpanic (PanicMsg "no such class")
            | Some builder =>
                this ← mount_instance builder props;
                e ← RendersElement (builder (mk_def this));
                d ← mount_tree builder_of fuel e;
                _ ← opt_call (ComponentDidMount (builder (mk_def this)));
                mret d
            end
        end
    | Elem ty props kids => kids ← mmap draw kids; mret (Elem ty props kids)
    end.

(** The component elements in an element, in document order: class and props. *)
Fixpoint class_elems (e : Element) : list (nat * jsval) :=
  match e with
  | ENil | ES _ => []
  | Elem ty props kids =>
      match ty with ClassT c => [(c, props)] | _ => [] end ++
      (fix go (es : list Element) : list (nat * jsval) :=
         match es with
         | [] => []
         | e :: es => class_elems e ++ go es
         end) kids
  end.

Lemma class_elems_Tag t props kids :
  class_elems (Elem (Tag t) props kids) = concat (map class_elems kids).
Proof. simpl. induction kids as [|e es IH]; [done|]. simpl. by rewrite IH. Qed.

Lemma mount_tree_Tag builder_of fuel t props kids w :
  mount_tree builder_of fuel (Elem (Tag t) props kids) w =
  (kids ← mmap (mount_tree builder_of fuel) kids; mret (Elem (Tag t) props kids)) w.
Proof. by destruct fuel. Qed.

Lemma mmap_cons_run {W A B} (f : A → M W B) x l (w : W) y w1 ys w2 :
  f x w = Ok (y, w1) → mmap f l w1 = Ok (ys, w2) → mmap f (x :: l) w = Ok (y :: ys, w2).
Proof. intros Hx Hl. simpl. mstep Hx. by mstep Hl. Qed.

Lemma Element_kids_ind (P : Element → Prop) :
  P ENil → (∀ s, P (ES s)) → (∀ ty props kids, Forall P kids → P (Elem ty props kids)) → ∀ e, P e.
Proof.
  intros Hnil Hs Helem. fix IH 1. intros [|s|ty props kids]; [done|apply Hs|].
  apply Helem. induction kids as [|k ks IHks]; constructor; [apply IH|exact IHks].
Qed.

(** An element without components is drawn as it is. *)
Lemma mount_tree_host builder_of fuel e w :
  class_elems e = [] → mount_tree builder_of fuel e w = Ok (e, w).
Proof.
  revert w. induction e as [| |ty props kids IH] using Element_kids_ind; intros w He; [by destruct fuel..|].
  assert (concat (map class_elems kids) = []) as Hk.
  { rewrite <-(class_elems_Tag "" props). destruct ty; [exact He|discriminate|exact He]. }
  assert (mmap (mount_tree builder_of fuel) kids w = Ok (kids, w)) as Hr.
  { clear He. revert w. induction IH as [|e es He _ IHes]; intros w; [done|]. simpl in Hk |- *.
    apply app_eq_nil in Hk as [Hk1 Hk2]. mstep (He w Hk1). by mstep (IHes Hk2 w). }
  destruct ty; [|discriminate|]; destruct fuel; simpl; by mstep Hr.
Qed.

(** A component element is drawn as what its rendering draws. *)
Lemma mount_tree_class builder_of fuel c v kids w t builder this w1 e w2 d w3 :
  classes (w_js w) !! c = Some t → builder_of t = Some builder →
  mount_instance builder v w = Ok (this, w1) →
  RendersElement (builder (mk_def this)) w1 = Ok (e, w2) →
  mount_tree builder_of fuel e w2 = Ok (d, w3) →
  ComponentDidMount (builder (mk_def this)) = None →
  mount_tree builder_of (S fuel) (Elem (ClassT c) v kids) w = Ok (d, w3).
Proof.
  intros Hc Hb Hm He Hd Hdid. cbn [mount_tree]. mstep (eq_refl : get_js w = Ok (w_js w, w)).
  rewrite Hc. cbn. rewrite Hb. mstep Hm. mstep He. mstep Hd. by rewrite Hdid.
Qed.

(** *** Handing new props to an instance *)
Lemma set_props_inst (w : world E) l v this i s o :
  heap (w_js w) !! l = Some o → inst (w_js w) this i s →
  inst (set_heap (w_js w) (<[l := obj_set o reactCompProps v]> (heap (w_js w)))) this i s.
Proof.
  intros Hl Hi. eapply inst_preserve; [exact Hi|]. simpl. intros l' ob Hl'.
  destruct (decide (l' = l)) as [->|].
  - rewrite lookup_insert_eq. simplify_eq. eexists; split; [done|].
    split_and!; intros; by rewrite obj_get_set_ne.
  - rewrite lookup_insert_ne by done. eauto.
Qed.

Lemma set_props_has_props (w : world E) l p o :
  heap (w_js w) !! l = Some o →
  has_props (set_heap (w_js w)
    (<[l := obj_set o reactCompProps (JObject [(nestedProps, JProps p)])]> (heap (w_js w)))) l p.
Proof.
  intros Hl. eexists _, _. simpl. rewrite lookup_insert_eq. split; [done|].
  rewrite obj_get_set_eq. by split_and!.
Qed.

Lemma classes_wf_eq (j j' : js) :
  compMap j' = compMap j → classes j' = classes j → classes_wf j → classes_wf j'.
Proof. intros Hm Hc Hwf t c. rewrite Hm, Hc. apply Hwf. Qed.

Lemma heap_wf_eq (j j' : js) :
  heap j' = heap j → next_loc j' = next_loc j → heap_wf j → heap_wf j'.
Proof. intros Hh Hn Hwf l. rewrite Hh, Hn. apply Hwf. Qed.

Lemma create_instance_run_with builder props (w : world E) get s0 e :
  heap_wf (w_js w) →
  GetInitialStateIntf (builder (mk_def (next_loc (w_js w)))) = Some get →
  (∀ j, get (World j (w_ext w)) = Ok (s0, World j e)) →
  let n := next_loc (w_js w) in
  ∃ j', create_instance builder props w = Ok (n, World j' e) ∧
    inst j' n (S (S n)) s0 ∧ heap_wf j' ∧ next_loc j' = S (S (S n)) ∧
    (∃ o, heap j' !! n = Some o ∧ obj_get o reactCompProps = props) ∧
    compMap j' = compMap (w_js w) ∧ classes j' = classes (w_js w) ∧
    (∀ l, l < n → heap j' !! l = heap (w_js w) !! l) ∧ updates j' = updates (w_js w).
Proof.
  intros Hwf Hget He n. unfold create_instance. mstep (js_New_fresh w). fold n.
  set (w1 := World _ _).
  assert (H1 : heap (w_js w1) !! n = Some []) by (simpl; by rewrite lookup_insert_eq).
  mstep (js_Set_ref w1 n [] reactCompProps props H1). set (w2 := World _ _).
  assert (H2 : heap (w_js w2) !! n = Some [(reactCompProps, props)])
    by (simpl; by rewrite lookup_insert_eq).
  assert (Hwf2 : heap_wf (w_js w2)).
  { intros l. simpl. fold n. rewrite !lookup_insert. repeat case_decide; try (intros; lia).
    intros Hl%Hwf. fold n in Hl. lia. }
  destruct (init_instance_run_with builder n w2 _ get s0 e Hwf2 H2 Hget He)
    as (j' & Hrun & Hi & Hwf' & Hn' & Ho & Hu & Hm & Hc & Hother).
  mstep Hrun. simpl in *. eexists. split; [done|]. split_and!; try done.
  - eexists. split; [exact Ho|]. done.
  - intros l Hl. rewrite Hother by (fold n; lia). by rewrite !lookup_insert_ne by (fold n; lia).
Qed.
Lemma create_instance_run builder props (w : world E) s0 :
  heap_wf (w_js w) →
  GetInitialStateIntf (builder (mk_def (next_loc (w_js w)))) = Some (mret s0) →
  let n := next_loc (w_js w) in
  ∃ j', create_instance builder props w = Ok (n, World j' (w_ext w)) ∧
    inst j' n (S (S n)) s0 ∧ heap_wf j' ∧ next_loc j' = S (S (S n)) ∧
    (∃ o, heap j' !! n = Some o ∧ obj_get o reactCompProps = props) ∧
    compMap j' = compMap (w_js w) ∧ classes j' = classes (w_js w) ∧
    (∀ l, l < n → heap j' !! l = heap (w_js w) !! l) ∧ updates j' = updates (w_js w).
Proof. intros Hwf Hget. by eapply create_instance_run_with. Qed.

(** ** What a step leaves alone

    [evolves X Y j j']: from [j] to [j'], states changed only in the [_state] objects
    [X], props only of the instances [Y]; new objects and classes may have appeared; no
    re-render was asked for of an instance with another [_state] object. *)
Record evolves (X Y : gset loc) (j j' : js) : Prop := {
  ev_inst : ∀ this i s, i ∉ X → inst j this i s → inst j' this i s;
  ev_props : ∀ this p, this ∉ Y → has_props j this p → has_props j' this p;
  ev_wf : heap_wf j → heap_wf j';
  ev_classes : classes_wf j → classes_wf j';
  ev_next : next_loc j ≤ next_loc j';
  ev_updates : ∃ l, updates j' = updates j ++ l ∧ ∀ this i s, i ∉ X → inst j this i s → this ∉ l;
}.

Lemma no_updates (X : gset loc) j j' :
  updates j' = updates j →
  ∃ l, updates j' = updates j ++ l ∧ ∀ this i s, i ∉ X → inst j this i s → this ∉ l.
Proof. intros ->. exists []. rewrite app_nil_r. split; [done|]. intros. apply not_elem_of_nil. Qed.

Lemma evolves_refl X Y j : evolves X Y j j.
Proof. split; try done. by apply no_updates. Qed.
Lemma evolves_trans X Y X' Y' j1 j2 j3 :
  evolves X Y j1 j2 → evolves X' Y' j2 j3 → evolves (X ∪ X') (Y ∪ Y') j1 j3.
Proof.
  intros [Hi1 Hp1 Hw1 Hc1 Hn1 (l1 & Hu1 & Hl1)] [Hi2 Hp2 Hw2 Hc2 Hn2 (l2 & Hu2 & Hl2)].
  split; try (by auto); try lia; try (intros this *; rewrite not_elem_of_union; intros []; auto).
  exists (l1 ++ l2). rewrite Hu2, Hu1, app_assoc. split; [done|].
  intros this i s. rewrite not_elem_of_union, not_elem_of_app. intros [] Hi. eauto.
Qed.
Lemma evolves_mono X Y X' Y' j j' : X ⊆ X' → Y ⊆ Y' → evolves X Y j j' → evolves X' Y' j j'.
Proof.
  intros HX HY [Hi Hp Hw Hc Hn (l & Hu & Hl)]. split; auto. exists l. split; [done|]. intros this i s Hx. apply Hl. auto.
Qed.

Lemma changed_evolves j j' this i s : state_changed j j' this i s → evolves {[i]} ∅ j j'.
Proof.
  intros [Hi Hu Ho Hp Hm Hc Hn Hwf]. split; auto.
  - intros ??? ?%not_elem_of_singleton. auto.
  - intros ?. by eapply classes_wf_eq.
  - lia.
  - exists [this]. split; [done|]. intros this' i' s' Hne%not_elem_of_singleton Hin ->%list_elem_of_singleton.
    by destruct (inst_fun _ _ _ _ _ _ Hi (Ho _ _ _ Hne Hin)).
Qed.
Lemma registered_evolves j j' t c : registered j j' t c → evolves ∅ ∅ j j'.
Proof.
  intros [Hwf Hc Hs Hh Hu Hn]. split; try done.
  - intros. by eapply inst_heap.
  - intros. by eapply has_props_heap.
  - by apply heap_wf_eq.
  - lia.
  - by apply no_updates.
Qed.

(** Instances are below [next_loc]. *)
Lemma inst_bound j this i s : heap_wf j → inst j this i s → this < next_loc j ∧ i < next_loc j.
Proof. intros Hwf (o & rs & ro & io & Ho & _ & _ & _ & Hio & _). split; apply Hwf; eauto. Qed.

Lemma create_evolves_with builder props (w : world E) get s0 e :
  heap_wf (w_js w) →
  GetInitialStateIntf (builder (mk_def (next_loc (w_js w)))) = Some get →
  (∀ j, get (World j (w_ext w)) = Ok (s0, World j e)) →
  let n := next_loc (w_js w) in
  ∃ j', create_instance builder props w = Ok (n, World j' e) ∧
    inst j' n (S (S n)) s0 ∧ evolves ∅ ∅ (w_js w) j' ∧
    (∃ o, heap j' !! n = Some o ∧ obj_get o reactCompProps = props).
Proof.
  intros Hwf Hget He n.
  destruct (create_instance_run_with builder props w get s0 e Hwf Hget He) as (j' & Hrun & Hi & Hwf' & Hn & Hp & Hm & Hc & Ho & Hu).
  exists j'. split; [exact Hrun|]. split; [exact Hi|]. split; [|exact Hp]. fold n in Hn, Ho.
  assert (∀ l o, heap (w_js w) !! l = Some o → heap j' !! l = Some o) as Hl.
  { intros l o Hl. rewrite Ho; [done|]. apply Hwf. eauto. }
  split; try done.
  - intros this i s _ Hin. eapply inst_preserve; [exact Hin|]. intros l o Hlo. exists o. split_and!; auto.
  - intros this p _ (o & ps & Hlo & Hrest). exists o, ps. auto.
  - intros Hcw. by eapply classes_wf_eq.
  - lia.
  - by apply no_updates.
Qed.
Lemma create_evolves builder props (w : world E) s0 :
  heap_wf (w_js w) →
  GetInitialStateIntf (builder (mk_def (next_loc (w_js w)))) = Some (mret s0) →
  let n := next_loc (w_js w) in
  ∃ j', create_instance builder props w = Ok (n, World j' (w_ext w)) ∧
    inst j' n (S (S n)) s0 ∧ evolves ∅ ∅ (w_js w) j' ∧
    (∃ o, heap j' !! n = Some o ∧ obj_get o reactCompProps = props).
Proof. intros Hwf Hget. by eapply create_evolves_with. Qed.

(** An instance of a component without state. *)
Lemma mount_stateless builder props (w : world E) :
  heap_wf (w_js w) → GetInitialStateIntf (builder (mk_def (next_loc (w_js w)))) = None →
  ComponentWillMount (builder (mk_def (next_loc (w_js w)))) = None →
  let n := next_loc (w_js w) in
  ∃ j', mount_instance builder props w = Ok (n, World j' (w_ext w)) ∧ evolves ∅ ∅ (w_js w) j' ∧
    classes j' = classes (w_js w) ∧ (∃ o, heap j' !! n = Some o ∧ obj_get o reactCompProps = props).
Proof.
  intros Hwf Hget Hmount n.
  enough (∃ j', create_instance builder props w = Ok (n, World j' (w_ext w)) ∧ evolves ∅ ∅ (w_js w) j' ∧
    classes j' = classes (w_js w) ∧ (∃ o, heap j' !! n = Some o ∧ obj_get o reactCompProps = props))
    as (j' & Hrun & Hrest).
  { exists j'. split; [|exact Hrest]. unfold mount_instance. mstep Hrun. fold n in Hmount. by rewrite Hmount. }
  unfold create_instance. mstep (js_New_fresh w). fold n.
  set (w1 := World _ _).
  assert (H1 : heap (w_js w1) !! n = Some []) by (simpl; by rewrite lookup_insert_eq).
  mstep (js_Set_ref w1 n [] reactCompProps props H1). set (w2 := World _ _).
  assert (H2 : heap (w_js w2) !! n = Some [(reactCompProps, props)])
    by (simpl; by rewrite lookup_insert_eq).
  assert (Hwf2 : heap_wf (w_js w2)).
  { intros l. simpl. fold n. rewrite !lookup_insert. repeat case_decide; try (intros; lia).
    intros Hl%Hwf. fold n in Hl. lia. }
  mstep (init_instance_eq builder n w2 _ JNull (w_ext w) Hwf2 H2
    ltac:(intros j; unfold first_state; fold n in Hget; by rewrite Hget)).
  cbn. set (j' := JS _ _ _ _ _). exists j'. split; [done|].
  assert (∀ l o, heap (w_js w) !! l = Some o → heap j' !! l = Some o) as Hold.
  { intros l o Hl. assert (l < n) by (apply Hwf; eauto). subst j'. unfold init_heap. simpl.
    fold n. by rewrite !lookup_insert_ne by lia. }
  split; [split; try done|split; [done|]].
  - intros this i s _ Hin. eapply inst_preserve; [exact Hin|]. eauto 6.
  - intros this p _ (o & ps & Hlo & Hrest). exists o, ps. auto.
  - intros _ l. subst j'. unfold init_heap. simpl. fold n. rewrite !lookup_insert.
    repeat case_decide; try (intros; lia). intros Hl%Hwf. fold n in Hl. lia.
  - simpl. fold n. lia.
  - by apply no_updates.
  - eexists. subst j'. unfold init_heap. simpl. rewrite lookup_insert_eq. done.
Qed.

(** The props of an instance that React gave the props object of an element. *)
Lemma elem_props j n o p :
  heap j !! n = Some o → obj_get o reactCompProps = JObject (wrap_props (Some p) []) → has_props j n p.
Proof. intros Ho Hp. exists o, (wrap_props (Some p) []). by destruct (wrap_props_get (Some p) []) as [-> ->]. Qed.

Lemma set_props_evolves (w : world E) this o v :
  heap (w_js w) !! this = Some o →
  ∃ j', js_Set this reactCompProps v w = Ok (tt, World j' (w_ext w)) ∧ evolves ∅ {[this]} (w_js w) j' ∧
    heap j' !! this = Some (obj_set o reactCompProps v).
Proof.
  intros Ho. rewrite (js_Set_ref _ _ _ _ _ Ho). eexists. split; [done|]. split; [|by cbn; rewrite lookup_insert_eq].
  split.
  - intros this' i s _. by apply set_props_inst.
  - intros this' p ?%not_elem_of_singleton (o' & ps & Ho' & Hrest). exists o', ps. cbn.
    by rewrite lookup_insert_ne by done.
  - intros Hwf l. cbn. rewrite lookup_insert. case_decide; [|apply Hwf]. intros _. subst l. apply Hwf. eauto.
  - intros Hc. by eapply classes_wf_eq.
  - done.
  - by apply no_updates.
Qed.

(** A re-render by a parent, of a component without [ComponentWillReceiveProps]. *)
Lemma update_evolves builder (w : world E) this o p q cs b :
  heap (w_js w) !! this = Some o → has_props (w_js w) this p →
  ComponentWillReceivePropsIntf (builder (mk_def this)) = None → Props_EqualsIntf p (Some q) = Ok b →
  ∃ j', update_instance builder this (JObject (wrap_props (Some q) cs)) w = Ok (negb b, World j' (w_ext w)) ∧
    evolves ∅ {[this]} (w_js w) j' ∧ heap j' !! this = Some (obj_set o reactCompProps (JObject (wrap_props (Some q) cs))).
Proof.
  intros Ho Hp Hrecv Heq. unfold update_instance.
  assert (class_componentWillReceiveProps builder this [JObject (wrap_props (Some q) cs)] w = Ok (tt, w)) as H1
    by (unfold class_componentWillReceiveProps; by rewrite Hrecv).
  mstep H1. destruct (wrap_props_get (Some q) cs) as [Hget Hhas].
  mstep (shouldComponentUpdate_run w this p (wrap_props (Some q) cs) q b Hp ltac:(by rewrite Hhas) Hget Heq).
  destruct (set_props_evolves w this o (JObject (wrap_props (Some q) cs)) Ho) as (j' & Hr & Hev & Hj'). mstep Hr. by exists j'.
Qed.

(** A state object has one state. *)
Lemma inst_state_fun (j : js) t1 t2 i s1 s2 : inst j t1 i s1 → inst j t2 i s2 → s1 = s2.
Proof.
  intros (o & rs & ro & io & _ & _ & _ & _ & H1 & H2) (o' & rs' & ro' & io' & _ & _ & _ & _ & H3 & H4). congruence.
Qed.

Lemma has_props_fun (j : js) this p q : has_props j this p → has_props j this q → p = q.
Proof. intros (o & ps & H1 & H2 & _ & H3) (o' & ps' & H4 & H5 & _ & H6). congruence. Qed.

(** [SetState], when [EqualsIntf] is equality. *)
Lemma SetState_evolves (w : world E) this i s new b :
  inst (w_js w) this i s → State_EqualsIntf new s = Ok b → (b = true → new = s) →
  ∃ j', ComponentDef_SetState (mk_def this) new w = Ok (tt, World j' (w_ext w)) ∧
    inst j' this i new ∧ evolves {[i]} ∅ (w_js w) j' ∧
    updates j' = updates (w_js w) ++ (if b then [] else [this]) ∧
    compMap j' = compMap (w_js w) ∧ classes j' = classes (w_js w).
Proof.
  intros Hi Heq Hb. destruct b.
  - exists (w_js w). rewrite app_nil_r, (SetState_equal _ _ _ _ _ Hi Heq). rewrite (Hb eq_refl) in *.
    split; [by destruct w|]. split; [done|]. by split; [apply evolves_refl|].
  - destruct (SetState_differs _ _ _ _ _ Hi Heq) as (j' & Hr & Hch). exists j'. split; [done|].
    split; [apply Hch|]. split; [by eapply changed_evolves|]. by destruct Hch.
Qed.

(** ** A heap with one instance *)
Definition one_instance (p : option Props) (s : State) : js :=
  JS {[0 := [(reactCompProps, JObject (wrap_props p [])); (reactCompState, JRef 1)];
       1 := [(nestedState, JRef 2)];
       2 := [(reactCompLastState, JState s)]]} 3 ∅ [] [].
Lemma one_instance_inst p s : inst (one_instance p s) 0 2 s.
Proof.
  eexists _, 1, _, _. split; [reflexivity|]. split; [reflexivity|]. split; [reflexivity|]. split; [reflexivity|].
  split; reflexivity.
Qed.
Lemma one_instance_props p s : has_props (one_instance (Some p) s) 0 p.
Proof.
  by eapply elem_props.
Qed.
Lemma one_instance_classes p s : classes_wf (one_instance p s).
Proof. intros t c. cbn. by rewrite lookup_empty, lookup_nil. Qed.
End Mount.
