(* ===== verification/Immutable.v ===== *)
(** * Immutable values

    Models what [immutableGen] generates for slices, maps and structs, in the files
    [gen_*_immutableGen.go] of [src/_vendor/src/myitcv.io/react]: a value is a
    pointer to a struct that holds the data and the flag [mutable].  An operation on a
    value that is not mutable works on a copy, on a mutable one in place.

    The structs of one type live in a store; [HasCells] says where a world keeps it, so
    that the operations run in the worlds of the programs that use them.  The array
    behind [theSlice] is never shared between two structs, since [dup] and the
    constructors copy it, so it is a list in the cell. *)

From S2P Require Import Prelude React.

(** ** Stores *)

(** A struct: its data, and whether it may be changed in place. *)
Record icell (P : Type) := ICell { payload : P; mutable : bool }.
Arguments ICell {P} payload mutable.
Arguments payload {P} i.
Arguments mutable {P} i.

Class HasCells (P W : Type) := {
  cells : W → list (icell P);
  put_cells : list (icell P) → W → W;
  cells_put : ∀ l w, cells (put_cells l w) = l;
  put_put : ∀ l l' w, put_cells l (put_cells l' w) = put_cells l w;
  put_cells_id : ∀ w, put_cells (cells w) w = w;
}.
Arguments cells {P W _} w.
Arguments put_cells {P W _} l w.

#[export] Instance HasCells_self P : HasCells P (list (icell P)) :=
  {| cells w := w; put_cells l _ := l; cells_put _ _ := eq_refl; put_put _ _ _ := eq_refl; put_cells_id _ := eq_refl |}.

(** A world of React holds the stores of the program's own state. *)
#[export] Instance ext_cells `{ReactValues} {P E} `{HasCells P E} : HasCells P (world E).
Proof.
  refine {| cells w := cells (w_ext w); put_cells l w := World (w_js w) (put_cells l (w_ext w)) |}.
  - intros l w. apply cells_put.
  - intros l l' w. cbn. by rewrite put_put.
  - intros [j e]. cbn. by rewrite put_cells_id.
Defined.

(** Two stores that are different parts of a world. *)
Class SepCells P Q W `{HasCells P W, HasCells Q W} := {
  sep_cells : ∀ l w, cells (P := Q) (put_cells (P := P) l w) = cells w;
  sep_cells' : ∀ l w, cells (P := P) (put_cells (P := Q) l w) = cells w;
  sep_put : ∀ l l' w, put_cells (P := P) l (put_cells (P := Q) l' w) = put_cells (P := Q) l' (put_cells (P := P) l w);
}.
#[export] Instance ext_sep `{ReactValues} {P Q E} `{SepCells P Q E} : SepCells P Q (world E).
Proof.
  split; intros; cbn; [apply sep_cells|apply sep_cells'|by rewrite sep_put].
Qed.

Section Immutable.
Context {P W : Type} `{HasCells P W}.

Definition imm_deref (m : ptr) : M W (icell P) := λ w,
  c ← store_deref (cells w) m; Ok (c, w).
(** [&T{...}] *)
Definition imm_new (c : icell P) : M W ptr := λ w,
  Ok (Some (length (cells w)), put_cells (cells w ++ [c]) w).
(** Assigning to the fields of [m]. *)
Definition imm_write (m : ptr) (c : icell P) : M W unit := λ w,
  match m with
  | Some a => Ok (tt, put_cells (<[a := c]> (cells w)) w)
  | None => Panic NilDeref
  end.

(** ** What slices, maps and structs have in common *)
Definition Mutable (m : ptr) : M W bool := c ← imm_deref m; mret (mutable c).

(** [dup], and [res := *s] of a struct that is not mutable. *)
Definition dup (m : ptr) : M W ptr := c ← imm_deref m; imm_new (ICell (payload c) false).

(** [AsMutable] of a slice or a map. *)
Definition AsMutable (m : ptr) : M W ptr :=
  match m with
  | None => mret None
  | Some _ =>
      b ← Mutable m;
      if b : bool then mret m
      else
        res ← dup m;
        c ← imm_deref res;
        _ ← imm_write res (ICell (payload c) true);
        mret res
  end.

(** [AsMutable] of a struct, which has no guard against nil. *)
Definition struct_AsMutable (s : ptr) : M W ptr :=
  b ← Mutable s;
  if b : bool then mret s
  else
    c ← imm_deref s;
    imm_new (ICell (payload c) true).

Definition AsImmutable (m v : ptr) : M W ptr :=
  match m with
  | None => mret None
  | Some _ =>
      if bool_decide (v = m) then mret m
      else
        c ← imm_deref m;
        _ ← imm_write m (ICell (payload c) false);
        mret m
  end.

Definition WithMutable (m : ptr) (f : ptr → M W unit) : M W ptr :=
  res ← AsMutable m;
  _ ← f res;
  AsImmutable res m.
Definition struct_WithMutable (s : ptr) (f : ptr → M W unit) : M W ptr :=
  res ← struct_AsMutable s;
  _ ← f res;
  AsImmutable res s.

Definition WithImmutable (m : ptr) (f : ptr → M W unit) : M W ptr :=
  c ← imm_deref m;
  let prev := mutable c in
  _ ← imm_write m (ICell (payload c) false);
  _ ← f m;
  c ← imm_deref m;
  _ ← imm_write m (ICell (payload c) prev);
  mret m.

(** The setters: in place when [m] is mutable, else on a copy. *)
Definition imm_update (m : ptr) (g : P → res P) : M W ptr :=
  c ← imm_deref m;
  if mutable c then
    p ← mlift (g (payload c));
    _ ← imm_write m (ICell p true);
    mret m
  else
    res ← dup m;
    c ← imm_deref res;
    p ← mlift (g (payload c));
    _ ← imm_write res (ICell p false);
    mret res.
End Immutable.

(** ** Slices *)
Section Slice.
Context {A W : Type} `{HasCells (list A) W}.

Definition slice_New (s : list A) : M W ptr := imm_new (ICell s false).
Definition slice_NewLen (zero : A) (l : Z) : M W ptr :=
  if (l <? 0)%Z then mpanic (PanicMsg "makeslice: len out of range")
  else imm_new (ICell (replicate (Z.to_nat l) zero) false).
Definition slice_Len (m : ptr) : M W Z :=
  match m with
  | None => mret 0%Z
  | Some _ => c ← imm_deref m; mret (Z.of_nat (length (payload c)))
  end.
Definition slice_Get (m : ptr) (i : Z) : M W A := c ← imm_deref m; mlift (go_index (payload c) i).
(** [Range] hands out the slice itself and no copy: the result refers to the place where the
    elements are, and [slice_elems] reads them there, as a [range] statement does. *)
Definition slice_Range (m : ptr) : M W ptr :=
  match m with None => mret None | Some _ => _ ← imm_deref m; mret m end.
Definition slice_elems (r : ptr) : M W (list A) :=
  match r with None => mret [] | Some _ => c ← imm_deref r; mret (payload c) end.
Definition slice_Set (m : ptr) (i : Z) (v : A) : M W ptr := imm_update m (λ l, go_update l i v).
Definition slice_Append (m : ptr) (v : list A) : M W ptr := imm_update m (λ l, Ok (l ++ v)).
End Slice.

(** ** Maps *)
Section Map.
Context {K V W : Type} `{Countable K} `{HasCells (gmap K V) W}.

Definition map_NewCap : M W ptr := imm_new (ICell ∅ false).
Definition map_New (inits : list (ptr → M W unit)) : M W ptr :=
  res ← map_NewCap;
  match inits with
  | [] => mret res
  | _ => WithMutable res (λ m, _ ← mmap (λ i, i m) inits; mret tt)
  end.
Definition map_Len (m : ptr) : M W Z :=
  match m with
  | None => mret 0%Z
  | Some _ => c ← imm_deref m; mret (Z.of_nat (size (payload c)))
  end.
Definition map_Get (m : ptr) (k : K) : M W (option V) := c ← imm_deref m; mret (payload c !! k).
(** As for slices, [Range] hands out the map itself, and [map_elems] reads it. *)
Definition map_Range (m : ptr) : M W ptr :=
  match m with None => mret None | Some _ => _ ← imm_deref m; mret m end.
Definition map_elems (r : ptr) : M W (gmap K V) :=
  match r with None => mret ∅ | Some _ => c ← imm_deref r; mret (payload c) end.
Definition map_Set (m : ptr) (k : K) (v : V) : M W ptr := imm_update m (λ t, Ok (<[k := v]> t)).
Definition map_Del (m : ptr) (k : K) : M W ptr :=
  c ← imm_deref m;
  match payload c !! k with
  | None => mret m
  | Some _ => imm_update m (λ t, Ok (delete k t))
  end.
End Map.

(** ** IsDeeplyNonMutable

    For structs without pointers ([struct_deep]) and for slices of pointers to such
    structs ([slice_deep]).  [seen] holds the structs and the slices met so far; the
    map is shared by the calls, so each hands it on. *)
Inductive seen_key := SeenSlice (a : nat) | SeenStruct (a : nat).
#[export] Instance seen_key_eq_dec : EqDecision seen_key.
Proof. solve_decision. Defined.
#[export] Instance seen_key_countable : Countable seen_key.
Proof.
  apply (inj_countable' (λ k, match k with SeenSlice a => inl a | SeenStruct a => inr a end)
    (λ s, match s with inl a => SeenSlice a | inr a => SeenStruct a end)).
  by intros [].
Defined.

Section Deep.
Context {S W : Type} `{HasCells S W, HasCells (list ptr) W}.

Definition struct_deep (s : ptr) (seen : gset seen_key) : M W (bool * gset seen_key) :=
  match s with
  | None => mret (true, seen)
  | Some a =>
      c ← imm_deref (P := S) s;
      if mutable c then mret (false, seen)
      else if bool_decide (SeenStruct a ∈ seen) then mret (true, seen)
      else mret (true, {[SeenStruct a]} ∪ seen)
  end.

Fixpoint deep_loop (vs : list ptr) (seen : gset seen_key) : M W (bool * gset seen_key) :=
  match vs with
  | [] => mret (true, seen)
  | None :: vs => deep_loop vs seen
  | v :: vs =>
      '(b, seen) ← struct_deep v seen;
      if b : bool then deep_loop vs seen else mret (false, seen)
  end.

Definition slice_deep (s : ptr) (seen : gset seen_key) : M W (bool * gset seen_key) :=
  match s with
  | None => mret (true, seen)
  | Some a =>
      c ← imm_deref (P := list ptr) s;
      if mutable c then mret (false, seen)
      else match payload c with
           | [] => mret (true, seen)
           | vs => if bool_decide (SeenSlice a ∈ seen) then mret (true, seen)
                   else deep_loop vs ({[SeenSlice a]} ∪ seen)
           end
  end.

(** The call with a nil map makes an empty one. *)
Definition IsDeeplyNonMutable (s : ptr) : M W bool :=
  '(b, _) ← slice_deep s ∅; mret b.
End Deep.

(** ** Values that are not mutable *)
Section Frozen.
Context {P W : Type} `{HasCells P W}.
Implicit Types (w : W) (p q : P).

(** The value at [a] is [p] and is not mutable. *)
Definition frozen w (a : nat) p : Prop := cells w !! a = Some (ICell p false).

(** Code that leaves every such value as it is. *)
Class Keeps {A} (m : M W A) : Prop :=
  keeps : ∀ w x w' a p, m w = Ok (x, w') → frozen w a p → frozen w' a p.

#[export] Instance keeps_ret {A} (x : A) : Keeps (mret x).
Proof. by intros w y w' a p [= <- <-]. Qed.
#[export] Instance keeps_lift {A} (r : res A) : Keeps (mlift r).
Proof. intros w y w' a p. unfold mlift. destruct r; [|done]. by intros [= <- <-]. Qed.
#[export] Instance keeps_bind {A B} (m : M W A) (f : A → M W B) :
  Keeps m → (∀ x, Keeps (f x)) → Keeps (m ≫= f).
Proof. intros Hm Hf w y w' a p (x & w1 & H1 & H2)%M_bind_Ok Ha. eapply Hf, Hm; eauto. Qed.
#[export] Instance keeps_deref m : Keeps (imm_deref m).
Proof. intros w y w' a p. unfold imm_deref. destruct (store_deref _ _); [|done]. by intros [= <- <-]. Qed.
#[export] Instance keeps_new c : Keeps (imm_new c).
Proof.
  intros w y w' a p [= <- <-] Ha. unfold frozen. rewrite cells_put, lookup_app_l; [done|].
  by eapply lookup_lt_Some.
Qed.

(** ** One equation per operation *)
Lemma insert_last {A} (l : list A) x y : <[length l := y]> (l ++ [x]) = l ++ [y].
Proof. rewrite insert_app_r_alt, Nat.sub_diag by done. done. Qed.
Lemma lookup_last {A} (l : list A) x : (l ++ [x]) !! length l = Some x.
Proof. by apply list_lookup_middle. Qed.

Lemma deref_run w a c : cells w !! a = Some c → imm_deref (Some a) w = Ok (c, w).
Proof. intros Ha. unfold imm_deref, store_deref. by rewrite Ha. Qed.
Lemma deref_bad {B} w m e (f : icell P → M W B) : store_deref (cells w) m = Panic e → (imm_deref m ≫= f) w = Panic e.
Proof. intros Hm. unfold mbind, M_bind, imm_deref. by rewrite Hm. Qed.

Lemma dup_run w a c :
  cells w !! a = Some c →
  dup (Some a) w = Ok (Some (length (cells w)), put_cells (cells w ++ [ICell (payload c) false]) w).
Proof. intros Ha. unfold dup. by mstep (deref_run w a c Ha). Qed.

Lemma AsMutable_run w a c :
  cells w !! a = Some c →
  AsMutable (Some a) w =
  if mutable c then Ok (Some a, w)
  else Ok (Some (length (cells w)), put_cells (cells w ++ [ICell (payload c) true]) w).
Proof.
  intros Ha. unfold AsMutable, Mutable.
  rewrite (M_bind_run _ _ _ (mutable c) w) by (by mstep (deref_run w a c Ha)).
  destruct (mutable c); [done|]. mstep (dup_run w a c Ha).
  mstep (deref_run (put_cells (cells w ++ [ICell (payload c) false]) w) (length (cells w)) (ICell (payload c) false)
    ltac:(rewrite cells_put; apply lookup_last)).
  unfold mbind, M_bind, imm_write, mret, M_ret. by rewrite cells_put, put_put, insert_last.
Qed.
Lemma struct_AsMutable_run w a c :
  cells w !! a = Some c →
  struct_AsMutable (Some a) w =
  if mutable c then Ok (Some a, w)
  else Ok (Some (length (cells w)), put_cells (cells w ++ [ICell (payload c) true]) w).
Proof.
  intros Ha. unfold struct_AsMutable, Mutable.
  rewrite (M_bind_run _ _ _ (mutable c) w) by (by mstep (deref_run w a c Ha)).
  destruct (mutable c); [done|]. by mstep (deref_run w a c Ha).
Qed.
Lemma AsImmutable_run w a c v :
  cells w !! a = Some c →
  AsImmutable (Some a) v w =
  if bool_decide (v = Some a) then Ok (Some a, w)
  else Ok (Some a, put_cells (<[a := ICell (payload c) false]> (cells w)) w).
Proof.
  intros Ha. unfold AsImmutable. case_bool_decide; [done|]. by mstep (deref_run w a c Ha).
Qed.
Lemma update_run w a c g :
  cells w !! a = Some c →
  imm_update (Some a) g w =
  p ← g (payload c);
  if mutable c then Ok (Some a, put_cells (<[a := ICell p true]> (cells w)) w)
  else Ok (Some (length (cells w)), put_cells (cells w ++ [ICell p false]) w).
Proof.
  intros Ha. unfold imm_update. mstep (deref_run w a c Ha). destruct (mutable c).
  - by destruct (g (payload c)).
  - mstep (dup_run w a c Ha).
    mstep (deref_run (put_cells (cells w ++ [ICell (payload c) false]) w) (length (cells w))
      (ICell (payload c) false) ltac:(rewrite cells_put; apply lookup_last)). cbn [payload].
    destruct (g (payload c)) as [p|]; [|done].
    unfold mbind, M_bind, imm_write, mret, M_ret, mlift. cbn. by rewrite cells_put, put_put, insert_last.
Qed.

(** ** No operation changes them *)
Lemma frozen_put w l a p : cells w `prefix_of` l → frozen w a p → frozen (put_cells l w) a p.
Proof. intros Hl Ha. unfold frozen. rewrite cells_put. by eapply prefix_lookup_Some. Qed.
Lemma frozen_insert w a' c a p :
  (a' = a → c = ICell p false) → frozen w a p → frozen (put_cells (<[a' := c]> (cells w)) w) a p.
Proof.
  intros Hc Ha. unfold frozen in *. rewrite cells_put. destruct (decide (a' = a)) as [->|].
  - rewrite Hc by done. rewrite list_lookup_insert_eq; [done|by eapply lookup_lt_Some].
  - by rewrite list_lookup_insert_ne.
Qed.

(** The operations fail on nil and on nothing else but a bad index. *)
Lemma update_nil w g : imm_update None g w = Panic NilDeref.
Proof. done. Qed.

Ltac keeps_cases m w :=
  destruct m as [a'|]; [destruct (cells w !! a') as [c|] eqn:Hc|].

#[export] Instance keeps_AsMutable m : Keeps (AsMutable m).
Proof.
  intros w x w' a p Hr Ha. keeps_cases m w.
  - rewrite (AsMutable_run w a' c Hc) in Hr. destruct (mutable c); injection Hr as <- <-; [done|].
    apply frozen_put; [by eexists|done].
  - unfold AsMutable, Mutable, mbind, M_bind, imm_deref in Hr. cbn in Hr. by rewrite Hc in Hr.
  - by injection Hr as <- <-.
Qed.
#[export] Instance keeps_struct_AsMutable m : Keeps (struct_AsMutable m).
Proof.
  intros w x w' a p Hr Ha. keeps_cases m w.
  - rewrite (struct_AsMutable_run w a' c Hc) in Hr. destruct (mutable c); injection Hr as <- <-; [done|].
    apply frozen_put; [by eexists|done].
  - unfold struct_AsMutable, Mutable, mbind, M_bind, imm_deref in Hr. cbn in Hr. by rewrite Hc in Hr.
  - done.
Qed.
#[export] Instance keeps_AsImmutable m v : Keeps (AsImmutable m v).
Proof.
  intros w x w' a p Hr Ha. keeps_cases m w.
  - rewrite (AsImmutable_run w a' c v Hc) in Hr. case_bool_decide; injection Hr as <- <-; [done|].
    apply frozen_insert; [|done]. intros ->. unfold frozen in Ha. rewrite Hc in Ha. by injection Ha as ->.
  - unfold AsImmutable in Hr. case_bool_decide; [by injection Hr as <- <-|].
    unfold mbind, M_bind, imm_deref in Hr. cbn in Hr. by rewrite Hc in Hr.
  - by injection Hr as <- <-.
Qed.
#[export] Instance keeps_update m g : Keeps (imm_update m g).
Proof.
  intros w x w' a p Hr Ha. keeps_cases m w.
  - rewrite (update_run w a' c g Hc) in Hr. apply bind_Ok in Hr as (q & _ & Hr).
    destruct (mutable c) eqn:Hm; injection Hr as <- <-.
    + apply frozen_insert; [|done]. intros ->. unfold frozen in Ha. rewrite Hc in Ha. by injection Ha as ->.
    + apply frozen_put; [by eexists|done].
  - unfold imm_update, mbind, M_bind, imm_deref in Hr. cbn in Hr. by rewrite Hc in Hr.
  - done.
Qed.
#[export] Instance keeps_WithMutable m f : (∀ x, Keeps (f x)) → Keeps (WithMutable m f).
Proof. intros Hf. apply _. Qed.
#[export] Instance keeps_struct_WithMutable m f : (∀ x, Keeps (f x)) → Keeps (struct_WithMutable m f).
Proof. intros Hf. apply _. Qed.

(** [WithImmutable] writes the flag twice: to a value that is not mutable it writes what
    is there. *)
#[export] Instance keeps_WithImmutable m f : (∀ x, Keeps (f x)) → Keeps (WithImmutable m f).
Proof.
  intros Hf w x w' a p Hr Ha. keeps_cases m w.
  2: { unfold WithImmutable, mbind, M_bind, imm_deref in Hr. cbn in Hr. by rewrite Hc in Hr. }
  2: done.
  unfold WithImmutable in Hr. rewrite (M_bind_run _ _ _ _ _ (deref_run w a' c Hc)) in Hr.
  apply M_bind_Ok in Hr as (u1 & w1 & [= <- <-] & Hr).
  apply M_bind_Ok in Hr as (u2 & w2 & H2 & Hr).
  assert (frozen w2 a p) as Ha2.
  { eapply (Hf _ _ _ _ _ _ H2), frozen_insert; [|done]. intros ->. unfold frozen in Ha.
    rewrite Hc in Ha. by injection Ha as ->. }
  apply M_bind_Ok in Hr as (c2 & w3 & H3 & Hr). unfold imm_deref in H3.
  apply bind_Ok in H3 as (c' & Hc2 & [= -> <-]). apply M_bind_Ok in Hr as (u4 & w4 & [= <- <-] & [= <- <-]).
  apply frozen_insert; [|done]. intros ->. unfold frozen in Ha, Ha2. rewrite Hc in Ha. injection Ha as ->.
  cbn in Hc2. rewrite Ha2 in Hc2. by injection Hc2 as <-.
Qed.

(** ** WithMutable *)

(** What [WithMutable] does on a value that is not mutable: the callback runs on a new
    struct with the same data, which then is the result and not mutable. *)
Lemma WithMutable_run w a p f u w2 c2 :
  frozen w a p → let n := length (cells w) in
  f (Some n) (put_cells (cells w ++ [ICell p true]) w) = Ok (u, w2) →
  cells w2 !! n = Some c2 →
  WithMutable (Some a) f w = Ok (Some n, put_cells (<[n := ICell (payload c2) false]> (cells w2)) w2).
Proof.
  intros Ha n Hf Hc2. unfold WithMutable.
  rewrite (M_bind_run _ _ _ (Some n) (put_cells (cells w ++ [ICell p true]) w))
    by (by rewrite (AsMutable_run w a (ICell p false) Ha)).
  mstep Hf. rewrite (AsImmutable_run w2 n c2 (Some a) Hc2). rewrite bool_decide_eq_false_2; [done|].
  intros [= ->]. apply lookup_lt_Some in Ha. unfold n in Ha. lia.
Qed.

(** A callback that changes its value step by step, and the same steps without one. *)
Fixpoint edits_in (gs : list (P → res P)) (m : ptr) : M W unit :=
  match gs with
  | [] => mret tt
  | g :: gs => _ ← imm_update m g; edits_in gs m
  end.
Fixpoint edits_out (gs : list (P → res P)) (m : ptr) : M W ptr :=
  match gs with
  | [] => mret m
  | g :: gs => m ← imm_update m g; edits_out gs m
  end.
Fixpoint edits (gs : list (P → res P)) (p : P) : res P :=
  match gs with
  | [] => Ok p
  | g :: gs => p ← g p; edits gs p
  end.

Lemma edits_in_run gs w a p :
  cells w !! a = Some (ICell p true) →
  edits_in gs (Some a) w =
  q ← edits gs p; Ok (tt, put_cells (<[a := ICell q true]> (cells w)) w).
Proof.
  revert w p. induction gs as [|g gs IH]; intros w p Ha; cbn [edits_in edits].
  - cbn. rewrite list_insert_id by done. by rewrite put_cells_id.
  - unfold mbind at 1, M_bind. rewrite (update_run w a _ g Ha). cbn [payload mutable].
    destruct (g p) as [q|]; cbn; [|done].
    assert (cells (put_cells (<[a := ICell q true]> (cells w)) w) !! a = Some (ICell q true)) as Hq.
    { rewrite cells_put. apply list_lookup_insert_eq. by eapply lookup_lt_Some. }
    rewrite (IH _ q Hq). destruct (edits gs q); cbn; [|done]. by rewrite cells_put, put_put, list_insert_insert_eq.
Qed.
Lemma edits_out_run gs w a p :
  frozen w a p →
  match edits gs p with
  | Ok q => ∃ m w' new, edits_out gs (Some a) w = Ok (Some m, w') ∧ frozen w' m q ∧
      w' = put_cells (cells w ++ new) w ∧ length new = length gs
  | Panic e => edits_out gs (Some a) w = Panic e
  end.
Proof.
  revert w a p. induction gs as [|g gs IH]; intros w a p Ha; cbn [edits_out edits].
  - exists a, w, []. rewrite app_nil_r, put_cells_id. done.
  - destruct (g p) as [q|e] eqn:Hg; cbn.
    2: { unfold mbind, M_bind. rewrite (update_run w a _ g Ha). cbn [payload]. by rewrite Hg. }
    assert (imm_update (Some a) g w = Ok (Some (length (cells w)), put_cells (cells w ++ [ICell q false]) w)) as Hu.
    { rewrite (update_run w a _ g Ha). cbn [payload mutable]. by rewrite Hg. }
    assert (frozen (put_cells (cells w ++ [ICell q false]) w) (length (cells w)) q) as Hq
      by (unfold frozen; rewrite cells_put; apply lookup_last).
    specialize (IH _ _ _ Hq). destruct (edits gs q) as [q'|e].
    + destruct IH as (m & w' & new & Hr & Hf & Hw & Hl). exists m, w', (ICell q false :: new).
      split; [by mstep Hu|]. split; [done|]. split; [|cbn; by rewrite Hl].
      by rewrite Hw, cells_put, put_put, <-app_assoc.
    + by mstep Hu.
Qed.

(** Changing a value in the callback of [WithMutable] gives what the same changes
    give one after the other, or fails where they fail, but makes one new struct
    instead of one for each change; the value itself is as it was. *)
Theorem WithMutable_batches gs w a p :
  frozen w a p →
  match edits gs p with
  | Ok q =>
      WithMutable (Some a) (edits_in gs) w =
        Ok (Some (length (cells w)), put_cells (cells w ++ [ICell q false]) w) ∧
      ∃ m new, edits_out gs (Some a) w = Ok (Some m, put_cells (cells w ++ new) w) ∧
        (cells w ++ new) !! m = Some (ICell q false) ∧ length new = length gs
  | Panic e =>
      WithMutable (Some a) (edits_in gs) w = Panic e ∧ edits_out gs (Some a) w = Panic e
  end.
Proof.
  intros Ha. pose proof (edits_out_run gs w a p Ha) as Hout.
  set (n := length (cells w)). set (w1 := put_cells (cells w ++ [ICell p true]) w).
  assert (cells w1 !! n = Some (ICell p true)) as Hn by (unfold w1; rewrite cells_put; apply lookup_last).
  pose proof (edits_in_run gs w1 n p Hn) as Hin. destruct (edits gs p) as [q|e]; cbn in Hin.
  - assert (edits_in gs (Some n) w1 = Ok (tt, put_cells (cells w ++ [ICell q true]) w)) as Hin'.
    { rewrite Hin. unfold w1, n. by rewrite cells_put, put_put, insert_last. }
    split.
    + rewrite (WithMutable_run w a p _ tt _ (ICell q true) Ha Hin'); fold n.
      * cbn [payload]. unfold n. by rewrite cells_put, put_put, insert_last.
      * rewrite cells_put. apply lookup_last.
    + destruct Hout as (m & w' & new & Hr & Hf & -> & Hl). exists m, new. split; [done|].
      unfold frozen in Hf. by rewrite cells_put in Hf.
  - split; [|done]. unfold WithMutable.
    rewrite (M_bind_run _ _ _ (Some n) w1) by exact (AsMutable_run w a (ICell p false) Ha).
    unfold mbind, M_bind. by rewrite Hin.
Qed.
End Frozen.

(** ** IsDeeplyNonMutable and its meaning *)
Section DeepSpec.
Context {S W : Type} `{HasCells S W, HasCells (list ptr) W}.

(** The pointers in [s] point to structs. *)
Definition points_to_structs (w : W) (s : ptr) : Prop :=
  ∀ a, s = Some a → ∃ c, cells (P := list ptr) w !! a = Some c ∧
    ∀ v, Some v ∈ payload c → is_Some (cells (P := S) w !! v).
(** Neither [s] nor anything it points to is mutable. *)
Definition deeply_frozen (w : W) (s : ptr) : Prop :=
  ∀ a, s = Some a → ∃ vs, frozen w a vs ∧ ∀ v, Some v ∈ vs → ∃ p : S, frozen w v p.

Lemma struct_deep_run w v c seen :
  cells (P := S) w !! v = Some c →
  ∃ seen', struct_deep (S := S) (Some v) seen w = Ok ((negb (mutable c), seen'), w).
Proof.
  intros Hc. unfold struct_deep. mstep (deref_run w v c Hc).
  destruct (mutable c); [by eexists|]. case_bool_decide; by eexists.
Qed.
Lemma deep_loop_run w vs seen :
  (∀ v, Some v ∈ vs → is_Some (cells (P := S) w !! v)) →
  ∃ b seen', deep_loop (S := S) vs seen w = Ok ((b, seen'), w) ∧
    (b = true ↔ ∀ v, Some v ∈ vs → ∃ p : S, frozen w v p).
Proof.
  revert seen. induction vs as [|[v|] vs IH]; intros seen Hvs; cbn [deep_loop].
  - exists true, seen. split; [done|]. split; [|done]. by intros _ v ?%elem_of_nil.
  - destruct (Hvs v) as [c Hc]; [by left|]. destruct (struct_deep_run w v c seen Hc) as [seen1 H1].
    mstep H1. destruct (mutable c) eqn:Hm; cbn [negb].
    + exists false, seen1. split; [done|]. split; [done|]. intros Hall.
      destruct (Hall v) as [p Hp]; [by left|]. unfold frozen in Hp. rewrite Hc in Hp. by injection Hp as ->.
    + destruct (IH seen1) as (b & seen2 & H2 & Hb); [intros v' Hv'; apply Hvs; by right|].
      exists b, seen2. split; [done|]. rewrite Hb. setoid_rewrite elem_of_cons. split.
      * intros Hall v' [[= ->]|Hv']; [|by apply Hall].
        exists (payload c). unfold frozen. rewrite Hc. destruct c. cbn in *. by subst.
      * intros Hall v' Hv'. apply Hall. by right.
  - destruct (IH seen) as (b & seen2 & H2 & Hb); [intros v' Hv'; apply Hvs; by right|].
    exists b, seen2. split; [done|]. rewrite Hb. setoid_rewrite elem_of_cons. naive_solver.
Qed.

(** [IsDeeplyNonMutable] on a slice always returns, without changing anything, and it
    is true exactly when neither the slice nor any struct in it is mutable: the map of
    what was seen never hides a mutable value. *)
Theorem IsDeeplyNonMutable_spec w s :
  points_to_structs w s →
  ∃ b, IsDeeplyNonMutable (S := S) s w = Ok (b, w) ∧ (b = true ↔ deeply_frozen w s).
Proof.
  intros Hs. unfold IsDeeplyNonMutable. destruct s as [a|].
  2: { exists true. split; [done|]. split; [|done]. by intros _ a. }
  destruct (Hs a eq_refl) as (c & Hc & Hvs).
  assert (∀ b, (∃ seen, slice_deep (S := S) (Some a) ∅ w = Ok ((b, seen), w)) →
    ('(b, _) ← slice_deep (S := S) (Some a) ∅; mret b) w = Ok (b, w)) as Hrun.
  { intros b [seen Hb]. by mstep Hb. }
  assert (slice_deep (S := S) (Some a) ∅ w =
    (if mutable c then mret (false, ∅)
     else match payload c with
          | [] => mret (true, ∅)
          | vs => if bool_decide (SeenSlice a ∈ (∅ : gset seen_key)) then mret (true, ∅)
                  else deep_loop (S := S) vs ({[SeenSlice a]} ∪ ∅)
          end) w) as Hsd.
  { unfold slice_deep. by mstep (deref_run w a c Hc). }
  assert (deeply_frozen w (Some a) ↔ mutable c = false ∧ ∀ v, Some v ∈ payload c → ∃ p : S, frozen w v p) as Hdf.
  { split.
    - intros Hd. destruct (Hd a eq_refl) as (vs & Ha & Hall). unfold frozen in Ha. rewrite Hc in Ha.
      by injection Ha as ->.
    - intros [Hm Hall] a' [= <-]. exists (payload c). split; [|done]. unfold frozen. rewrite Hc.
      destruct c. cbn in *. by subst. }
  destruct (mutable c) eqn:Hm.
  - exists false. split; [apply Hrun; by exists ∅|]. rewrite Hdf. by split; [|intros [? _]].
  - destruct (payload c) as [|v vs] eqn:Hp.
    + exists true. split; [apply Hrun; by exists ∅|]. rewrite Hdf. split; [|done]. intros _. split; [done|].
      by intros v ?%elem_of_nil.
    + destruct (deep_loop_run w (v :: vs) {[SeenSlice a]} Hvs) as (b & seen & Hl & Hb).
      exists b. split; [|rewrite Hdf, Hb; by split; [|intros []]]. apply Hrun. exists seen. rewrite Hsd.
      rewrite bool_decide_eq_false_2 by set_solver. by rewrite union_empty_r_L.
Qed.
End DeepSpec.

(** ** Range, and the other operations of slices and maps *)
Section Ranges.
Context {A W : Type} `{HasCells (list A) W}.
Lemma slice_Range_run (w : W) a (c : icell (list A)) : cells w !! a = Some c → slice_Range (Some a) w = Ok (Some a, w).
Proof. intros Ha. unfold slice_Range. by mstep (deref_run w a c Ha). Qed.
Lemma slice_elems_run (w : W) a (c : icell (list A)) : cells w !! a = Some c → slice_elems (Some a) w = Ok (payload c, w).
Proof. intros Ha. unfold slice_elems. by mstep (deref_run w a c Ha). Qed.
End Ranges.
Section MapRanges.
Context {K V W : Type} `{Countable K} `{HasCells (gmap K V) W}.
Lemma map_Range_run (w : W) a (c : icell (gmap K V)) : cells w !! a = Some c → map_Range (Some a) w = Ok (Some a, w).
Proof. intros Ha. unfold map_Range. by mstep (deref_run w a c Ha). Qed.
Lemma map_elems_run (w : W) a (c : icell (gmap K V)) : cells w !! a = Some c → map_elems (Some a) w = Ok (payload c, w).
Proof. intros Ha. unfold map_elems. by mstep (deref_run w a c Ha). Qed.

#[export] Instance keeps_map_Del m k : Keeps (P := gmap K V) (map_Del m k).
Proof. unfold map_Del. apply keeps_bind; [apply _|]. intros c. destruct (payload c !! k); apply _. Qed.
End MapRanges.

(** C10: a value that is not mutable never changes: no operation of a generated type
    changes one, whichever value it is called on, and neither do [WithMutable] and
    [WithImmutable] with callbacks that use these operations.  The setters, [Set] and
    [Append] of slices and [Set] of maps are [imm_update] with what they change. *)
Theorem immutable_never_changes {P W : Type} `{HasCells P W} m v g (f : ptr → M W unit) :
  (∀ x, Keeps (f x)) →
  Keeps (AsMutable m) ∧ Keeps (struct_AsMutable m) ∧ Keeps (AsImmutable m v) ∧ Keeps (imm_update m g) ∧
  Keeps (WithMutable m f) ∧ Keeps (struct_WithMutable m f) ∧ Keeps (WithImmutable m f) ∧
  ∀ K V `{Countable K} `{HasCells (gmap K V) W} m' k, Keeps (P := gmap K V) (map_Del (K := K) (V := V) m' k).
Proof. intros Hf. split_and!; apply _. Qed.

(** ** Witnesses *)
Lemma immutable_never_changes_witness :
  Keeps (imm_update (P := list nat) (W := list (icell (list nat))) (Some 0) (λ l, Ok (l ++ [1]))) ∧
  Keeps (WithImmutable (P := list nat) (W := list (icell (list nat))) (Some 0) (λ m, _ ← imm_update m (λ l, Ok (l ++ [1])); mret tt)).
Proof.
  destruct (immutable_never_changes (P := list nat) (W := list (icell (list nat))) (Some 0) None (λ l, Ok (l ++ [1]))
    (λ m, _ ← imm_update m (λ l, Ok (l ++ [1])); mret tt)) as (_ & _ & _ & H1 & _ & _ & H2 & _).
  - intros x. apply _.
  - split; [exact H1|exact H2].
Defined.

(** Two changes of a slice. *)
Lemma WithMutable_batches_witness :
  let w := [ICell [1] false] in
  let gs : list (list nat → res (list nat)) := [λ l, Ok (l ++ [2]); λ l, go_update l 0 7] in
  WithMutable (Some 0) (edits_in gs) w = Ok (Some 1, w ++ [ICell [7; 2] false]) ∧
  ∃ m new, edits_out gs (Some 0) w = Ok (Some m, w ++ new) ∧ (w ++ new) !! m = Some (ICell [7; 2] false) ∧ length new = 2.
Proof.
  exact (WithMutable_batches (W := list (icell (list nat))) [λ l, Ok (l ++ [2]); λ l, go_update l 0 7] [ICell [1] false] 0 [1] eq_refl).
Defined.
