(* ===== verification/Elements.v ===== *)
(** * The HTML elements of myitcv.io/react

    Models [gen_react_coreGen.go] and [gen_react_cssGen.go] of
    [src/_vendor/src/myitcv.io/react]: for each of the 44 elements its [Props]
    struct and the function that turns it into a [createElement] call.

    Every [Props] struct has the thirteen fields of the generator's [html]
    template; they are the record [HTMLProps], and the struct of an element with
    attributes of its own holds an [HTMLProps] and those.  The struct an element
    function fills ([_AProps] and so on) is a GopherJS struct around a JavaScript
    object: assigning a field sets the property its tag names, so the function's
    body is the list of its assignments, in order, run on an empty object.  A nil
    [DataSet] is the empty list of entries; a nil event interface is [None]. *)

From S2P Require Import Prelude React.

(** ** CSS, [gen_react_cssGen.go] *)
Record CSS := {
  Float : string;
  FontSize : string;
  FontStyle : string;
  Height : string;
  Left : string;
  MarginTop : string;
  MaxHeight : string;
  MinHeight : string;
  Overflow : string;
  OverflowY : string;
  Position : string;
  Resize : string;
  Top : string;
  Width : string;
  ZIndex : string;
}.

(** [&CSS{...}] literals name the fields they set: a literal is [css_zero] with
    those fields changed. *)
Definition css_zero : CSS := {|
  Float := "";
  FontSize := "";
  FontStyle := "";
  Height := "";
  Left := "";
  MarginTop := "";
  MaxHeight := "";
  MinHeight := "";
  Overflow := "";
  OverflowY := "";
  Position := "";
  Resize := "";
  Top := "";
  Width := "";
  ZIndex := "";
|}.

Definition css_Float (v : string) (c : CSS) : CSS := {|
Float := v; FontSize := FontSize c; FontStyle := FontStyle c; Height := Height c; Left := Left c; MarginTop := MarginTop c; MaxHeight := MaxHeight c; MinHeight := MinHeight c; Overflow := Overflow c; OverflowY := OverflowY c; Position := Position c; Resize := Resize c; Top := Top c; Width := Width c; ZIndex := ZIndex c;
|}.
Definition css_FontSize (v : string) (c : CSS) : CSS := {|
Float := Float c; FontSize := v; FontStyle := FontStyle c; Height := Height c; Left := Left c; MarginTop := MarginTop c; MaxHeight := MaxHeight c; MinHeight := MinHeight c; Overflow := Overflow c; OverflowY := OverflowY c; Position := Position c; Resize := Resize c; Top := Top c; Width := Width c; ZIndex := ZIndex c;
|}.
Definition css_FontStyle (v : string) (c : CSS) : CSS := {|
Float := Float c; FontSize := FontSize c; FontStyle := v; Height := Height c; Left := Left c; MarginTop := MarginTop c; MaxHeight := MaxHeight c; MinHeight := MinHeight c; Overflow := Overflow c; OverflowY := OverflowY c; Position := Position c; Resize := Resize c; Top := Top c; Width := Width c; ZIndex := ZIndex c;
|}.
Definition css_Height (v : string) (c : CSS) : CSS := {|
Float := Float c; FontSize := FontSize c; FontStyle := FontStyle c; Height := v; Left := Left c; MarginTop := MarginTop c; MaxHeight := MaxHeight c; MinHeight := MinHeight c; Overflow := Overflow c; OverflowY := OverflowY c; Position := Position c; Resize := Resize c; Top := Top c; Width := Width c; ZIndex := ZIndex c;
|}.
Definition css_Left (v : string) (c : CSS) : CSS := {|
Float := Float c; FontSize := FontSize c; FontStyle := FontStyle c; Height := Height c; Left := v; MarginTop := MarginTop c; MaxHeight := MaxHeight c; MinHeight := MinHeight c; Overflow := Overflow c; OverflowY := OverflowY c; Position := Position c; Resize := Resize c; Top := Top c; Width := Width c; ZIndex := ZIndex c;
|}.
Definition css_MarginTop (v : string) (c : CSS) : CSS := {|
Float := Float c; FontSize := FontSize c; FontStyle := FontStyle c; Height := Height c; Left := Left c; MarginTop := v; MaxHeight := MaxHeight c; MinHeight := MinHeight c; Overflow := Overflow c; OverflowY := OverflowY c; Position := Position c; Resize := Resize c; Top := Top c; Width := Width c; ZIndex := ZIndex c;
|}.
Definition css_MaxHeight (v : string) (c : CSS) : CSS := {|
Float := Float c; FontSize := FontSize c; FontStyle := FontStyle c; Height := Height c; Left := Left c; MarginTop := MarginTop c; MaxHeight := v; MinHeight := MinHeight c; Overflow := Overflow c; OverflowY := OverflowY c; Position := Position c; Resize := Resize c; Top := Top c; Width := Width c; ZIndex := ZIndex c;
|}.
Definition css_MinHeight (v : string) (c : CSS) : CSS := {|
Float := Float c; FontSize := FontSize c; FontStyle := FontStyle c; Height := Height c; Left := Left c; MarginTop := MarginTop c; MaxHeight := MaxHeight c; MinHeight := v; Overflow := Overflow c; OverflowY := OverflowY c; Position := Position c; Resize := Resize c; Top := Top c; Width := Width c; ZIndex := ZIndex c;
|}.
Definition css_Overflow (v : string) (c : CSS) : CSS := {|
Float := Float c; FontSize := FontSize c; FontStyle := FontStyle c; Height := Height c; Left := Left c; MarginTop := MarginTop c; MaxHeight := MaxHeight c; MinHeight := MinHeight c; Overflow := v; OverflowY := OverflowY c; Position := Position c; Resize := Resize c; Top := Top c; Width := Width c; ZIndex := ZIndex c;
|}.
Definition css_OverflowY (v : string) (c : CSS) : CSS := {|
Float := Float c; FontSize := FontSize c; FontStyle := FontStyle c; Height := Height c; Left := Left c; MarginTop := MarginTop c; MaxHeight := MaxHeight c; MinHeight := MinHeight c; Overflow := Overflow c; OverflowY := v; Position := Position c; Resize := Resize c; Top := Top c; Width := Width c; ZIndex := ZIndex c;
|}.
Definition css_Position (v : string) (c : CSS) : CSS := {|
Float := Float c; FontSize := FontSize c; FontStyle := FontStyle c; Height := Height c; Left := Left c; MarginTop := MarginTop c; MaxHeight := MaxHeight c; MinHeight := MinHeight c; Overflow := Overflow c; OverflowY := OverflowY c; Position := v; Resize := Resize c; Top := Top c; Width := Width c; ZIndex := ZIndex c;
|}.
Definition css_Resize (v : string) (c : CSS) : CSS := {|
Float := Float c; FontSize := FontSize c; FontStyle := FontStyle c; Height := Height c; Left := Left c; MarginTop := MarginTop c; MaxHeight := MaxHeight c; MinHeight := MinHeight c; Overflow := Overflow c; OverflowY := OverflowY c; Position := Position c; Resize := v; Top := Top c; Width := Width c; ZIndex := ZIndex c;
|}.
Definition css_Top (v : string) (c : CSS) : CSS := {|
Float := Float c; FontSize := FontSize c; FontStyle := FontStyle c; Height := Height c; Left := Left c; MarginTop := MarginTop c; MaxHeight := MaxHeight c; MinHeight := MinHeight c; Overflow := Overflow c; OverflowY := OverflowY c; Position := Position c; Resize := Resize c; Top := v; Width := Width c; ZIndex := ZIndex c;
|}.
Definition css_Width (v : string) (c : CSS) : CSS := {|
Float := Float c; FontSize := FontSize c; FontStyle := FontStyle c; Height := Height c; Left := Left c; MarginTop := MarginTop c; MaxHeight := MaxHeight c; MinHeight := MinHeight c; Overflow := Overflow c; OverflowY := OverflowY c; Position := Position c; Resize := Resize c; Top := Top c; Width := v; ZIndex := ZIndex c;
|}.
Definition css_ZIndex (v : string) (c : CSS) : CSS := {|
Float := Float c; FontSize := FontSize c; FontStyle := FontStyle c; Height := Height c; Left := Left c; MarginTop := MarginTop c; MaxHeight := MaxHeight c; MinHeight := MinHeight c; Overflow := Overflow c; OverflowY := OverflowY c; Position := Position c; Resize := Resize c; Top := Top c; Width := Width c; ZIndex := v;
|}.

#[export] Instance CSS_eq_dec : EqDecision CSS.
Proof. solve_decision. Defined.

Module El.
Section El.
Context {RV : ReactValues}.

(** [CSS.hack]: nil stays nil, otherwise an object with every property. *)
Definition css_object (c : CSS) : object :=
  foldl (λ o '(k, v), obj_set o k (JStr v)) []
   [("float", Float c);
    ("fontSize", FontSize c);
    ("fontStyle", FontStyle c);
    ("height", Height c);
    ("left", Left c);
    ("marginTop", MarginTop c);
    ("maxHeight", MaxHeight c);
    ("minHeight", MinHeight c);
    ("overflow", Overflow c);
    ("overflowY", OverflowY c);
    ("position", Position c);
    ("resize", Resize c);
    ("top", Top c);
    ("width", Width c);
    ("zIndex", ZIndex c)].
Definition hack (c : option CSS) : jsval :=
  match c with
  | None => JNull
  | Some c => JObject (css_object c)
  end.

(** ** Props *)

(** The fields of the [html] attribute template. *)
Record HTMLProps := {
  AriaExpanded : bool;
  AriaHasPopup : bool;
  AriaLabelledBy : string;
  ClassName : string;
  DangerouslySetInnerHTML : option object;
  DataSet : list (string * string);
  ID : string;
  Key : string;
  OnChange : option Handler;
  OnClick : option Handler;
  Ref : option Handler;
  Role : string;
  Style : option CSS;
}.

Definition html_zero : HTMLProps := {|
  AriaExpanded := false; AriaHasPopup := false; AriaLabelledBy := ""; ClassName := "";
  DangerouslySetInnerHTML := None; DataSet := []; ID := ""; Key := "";
  OnChange := None; OnClick := None; Ref := None; Role := ""; Style := None;
|}.

Definition with_AriaExpanded (v : bool) (p : HTMLProps) : HTMLProps := {|
  AriaExpanded := v; AriaHasPopup := AriaHasPopup p; AriaLabelledBy := AriaLabelledBy p; ClassName := ClassName p; DangerouslySetInnerHTML := DangerouslySetInnerHTML p; DataSet := DataSet p; ID := ID p; Key := Key p; OnChange := OnChange p; OnClick := OnClick p; Ref := Ref p; Role := Role p; Style := Style p;
|}.
Definition with_AriaHasPopup (v : bool) (p : HTMLProps) : HTMLProps := {|
  AriaExpanded := AriaExpanded p; AriaHasPopup := v; AriaLabelledBy := AriaLabelledBy p; ClassName := ClassName p; DangerouslySetInnerHTML := DangerouslySetInnerHTML p; DataSet := DataSet p; ID := ID p; Key := Key p; OnChange := OnChange p; OnClick := OnClick p; Ref := Ref p; Role := Role p; Style := Style p;
|}.
Definition with_AriaLabelledBy (v : string) (p : HTMLProps) : HTMLProps := {|
  AriaExpanded := AriaExpanded p; AriaHasPopup := AriaHasPopup p; AriaLabelledBy := v; ClassName := ClassName p; DangerouslySetInnerHTML := DangerouslySetInnerHTML p; DataSet := DataSet p; ID := ID p; Key := Key p; OnChange := OnChange p; OnClick := OnClick p; Ref := Ref p; Role := Role p; Style := Style p;
|}.
Definition with_ClassName (v : string) (p : HTMLProps) : HTMLProps := {|
  AriaExpanded := AriaExpanded p; AriaHasPopup := AriaHasPopup p; AriaLabelledBy := AriaLabelledBy p; ClassName := v; DangerouslySetInnerHTML := DangerouslySetInnerHTML p; DataSet := DataSet p; ID := ID p; Key := Key p; OnChange := OnChange p; OnClick := OnClick p; Ref := Ref p; Role := Role p; Style := Style p;
|}.
Definition with_DangerouslySetInnerHTML (v : option object) (p : HTMLProps) : HTMLProps := {|
  AriaExpanded := AriaExpanded p; AriaHasPopup := AriaHasPopup p; AriaLabelledBy := AriaLabelledBy p; ClassName := ClassName p; DangerouslySetInnerHTML := v; DataSet := DataSet p; ID := ID p; Key := Key p; OnChange := OnChange p; OnClick := OnClick p; Ref := Ref p; Role := Role p; Style := Style p;
|}.
Definition with_DataSet (v : list (string * string)) (p : HTMLProps) : HTMLProps := {|
  AriaExpanded := AriaExpanded p; AriaHasPopup := AriaHasPopup p; AriaLabelledBy := AriaLabelledBy p; ClassName := ClassName p; DangerouslySetInnerHTML := DangerouslySetInnerHTML p; DataSet := v; ID := ID p; Key := Key p; OnChange := OnChange p; OnClick := OnClick p; Ref := Ref p; Role := Role p; Style := Style p;
|}.
Definition with_ID (v : string) (p : HTMLProps) : HTMLProps := {|
  AriaExpanded := AriaExpanded p; AriaHasPopup := AriaHasPopup p; AriaLabelledBy := AriaLabelledBy p; ClassName := ClassName p; DangerouslySetInnerHTML := DangerouslySetInnerHTML p; DataSet := DataSet p; ID := v; Key := Key p; OnChange := OnChange p; OnClick := OnClick p; Ref := Ref p; Role := Role p; Style := Style p;
|}.
Definition with_Key (v : string) (p : HTMLProps) : HTMLProps := {|
  AriaExpanded := AriaExpanded p; AriaHasPopup := AriaHasPopup p; AriaLabelledBy := AriaLabelledBy p; ClassName := ClassName p; DangerouslySetInnerHTML := DangerouslySetInnerHTML p; DataSet := DataSet p; ID := ID p; Key := v; OnChange := OnChange p; OnClick := OnClick p; Ref := Ref p; Role := Role p; Style := Style p;
|}.
Definition with_OnChange (v : option Handler) (p : HTMLProps) : HTMLProps := {|
  AriaExpanded := AriaExpanded p; AriaHasPopup := AriaHasPopup p; AriaLabelledBy := AriaLabelledBy p; ClassName := ClassName p; DangerouslySetInnerHTML := DangerouslySetInnerHTML p; DataSet := DataSet p; ID := ID p; Key := Key p; OnChange := v; OnClick := OnClick p; Ref := Ref p; Role := Role p; Style := Style p;
|}.
Definition with_OnClick (v : option Handler) (p : HTMLProps) : HTMLProps := {|
  AriaExpanded := AriaExpanded p; AriaHasPopup := AriaHasPopup p; AriaLabelledBy := AriaLabelledBy p; ClassName := ClassName p; DangerouslySetInnerHTML := DangerouslySetInnerHTML p; DataSet := DataSet p; ID := ID p; Key := Key p; OnChange := OnChange p; OnClick := v; Ref := Ref p; Role := Role p; Style := Style p;
|}.
Definition with_Ref (v : option Handler) (p : HTMLProps) : HTMLProps := {|
  AriaExpanded := AriaExpanded p; AriaHasPopup := AriaHasPopup p; AriaLabelledBy := AriaLabelledBy p; ClassName := ClassName p; DangerouslySetInnerHTML := DangerouslySetInnerHTML p; DataSet := DataSet p; ID := ID p; Key := Key p; OnChange := OnChange p; OnClick := OnClick p; Ref := v; Role := Role p; Style := Style p;
|}.
Definition with_Role (v : string) (p : HTMLProps) : HTMLProps := {|
  AriaExpanded := AriaExpanded p; AriaHasPopup := AriaHasPopup p; AriaLabelledBy := AriaLabelledBy p; ClassName := ClassName p; DangerouslySetInnerHTML := DangerouslySetInnerHTML p; DataSet := DataSet p; ID := ID p; Key := Key p; OnChange := OnChange p; OnClick := OnClick p; Ref := Ref p; Role := v; Style := Style p;
|}.
Definition with_Style (v : option CSS) (p : HTMLProps) : HTMLProps := {|
  AriaExpanded := AriaExpanded p; AriaHasPopup := AriaHasPopup p; AriaLabelledBy := AriaLabelledBy p; ClassName := ClassName p; DangerouslySetInnerHTML := DangerouslySetInnerHTML p; DataSet := DataSet p; ID := ID p; Key := Key p; OnChange := OnChange p; OnClick := OnClick p; Ref := Ref p; Role := Role p; Style := v;
|}.

(** ** Assignments to [rprops] *)
Definition stmt : Type := object → object.

(** [rprops.F = v], where the tag of [F] is [js:"k"]. *)
Definition assign (k : string) (v : jsval) : stmt := λ o, obj_set o k v.

(** [if props.F != "" { rprops.F = props.F }] *)
Definition assign_nonempty (k : string) (s : string) : stmt := λ o,
  if bool_decide (s = "") then o else obj_set o k (JStr s).

(** [if props.F != nil { rprops.o.Set(k, props.F.F) }] *)
Definition set_handler (k : string) (h : option Handler) : stmt := λ o,
  match h with Some h => obj_set o k (JFunc h) | None => o end.

(** [for dk, dv := range props.DataSet { rprops.o.Set("data-"+dk, dv) }] *)
Definition range_dataset (ds : list (string * string)) : stmt := λ o,
  foldl (λ o '(dk, dv), obj_set o ("data-" +:+ dk) (JStr dv)) o ds.

Definition ptr_val (o : option object) : jsval :=
  match o with Some o => JObject o | None => JNull end.

(** The object behind [rprops]: empty when [props] is nil. *)
Definition fill {P : Type} (props : option P) (body : P → list stmt) : object :=
  match props with
  | Some p => foldl (λ o s, s o) [] (body p)
  | None => []
  end.

(** ** Elements *)

Record AProps := AProps_ {
  A_html : HTMLProps;
  A_Href : string;
  A_Target : string;
  A_Title : string;
}.
Definition A_zero : AProps := AProps_ html_zero "" "" "".
Definition A_on_html (f : HTMLProps → HTMLProps) (p : AProps) : AProps :=
  AProps_ (f (A_html p)) (A_Href p) (A_Target p) (A_Title p).
Definition A_with_Href (v : string) (p : AProps) : AProps :=
  AProps_ (A_html p) v (A_Target p) (A_Title p).
Definition A_with_Target (v : string) (p : AProps) : AProps :=
  AProps_ (A_html p) (A_Href p) v (A_Title p).
Definition A_with_Title (v : string) (p : AProps) : AProps :=
  AProps_ (A_html p) (A_Href p) (A_Target p) v.

Definition A (props : option AProps) (children : list Element) : Element :=
  createElement (Tag "a") (JObject (fill props (λ p, [
    assign "aria-expanded" (JBool (AriaExpanded (A_html p)));
    assign "aria-haspopup" (JBool (AriaHasPopup (A_html p)));
    assign "aria-labelledby" (JStr (AriaLabelledBy (A_html p)));
    assign "className" (JStr (ClassName (A_html p)));
    assign "dangerouslySetInnerHTML" (ptr_val (DangerouslySetInnerHTML (A_html p)));
    range_dataset (DataSet (A_html p));
    assign "href" (JStr (A_Href p));
    assign_nonempty "id" (ID (A_html p));
    assign_nonempty "key" (Key (A_html p));
    set_handler "onChange" (OnChange (A_html p));
    set_handler "onClick" (OnClick (A_html p));
    set_handler "ref" (Ref (A_html p));
    assign "role" (JStr (Role (A_html p)));
    assign "style" (hack (Style (A_html p)));
    assign "target" (JStr (A_Target p));
    assign "title" (JStr (A_Title p))
  ]))) children.

Definition AbbrProps : Type := HTMLProps.

Definition Abbr (props : option AbbrProps) (children : list Element) : Element :=
  createElement (Tag "abbr") (JObject (fill props (λ p, [
    assign "aria-expanded" (JBool (AriaExpanded p));
    assign "aria-haspopup" (JBool (AriaHasPopup p));
    assign "aria-labelledby" (JStr (AriaLabelledBy p));
    assign "className" (JStr (ClassName p));
    assign "dangerouslySetInnerHTML" (ptr_val (DangerouslySetInnerHTML p));
    range_dataset (DataSet p);
    assign_nonempty "id" (ID p);
    assign_nonempty "key" (Key p);
    set_handler "onChange" (OnChange p);
    set_handler "onClick" (OnClick p);
    set_handler "ref" (Ref p);
    assign "role" (JStr (Role p));
    assign "style" (hack (Style p))
  ]))) children.

Definition ArticleProps : Type := HTMLProps.

Definition Article (props : option ArticleProps) (children : list Element) : Element :=
  createElement (Tag "article") (JObject (fill props (λ p, [
    assign "aria-expanded" (JBool (AriaExpanded p));
    assign "aria-haspopup" (JBool (AriaHasPopup p));
    assign "aria-labelledby" (JStr (AriaLabelledBy p));
    assign "className" (JStr (ClassName p));
    assign "dangerouslySetInnerHTML" (ptr_val (DangerouslySetInnerHTML p));
    range_dataset (DataSet p);
    assign_nonempty "id" (ID p);
    assign_nonempty "key" (Key p);
    set_handler "onChange" (OnChange p);
    set_handler "onClick" (OnClick p);
    set_handler "ref" (Ref p);
    assign "role" (JStr (Role p));
    assign "style" (hack (Style p))
  ]))) children.

Definition AsideProps : Type := HTMLProps.

Definition Aside (props : option AsideProps) (children : list Element) : Element :=
  createElement (Tag "aside") (JObject (fill props (λ p, [
    assign "aria-expanded" (JBool (AriaExpanded p));
    assign "aria-haspopup" (JBool (AriaHasPopup p));
    assign "aria-labelledby" (JStr (AriaLabelledBy p));
    assign "className" (JStr (ClassName p));
    assign "dangerouslySetInnerHTML" (ptr_val (DangerouslySetInnerHTML p));
    range_dataset (DataSet p);
    assign_nonempty "id" (ID p);
    assign_nonempty "key" (Key p);
    set_handler "onChange" (OnChange p);
    set_handler "onClick" (OnClick p);
    set_handler "ref" (Ref p);
    assign "role" (JStr (Role p));
    assign "style" (hack (Style p))
  ]))) children.

Definition BProps : Type := HTMLProps.

Definition B (props : option BProps) (children : list Element) : Element :=
  createElement (Tag "b") (JObject (fill props (λ p, [
    assign "aria-expanded" (JBool (AriaExpanded p));
    assign "aria-haspopup" (JBool (AriaHasPopup p));
    assign "aria-labelledby" (JStr (AriaLabelledBy p));
    assign "className" (JStr (ClassName p));
    assign "dangerouslySetInnerHTML" (ptr_val (DangerouslySetInnerHTML p));
    range_dataset (DataSet p);
    assign_nonempty "id" (ID p);
    assign_nonempty "key" (Key p);
    set_handler "onChange" (OnChange p);
    set_handler "onClick" (OnClick p);
    set_handler "ref" (Ref p);
    assign "role" (JStr (Role p));
    assign "style" (hack (Style p))
  ]))) children.

Definition BrProps : Type := HTMLProps.

Definition Br (props : option BrProps) (children : list Element) : Element :=
  createElement (Tag "br") (JObject (fill props (λ p, [
    assign "aria-expanded" (JBool (AriaExpanded p));
    assign "aria-haspopup" (JBool (AriaHasPopup p));
    assign "aria-labelledby" (JStr (AriaLabelledBy p));
    assign "className" (JStr (ClassName p));
    assign "dangerouslySetInnerHTML" (ptr_val (DangerouslySetInnerHTML p));
    range_dataset (DataSet p);
    assign_nonempty "id" (ID p);
    assign_nonempty "key" (Key p);
    set_handler "onChange" (OnChange p);
    set_handler "onClick" (OnClick p);
    set_handler "ref" (Ref p);
    assign "role" (JStr (Role p));
    assign "style" (hack (Style p))
  ]))) children.

Record ButtonProps := ButtonProps_ {
  Button_html : HTMLProps;
  Button_Type : string;
}.
Definition Button_zero : ButtonProps := ButtonProps_ html_zero "".
Definition Button_on_html (f : HTMLProps → HTMLProps) (p : ButtonProps) : ButtonProps :=
  ButtonProps_ (f (Button_html p)) (Button_Type p).
Definition Button_with_Type (v : string) (p : ButtonProps) : ButtonProps :=
  ButtonProps_ (Button_html p) v.

Definition Button (props : option ButtonProps) (children : list Element) : Element :=
  createElement (Tag "button") (JObject (fill props (λ p, [
    assign "aria-expanded" (JBool (AriaExpanded (Button_html p)));
    assign "aria-haspopup" (JBool (AriaHasPopup (Button_html p)));
    assign "aria-labelledby" (JStr (AriaLabelledBy (Button_html p)));
    assign "className" (JStr (ClassName (Button_html p)));
    assign "dangerouslySetInnerHTML" (ptr_val (DangerouslySetInnerHTML (Button_html p)));
    range_dataset (DataSet (Button_html p));
    assign_nonempty "id" (ID (Button_html p));
    assign_nonempty "key" (Key (Button_html p));
    set_handler "onChange" (OnChange (Button_html p));
    set_handler "onClick" (OnClick (Button_html p));
    set_handler "ref" (Ref (Button_html p));
    assign "role" (JStr (Role (Button_html p)));
    assign "style" (hack (Style (Button_html p)));
    assign "type" (JStr (Button_Type p))
  ]))) children.

Definition CaptionProps : Type := HTMLProps.

Definition Caption (props : option CaptionProps) (children : list Element) : Element :=
  createElement (Tag "caption") (JObject (fill props (λ p, [
    assign "aria-expanded" (JBool (AriaExpanded p));
    assign "aria-haspopup" (JBool (AriaHasPopup p));
    assign "aria-labelledby" (JStr (AriaLabelledBy p));
    assign "className" (JStr (ClassName p));
    assign "dangerouslySetInnerHTML" (ptr_val (DangerouslySetInnerHTML p));
    range_dataset (DataSet p);
    assign_nonempty "id" (ID p);
    assign_nonempty "key" (Key p);
    set_handler "onChange" (OnChange p);
    set_handler "onClick" (OnClick p);
    set_handler "ref" (Ref p);
    assign "role" (JStr (Role p));
    assign "style" (hack (Style p))
  ]))) children.

Definition CodeProps : Type := HTMLProps.

Definition Code (props : option CodeProps) (children : list Element) : Element :=
  createElement (Tag "code") (JObject (fill props (λ p, [
    assign "aria-expanded" (JBool (AriaExpanded p));
    assign "aria-haspopup" (JBool (AriaHasPopup p));
    assign "aria-labelledby" (JStr (AriaLabelledBy p));
    assign "className" (JStr (ClassName p));
    assign "dangerouslySetInnerHTML" (ptr_val (DangerouslySetInnerHTML p));
    range_dataset (DataSet p);
    assign_nonempty "id" (ID p);
    assign_nonempty "key" (Key p);
    set_handler "onChange" (OnChange p);
    set_handler "onClick" (OnClick p);
    set_handler "ref" (Ref p);
    assign "role" (JStr (Role p));
    assign "style" (hack (Style p))
  ]))) children.

Definition DivProps : Type := HTMLProps.

Definition Div (props : option DivProps) (children : list Element) : Element :=
  createElement (Tag "div") (JObject (fill props (λ p, [
    assign "aria-expanded" (JBool (AriaExpanded p));
    assign "aria-haspopup" (JBool (AriaHasPopup p));
    assign "aria-labelledby" (JStr (AriaLabelledBy p));
    assign "className" (JStr (ClassName p));
    assign "dangerouslySetInnerHTML" (ptr_val (DangerouslySetInnerHTML p));
    range_dataset (DataSet p);
    assign_nonempty "id" (ID p);
    assign_nonempty "key" (Key p);
    set_handler "onChange" (OnChange p);
    set_handler "onClick" (OnClick p);
    set_handler "ref" (Ref p);
    assign "role" (JStr (Role p));
    assign "style" (hack (Style p))
  ]))) children.

Definition EmProps : Type := HTMLProps.

Definition Em (props : option EmProps) (children : list Element) : Element :=
  createElement (Tag "em") (JObject (fill props (λ p, [
    assign "aria-expanded" (JBool (AriaExpanded p));
    assign "aria-haspopup" (JBool (AriaHasPopup p));
    assign "aria-labelledby" (JStr (AriaLabelledBy p));
    assign "className" (JStr (ClassName p));
    assign "dangerouslySetInnerHTML" (ptr_val (DangerouslySetInnerHTML p));
    range_dataset (DataSet p);
    assign_nonempty "id" (ID p);
    assign_nonempty "key" (Key p);
    set_handler "onChange" (OnChange p);
    set_handler "onClick" (OnClick p);
    set_handler "ref" (Ref p);
    assign "role" (JStr (Role p));
    assign "style" (hack (Style p))
  ]))) children.

Definition FooterProps : Type := HTMLProps.

Definition Footer (props : option FooterProps) (children : list Element) : Element :=
  createElement (Tag "footer") (JObject (fill props (λ p, [
    assign "aria-expanded" (JBool (AriaExpanded p));
    assign "aria-haspopup" (JBool (AriaHasPopup p));
    assign "aria-labelledby" (JStr (AriaLabelledBy p));
    assign "className" (JStr (ClassName p));
    assign "dangerouslySetInnerHTML" (ptr_val (DangerouslySetInnerHTML p));
    range_dataset (DataSet p);
    assign_nonempty "id" (ID p);
    assign_nonempty "key" (Key p);
    set_handler "onChange" (OnChange p);
    set_handler "onClick" (OnClick p);
    set_handler "ref" (Ref p);
    assign "role" (JStr (Role p));
    assign "style" (hack (Style p))
  ]))) children.

Definition FormProps : Type := HTMLProps.

Definition Form (props : option FormProps) (children : list Element) : Element :=
  createElement (Tag "form") (JObject (fill props (λ p, [
    assign "aria-expanded" (JBool (AriaExpanded p));
    assign "aria-haspopup" (JBool (AriaHasPopup p));
    assign "aria-labelledby" (JStr (AriaLabelledBy p));
    assign "className" (JStr (ClassName p));
    assign "dangerouslySetInnerHTML" (ptr_val (DangerouslySetInnerHTML p));
    range_dataset (DataSet p);
    assign_nonempty "id" (ID p);
    assign_nonempty "key" (Key p);
    set_handler "onChange" (OnChange p);
    set_handler "onClick" (OnClick p);
    set_handler "ref" (Ref p);
    assign "role" (JStr (Role p));
    assign "style" (hack (Style p))
  ]))) children.

Definition H1Props : Type := HTMLProps.

Definition H1 (props : option H1Props) (children : list Element) : Element :=
  createElement (Tag "h1") (JObject (fill props (λ p, [
    assign "aria-expanded" (JBool (AriaExpanded p));
    assign "aria-haspopup" (JBool (AriaHasPopup p));
    assign "aria-labelledby" (JStr (AriaLabelledBy p));
    assign "className" (JStr (ClassName p));
    assign "dangerouslySetInnerHTML" (ptr_val (DangerouslySetInnerHTML p));
    range_dataset (DataSet p);
    assign_nonempty "id" (ID p);
    assign_nonempty "key" (Key p);
    set_handler "onChange" (OnChange p);
    set_handler "onClick" (OnClick p);
    set_handler "ref" (Ref p);
    assign "role" (JStr (Role p));
    assign "style" (hack (Style p))
  ]))) children.

Definition H2Props : Type := HTMLProps.

Definition H2 (props : option H2Props) (children : list Element) : Element :=
  createElement (Tag "h2") (JObject (fill props (λ p, [
    assign "aria-expanded" (JBool (AriaExpanded p));
    assign "aria-haspopup" (JBool (AriaHasPopup p));
    assign "aria-labelledby" (JStr (AriaLabelledBy p));
    assign "className" (JStr (ClassName p));
    assign "dangerouslySetInnerHTML" (ptr_val (DangerouslySetInnerHTML p));
    range_dataset (DataSet p);
    assign_nonempty "id" (ID p);
    assign_nonempty "key" (Key p);
    set_handler "onChange" (OnChange p);
    set_handler "onClick" (OnClick p);
    set_handler "ref" (Ref p);
    assign "role" (JStr (Role p));
    assign "style" (hack (Style p))
  ]))) children.

Definition H3Props : Type := HTMLProps.

Definition H3 (props : option H3Props) (children : list Element) : Element :=
  createElement (Tag "h3") (JObject (fill props (λ p, [
    assign "aria-expanded" (JBool (AriaExpanded p));
    assign "aria-haspopup" (JBool (AriaHasPopup p));
    assign "aria-labelledby" (JStr (AriaLabelledBy p));
    assign "className" (JStr (ClassName p));
    assign "dangerouslySetInnerHTML" (ptr_val (DangerouslySetInnerHTML p));
    range_dataset (DataSet p);
    assign_nonempty "id" (ID p);
    assign_nonempty "key" (Key p);
    set_handler "onChange" (OnChange p);
    set_handler "onClick" (OnClick p);
    set_handler "ref" (Ref p);
    assign "role" (JStr (Role p));
    assign "style" (hack (Style p))
  ]))) children.

Definition H4Props : Type := HTMLProps.

Definition H4 (props : option H4Props) (children : list Element) : Element :=
  createElement (Tag "h4") (JObject (fill props (λ p, [
    assign "aria-expanded" (JBool (AriaExpanded p));
    assign "aria-haspopup" (JBool (AriaHasPopup p));
    assign "aria-labelledby" (JStr (AriaLabelledBy p));
    assign "className" (JStr (ClassName p));
    assign "dangerouslySetInnerHTML" (ptr_val (DangerouslySetInnerHTML p));
    range_dataset (DataSet p);
    assign_nonempty "id" (ID p);
    assign_nonempty "key" (Key p);
    set_handler "onChange" (OnChange p);
    set_handler "onClick" (OnClick p);
    set_handler "ref" (Ref p);
    assign "role" (JStr (Role p));
    assign "style" (hack (Style p))
  ]))) children.

Definition H5Props : Type := HTMLProps.

Definition H5 (props : option H5Props) (children : list Element) : Element :=
  createElement (Tag "h5") (JObject (fill props (λ p, [
    assign "aria-expanded" (JBool (AriaExpanded p));
    assign "aria-haspopup" (JBool (AriaHasPopup p));
    assign "aria-labelledby" (JStr (AriaLabelledBy p));
    assign "className" (JStr (ClassName p));
    assign "dangerouslySetInnerHTML" (ptr_val (DangerouslySetInnerHTML p));
    range_dataset (DataSet p);
    assign_nonempty "id" (ID p);
    assign_nonempty "key" (Key p);
    set_handler "onChange" (OnChange p);
    set_handler "onClick" (OnClick p);
    set_handler "ref" (Ref p);
    assign "role" (JStr (Role p));
    assign "style" (hack (Style p))
  ]))) children.

Definition H6Props : Type := HTMLProps.

Definition H6 (props : option H6Props) (children : list Element) : Element :=
  createElement (Tag "h6") (JObject (fill props (λ p, [
    assign "aria-expanded" (JBool (AriaExpanded p));
    assign "aria-haspopup" (JBool (AriaHasPopup p));
    assign "aria-labelledby" (JStr (AriaLabelledBy p));
    assign "className" (JStr (ClassName p));
    assign "dangerouslySetInnerHTML" (ptr_val (DangerouslySetInnerHTML p));
    range_dataset (DataSet p);
    assign_nonempty "id" (ID p);
    assign_nonempty "key" (Key p);
    set_handler "onChange" (OnChange p);
    set_handler "onClick" (OnClick p);
    set_handler "ref" (Ref p);
    assign "role" (JStr (Role p));
    assign "style" (hack (Style p))
  ]))) children.

Definition HeaderProps : Type := HTMLProps.

Definition Header (props : option HeaderProps) (children : list Element) : Element :=
  createElement (Tag "header") (JObject (fill props (λ p, [
    assign "aria-expanded" (JBool (AriaExpanded p));
    assign "aria-haspopup" (JBool (AriaHasPopup p));
    assign "aria-labelledby" (JStr (AriaLabelledBy p));
    assign "className" (JStr (ClassName p));
    assign "dangerouslySetInnerHTML" (ptr_val (DangerouslySetInnerHTML p));
    range_dataset (DataSet p);
    assign_nonempty "id" (ID p);
    assign_nonempty "key" (Key p);
    set_handler "onChange" (OnChange p);
    set_handler "onClick" (OnClick p);
    set_handler "ref" (Ref p);
    assign "role" (JStr (Role p));
    assign "style" (hack (Style p))
  ]))) children.

Definition HrProps : Type := HTMLProps.

Definition Hr (props : option HrProps) : Element :=
  createElement (Tag "hr") (JObject (fill props (λ p, [
    assign "aria-expanded" (JBool (AriaExpanded p));
    assign "aria-haspopup" (JBool (AriaHasPopup p));
    assign "aria-labelledby" (JStr (AriaLabelledBy p));
    assign "className" (JStr (ClassName p));
    assign "dangerouslySetInnerHTML" (ptr_val (DangerouslySetInnerHTML p));
    range_dataset (DataSet p);
    assign_nonempty "id" (ID p);
    assign_nonempty "key" (Key p);
    set_handler "onChange" (OnChange p);
    set_handler "onClick" (OnClick p);
    set_handler "ref" (Ref p);
    assign "role" (JStr (Role p));
    assign "style" (hack (Style p))
  ]))) [].

Definition IProps : Type := HTMLProps.

Definition I (props : option IProps) (children : list Element) : Element :=
  createElement (Tag "i") (JObject (fill props (λ p, [
    assign "aria-expanded" (JBool (AriaExpanded p));
    assign "aria-haspopup" (JBool (AriaHasPopup p));
    assign "aria-labelledby" (JStr (AriaLabelledBy p));
    assign "className" (JStr (ClassName p));
    assign "dangerouslySetInnerHTML" (ptr_val (DangerouslySetInnerHTML p));
    range_dataset (DataSet p);
    assign_nonempty "id" (ID p);
    assign_nonempty "key" (Key p);
    set_handler "onChange" (OnChange p);
    set_handler "onClick" (OnClick p);
    set_handler "ref" (Ref p);
    assign "role" (JStr (Role p));
    assign "style" (hack (Style p))
  ]))) children.

Record IFrameProps := IFrameProps_ {
  IFrame_html : HTMLProps;
  IFrame_SrcDoc : string;
}.
Definition IFrame_zero : IFrameProps := IFrameProps_ html_zero "".
Definition IFrame_on_html (f : HTMLProps → HTMLProps) (p : IFrameProps) : IFrameProps :=
  IFrameProps_ (f (IFrame_html p)) (IFrame_SrcDoc p).
Definition IFrame_with_SrcDoc (v : string) (p : IFrameProps) : IFrameProps :=
  IFrameProps_ (IFrame_html p) v.

Definition IFrame (props : option IFrameProps) (children : list Element) : Element :=
  createElement (Tag "iframe") (JObject (fill props (λ p, [
    assign "aria-expanded" (JBool (AriaExpanded (IFrame_html p)));
    assign "aria-haspopup" (JBool (AriaHasPopup (IFrame_html p)));
    assign "aria-labelledby" (JStr (AriaLabelledBy (IFrame_html p)));
    assign "className" (JStr (ClassName (IFrame_html p)));
    assign "dangerouslySetInnerHTML" (ptr_val (DangerouslySetInnerHTML (IFrame_html p)));
    range_dataset (DataSet (IFrame_html p));
    assign_nonempty "id" (ID (IFrame_html p));
    assign_nonempty "key" (Key (IFrame_html p));
    set_handler "onChange" (OnChange (IFrame_html p));
    set_handler "onClick" (OnClick (IFrame_html p));
    set_handler "ref" (Ref (IFrame_html p));
    assign "role" (JStr (Role (IFrame_html p)));
    assign "srcDoc" (JStr (IFrame_SrcDoc p));
    assign "style" (hack (Style (IFrame_html p)))
  ]))) children.

Record ImgProps := ImgProps_ {
  Img_html : HTMLProps;
  Img_Alt : string;
  Img_Src : string;
}.
Definition Img_zero : ImgProps := ImgProps_ html_zero "" "".
Definition Img_on_html (f : HTMLProps → HTMLProps) (p : ImgProps) : ImgProps :=
  ImgProps_ (f (Img_html p)) (Img_Alt p) (Img_Src p).
Definition Img_with_Alt (v : string) (p : ImgProps) : ImgProps :=
  ImgProps_ (Img_html p) v (Img_Src p).
Definition Img_with_Src (v : string) (p : ImgProps) : ImgProps :=
  ImgProps_ (Img_html p) (Img_Alt p) v.

Definition Img (props : option ImgProps) (children : list Element) : Element :=
  createElement (Tag "img") (JObject (fill props (λ p, [
    assign "alt" (JStr (Img_Alt p));
    assign "aria-expanded" (JBool (AriaExpanded (Img_html p)));
    assign "aria-haspopup" (JBool (AriaHasPopup (Img_html p)));
    assign "aria-labelledby" (JStr (AriaLabelledBy (Img_html p)));
    assign "className" (JStr (ClassName (Img_html p)));
    assign "dangerouslySetInnerHTML" (ptr_val (DangerouslySetInnerHTML (Img_html p)));
    range_dataset (DataSet (Img_html p));
    assign_nonempty "id" (ID (Img_html p));
    assign_nonempty "key" (Key (Img_html p));
    set_handler "onChange" (OnChange (Img_html p));
    set_handler "onClick" (OnClick (Img_html p));
    set_handler "ref" (Ref (Img_html p));
    assign "role" (JStr (Role (Img_html p)));
    assign "src" (JStr (Img_Src p));
    assign "style" (hack (Style (Img_html p)))
  ]))) children.

Record InputProps := InputProps_ {
  Input_html : HTMLProps;
  Input_Placeholder : string;
  Input_Type : string;
  Input_Value : string;
}.
Definition Input_zero : InputProps := InputProps_ html_zero "" "" "".
Definition Input_on_html (f : HTMLProps → HTMLProps) (p : InputProps) : InputProps :=
  InputProps_ (f (Input_html p)) (Input_Placeholder p) (Input_Type p) (Input_Value p).
Definition Input_with_Placeholder (v : string) (p : InputProps) : InputProps :=
  InputProps_ (Input_html p) v (Input_Type p) (Input_Value p).
Definition Input_with_Type (v : string) (p : InputProps) : InputProps :=
  InputProps_ (Input_html p) (Input_Placeholder p) v (Input_Value p).
Definition Input_with_Value (v : string) (p : InputProps) : InputProps :=
  InputProps_ (Input_html p) (Input_Placeholder p) (Input_Type p) v.

Definition Input (props : option InputProps) (children : list Element) : Element :=
  createElement (Tag "input") (JObject (fill props (λ p, [
    assign "aria-expanded" (JBool (AriaExpanded (Input_html p)));
    assign "aria-haspopup" (JBool (AriaHasPopup (Input_html p)));
    assign "aria-labelledby" (JStr (AriaLabelledBy (Input_html p)));
    assign "className" (JStr (ClassName (Input_html p)));
    assign "dangerouslySetInnerHTML" (ptr_val (DangerouslySetInnerHTML (Input_html p)));
    range_dataset (DataSet (Input_html p));
    assign_nonempty "id" (ID (Input_html p));
    assign_nonempty "key" (Key (Input_html p));
    set_handler "onChange" (OnChange (Input_html p));
    set_handler "onClick" (OnClick (Input_html p));
    assign "placeholder" (JStr (Input_Placeholder p));
    set_handler "ref" (Ref (Input_html p));
    assign "role" (JStr (Role (Input_html p)));
    assign "style" (hack (Style (Input_html p)));
    assign "type" (JStr (Input_Type p));
    assign "value" (JStr (Input_Value p))
  ]))) children.

Record LabelProps := LabelProps_ {
  Label_html : HTMLProps;
  Label_For : string;
}.
Definition Label_zero : LabelProps := LabelProps_ html_zero "".
Definition Label_on_html (f : HTMLProps → HTMLProps) (p : LabelProps) : LabelProps :=
  LabelProps_ (f (Label_html p)) (Label_For p).
Definition Label_with_For (v : string) (p : LabelProps) : LabelProps :=
  LabelProps_ (Label_html p) v.

Definition Label (props : option LabelProps) (children : list Element) : Element :=
  createElement (Tag "label") (JObject (fill props (λ p, [
    assign "aria-expanded" (JBool (AriaExpanded (Label_html p)));
    assign "aria-haspopup" (JBool (AriaHasPopup (Label_html p)));
    assign "aria-labelledby" (JStr (AriaLabelledBy (Label_html p)));
    assign "className" (JStr (ClassName (Label_html p)));
    assign "dangerouslySetInnerHTML" (ptr_val (DangerouslySetInnerHTML (Label_html p)));
    range_dataset (DataSet (Label_html p));
    assign "htmlFor" (JStr (Label_For p));
    assign_nonempty "id" (ID (Label_html p));
    assign_nonempty "key" (Key (Label_html p));
    set_handler "onChange" (OnChange (Label_html p));
    set_handler "onClick" (OnClick (Label_html p));
    set_handler "ref" (Ref (Label_html p));
    assign "role" (JStr (Role (Label_html p)));
    assign "style" (hack (Style (Label_html p)))
  ]))) children.

Definition LiProps : Type := HTMLProps.

Definition Li (props : option LiProps) (children : list Element) : Element :=
  createElement (Tag "li") (JObject (fill props (λ p, [
    assign "aria-expanded" (JBool (AriaExpanded p));
    assign "aria-haspopup" (JBool (AriaHasPopup p));
    assign "aria-labelledby" (JStr (AriaLabelledBy p));
    assign "className" (JStr (ClassName p));
    assign "dangerouslySetInnerHTML" (ptr_val (DangerouslySetInnerHTML p));
    range_dataset (DataSet p);
    assign_nonempty "id" (ID p);
    assign_nonempty "key" (Key p);
    set_handler "onChange" (OnChange p);
    set_handler "onClick" (OnClick p);
    set_handler "ref" (Ref p);
    assign "role" (JStr (Role p));
    assign "style" (hack (Style p))
  ]))) children.

Definition MainProps : Type := HTMLProps.

Definition Main (props : option MainProps) (children : list Element) : Element :=
  createElement (Tag "main") (JObject (fill props (λ p, [
    assign "aria-expanded" (JBool (AriaExpanded p));
    assign "aria-haspopup" (JBool (AriaHasPopup p));
    assign "aria-labelledby" (JStr (AriaLabelledBy p));
    assign "className" (JStr (ClassName p));
    assign "dangerouslySetInnerHTML" (ptr_val (DangerouslySetInnerHTML p));
    range_dataset (DataSet p);
    assign_nonempty "id" (ID p);
    assign_nonempty "key" (Key p);
    set_handler "onChange" (OnChange p);
    set_handler "onClick" (OnClick p);
    set_handler "ref" (Ref p);
    assign "role" (JStr (Role p));
    assign "style" (hack (Style p))
  ]))) children.

Definition NavProps : Type := HTMLProps.

Definition Nav (props : option NavProps) (children : list Element) : Element :=
  createElement (Tag "nav") (JObject (fill props (λ p, [
    assign "aria-expanded" (JBool (AriaExpanded p));
    assign "aria-haspopup" (JBool (AriaHasPopup p));
    assign "aria-labelledby" (JStr (AriaLabelledBy p));
    assign "className" (JStr (ClassName p));
    assign "dangerouslySetInnerHTML" (ptr_val (DangerouslySetInnerHTML p));
    range_dataset (DataSet p);
    assign_nonempty "id" (ID p);
    assign_nonempty "key" (Key p);
    set_handler "onChange" (OnChange p);
    set_handler "onClick" (OnClick p);
    set_handler "ref" (Ref p);
    assign "role" (JStr (Role p));
    assign "style" (hack (Style p))
  ]))) children.

Record OptionProps := OptionProps_ {
  Option_html : HTMLProps;
  Option_Value : string;
}.
Definition Option_zero : OptionProps := OptionProps_ html_zero "".
Definition Option_on_html (f : HTMLProps → HTMLProps) (p : OptionProps) : OptionProps :=
  OptionProps_ (f (Option_html p)) (Option_Value p).
Definition Option_with_Value (v : string) (p : OptionProps) : OptionProps :=
  OptionProps_ (Option_html p) v.

Definition Option (props : option OptionProps) (children : list Element) : Element :=
  createElement (Tag "option") (JObject (fill props (λ p, [
    assign "aria-expanded" (JBool (AriaExpanded (Option_html p)));
    assign "aria-haspopup" (JBool (AriaHasPopup (Option_html p)));
    assign "aria-labelledby" (JStr (AriaLabelledBy (Option_html p)));
    assign "className" (JStr (ClassName (Option_html p)));
    assign "dangerouslySetInnerHTML" (ptr_val (DangerouslySetInnerHTML (Option_html p)));
    range_dataset (DataSet (Option_html p));
    assign_nonempty "id" (ID (Option_html p));
    assign_nonempty "key" (Key (Option_html p));
    set_handler "onChange" (OnChange (Option_html p));
    set_handler "onClick" (OnClick (Option_html p));
    set_handler "ref" (Ref (Option_html p));
    assign "role" (JStr (Role (Option_html p)));
    assign "style" (hack (Style (Option_html p)));
    assign "value" (JStr (Option_Value p))
  ]))) children.

Definition PProps : Type := HTMLProps.

Definition P (props : option PProps) (children : list Element) : Element :=
  createElement (Tag "p") (JObject (fill props (λ p, [
    assign "aria-expanded" (JBool (AriaExpanded p));
    assign "aria-haspopup" (JBool (AriaHasPopup p));
    assign "aria-labelledby" (JStr (AriaLabelledBy p));
    assign "className" (JStr (ClassName p));
    assign "dangerouslySetInnerHTML" (ptr_val (DangerouslySetInnerHTML p));
    range_dataset (DataSet p);
    assign_nonempty "id" (ID p);
    assign_nonempty "key" (Key p);
    set_handler "onChange" (OnChange p);
    set_handler "onClick" (OnClick p);
    set_handler "ref" (Ref p);
    assign "role" (JStr (Role p));
    assign "style" (hack (Style p))
  ]))) children.

Definition PreProps : Type := HTMLProps.

Definition Pre (props : option PreProps) (children : list Element) : Element :=
  createElement (Tag "pre") (JObject (fill props (λ p, [
    assign "aria-expanded" (JBool (AriaExpanded p));
    assign "aria-haspopup" (JBool (AriaHasPopup p));
    assign "aria-labelledby" (JStr (AriaLabelledBy p));
    assign "className" (JStr (ClassName p));
    assign "dangerouslySetInnerHTML" (ptr_val (DangerouslySetInnerHTML p));
    range_dataset (DataSet p);
    assign_nonempty "id" (ID p);
    assign_nonempty "key" (Key p);
    set_handler "onChange" (OnChange p);
    set_handler "onClick" (OnClick p);
    set_handler "ref" (Ref p);
    assign "role" (JStr (Role p));
    assign "style" (hack (Style p))
  ]))) children.

Record SelectProps := SelectProps_ {
  Select_html : HTMLProps;
  Select_Value : string;
}.
Definition Select_zero : SelectProps := SelectProps_ html_zero "".
Definition Select_on_html (f : HTMLProps → HTMLProps) (p : SelectProps) : SelectProps :=
  SelectProps_ (f (Select_html p)) (Select_Value p).
Definition Select_with_Value (v : string) (p : SelectProps) : SelectProps :=
  SelectProps_ (Select_html p) v.

Definition Select (props : option SelectProps) (children : list Element) : Element :=
  createElement (Tag "select") (JObject (fill props (λ p, [
    assign "aria-expanded" (JBool (AriaExpanded (Select_html p)));
    assign "aria-haspopup" (JBool (AriaHasPopup (Select_html p)));
    assign "aria-labelledby" (JStr (AriaLabelledBy (Select_html p)));
    assign "className" (JStr (ClassName (Select_html p)));
    assign "dangerouslySetInnerHTML" (ptr_val (DangerouslySetInnerHTML (Select_html p)));
    range_dataset (DataSet (Select_html p));
    assign_nonempty "id" (ID (Select_html p));
    assign_nonempty "key" (Key (Select_html p));
    set_handler "onChange" (OnChange (Select_html p));
    set_handler "onClick" (OnClick (Select_html p));
    set_handler "ref" (Ref (Select_html p));
    assign "role" (JStr (Role (Select_html p)));
    assign "style" (hack (Style (Select_html p)));
    assign "value" (JStr (Select_Value p))
  ]))) children.

Definition SpanProps : Type := HTMLProps.

Definition Span (props : option SpanProps) (children : list Element) : Element :=
  createElement (Tag "span") (JObject (fill props (λ p, [
    assign "aria-expanded" (JBool (AriaExpanded p));
    assign "aria-haspopup" (JBool (AriaHasPopup p));
    assign "aria-labelledby" (JStr (AriaLabelledBy p));
    assign "className" (JStr (ClassName p));
    assign "dangerouslySetInnerHTML" (ptr_val (DangerouslySetInnerHTML p));
    range_dataset (DataSet p);
    assign_nonempty "id" (ID p);
    assign_nonempty "key" (Key p);
    set_handler "onChange" (OnChange p);
    set_handler "onClick" (OnClick p);
    set_handler "ref" (Ref p);
    assign "role" (JStr (Role p));
    assign "style" (hack (Style p))
  ]))) children.

Definition StrikeProps : Type := HTMLProps.

Definition Strike (props : option StrikeProps) (children : list Element) : Element :=
  createElement (Tag "s") (JObject (fill props (λ p, [
    assign "aria-expanded" (JBool (AriaExpanded p));
    assign "aria-haspopup" (JBool (AriaHasPopup p));
    assign "aria-labelledby" (JStr (AriaLabelledBy p));
    assign "className" (JStr (ClassName p));
    assign "dangerouslySetInnerHTML" (ptr_val (DangerouslySetInnerHTML p));
    range_dataset (DataSet p);
    assign_nonempty "id" (ID p);
    assign_nonempty "key" (Key p);
    set_handler "onChange" (OnChange p);
    set_handler "onClick" (OnClick p);
    set_handler "ref" (Ref p);
    assign "role" (JStr (Role p));
    assign "style" (hack (Style p))
  ]))) children.

Definition SupProps : Type := HTMLProps.

Definition Sup (props : option SupProps) (children : list Element) : Element :=
  createElement (Tag "sup") (JObject (fill props (λ p, [
    assign "aria-expanded" (JBool (AriaExpanded p));
    assign "aria-haspopup" (JBool (AriaHasPopup p));
    assign "aria-labelledby" (JStr (AriaLabelledBy p));
    assign "className" (JStr (ClassName p));
    assign "dangerouslySetInnerHTML" (ptr_val (DangerouslySetInnerHTML p));
    range_dataset (DataSet p);
    assign_nonempty "id" (ID p);
    assign_nonempty "key" (Key p);
    set_handler "onChange" (OnChange p);
    set_handler "onClick" (OnClick p);
    set_handler "ref" (Ref p);
    assign "role" (JStr (Role p));
    assign "style" (hack (Style p))
  ]))) children.

Definition TableProps : Type := HTMLProps.

Definition Table (props : option TableProps) (children : list Element) : Element :=
  createElement (Tag "table") (JObject (fill props (λ p, [
    assign "aria-expanded" (JBool (AriaExpanded p));
    assign "aria-haspopup" (JBool (AriaHasPopup p));
    assign "aria-labelledby" (JStr (AriaLabelledBy p));
    assign "className" (JStr (ClassName p));
    assign "dangerouslySetInnerHTML" (ptr_val (DangerouslySetInnerHTML p));
    range_dataset (DataSet p);
    assign_nonempty "id" (ID p);
    assign_nonempty "key" (Key p);
    set_handler "onChange" (OnChange p);
    set_handler "onClick" (OnClick p);
    set_handler "ref" (Ref p);
    assign "role" (JStr (Role p));
    assign "style" (hack (Style p))
  ]))) children.

Definition TbodyProps : Type := HTMLProps.

Definition Tbody (props : option TbodyProps) (children : list Element) : Element :=
  createElement (Tag "tbody") (JObject (fill props (λ p, [
    assign "aria-expanded" (JBool (AriaExpanded p));
    assign "aria-haspopup" (JBool (AriaHasPopup p));
    assign "aria-labelledby" (JStr (AriaLabelledBy p));
    assign "className" (JStr (ClassName p));
    assign "dangerouslySetInnerHTML" (ptr_val (DangerouslySetInnerHTML p));
    range_dataset (DataSet p);
    assign_nonempty "id" (ID p);
    assign_nonempty "key" (Key p);
    set_handler "onChange" (OnChange p);
    set_handler "onClick" (OnClick p);
    set_handler "ref" (Ref p);
    assign "role" (JStr (Role p));
    assign "style" (hack (Style p))
  ]))) children.

Definition TdProps : Type := HTMLProps.

Definition Td (props : option TdProps) (children : list Element) : Element :=
  createElement (Tag "td") (JObject (fill props (λ p, [
    assign "aria-expanded" (JBool (AriaExpanded p));
    assign "aria-haspopup" (JBool (AriaHasPopup p));
    assign "aria-labelledby" (JStr (AriaLabelledBy p));
    assign "className" (JStr (ClassName p));
    assign "dangerouslySetInnerHTML" (ptr_val (DangerouslySetInnerHTML p));
    range_dataset (DataSet p);
    assign_nonempty "id" (ID p);
    assign_nonempty "key" (Key p);
    set_handler "onChange" (OnChange p);
    set_handler "onClick" (OnClick p);
    set_handler "ref" (Ref p);
    assign "role" (JStr (Role p));
    assign "style" (hack (Style p))
  ]))) children.

Record TextAreaProps := TextAreaProps_ {
  TextArea_html : HTMLProps;
  TextArea_Placeholder : string;
  TextArea_Value : string;
}.
Definition TextArea_zero : TextAreaProps := TextAreaProps_ html_zero "" "".
Definition TextArea_on_html (f : HTMLProps → HTMLProps) (p : TextAreaProps) : TextAreaProps :=
  TextAreaProps_ (f (TextArea_html p)) (TextArea_Placeholder p) (TextArea_Value p).
Definition TextArea_with_Placeholder (v : string) (p : TextAreaProps) : TextAreaProps :=
  TextAreaProps_ (TextArea_html p) v (TextArea_Value p).
Definition TextArea_with_Value (v : string) (p : TextAreaProps) : TextAreaProps :=
  TextAreaProps_ (TextArea_html p) (TextArea_Placeholder p) v.

Definition TextArea (props : option TextAreaProps) (children : list Element) : Element :=
  createElement (Tag "textarea") (JObject (fill props (λ p, [
    assign "aria-expanded" (JBool (AriaExpanded (TextArea_html p)));
    assign "aria-haspopup" (JBool (AriaHasPopup (TextArea_html p)));
    assign "aria-labelledby" (JStr (AriaLabelledBy (TextArea_html p)));
    assign "className" (JStr (ClassName (TextArea_html p)));
    assign "dangerouslySetInnerHTML" (ptr_val (DangerouslySetInnerHTML (TextArea_html p)));
    range_dataset (DataSet (TextArea_html p));
    assign_nonempty "id" (ID (TextArea_html p));
    assign_nonempty "key" (Key (TextArea_html p));
    set_handler "onChange" (OnChange (TextArea_html p));
    set_handler "onClick" (OnClick (TextArea_html p));
    assign "placeholder" (JStr (TextArea_Placeholder p));
    set_handler "ref" (Ref (TextArea_html p));
    assign "role" (JStr (Role (TextArea_html p)));
    assign "style" (hack (Style (TextArea_html p)));
    assign "value" (JStr (TextArea_Value p))
  ]))) children.

Definition ThProps : Type := HTMLProps.

Definition Th (props : option ThProps) (children : list Element) : Element :=
  createElement (Tag "th") (JObject (fill props (λ p, [
    assign "aria-expanded" (JBool (AriaExpanded p));
    assign "aria-haspopup" (JBool (AriaHasPopup p));
    assign "aria-labelledby" (JStr (AriaLabelledBy p));
    assign "className" (JStr (ClassName p));
    assign "dangerouslySetInnerHTML" (ptr_val (DangerouslySetInnerHTML p));
    range_dataset (DataSet p);
    assign_nonempty "id" (ID p);
    assign_nonempty "key" (Key p);
    set_handler "onChange" (OnChange p);
    set_handler "onClick" (OnClick p);
    set_handler "ref" (Ref p);
    assign "role" (JStr (Role p));
    assign "style" (hack (Style p))
  ]))) children.

Definition TheadProps : Type := HTMLProps.

Definition Thead (props : option TheadProps) (children : list Element) : Element :=
  createElement (Tag "thead") (JObject (fill props (λ p, [
    assign "aria-expanded" (JBool (AriaExpanded p));
    assign "aria-haspopup" (JBool (AriaHasPopup p));
    assign "aria-labelledby" (JStr (AriaLabelledBy p));
    assign "className" (JStr (ClassName p));
    assign "dangerouslySetInnerHTML" (ptr_val (DangerouslySetInnerHTML p));
    range_dataset (DataSet p);
    assign_nonempty "id" (ID p);
    assign_nonempty "key" (Key p);
    set_handler "onChange" (OnChange p);
    set_handler "onClick" (OnClick p);
    set_handler "ref" (Ref p);
    assign "role" (JStr (Role p));
    assign "style" (hack (Style p))
  ]))) children.

Definition TrProps : Type := HTMLProps.

Definition Tr (props : option TrProps) (children : list Element) : Element :=
  createElement (Tag "tr") (JObject (fill props (λ p, [
    assign "aria-expanded" (JBool (AriaExpanded p));
    assign "aria-haspopup" (JBool (AriaHasPopup p));
    assign "aria-labelledby" (JStr (AriaLabelledBy p));
    assign "className" (JStr (ClassName p));
    assign "dangerouslySetInnerHTML" (ptr_val (DangerouslySetInnerHTML p));
    range_dataset (DataSet p);
    assign_nonempty "id" (ID p);
    assign_nonempty "key" (Key p);
    set_handler "onChange" (OnChange p);
    set_handler "onClick" (OnClick p);
    set_handler "ref" (Ref p);
    assign "role" (JStr (Role p));
    assign "style" (hack (Style p))
  ]))) children.

Definition UlProps : Type := HTMLProps.

Definition Ul (props : option UlProps) (children : list Element) : Element :=
  createElement (Tag "ul") (JObject (fill props (λ p, [
    assign "aria-expanded" (JBool (AriaExpanded p));
    assign "aria-haspopup" (JBool (AriaHasPopup p));
    assign "aria-labelledby" (JStr (AriaLabelledBy p));
    assign "className" (JStr (ClassName p));
    assign "dangerouslySetInnerHTML" (ptr_val (DangerouslySetInnerHTML p));
    range_dataset (DataSet p);
    assign_nonempty "id" (ID p);
    assign_nonempty "key" (Key p);
    set_handler "onChange" (OnChange p);
    set_handler "onClick" (OnClick p);
    set_handler "ref" (Ref p);
    assign "role" (JStr (Role p));
    assign "style" (hack (Style p))
  ]))) children.

End El.
End El.
