(* ===== verification/CoreGen.v ===== *)
(** * coreGen: the generator of the elements

    Models [cmd/coreGen] of [src/_vendor/src/myitcv.io/react]: the tables of
    [elements.go], and [dogen] of [generate.go], which fills the tables in and
    writes [gen_react_coreGen.go] and [jsx/gen_jsx_coreGen.go] from them.

    A Go map is a [gmap]; the order in which [range] visits one is unspecified,
    so it is a parameter [range_map] of the model of which only that it visits
    every entry once is assumed.  [text/template] ranges over a map in key
    order.  What the templates write for an element is kept as data, one
    constructor per branch of the template ([gen_stmt]) and one record per
    element ([Decl]); [run_decl] is the meaning of the Go code a [Decl] stands
    for, and the theorem is that the constructors of [Elements.v], translated
    from the generated file, behave as the generator's tables say. *)

From S2P Require Import Prelude GoLib React Elements.

Module Gen.

(** ** elements.go *)
Record Attr := MkAttr {
  a_Name : string;
  a_React : string;
  a_HTML : string;
  a_HTMLConvert : string;
  a_Type : string;
  a_OmitEmpty : bool;
  a_NoReact : bool;
  a_NoHTML : bool;
  a_IsEvent : bool;
}.

Record Elem := MkElem {
  Name : string;
  React : string;
  Dom : string;
  HTML : string;
  Attributes : gmap string Attr;
  NonBasic : bool;
  Templates : list string;
  NonHTML : bool;
  Child : string;
  Children : string;
  EmptyElement : bool;
  Implements : list string;
  SkipTests : bool;
}.

#[export] Instance Attr_eq_dec : EqDecision Attr.
Proof. solve_decision. Defined.
#[export] Instance Elem_eq_dec : EqDecision Elem.
Proof. solve_decision. Defined.

(** Composite literals: the zero value, and one setter per field used. *)
Definition attr0 : Attr := MkAttr "" "" "" "" "" false false false false.
Definition set_a_React (v : string) (a : Attr) : Attr :=
  MkAttr (a_Name a) v (a_HTML a) (a_HTMLConvert a) (a_Type a) (a_OmitEmpty a) (a_NoReact a) (a_NoHTML a) (a_IsEvent a).
Definition set_a_HTML (v : string) (a : Attr) : Attr :=
  MkAttr (a_Name a) (a_React a) v (a_HTMLConvert a) (a_Type a) (a_OmitEmpty a) (a_NoReact a) (a_NoHTML a) (a_IsEvent a).
Definition set_a_HTMLConvert (v : string) (a : Attr) : Attr :=
  MkAttr (a_Name a) (a_React a) (a_HTML a) v (a_Type a) (a_OmitEmpty a) (a_NoReact a) (a_NoHTML a) (a_IsEvent a).
Definition set_a_Type (v : string) (a : Attr) : Attr :=
  MkAttr (a_Name a) (a_React a) (a_HTML a) (a_HTMLConvert a) v (a_OmitEmpty a) (a_NoReact a) (a_NoHTML a) (a_IsEvent a).
Definition set_a_OmitEmpty (v : bool) (a : Attr) : Attr :=
  MkAttr (a_Name a) (a_React a) (a_HTML a) (a_HTMLConvert a) (a_Type a) v (a_NoReact a) (a_NoHTML a) (a_IsEvent a).
Definition set_a_NoReact (v : bool) (a : Attr) : Attr :=
  MkAttr (a_Name a) (a_React a) (a_HTML a) (a_HTMLConvert a) (a_Type a) (a_OmitEmpty a) v (a_NoHTML a) (a_IsEvent a).
Definition set_a_NoHTML (v : bool) (a : Attr) : Attr :=
  MkAttr (a_Name a) (a_React a) (a_HTML a) (a_HTMLConvert a) (a_Type a) (a_OmitEmpty a) (a_NoReact a) v (a_IsEvent a).
Definition set_a_IsEvent (v : bool) (a : Attr) : Attr :=
  MkAttr (a_Name a) (a_React a) (a_HTML a) (a_HTMLConvert a) (a_Type a) (a_OmitEmpty a) (a_NoReact a) (a_NoHTML a) v.

Definition elem0 : Elem := MkElem "" "" "" "" ∅ false [] false "" "" false [] false.
Definition set_React (v : string) (e : Elem) : Elem :=
  MkElem (Name e) v (Dom e) (HTML e) (Attributes e) (NonBasic e) (Templates e) (NonHTML e) (Child e) (Children e) (EmptyElement e) (Implements e) (SkipTests e).
Definition set_Dom (v : string) (e : Elem) : Elem :=
  MkElem (Name e) (React e) v (HTML e) (Attributes e) (NonBasic e) (Templates e) (NonHTML e) (Child e) (Children e) (EmptyElement e) (Implements e) (SkipTests e).
Definition set_HTML (v : string) (e : Elem) : Elem :=
  MkElem (Name e) (React e) (Dom e) v (Attributes e) (NonBasic e) (Templates e) (NonHTML e) (Child e) (Children e) (EmptyElement e) (Implements e) (SkipTests e).
Definition set_Attributes (v : gmap string Attr) (e : Elem) : Elem :=
  MkElem (Name e) (React e) (Dom e) (HTML e) v (NonBasic e) (Templates e) (NonHTML e) (Child e) (Children e) (EmptyElement e) (Implements e) (SkipTests e).
Definition set_Children (v : string) (e : Elem) : Elem :=
  MkElem (Name e) (React e) (Dom e) (HTML e) (Attributes e) (NonBasic e) (Templates e) (NonHTML e) (Child e) v (EmptyElement e) (Implements e) (SkipTests e).
Definition set_EmptyElement (v : bool) (e : Elem) : Elem :=
  MkElem (Name e) (React e) (Dom e) (HTML e) (Attributes e) (NonBasic e) (Templates e) (NonHTML e) (Child e) (Children e) v (Implements e) (SkipTests e).
Definition set_Implements (v : list string) (e : Elem) : Elem :=
  MkElem (Name e) (React e) (Dom e) (HTML e) (Attributes e) (NonBasic e) (Templates e) (NonHTML e) (Child e) (Children e) (EmptyElement e) v (SkipTests e).
Definition set_SkipTests (v : bool) (e : Elem) : Elem :=
  MkElem (Name e) (React e) (Dom e) (HTML e) (Attributes e) (NonBasic e) (Templates e) (NonHTML e) (Child e) (Children e) (EmptyElement e) (Implements e) v.

Definition ChildParam (e : Elem) : string :=
  if str_eqb (Child e) "" then
    if str_eqb (Children e) "" then "" else "children ..." +:+ Children e
  else "child " +:+ Child e.

(** Whether [ChildConvert] writes the loop that copies [children] to [elems]. *)
Definition ChildConvert (e : Elem) : bool :=
  negb (str_eqb (Children e) "") && negb (str_eqb (Children e) "Element").

Definition ChildArg (e : Elem) : string :=
  if str_eqb (Child e) "" then
    if str_eqb (Children e) "" then ""
    else if str_eqb (Children e) "Element" then "children..." else "elems..."
  else "child".

(** [e.Children[0]] panics when there is no [Children]. *)
Definition ChildrenReactType (e : Elem) : res string :=
  match Children e with
  | EmptyString => Panic IndexOutOfRange
  | String c rest => if bool_decide (c = "*"%char) then Ok ("*react." +:+ rest)
                     else Ok ("react." +:+ Children e)
  end.

Definition HTMLAttributes (e : Elem) : gmap string Attr :=
  filter (λ p, ¬ (a_NoHTML p.2 || a_NoReact p.2 || a_IsEvent p.2 || str_eqb (a_Name p.2) "Ref"))
    (Attributes e).

Definition dq : string := String (Ascii.ascii_of_nat 34) "".
Definition Tag (a : Attr) : string :=
  let omitEmpty := if a_OmitEmpty a then " react:" +:+ dq +:+ "omitempty" +:+ dq else "" in
  "`js:" +:+ dq +:+ a_React a +:+ dq +:+ omitEmpty +:+ "`".

Definition HTMLConvertor (a : Attr) (s : string) : string :=
  if str_eqb (a_HTMLConvert a) "" then s else a_HTMLConvert a +:+ "(" +:+ s +:+ ")".

Definition templates : gmap string (gmap string Attr) := {[
  "html" := list_to_map [
    ("AriaHasPopup", (set_a_HTML "aria-haspopup" (set_a_Type "bool" (set_a_React "aria-haspopup" attr0))));
    ("AriaExpanded", (set_a_HTML "aria-expanded" (set_a_Type "bool" (set_a_React "aria-expanded" attr0))));
    ("AriaLabelledBy", (set_a_HTML "aria-labelledby" (set_a_React "aria-labelledby" attr0)));
    ("ClassName", (set_a_HTML "class" attr0));
    ("DangerouslySetInnerHTML", (set_a_NoHTML true (set_a_Type "*DangerousInnerHTML" attr0)));
    ("DataSet", (set_a_NoReact true (set_a_Type "DataSet" attr0)));
    ("ID", (set_a_React "id" (set_a_OmitEmpty true attr0)));
    ("Key", (set_a_OmitEmpty true attr0));
    ("Ref", (set_a_Type "Ref" attr0));
    ("Role", attr0);
    ("Style", (set_a_HTMLConvert "parseCSS" (set_a_Type "*CSS" attr0)));
    ("OnChange", (set_a_IsEvent true (set_a_Type "OnChange" attr0)));
    ("OnClick", (set_a_IsEvent true (set_a_Type "OnClick" attr0)))
  ]
]}.

Definition elements : gmap string Elem := list_to_map [
  ("A", (set_Dom "HTMLAnchorElement" (set_Attributes (list_to_map [("Href", attr0); ("Target", attr0); ("Title", attr0)]) elem0)));
  ("Abbr", (set_Dom "BasicHTMLElement" elem0));
  ("Article", (set_Dom "BasicHTMLElement" elem0));
  ("Aside", (set_Dom "BasicHTMLElement" elem0));
  ("B", (set_Dom "BasicHTMLElement" elem0));
  ("Br", (set_Dom "HTMLBRElement" elem0));
  ("Button", (set_Attributes (list_to_map [("Type", attr0)]) elem0));
  ("Caption", (set_Dom "BasicHTMLElement" (set_SkipTests true elem0)));
  ("Code", (set_Dom "BasicHTMLElement" elem0));
  ("Div", elem0);
  ("Em", (set_Dom "BasicHTMLElement" elem0));
  ("Footer", (set_Dom "BasicHTMLElement" elem0));
  ("Form", elem0);
  ("H1", (set_Dom "HTMLHeadingElement" elem0));
  ("H2", (set_Dom "HTMLHeadingElement" elem0));
  ("H3", (set_Dom "HTMLHeadingElement" elem0));
  ("H4", (set_Dom "HTMLHeadingElement" elem0));
  ("H5", (set_Dom "HTMLHeadingElement" elem0));
  ("H6", (set_Dom "HTMLHeadingElement" elem0));
  ("Header", (set_Dom "BasicHTMLElement" elem0));
  ("Hr", (set_EmptyElement true (set_Dom "HTMLHRElement" elem0)));
  ("I", (set_Dom "BasicHTMLElement" elem0));
  ("IFrame", (set_Attributes (list_to_map [("SrcDoc", attr0)]) elem0));
  ("Img", (set_Dom "HTMLImageElement" (set_Attributes (list_to_map [("Src", attr0); ("Alt", attr0)]) elem0)));
  ("Input", (set_Attributes (list_to_map [("Placeholder", attr0); ("Type", attr0); ("Value", attr0)]) elem0));
  ("Label", (set_Attributes (list_to_map [("For", (set_a_React "htmlFor" attr0))]) elem0));
  ("Li", (set_Dom "HTMLLIElement" (set_Implements ["RendersLi(*LiElem)"] elem0)));
  ("Main", (set_Dom "BasicHTMLElement" elem0));
  ("Nav", (set_Dom "BasicHTMLElement" elem0));
  ("Option", (set_Attributes (list_to_map [("Value", attr0)]) elem0));
  ("P", (set_Dom "HTMLParagraphElement" elem0));
  ("Pre", elem0);
  ("Select", (set_Children "*OptionElem" (set_Attributes (list_to_map [("Value", attr0)]) elem0)));
  ("Span", elem0);
  ("Strike", (set_HTML "s" (set_React "s" (set_Dom "BasicHTMLElement" elem0))));
  ("Sup", (set_Dom "BasicHTMLElement" elem0));
  ("Table", elem0);
  ("Tbody", (set_Dom "BasicHTMLElement" (set_SkipTests true elem0)));
  ("Td", (set_Dom "BasicHTMLElement" (set_SkipTests true elem0)));
  ("TextArea", (set_Attributes (list_to_map [("Placeholder", attr0); ("Value", attr0)]) elem0));
  ("Th", (set_Dom "BasicHTMLElement" (set_SkipTests true elem0)));
  ("Thead", (set_Dom "BasicHTMLElement" (set_SkipTests true elem0)));
  ("Tr", (set_Dom "BasicHTMLElement" (set_SkipTests true elem0)));
  ("Ul", (set_Children "RendersLi" (set_Dom "HTMLUListElement" elem0)))
].

(** ** generate.go *)

(** On a name whose first byte is ASCII; [strings.ToLower] of one rune. *)
Definition lowerInitial (s : string) : string :=
  match s with
  | EmptyString => ""
  | String c s => String (Strings.lower_byte c) s
  end.

Definition or_else (s d : string) : string := if str_eqb s "" then d else s.

(** The body of the loops that fill out the attributes. *)
Definition fill_attr (n : string) (a : Attr) : Attr :=
  let conv := if str_eqb (a_HTMLConvert a) "" && negb (str_eqb (a_Type a) "string")
                 && str_eqb (a_Type a) "bool"
              then "parseBool" else a_HTMLConvert a in
  MkAttr n (or_else (a_React a) (lowerInitial n)) (or_else (a_HTML a) (Strings.ToLower n))
    conv (or_else (a_Type a) "string")
    (a_OmitEmpty a) (a_NoReact a) (a_NoHTML a) (a_IsEvent a).

Definition fill_attrs (m : gmap string Attr) : gmap string Attr := map_imap (λ n a, Some (fill_attr n a)) m.
Definition fill_templates : gmap string (gmap string Attr) → gmap string (gmap string Attr) :=
  fmap fill_attrs.

(** The body of the loop that fills out the elements. *)
Definition fill_elem (n : string) (e : Elem) : res Elem :=
  let templates := if NonHTML e then Templates e else Templates e ++ ["html"] in
  if EmptyElement e && (negb (str_eqb (Child e) "") || negb (str_eqb (Children e) "")) then
    Panic (PanicMsg ("element " +:+ n +:+ " specified as EmptyElement but also child or children properties"))
  else if negb (str_eqb (Child e) "") && negb (str_eqb (Children e) "") then
    Panic (PanicMsg ("element " +:+ n +:+ " supplied both child and children properties"))
  else Ok (MkElem n
    (or_else (React e) (Strings.ToLower n))
    (or_else (Dom e) ("HTML" +:+ n +:+ "Element"))
    (or_else (HTML e) (Strings.ToLower n))
    (fill_attrs (Attributes e)) (NonBasic e) templates (NonHTML e) (Child e)
    (if negb (EmptyElement e) && str_eqb (Children e) "" then "Element" else Children e)
    (EmptyElement e) (Implements e) (SkipTests e)).

(** [addAttr] of the loop that generates the elements. *)
Definition addAttr (ename : string) (attrs : gmap string Attr) (a : Attr) : res (gmap string Attr) :=
  match attrs !! a_Name a with
  | Some _ => Panic (PanicMsg ("element " +:+ ename +:+ " had a clash for attribute " +:+ a_Name a))
  | None => Ok (<[a_Name a := a]> attrs)
  end.

Fixpoint add_attrs (ename : string) (attrs : gmap string Attr) (l : list Attr) : res (gmap string Attr) :=
  match l with
  | [] => Ok attrs
  | a :: l => attrs ← addAttr ename attrs a; add_attrs ename attrs l
  end.

Section Dogen.
(** The order in which [range] visits a map. *)
Context (range_map : ∀ A : Type, gmap string A → list (string * A)).

Fixpoint add_templates (templates : gmap string (gmap string Attr)) (ename : string)
    (attrs : gmap string Attr) (tns : list string) : res (gmap string Attr) :=
  match tns with
  | [] => Ok attrs
  | tn :: tns =>
      match templates !! tn with
      | None => Panic (PanicMsg ("element " +:+ ename +:+ " referenced non-existent template " +:+ tn))
      | Some t => attrs ← add_attrs ename attrs (range_map _ t).*2;
                  add_templates templates ename attrs tns
      end
  end.

Definition merge_elem (templates : gmap string (gmap string Attr)) (e : Elem) : res Elem :=
  attrs ← add_templates templates (Name e) ∅ (Templates e);
  attrs ← add_attrs (Name e) attrs (range_map _ (Attributes e)).*2;
  Ok (set_Attributes attrs e).

(** [text/template] visits a map in the order of its keys. *)
Definition template_range {A} (m : gmap string A) : list A :=
  omap (λ k, m !! k) (Sort.Strings (map_to_list m).*1).

(** What the element template writes for an attribute inside
    [if props != nil { ... }], one constructor per branch. *)
Inductive gen_stmt :=
  | SetRef                               (* if props.Ref != nil { o.Set(ref, props.Ref.Ref) } *)
  | RangeSet (field pre : string)        (* for dk, dv := range props.field { o.Set(pre+dk, dv) } *)
  | IfNonEmpty (field react : string)    (* if props.field is not empty { rprops.field = props.field } *)
  | IfEvent (field react : string)       (* if props.field != nil { o.Set(react, props.field.field) } *)
  | AssignHack (field react : string)    (* rprops.field = props.field.hack() *)
  | Assign (field react : string).       (* rprops.field = props.field *)

Definition attr_stmt (a : Attr) : gen_stmt :=
  if str_eqb (a_Name a) "Ref" then SetRef
  else if str_eqb (a_Name a) "DataSet" then RangeSet "DataSet" "data-"
  else if str_eqb (a_Name a) "AriaSet" then RangeSet "AriaSet" "aria-"
  else if a_OmitEmpty a then IfNonEmpty (a_Name a) (a_React a)
  else if a_IsEvent a then IfEvent (a_Name a) (a_React a)
  else if str_eqb (a_Name a) "Style" then AssignHack (a_Name a) (a_React a)
  else Assign (a_Name a) (a_React a).

(** Everything the templates write for one element. *)
Record Decl := MkDecl {
  d_Name : string;
  d_React : string;
  d_Implements : list string;
  d_fields : list (string * string);            (* fields of [XProps]: name, type *)
  d_rfields : list (string * string * string);  (* fields of [_XProps]: name, type, tag *)
  d_ChildParam : string;
  d_ChildConvert : bool;
  d_ChildArg : string;
  d_stmts : list gen_stmt;
  d_test : option string;                       (* [Dom] of the generated test *)
  d_EmptyElement : bool;
  d_kids : option string;                       (* [ChildrenReactType] in [parseX] *)
  d_parse : list (string * string * string);    (* cases of [parseX]: key, field, value *)
}.

Definition decl_of (e : Elem) : res Decl :=
  let attrs := template_range (Attributes e) in
  kids ← (if EmptyElement e then Ok None else t ← ChildrenReactType e; Ok (Some t));
  Ok {| d_Name := Name e;
        d_React := React e;
        d_Implements := Implements e;
        d_fields := map (λ a, (a_Name a, a_Type a)) attrs;
        d_rfields := map (λ a, (a_Name a, a_Type a, Tag a)) (filter (λ a, a_NoReact a = false) attrs);
        d_ChildParam := ChildParam e;
        d_ChildConvert := ChildConvert e;
        d_ChildArg := ChildArg e;
        d_stmts := map attr_stmt attrs;
        d_test := if SkipTests e then None else Some (Dom e);
        d_EmptyElement := EmptyElement e;
        d_kids := kids;
        d_parse := map (λ a, (a_HTML a, a_Name a, HTMLConvertor a "a.Val"))
                     (template_range (HTMLAttributes e)) |}.

(** Filling out and merging every element of the map, in the order of [range]. *)
Definition fill_and_merge (templates : gmap string (gmap string Attr)) (els : gmap string Elem)
    : res (gmap string Elem) :=
  filled ← res_map (λ p, e ← fill_elem p.1 p.2; Ok (p.1, e)) (range_map _ els);
  merged ← res_map (λ p, e ← merge_elem templates p.2; Ok (p.1, e))
             (range_map _ (list_to_map filled : gmap string Elem));
  Ok (list_to_map merged).

Definition dogen (templates : gmap string (gmap string Attr)) (els : gmap string Elem)
    : res (list Decl) :=
  done ← fill_and_merge (fill_templates templates) els;
  let ens := Sort.Strings (map (λ p, Name p.2) (range_map _ done)) in
  res_map (λ en, e ← of_option NilDeref (done !! en); decl_of e) ens.
End Dogen.

(** One order among the possible ones. *)
Definition some_order (A : Type) (m : gmap string A) : list (string * A) := map_to_list m.

Definition core_decls : res (list Decl) := dogen some_order templates elements.

(** ** Clashes and order *)

(** [range_map] visits every entry of a map exactly once. *)
Definition range_ok (range_map : ∀ A : Type, gmap string A → list (string * A)) : Prop :=
  ∀ A (m : gmap string A), range_map A m ≡ₚ map_to_list m.

Definition by_name (l : list Attr) : list (string * Attr) := map (λ a, (a_Name a, a)) l.

Lemma by_name_cons a l (attrs : gmap string Attr) :
  a_Name a ∉ map a_Name l →
  list_to_map (by_name l) ∪ <[a_Name a := a]> attrs = list_to_map (by_name (a :: l)) ∪ attrs.
Proof.
  intros Hnot. simpl. rewrite <-insert_union_r, insert_union_l; [done|].
  apply not_elem_of_list_to_map_1. unfold by_name. by rewrite <-list_fmap_compose.
Qed.

Lemma add_attrs_Ok en l attrs m :
  add_attrs en attrs l = Ok m ↔
  NoDup (map a_Name l) ∧ (∀ a, a ∈ l → attrs !! a_Name a = None) ∧
  m = list_to_map (by_name l) ∪ attrs.
Proof.
  revert attrs m; induction l as [|a l IH]; intros attrs m; simpl.
  - rewrite map_empty_union. split; [|by intros (_ & _ & ->)].
    intros [= ->]. split_and!; [constructor|by intros a ?%elem_of_nil|done].
  - rewrite bind_Ok. unfold addAttr. setoid_rewrite IH. split.
    + intros (m1 & H1 & Hnd & Hfresh & ->). destruct (attrs !! a_Name a) eqn:Ha; [done|].
      injection H1 as <-.
      assert (a_Name a ∉ map a_Name l) as Hnot.
      { intros (b & Hb & Hin)%list_elem_of_fmap. specialize (Hfresh b Hin).
        rewrite <-Hb, lookup_insert_eq in Hfresh. done. }
      split_and!; [by apply NoDup_cons_2| |].
      * intros b [->|Hin]%elem_of_cons; [done|]. specialize (Hfresh b Hin).
        by apply lookup_insert_None in Hfresh as [? _].
      * by apply by_name_cons.
    + intros (Hnd0 & Hfresh & ->). pose proof (NoDup_cons_1_1 _ _ Hnd0) as Hnot. pose proof (NoDup_cons_1_2 _ _ Hnd0) as Hnd. exists (<[a_Name a := a]> attrs).
      rewrite (Hfresh a) by left. split_and!; [done|done| |].
      * intros b Hin. rewrite lookup_insert_ne; [by apply Hfresh; right|].
        intros Hab. apply Hnot. rewrite Hab. apply list_elem_of_fmap. eauto.
      * symmetry. by apply by_name_cons.
Qed.

Lemma add_attrs_perm en attrs l l' m :
  l ≡ₚ l' → add_attrs en attrs l = Ok m → add_attrs en attrs l' = Ok m.
Proof.
  rewrite !add_attrs_Ok. intros Hp (Hnd & Hf & ->). split_and!.
  - by rewrite <-Hp.
  - intros a Ha. apply Hf. by rewrite Hp.
  - f_equal. apply list_to_map_proper; [|by unfold by_name; rewrite Hp].
    unfold by_name. by rewrite <-list_fmap_compose.
Qed.

Lemma add_attrs_app en attrs l l' :
  add_attrs en attrs (l ++ l') = (m ← add_attrs en attrs l; add_attrs en m l').
Proof.
  revert attrs; induction l as [|a l IH]; intros attrs; simpl; [done|].
  destruct (addAttr en attrs a); simpl; [apply IH|done].
Qed.

Section Merge.
Context (range_map : ∀ A : Type, gmap string A → list (string * A)).
Context (templates : gmap string (gmap string Attr)).

(** The attributes an element asks for: those of its templates, then its own. *)
Fixpoint template_attrs (tns : list string) : option (list Attr) :=
  match tns with
  | [] => Some []
  | tn :: tns => t ← templates !! tn; l ← template_attrs tns; Some ((range_map _ t).*2 ++ l)
  end.

Lemma add_templates_Ok en tns attrs m :
  add_templates range_map templates en attrs tns = Ok m ↔
  ∃ l, template_attrs tns = Some l ∧ add_attrs en attrs l = Ok m.
Proof.
  revert attrs; induction tns as [|tn tns IH]; intros attrs; simpl.
  - split; [by exists []|by intros (l & [= <-] & ?)].
  - destruct (templates !! tn) as [t|]; simpl; [|split; [done|by intros (? & ? & ?)]].
    rewrite bind_Ok. setoid_rewrite IH. split.
    + intros (m1 & H1 & l & Hl & Hm). exists ((range_map _ t).*2 ++ l). rewrite Hl. split; [done|].
      rewrite add_attrs_app, H1. done.
    + intros (l & (l' & Hl' & [= <-])%bind_Some & Hm). rewrite add_attrs_app, bind_Ok in Hm.
      destruct Hm as (m1 & ? & ?). eauto.
Qed.

Lemma merge_elem_Ok e e' :
  merge_elem range_map templates e = Ok e' ↔
  ∃ l, template_attrs (Templates e) = Some l ∧
    NoDup (map a_Name (l ++ (range_map _ (Attributes e)).*2)) ∧
    e' = set_Attributes (list_to_map (by_name (l ++ (range_map _ (Attributes e)).*2))) e.
Proof.
  unfold merge_elem. rewrite bind_Ok. setoid_rewrite add_templates_Ok. split.
  - intros (m1 & (l & Hl & H1) & (m2 & H2 & [= <-])%bind_Ok). exists l.
    assert (add_attrs (Name e) ∅ (l ++ (range_map _ (Attributes e)).*2) = Ok m2)
      as (Hnd & _ & ->)%add_attrs_Ok by by rewrite add_attrs_app, H1.
    rewrite map_union_empty. done.
  - intros (l & Hl & Hnd & ->).
    assert (add_attrs (Name e) ∅ (l ++ (range_map _ (Attributes e)).*2) =
            Ok (list_to_map (by_name (l ++ (range_map _ (Attributes e)).*2)))) as Hm.
    { apply add_attrs_Ok. split_and!; [done|by intros; rewrite lookup_empty|].
      by rewrite map_union_empty. }
    rewrite add_attrs_app, bind_Ok in Hm. destruct Hm as (m1 & H1 & H2).
    exists m1. split; [eauto|]. by rewrite H2.
Qed.
End Merge.

Lemma res_map_keys {A B} (f : string * A → res (string * B)) l ys :
  (∀ p q, f p = Ok q → q.1 = p.1) → res_map f l = Ok ys → ys.*1 = l.*1.
Proof.
  intros Hf H%res_map_Forall2. induction H as [|p q l ys Hpq _ IH]; [done|].
  apply Hf in Hpq. cbn. by f_equal.
Qed.

(** Collecting the results of a loop over a map in a map: any order will do. *)
Lemma collect_perm {A B} (f : string * A → res (string * B)) (l l' : list (string * A)) ys :
  (∀ p q, f p = Ok q → q.1 = p.1) → NoDup l.*1 → l ≡ₚ l' → res_map f l = Ok ys →
  ∃ ys', res_map f l' = Ok ys' ∧ (list_to_map ys' : gmap string B) = list_to_map ys.
Proof.
  intros Hf Hnd Hp H. destruct (res_map_perm _ _ _ _ Hp H) as (ys' & H' & Hys).
  exists ys'. split; [done|]. symmetry. apply list_to_map_proper; [|done].
  pose proof (res_map_keys f l ys Hf H) as Hk. by rewrite Hk.
Qed.

Lemma keyed_result {A B} (g : string * A → res B) (p : string * A) (q : string * B) :
  (e ← g p; Ok (p.1, e)) = Ok q → q.1 = p.1.
Proof. by intros (e & _ & [= <-])%bind_Ok. Qed.

Section Orders.
Context (r r' : ∀ A : Type, gmap string A → list (string * A)).
Hypothesis (Hr : range_ok r) (Hr' : range_ok r').

Lemma range_perm {A} (m : gmap string A) : r A m ≡ₚ r' A m.
Proof. by rewrite (Hr A m), (Hr' A m). Qed.
Lemma range_NoDup {A} (m : gmap string A) : NoDup (r A m).*1.
Proof. rewrite (Hr A m). apply NoDup_fst_map_to_list. Qed.

Lemma template_attrs_order ts tns l :
  template_attrs r ts tns = Some l → ∃ l', template_attrs r' ts tns = Some l' ∧ l ≡ₚ l'.
Proof.
  revert l; induction tns as [|tn tns IH]; intros l; simpl; [by intros [= <-]; exists []|].
  destruct (ts !! tn) as [t|]; simpl; [|done].
  intros (l1 & (l1' & -> & Hp)%IH & [= <-])%bind_Some. eexists. split; [done|].
  by rewrite Hp, range_perm.
Qed.

Lemma merge_elem_order ts e e' : merge_elem r ts e = Ok e' → merge_elem r' ts e = Ok e'.
Proof.
  rewrite !merge_elem_Ok. intros (l & (l' & Hl' & Hp)%template_attrs_order & Hnd & ->).
  exists l'. assert (Hp' : l ++ (r _ (Attributes e)).*2 ≡ₚ l' ++ (r' _ (Attributes e)).*2)
    by by rewrite Hp, range_perm.
  split_and!; [done|by rewrite <-Hp'|]. f_equal. apply list_to_map_proper.
  - unfold by_name. by rewrite <-list_fmap_compose.
  - unfold by_name. by rewrite Hp'.
Qed.

Lemma fill_and_merge_order ts els m :
  fill_and_merge r ts els = Ok m → fill_and_merge r' ts els = Ok m.
Proof.
  unfold fill_and_merge. intros (filled & H1 & (merged & H2 & [= <-])%bind_Ok)%bind_Ok.
  destruct (collect_perm _ _ _ _ (keyed_result _) (range_NoDup els) (range_perm els) H1)
    as (filled' & -> & Hfill). simpl. rewrite Hfill.
  apply (res_map_ext_Ok _ (λ p, e ← merge_elem r' ts p.2; Ok (p.1, e))) in H2.
  - destruct (collect_perm _ _ _ _ (keyed_result _) (range_NoDup _) (range_perm _) H2)
      as (merged' & -> & Hm). simpl. by rewrite Hm.
  - intros p q _ (e & He%merge_elem_order & [= <-])%bind_Ok. by rewrite He.
Qed.

Lemma dogen_order ts els decls : dogen r ts els = Ok decls → dogen r' ts els = Ok decls.
Proof.
  unfold dogen. intros (m & Hm%fill_and_merge_order & Hd)%bind_Ok. rewrite Hm. simpl.
  rewrite <-Hd. f_equal. apply Sort.Strings_unique. by rewrite range_perm.
Qed.
End Orders.

(** The generator is deterministic.  Go leaves the order of [range] over a
    map unspecified; whatever orders two runs of [dogen] use, if one of them
    writes its files the other writes the same declarations in the same order,
    and if one stops with an error so does the other. *)
Theorem dogen_deterministic r r' ts els :
  range_ok r → range_ok r' →
  ∀ decls, dogen r ts els = Ok decls ↔ dogen r' ts els = Ok decls.
Proof. intros Hr Hr' decls. split; by apply dogen_order. Qed.

(** An element is generated exactly when every template it names exists and
    no attribute name occurs twice among those of its templates and its own; it
    then has exactly these attributes, each under its name. *)
Theorem merge_elem_spec r ts e :
  match merge_elem r ts e with
  | Ok e' => ∃ l, template_attrs r ts (Templates e) = Some l ∧
      NoDup (map a_Name (l ++ (r _ (Attributes e)).*2)) ∧
      ∀ n a, Attributes e' !! n = Some a ↔ a_Name a = n ∧ a ∈ l ++ (r _ (Attributes e)).*2
  | Panic _ => ∀ l, template_attrs r ts (Templates e) = Some l →
      ¬ NoDup (map a_Name (l ++ (r _ (Attributes e)).*2))
  end.
Proof.
  destruct (merge_elem r ts e) as [e'|p] eqn:H.
  - apply merge_elem_Ok in H as (l & Hl & Hnd & ->). exists l. split_and!; [done..|].
    intros n a. simpl. rewrite <-elem_of_list_to_map.
    + unfold by_name. rewrite list_elem_of_fmap. naive_solver.
    + unfold by_name. by rewrite <-list_fmap_compose.
  - intros l Hl Hnd. assert (∃ e', merge_elem r ts e = Ok e') as [e' He'].
    { eexists. apply merge_elem_Ok. eauto. }
    congruence.
Qed.

Definition reverse_order (A : Type) (m : gmap string A) : list (string * A) := reverse (map_to_list m).

Lemma some_order_ok : range_ok some_order.
Proof. intros A m. reflexivity. Qed.
Lemma reverse_order_ok : range_ok reverse_order.
Proof. intros A m. apply reverse_Permutation. Qed.

Lemma core_decls_names : (λ l, map d_Name l) <$> core_decls = Ok ["A"; "Abbr"; "Article"; "Aside";
  "B"; "Br"; "Button"; "Caption"; "Code"; "Div"; "Em"; "Footer"; "Form"; "H1"; "H2"; "H3"; "H4";
  "H5"; "H6"; "Header"; "Hr"; "I"; "IFrame"; "Img"; "Input"; "Label"; "Li"; "Main"; "Nav";
  "Option"; "P"; "Pre"; "Select"; "Span"; "Strike"; "Sup"; "Table"; "Tbody"; "Td"; "TextArea";
  "Th"; "Thead"; "Tr"; "Ul"].
Proof. vm_compute. reflexivity. Qed.

Lemma dogen_deterministic_witness :
  ∃ decls, dogen reverse_order templates elements = Ok decls.
Proof.
  pose proof core_decls_names as H. unfold core_decls in H.
  destruct (dogen some_order templates elements) as [decls|p] eqn:E; [|discriminate H].
  exists decls.
  exact (proj1 (dogen_deterministic some_order reverse_order templates elements
    some_order_ok reverse_order_ok decls) E).
Defined.

End Gen.

(** ** The meaning of the generated constructors *)
Section Meaning.
Context {RV : ReactValues}.

(** The value of a field of a props struct. *)
Inductive fval :=
  | FString (s : string)
  | FBool (b : bool)
  | FInner (o : option object)
  | FDataSet (ds : list (string * string))
  | FCSS (c : option CSS)
  | FHandler (h : option Handler).

(** The Go types such a value can be the value of. *)
Definition fval_types (v : fval) : list string :=
  match v with
  | FString _ => ["string"]
  | FBool _ => ["bool"]
  | FInner _ => ["*DangerousInnerHTML"]
  | FDataSet _ => ["DataSet"; "AriaSet"]
  | FCSS _ => ["*CSS"]
  | FHandler _ => ["OnChange"; "OnClick"; "Ref"]
  end.

(** The fields of a props struct, by name. *)
Definition fields : Type := list (string * fval).
Fixpoint field (fs : fields) (n : string) : option fval :=
  match fs with
  | [] => None
  | (m, v) :: fs => if str_eqb m n then Some v else field fs n
  end.

(** Running a statement; [None] where the Go code would not compile. *)
Definition exec_stmt (fs : fields) (s : Gen.gen_stmt) (o : object) : option object :=
  match s with
  | Gen.SetRef =>
      match field fs "Ref" with
      | Some (FHandler h) => Some (El.set_handler "ref" h o)
      | _ => None
      end
  | Gen.RangeSet f pre =>
      match field fs f with
      | Some (FDataSet ds) => Some (foldl (λ o '(dk, dv), obj_set o (pre +:+ dk) (JStr dv)) o ds)
      | _ => None
      end
  | Gen.IfNonEmpty f k =>
      match field fs f with
      | Some (FString s) => Some (El.assign_nonempty k s o)
      | _ => None
      end
  | Gen.IfEvent f k =>
      match field fs f with
      | Some (FHandler h) => Some (El.set_handler k h o)
      | _ => None
      end
  | Gen.AssignHack f k =>
      match field fs f with
      | Some (FCSS c) => Some (El.assign k (El.hack c) o)
      | _ => None
      end
  | Gen.Assign f k =>
      match field fs f with
      | Some (FString s) => Some (El.assign k (JStr s) o)
      | Some (FBool b) => Some (El.assign k (JBool b) o)
      | Some (FInner i) => Some (El.assign k (El.ptr_val i) o)
      | _ => None
      end
  end.

Fixpoint exec_stmts (fs : fields) (ss : list Gen.gen_stmt) (o : object) : option object :=
  match ss with
  | [] => Some o
  | s :: ss => match exec_stmt fs s o with
               | Some o => exec_stmts fs ss o
               | None => None
               end
  end.

(** The element the constructor generated from [d] makes. *)
Definition run_decl (d : Gen.Decl) (props : option fields) (children : list Element) : option Element :=
  match (match props with Some fs => exec_stmts fs (Gen.d_stmts d) [] | None => Some [] end) with
  | Some o => Some (createElement (Tag (Gen.d_React d)) (JObject o)
                      (if str_eqb (Gen.d_ChildArg d) "" then [] else children))
  | None => None
  end.

(** The fields of the [html] template. *)
Definition html_fields (p : El.HTMLProps) : fields := [
  ("AriaExpanded", FBool (El.AriaExpanded p));
  ("AriaHasPopup", FBool (El.AriaHasPopup p));
  ("AriaLabelledBy", FString (El.AriaLabelledBy p));
  ("ClassName", FString (El.ClassName p));
  ("DangerouslySetInnerHTML", FInner (El.DangerouslySetInnerHTML p));
  ("DataSet", FDataSet (El.DataSet p));
  ("ID", FString (El.ID p));
  ("Key", FString (El.Key p));
  ("OnChange", FHandler (El.OnChange p));
  ("OnClick", FHandler (El.OnClick p));
  ("Ref", FHandler (El.Ref p));
  ("Role", FString (El.Role p));
  ("Style", FCSS (El.Style p))].

(** An element of [Elements.v]: its props type, the fields of its props, its
    constructor. *)
Record core_elem := CoreElem {
  ce_Name : string;
  ce_Props : Type;
  ce_fields : ce_Props → fields;
  ce_ctor : option ce_Props → list Element → Element;
}.
Arguments CoreElem ce_Name {ce_Props} ce_fields ce_ctor.

Definition core_elems : list core_elem := [
  CoreElem "A" (λ p, [("Href", FString (El.A_Href p)); ("Target", FString (El.A_Target p)); ("Title", FString (El.A_Title p))] ++ html_fields (El.A_html p)) El.A;
  CoreElem "Abbr" html_fields El.Abbr;
  CoreElem "Article" html_fields El.Article;
  CoreElem "Aside" html_fields El.Aside;
  CoreElem "B" html_fields El.B;
  CoreElem "Br" html_fields El.Br;
  CoreElem "Button" (λ p, [("Type", FString (El.Button_Type p))] ++ html_fields (El.Button_html p)) El.Button;
  CoreElem "Caption" html_fields El.Caption;
  CoreElem "Code" html_fields El.Code;
  CoreElem "Div" html_fields El.Div;
  CoreElem "Em" html_fields El.Em;
  CoreElem "Footer" html_fields El.Footer;
  CoreElem "Form" html_fields El.Form;
  CoreElem "H1" html_fields El.H1;
  CoreElem "H2" html_fields El.H2;
  CoreElem "H3" html_fields El.H3;
  CoreElem "H4" html_fields El.H4;
  CoreElem "H5" html_fields El.H5;
  CoreElem "H6" html_fields El.H6;
  CoreElem "Header" html_fields El.Header;
  CoreElem "Hr" html_fields (λ p _, El.Hr p);
  CoreElem "I" html_fields El.I;
  CoreElem "IFrame" (λ p, [("SrcDoc", FString (El.IFrame_SrcDoc p))] ++ html_fields (El.IFrame_html p)) El.IFrame;
  CoreElem "Img" (λ p, [("Alt", FString (El.Img_Alt p)); ("Src", FString (El.Img_Src p))] ++ html_fields (El.Img_html p)) El.Img;
  CoreElem "Input" (λ p, [("Placeholder", FString (El.Input_Placeholder p)); ("Type", FString (El.Input_Type p)); ("Value", FString (El.Input_Value p))] ++ html_fields (El.Input_html p)) El.Input;
  CoreElem "Label" (λ p, [("For", FString (El.Label_For p))] ++ html_fields (El.Label_html p)) El.Label;
  CoreElem "Li" html_fields El.Li;
  CoreElem "Main" html_fields El.Main;
  CoreElem "Nav" html_fields El.Nav;
  CoreElem "Option" (λ p, [("Value", FString (El.Option_Value p))] ++ html_fields (El.Option_html p)) El.Option;
  CoreElem "P" html_fields El.P;
  CoreElem "Pre" html_fields El.Pre;
  CoreElem "Select" (λ p, [("Value", FString (El.Select_Value p))] ++ html_fields (El.Select_html p)) El.Select;
  CoreElem "Span" html_fields El.Span;
  CoreElem "Strike" html_fields El.Strike;
  CoreElem "Sup" html_fields El.Sup;
  CoreElem "Table" html_fields El.Table;
  CoreElem "Tbody" html_fields El.Tbody;
  CoreElem "Td" html_fields El.Td;
  CoreElem "TextArea" (λ p, [("Placeholder", FString (El.TextArea_Placeholder p)); ("Value", FString (El.TextArea_Value p))] ++ html_fields (El.TextArea_html p)) El.TextArea;
  CoreElem "Th" html_fields El.Th;
  CoreElem "Thead" html_fields El.Thead;
  CoreElem "Tr" html_fields El.Tr;
  CoreElem "Ul" html_fields El.Ul].

(** A constructor is what the generator's table describes: the props struct has
    the generated fields with the generated types, and the constructor builds
    the element the generated statements build. *)
Definition generated_as (d : Gen.Decl) (e : core_elem) : Prop :=
  Gen.d_Name d = ce_Name e ∧
  (∀ p, length (ce_fields e p) = length (Gen.d_fields d) ∧
        Forall (λ f, ∃ v, field (ce_fields e p) f.1 = Some v ∧ f.2 ∈ fval_types v) (Gen.d_fields d)) ∧
  ∀ props children, run_decl d (ce_fields e <$> props) children = Some (ce_ctor e props children).

Lemma elements_as_generated :
  ∃ decls, Gen.core_decls = Ok decls ∧ Forall2 generated_as decls core_elems.
Proof.
  eexists. split; [vm_compute; reflexivity|].
  unfold core_elems. repeat (constructor; [split_and!; [reflexivity| |by intros [?|] ?]|]);
    [..|constructor].
  all: intros p; split; [reflexivity|].
  all: repeat (constructor; [eexists; split; [reflexivity|]; simpl; by repeat constructor|]); constructor.
Qed.

(** C5: the generator and its output agree.  Running [dogen] on the tables of
    [elements.go] succeeds, and gives, in the order of the generated file, one
    declaration for each of the 44 elements; each constructor of the generated
    file sets on the React element exactly the properties its declaration
    prescribes, from props with exactly the declared fields and types. *)
Theorem elements_generated :
  ∃ decls, Gen.core_decls = Ok decls ∧ Forall2 generated_as decls core_elems.
Proof. exact elements_as_generated. Qed.
End Meaning.

Arguments CoreElem {RV} ce_Name {ce_Props} ce_fields ce_ctor.
