(* ===== verification/GoGenerate.v ===== *)
(** * gogenerate: the names of generated files

    Models the naming part of [src/_vendor/src/myitcv.io/gogenerate/gogenerate.go],
    which every generator of the framework uses: [NameFile], [NameTestFile] and
    [NameFileFromFile] make the name of an output file from the name of its input
    and of the generator, [FileIsGenerated] and [FileGeneratedBy] read the
    generator back from a file name. *)

From S2P Require Import Prelude GoLib.

Definition genStr : string := "gen".
Definition sep : string := "_".
Definition sep_byte : ascii := "_"%char.
Definition genFilePrefix : string := genStr +:+ sep.

Definition FileIsGenerated (path : string) : option string :=
  let fn := Filepath.Base path in
  if negb (Strings.HasPrefix fn genFilePrefix) || negb (Strings.HasSuffix fn ".go") then None
  else
    let fn := Strings.TrimPrefix fn genFilePrefix in
    let fn := Strings.TrimSuffix fn ".go" in
    let fn := if Strings.HasSuffix fn "_test" then Strings.TrimSuffix fn "_test" else fn in
    if str_eqb fn "" then None
    else list.last (Strings.Split fn sep_byte).

Definition FileGeneratedBy (path cmd : string) : bool :=
  let cmd := Filepath.Base cmd in
  match FileIsGenerated path with
  | Some c => str_eqb c cmd
  | None => false
  end.

Definition nameBase (name cmd : string) : string :=
  let res := genStr in
  let res := if str_eqb name "" then res else res +:+ sep +:+ name in
  res +:+ sep +:+ cmd.

Definition NameFile (name cmd : string) : string :=
  let cmd := Filepath.Base cmd in
  nameBase name cmd +:+ ".go".

Definition NameTestFile (name cmd : string) : string :=
  let cmd := Filepath.Base cmd in
  nameBase name cmd +:+ "_test.go".

Definition NameFileFromFile (name cmd : string) : option string :=
  let dir := Filepath.Dir name in
  let name := Filepath.Base name in
  if negb (Strings.HasSuffix name ".go") then None
  else
    let name := Strings.TrimSuffix name ".go" in
    let cmd := Filepath.Base cmd in
    let res := if Strings.HasSuffix name "_test"
               then NameTestFile (Strings.TrimSuffix name "_test") cmd
               else NameFile name cmd in
    Some (Filepath.Join [dir; res]).

(** ** The license header *)

(** [bufio.Scanner] over the lines of a file: a final empty line is no token, and a
    carriage return at the end of a line is dropped. *)
Definition MaxScanTokenSize : N := 65536.
Definition raw_lines (content : string) : list string :=
  let ls := Strings.Split content newline in
  match list.last ls with
  | Some EmptyString => take (length ls - 1) ls
  | _ => ls
  end.
Definition too_long (l : string) : bool := (MaxScanTokenSize <=? N.of_nat (str_len l))%N.

(** The loop over the scanner: the text so far and whether the last line is empty. *)
Definition license_line (st : string * bool) (l : string) : string * bool :=
  let line := Strings.TrimSpace (Strings.TrimSuffix l (String cr "")) in
  (st.1 +:+ "// " +:+ line +:+ nl, str_eqb line "").

Definition CommentLicenseHeader (Open : string → string + string) (file : option string) : string + string :=
  match file with
  | None | Some EmptyString => inr ""
  | Some file =>
      match Open file with
      | inl err => inl ("could not open file " +:+ Strconv.Quote file +:+ ": " +:+ err)
      | inr content =>
          let ls := raw_lines content in
          if existsb too_long ls
          then inl ("failed to scan file " +:+ file +:+ ": bufio.Scanner: token too long")
          else
            let '(res, lastLineEmpty) := foldl license_line ("", false) ls in
            inr (if lastLineEmpty : bool then res else res +:+ nl)
      end
  end.

(** ** Paths *)
Abbreviation slash_free s := (str_has Filepath.slash s = false).

Lemma trim_right_id s : (∀ t, s ≠ t +:+ "/") → Strings.trim_right ["/"] s = s.
Proof.
  intros Hs. unfold Strings.trim_right, Strings.trim_left.
  transitivity (str_rev (str_rev s)); [|apply str_rev_invol]. f_equal.
  destruct (str_rev s) as [|c u] eqn:Hr; [done|].
  cbn -[Strings.HasPrefix]. rewrite HasPrefix_byte. case_bool_decide as Hc; [subst|done].
  destruct (Hs (str_rev u)). by rewrite <-(str_rev_invol s), Hr, str_rev_cons.
Qed.

Lemma slash_free_end s t : slash_free s → s ≠ t +:+ "/".
Proof. intros Hs ->. rewrite str_has_app in Hs. simpl in Hs. by rewrite orb_true_r in Hs. Qed.
Lemma file_end z f t :
  f ≠ "" → slash_free f → z +:+ String Filepath.slash f ≠ t +:+ "/".
Proof.
  intros Hne Hf Ht. apply (f_equal (λ s, list.last (Strings.Split s Filepath.slash))) in Ht.
  rewrite (Strings.Split_app z f), (Strings.Split_last t), (Strings.Split_one f), !last_snoc in Ht
    by done. congruence.
Qed.

(** The file in a directory. *)
Lemma Base_stripped p f :
  p ≠ "" → f ≠ "" → (∀ t, p ≠ t +:+ "/") →
  list.last (Strings.Split p Filepath.slash) = Some f → Filepath.Base p = f.
Proof.
  intros Hp Hf He Hl. unfold Filepath.Base, Filepath.after_slash, str_eqb.
  rewrite bool_decide_eq_false_2, trim_right_id, Hl by done. simpl.
  by rewrite bool_decide_eq_false_2.
Qed.
Lemma Base_file f : f ≠ "" → slash_free f → Filepath.Base f = f.
Proof.
  intros Hne Hf. apply Base_stripped; try done; [by intros t; apply slash_free_end|].
  by rewrite Strings.Split_one.
Qed.
Lemma Base_in_dir z f : f ≠ "" → slash_free f → Filepath.Base (z +:+ String Filepath.slash f) = f.
Proof.
  intros Hne Hf. apply Base_stripped; try done; [by destruct z|by intros t; apply file_end|].
  by rewrite Strings.Split_app, (Strings.Split_one f), last_snoc.
Qed.

Lemma Join_snoc ws f sp : ws ≠ [] → Strings.Join (ws ++ [f]) sp = Strings.Join ws sp +:+ sp +:+ f.
Proof.
  induction ws as [|w [|w' ws] IH]; intros Hne; [done..|].
  change (Strings.Join ((w :: w' :: ws) ++ [f]) sp)
    with (w +:+ sp +:+ Strings.Join ((w' :: ws) ++ [f]) sp).
  change (Strings.Join (w :: w' :: ws) sp) with (w +:+ sp +:+ Strings.Join (w' :: ws) sp).
  rewrite IH by done. by rewrite !str_app_assoc.
Qed.

(** The names [Clean] keeps as they are. *)
Definition plain_file (f : string) : Prop := slash_free f ∧ f ≠ "" ∧ f ≠ "." ∧ f ≠ "..".

Lemma Clean_file p es f :
  plain_file f → Strings.Split p Filepath.slash = es ++ [f] →
  Filepath.Clean p = f ∨ ∃ z, Filepath.Clean p = z +:+ String Filepath.slash f.
Proof.
  intros (Hs & Hne & H1 & H2) Hp. unfold Filepath.Clean. rewrite Hp, foldl_app. simpl.
  set (r := Strings.HasPrefix p "/"). set (acc := foldl _ [] es).
  assert (Filepath.clean_step r acc f = f :: acc) as ->
    by (unfold Filepath.clean_step, str_eqb; by rewrite !bool_decide_eq_false_2).
  rewrite reverse_cons. destruct (reverse acc) as [|w ws] eqn:Hacc.
  - simpl. destruct r; [right; by exists ""|]. unfold str_eqb. rewrite bool_decide_eq_false_2; auto.
  - right. rewrite Join_snoc by done. set (b := Strings.Join (w :: ws) "/").
    destruct r; [exists ("/" +:+ b); by rewrite str_app_assoc|].
    unfold str_eqb. rewrite bool_decide_eq_false_2 by by destruct b. by exists b.
Qed.

Lemma Base_Join dir f : plain_file f → Filepath.Base (Filepath.Join [dir; f]) = f.
Proof.
  intros Hf. pose proof Hf as (Hs & Hne & _ & _).
  assert (Filepath.Join [dir; f] = f ∨ ∃ z, Filepath.Join [dir; f] = z +:+ String Filepath.slash f)
    as [->|[z ->]]; [|by apply Base_file|by apply Base_in_dir].
  simpl. unfold str_eqb. case_bool_decide; [rewrite bool_decide_eq_false_2 by done|].
  - apply (Clean_file _ []); [done|]. by apply Strings.Split_one.
  - apply (Clean_file _ (Strings.Split dir Filepath.slash)); [done|].
    etrans; [exact (Strings.Split_app dir f Filepath.slash)|]. by rewrite (Strings.Split_one f).
Qed.

Lemma Base_ne p : Filepath.Base p ≠ "".
Proof.
  unfold Filepath.Base, str_eqb. case_bool_decide; [done|]. by case_bool_decide.
Qed.
Lemma Base_slash p : slash_free (Filepath.Base p) ∨ Filepath.Base p = "/".
Proof.
  unfold Filepath.Base, Filepath.after_slash, str_eqb. case_bool_decide; [by left|].
  case_bool_decide; [by right|]. left. set (q := Strings.trim_right _ p) in *.
  destruct (list.last (Strings.Split q Filepath.slash)) as [w|] eqn:Hw; [|done].
  pose proof (Strings.Split_no_sep q Filepath.slash) as Hf. rewrite list.Forall_forall in Hf.
  by apply Hf, last_Some_elem_of.
Qed.

(** ** Reading names back *)

(** A generator that the names of its files tell: its base name is a file name
    without the separator. *)
Definition readable (cmd : string) : Prop :=
  slash_free (Filepath.Base cmd) ∧ str_has sep_byte (Filepath.Base cmd) = false.

(** The name between the prefix and the suffix. *)
Definition body (name c : string) : string :=
  if str_eqb name "" then c else name +:+ String sep_byte c.

Lemma nameBase_body name c : nameBase name c = genFilePrefix +:+ body name c.
Proof. unfold nameBase, body. by case_match. Qed.

Lemma body_last name c : str_has sep_byte c = false → list.last (Strings.Split (body name c) sep_byte) = Some c.
Proof.
  intros Hc. unfold body. case_match; [by rewrite Strings.Split_one|].
  by rewrite Strings.Split_app, (Strings.Split_one c), last_snoc.
Qed.
Lemma body_ne name c : c ≠ "" → body name c ≠ "".
Proof. unfold body. case_match; [done|]. by destruct name. Qed.

Lemma body_test name c :
  str_has sep_byte c = false → c ≠ "test" → Strings.HasSuffix (body name c) "_test" = false.
Proof.
  intros Hc Ht. apply not_true_iff_false. intros [t Hs]%HasSuffix_spec.
  pose proof (body_last name c Hc) as Hl.
  rewrite Hs, (Strings.Split_app t "test"), (Strings.Split_one "test"), last_snoc in Hl by done.
  congruence.
Qed.

Lemma prefix_test name c :
  str_has sep_byte c = false → c ≠ "test" →
  Strings.HasSuffix (genFilePrefix +:+ body name c) "_test" = false.
Proof.
  intros Hc Ht.
  assert (genFilePrefix +:+ body name c = body (if str_eqb name "" then "gen" else "gen_" +:+ name) c)
    as -> by (unfold body; by destruct (str_eqb name "")).
  by apply body_test.
Qed.

(** [FileIsGenerated] on a name in the pattern. *)
Lemma FileIsGenerated_body p b t :
  Filepath.Base p = genFilePrefix +:+ b +:+ ".go" →
  t = (if Strings.HasSuffix b "_test" then Strings.TrimSuffix b "_test" else b) → t ≠ "" →
  FileIsGenerated p = list.last (Strings.Split t sep_byte).
Proof.
  intros Hp -> Hne. unfold FileIsGenerated. rewrite Hp, HasPrefix_app.
  rewrite <-str_app_assoc, HasSuffix_app, str_app_assoc. cbn [negb orb].
  rewrite TrimPrefix_app, TrimSuffix_app. unfold str_eqb. by rewrite bool_decide_eq_false_2.
Qed.

Lemma plain_gen b : slash_free b → plain_file (genFilePrefix +:+ b).
Proof. intros Hb. repeat split; [|done..]. by rewrite str_has_app, Hb. Qed.

Lemma body_slash name c : slash_free name → slash_free c → slash_free (body name c).
Proof.
  intros Hn Hc. unfold body. case_match; [done|]. rewrite str_has_app, Hn. simpl. by rewrite Hc.
Qed.

Lemma NameFile_body name cmd : NameFile name cmd = genFilePrefix +:+ body name (Filepath.Base cmd) +:+ ".go".
Proof. unfold NameFile. by rewrite nameBase_body, str_app_assoc. Qed.
Lemma NameTestFile_body name cmd :
  NameTestFile name cmd = genFilePrefix +:+ (body name (Filepath.Base cmd) +:+ "_test") +:+ ".go".
Proof. unfold NameTestFile. by rewrite nameBase_body, !str_app_assoc. Qed.

Lemma Name_plain name cmd :
  slash_free name → readable cmd → plain_file (NameFile name cmd) ∧ plain_file (NameTestFile name cmd).
Proof.
  intros Hn [Hc _]. rewrite NameFile_body, NameTestFile_body.
  split; apply plain_gen; by rewrite !str_has_app, body_slash.
Qed.

(** Reading a path whose base is such a name. *)
Lemma read_NameFile p name cmd :
  readable cmd → Filepath.Base cmd ≠ "test" → Filepath.Base p = NameFile name cmd →
  FileIsGenerated p = Some (Filepath.Base cmd).
Proof.
  intros [_ Hc] Ht Hp. rewrite NameFile_body in Hp.
  erewrite FileIsGenerated_body; [by apply body_last|exact Hp|by rewrite body_test|].
  apply body_ne, Base_ne.
Qed.
Lemma read_NameTestFile p name cmd :
  readable cmd → Filepath.Base p = NameTestFile name cmd →
  FileIsGenerated p = Some (Filepath.Base cmd).
Proof.
  intros [_ Hc] Hp. rewrite NameTestFile_body in Hp.
  erewrite FileIsGenerated_body; [by apply body_last|exact Hp|by rewrite HasSuffix_app, TrimSuffix_app|].
  apply body_ne, Base_ne.
Qed.

(** A generator whose base name is a file name without underscores is read
    back from the names it gives its files: from every test file name, and from
    every ordinary file name unless the generator is called test, which reads as
    the marker of a test file. *)
Theorem NameFile_roundtrip name cmd :
  slash_free name → readable cmd →
  FileIsGenerated (NameTestFile name cmd) = Some (Filepath.Base cmd) ∧
  (Filepath.Base cmd ≠ "test" → FileIsGenerated (NameFile name cmd) = Some (Filepath.Base cmd)).
Proof.
  intros Hn Hc. destruct (Name_plain name cmd Hn Hc) as [(?&?&_) (?&?&_)].
  split; [|intros Ht]; [eapply read_NameTestFile|eapply read_NameFile]; eauto using Base_file.
Qed.

Lemma test_suffix s :
  Strings.HasSuffix s "_test.go" =
  Strings.HasSuffix s ".go" && Strings.HasSuffix (Strings.TrimSuffix s ".go") "_test".
Proof.
  apply eq_true_iff_eq. rewrite andb_true_iff, !HasSuffix_spec. split.
  - intros [t ->]. change "_test.go" with ("_test" +:+ ".go"). rewrite <-str_app_assoc.
    rewrite TrimSuffix_app. eauto.
  - intros [[t ->] [u Hu]]. rewrite TrimSuffix_app in Hu. subst. exists u. by rewrite str_app_assoc.
Qed.

Lemma readable_Base cmd : readable cmd → readable (Filepath.Base cmd) ∧
  Filepath.Base (Filepath.Base cmd) = Filepath.Base cmd.
Proof.
  intros [Hs Hc]. unfold readable. rewrite (Base_file (Filepath.Base cmd)); auto using Base_ne.
Qed.

Lemma slash_free_Trim s p : slash_free s → slash_free (Strings.TrimSuffix s p).
Proof.
  unfold Strings.TrimSuffix. destruct (Strings.HasSuffix s p) eqn:H; [|done].
  apply HasSuffix_spec in H as [t ->]. rewrite str_len_app, Nat.add_sub, str_take_app, str_has_app.
  by intros [? _]%orb_false_iff.
Qed.

(** The output named after an input file exists exactly when the input is a
    Go file; it is a file that the generator is known to have generated, and it is
    a test file exactly when the input is one. *)
Theorem NameFileFromFile_spec name cmd :
  readable cmd → Filepath.Base cmd ≠ "test" →
  match NameFileFromFile name cmd with
  | None => Strings.HasSuffix (Filepath.Base name) ".go" = false
  | Some p =>
      Strings.HasSuffix (Filepath.Base name) ".go" = true ∧
      FileGeneratedBy p cmd = true ∧
      Strings.HasSuffix (Filepath.Base p) "_test.go" = Strings.HasSuffix (Filepath.Base name) "_test.go"
  end.
Proof.
  intros Hc Ht. destruct (readable_Base cmd Hc) as [Hb Hbb]. unfold NameFileFromFile.
  destruct (Strings.HasSuffix (Filepath.Base name) ".go") eqn:Hgo; cbn [negb]; [|done].
  split; [done|]. rewrite (test_suffix (Filepath.Base name)), Hgo. cbn [andb].
  assert (slash_free (Filepath.Base name)) as Hn
    by (destruct (Base_slash name) as [?|E]; [done|by rewrite E in Hgo]).
  set (n := Strings.TrimSuffix (Filepath.Base name) ".go").
  assert (slash_free n) as Hsn by by apply slash_free_Trim.
  unfold FileGeneratedBy. destruct (Strings.HasSuffix n "_test"); cbv zeta.
  - pose proof (slash_free_Trim n "_test" Hsn) as Hst.
    pose proof (Base_Join (Filepath.Dir name) _ (proj2 (Name_plain _ _ Hst Hb))) as HB.
    rewrite (read_NameTestFile _ _ _ Hb HB), HB, Hbb. unfold str_eqb.
    rewrite bool_decide_eq_true_2 by done. split; [done|].
    rewrite NameTestFile_body, <-!str_app_assoc, str_app_assoc. apply HasSuffix_app.
  - pose proof (Base_Join (Filepath.Dir name) _ (proj1 (Name_plain _ _ Hsn Hb))) as HB.
    rewrite (read_NameFile _ _ _ Hb (eq_ind_r (λ b, b ≠ "test") Ht Hbb) HB), HB, Hbb. unfold str_eqb.
    rewrite bool_decide_eq_true_2 by done. split; [done|].
    rewrite test_suffix, NameFile_body, <-str_app_assoc, TrimSuffix_app, HasSuffix_app, Hbb. apply prefix_test; [apply Hc|done].
Qed.

Lemma FileIsGenerated_no_sep path c : FileIsGenerated path = Some c → str_has sep_byte c = false.
Proof.
  unfold FileIsGenerated. case_match; [done|].
  match goal with |- context [Strings.Split ?q _] => set (t := q) end.
  case_match; [done|]. intros Hl%last_Some_elem_of.
  pose proof (Strings.Split_no_sep t sep_byte) as Hf. rewrite list.Forall_forall in Hf. by apply Hf.
Qed.

(** No file is ever recognised as the output of a generator whose base name
    has an underscore, the names it gives its own files included. *)
Theorem underscore_never_recognised path cmd :
  str_has sep_byte (Filepath.Base cmd) = true → FileGeneratedBy path cmd = false.
Proof.
  intros Hc. unfold FileGeneratedBy, str_eqb. destruct (FileIsGenerated path) as [c|] eqn:He; [|done].
  apply bool_decide_eq_false_2. intros ->. apply FileIsGenerated_no_sep in He. congruence.
Qed.

Definition license_text (l : string) : string :=
  Strings.TrimSpace (Strings.TrimSuffix l (String cr "")).
Fixpoint comment_lines (ls : list string) : string :=
  match ls with
  | [] => ""
  | l :: ls => "// " +:+ l +:+ nl +:+ comment_lines ls
  end.

Lemma license_fold ls res e :
  foldl license_line (res, e) ls =
  (res +:+ comment_lines (map license_text ls),
   match list.last (map license_text ls) with Some t => str_eqb t "" | None => e end).
Proof.
  revert res e; induction ls as [|l ls IH]; intros res e; simpl; [by rewrite str_app_nil|].
  unfold license_line at 2. simpl. rewrite IH. f_equal.
  - by rewrite !str_app_assoc.
  - rewrite last_cons. by destruct (list.last (map license_text ls)).
Qed.

Lemma raw_lines_no_newline content : Forall (λ l, str_has newline l = false) (raw_lines content).
Proof.
  unfold raw_lines. pose proof (Strings.Split_no_sep content newline) as H.
  case_match; [|done]. case_match; [|done]. by apply Forall_take.
Qed.
Lemma license_text_no_newline l : str_has newline l = false → str_has newline (license_text l) = false.
Proof.
  intros Hl. apply str_has_TrimSpace. unfold Strings.TrimSuffix.
  destruct (Strings.HasSuffix l _) eqn:H; [|done]. apply HasSuffix_spec in H as [t ->].
  rewrite str_len_app, Nat.add_sub, str_take_app. rewrite str_has_app in Hl.
  by apply orb_false_iff in Hl as [? _].
Qed.

Lemma Split_comments ls rest :
  Forall (λ l, str_has newline l = false) ls →
  Strings.Split (comment_lines ls +:+ rest) newline =
  map (λ l, "// " +:+ l) ls ++ Strings.Split rest newline.
Proof.
  induction 1 as [|l ls Hl _ IH]; [done|]. cbn [comment_lines map app]. rewrite <-IH.
  rewrite <-(Strings.Split_sep ("// " +:+ l)) by by rewrite str_has_app.
  f_equal. by rewrite !str_app_assoc.
Qed.

(** Whatever the license file holds, the header is made of one comment line for
    each of its lines, with the text of that line trimmed, and nothing else but
    empty text after them: no text of the file can become code. *)
Theorem license_only_comments Open file content h :
  file ≠ "" → Open file = inr content → CommentLicenseHeader Open (Some file) = inr h →
  ∃ rest, Strings.Split h newline =
    map (λ l, "// " +:+ license_text l) (raw_lines content) ++ rest ∧ Forall (λ l, l = "") rest.
Proof.
  intros Hne Ho. unfold CommentLicenseHeader. destruct file as [|c file]; [done|]. rewrite Ho. cbv zeta.
  case_match; [done|]. rewrite license_fold. intros [= <-].
  change ("" +:+ ?t) with t.
  assert (Forall (λ l, str_has newline l = false) (map license_text (raw_lines content))) as Hnl.
  { apply list.Forall_fmap. eapply list.Forall_impl; [apply raw_lines_no_newline|].
    apply license_text_no_newline. }
  destruct (match list.last _ with Some t => _ | None => _ end).
  - exists [""]. rewrite <-(str_app_nil (comment_lines _)), Split_comments, map_map by done.
    split; [done|by repeat constructor].
  - exists [""; ""]. rewrite Split_comments, map_map by done. split; [done|by repeat constructor].
Qed.

Lemma comment_lines_snoc ls l : comment_lines (ls ++ [l]) = comment_lines ls +:+ "// " +:+ l +:+ nl.
Proof.
  induction ls as [|l' ls IH]; simpl; [by rewrite str_app_nil|]. by rewrite IH, !str_app_assoc.
Qed.

(** The header ends with an empty line, which keeps it apart from the package
    clause that follows, exactly when the last line of the license file is not
    blank: after a blank last line the comment runs into the clause. *)
Theorem license_separated Open file content h :
  file ≠ "" → Open file = inr content → CommentLicenseHeader Open (Some file) = inr h →
  (h = nl ∨ Strings.HasSuffix h (nl +:+ nl) = true) ↔
  list.last (map license_text (raw_lines content)) ≠ Some "".
Proof.
  intros Hne Ho. unfold CommentLicenseHeader. destruct file as [|c file]; [done|]. rewrite Ho. cbv zeta.
  case_match; [done|]. rewrite license_fold. intros [= <-]. change ("" +:+ ?t) with t.
  destruct (map license_text (raw_lines content)) as [|l ls _] using rev_ind; [simpl; naive_solver|].
  rewrite last_snoc, comment_lines_snoc. unfold str_eqb. case_bool_decide as Hl.
  - subst. split; [|done]. rewrite <-str_app_assoc. intros [Hn|[t Ht]%HasSuffix_spec].
    + apply (f_equal str_len) in Hn. rewrite !str_len_app in Hn. simpl in Hn. lia.
    + rewrite <-(str_app_assoc t) in Ht. apply (snoc_inj (comment_lines ls +:+ "// ")) in Ht.
      assert (comment_lines ls +:+ "// " = (comment_lines ls +:+ "//") +:+ " ") as Hs
        by by rewrite str_app_assoc.
      rewrite Hs in Ht. by apply snoc_last in Ht.
  - split; [naive_solver|]. intros _. right. rewrite !str_app_assoc, <-!str_app_assoc.
    rewrite (str_app_assoc _ nl nl). apply HasSuffix_app.
Qed.

(** ** The generators of the framework *)
Lemma NameFile_roundtrip_witness :
  FileIsGenerated "gen_App_reactGen.go" = Some "reactGen".
Proof.
  apply (proj2 (NameFile_roundtrip "App" "bin/reactGen" eq_refl (conj eq_refl eq_refl))).
  vm_compute. discriminate.
Defined.

Lemma NameFileFromFile_spec_witness :
  NameFileFromFile "/path/to/a_test.go" "bananaGen" = Some "/path/to/gen_a_bananaGen_test.go" ∧
  FileGeneratedBy "/path/to/gen_a_bananaGen_test.go" "bananaGen" = true.
Proof.
  split; [vm_compute; reflexivity|].
  refine (proj1 (proj2 (NameFileFromFile_spec "/path/to/a_test.go" "bananaGen" (conj eq_refl eq_refl) _))).
  vm_compute. discriminate.
Defined.

Lemma underscore_never_recognised_witness :
  NameFile "a" "banana_gen" = "gen_a_banana_gen.go" ∧
  FileGeneratedBy "gen_a_banana_gen.go" "banana_gen" = false.
Proof.
  split; [vm_compute; reflexivity|].
  exact (underscore_never_recognised "gen_a_banana_gen.go" "banana_gen" eq_refl).
Defined.

Definition license_file (blank_last : bool) (_ : string) : string + string :=
  inr ("Copyright" +:+ nl +:+ (if blank_last then " " +:+ nl else "")).
Lemma license_only_comments_witness :
  ∃ rest, Strings.Split ("// Copyright" +:+ nl +:+ nl) newline = ["// Copyright"] ++ rest ∧
    Forall (λ l, l = "") rest.
Proof.
  refine (license_only_comments (license_file false) "LICENSE" _ _ _ eq_refl _); [discriminate|].
  vm_compute. reflexivity.
Defined.
Lemma license_separated_witness :
  ("// Copyright" +:+ nl +:+ "// " +:+ nl = nl ∨
   Strings.HasSuffix ("// Copyright" +:+ nl +:+ "// " +:+ nl) (nl +:+ nl) = true) ↔ Some "" ≠ Some "".
Proof.
  refine (license_separated (license_file true) "LICENSE" _ _ _ eq_refl _); [discriminate|].
  vm_compute. reflexivity.
Defined.
