(* ===== verification/GoDirective.v ===== *)
(** * gogenerate: the directives of a Go file

    Models [src/_vendor/src/myitcv.io/gogenerate/coregogenerate.go] and
    [FilesContainingCmd] of [gogenerate.go]: a file is read line by line, each
    [//go:generate] line is split into words, shorthands and environment variables
    are substituted, and a callback is run on the result.

    Slices of strings live in a store of arrays, because [split] writes the
    expanded words into the slice [append] returned, which can be the one a
    shorthand is kept in.  A slice that is appended to has no spare capacity here
    (a shorthand is [words[2:len(words):len(words)]]), so [append] copies, except
    when there is nothing to append.  [errorf] panics with an error; [DirFunc]
    returns it.  The environment, the files and the build context are parameters. *)

From stdpp Require Import pretty.
From S2P Require Import Prelude GoLib GoGenerate.

(** ** bufio.Reader *)
Definition tab : ascii := Ascii.ascii_of_nat 9.
Definition defaultBufSize : nat := 4096.

Inductive read_err := ErrBufferFull | EOF.

(** [input.ReadSlice] up to a newline: the slice, the error, what is left to read. *)
Definition ReadSlice (rest : string) : string * option read_err * string :=
  match Strings.IndexAny (str_take defaultBufSize rest) (String newline "") with
  | Some i => (str_take (S i) rest, None, str_drop (S i) rest)
  | None =>
      if defaultBufSize <=? str_len rest
      then (str_take defaultBufSize rest, Some ErrBufferFull, str_drop defaultBufSize rest)
      else (rest, Some EOF, "")
  end.

(** [for err == bufio.ErrBufferFull { _, err = input.ReadSlice(newline) }] *)
Fixpoint skip_line (fuel : nat) (rest : string) : res (option read_err * string) :=
  match fuel with
  | O => Panic OutOfFuel
  | S fuel =>
      let '(_, err, rest) := ReadSlice rest in
      match err with
      | Some ErrBufferFull => skip_line fuel rest
      | _ => Ok (err, rest)
      end
  end.

(** ** Slices of words *)
Record slice := MkSlice { s_arr : nat; s_off : nat; s_len : nat }.
Abbreviation arrays := (list (list string)).

Definition slice_get (m : arrays) (s : slice) : list string :=
  take (s_len s) (drop (s_off s) (default [] (m !! s_arr s))).
Definition slice_set (m : arrays) (s : slice) (ws : list string) : arrays :=
  alter (λ a, take (s_off s) a ++ ws ++ drop (s_off s + s_len s) a) (s_arr s) m.
Definition slice_new (m : arrays) (ws : list string) : slice * arrays :=
  (MkSlice (length m) 0 (length ws), m ++ [ws]).
(** [append(s, ws...)] where [s] has no spare capacity. *)
Definition slice_append (m : arrays) (s : slice) (ws : list string) : slice * arrays :=
  match ws with
  | [] => (s, m)
  | _ => slice_new m (slice_get m s ++ ws)
  end.
(** [s[n:len(s):len(s)]] for [n] up to the length. *)
Definition slice_from (s : slice) (n : nat) : slice :=
  MkSlice (s_arr s) (s_off s + n) (s_len s - n).

(** ** The generator *)
Record generator := MkGenerator {
  g_dir : string;
  g_file : string;
  g_pkg : string;
  commands : gmap string slice;
  lineNum : nat;
  env : list string;
  mem : arrays
}.
Definition with_commands (c : gmap string slice) (g : generator) : generator :=
  MkGenerator (g_dir g) (g_file g) (g_pkg g) c (lineNum g) (env g) (mem g).
Definition with_lineNum (n : nat) (g : generator) : generator :=
  MkGenerator (g_dir g) (g_file g) (g_pkg g) (commands g) n (env g) (mem g).
Definition with_env (e : list string) (g : generator) : generator :=
  MkGenerator (g_dir g) (g_file g) (g_pkg g) (commands g) (lineNum g) e (mem g).
Definition with_mem (m : arrays) (g : generator) : generator :=
  MkGenerator (g_dir g) (g_file g) (g_pkg g) (commands g) (lineNum g) (env g) m.

Definition errorf {A} (g : generator) (msg : string) : res A :=
  Panic (PanicMsg (Filepath.Join [g_dir g; g_file g] +:+ ":" +:+ pretty (lineNum g) +:+ ": " +:+ msg)).

Definition GoGeneratePrefix : string := "//go:generate".
Definition isGoGenerate (buf : string) : bool :=
  Strings.HasPrefix buf (GoGeneratePrefix +:+ " ") ||
  Strings.HasPrefix buf (GoGeneratePrefix +:+ String tab "").

(** The rest of a quoted word, after its first quote: the text up to and with the
    closing quote, and what follows. *)
Fixpoint scan_quoted (g : generator) (s : string) : res (string * string) :=
  match s with
  | EmptyString => errorf g "mismatched quoted string"
  | String c s =>
      if bool_decide (c = Strconv.bslash) then
        match s with
        | EmptyString => errorf g "bad backslash"
        | String d s => '(w, r) ← scan_quoted g s; Ok (String c (String d w), r)
        end
      else if bool_decide (c = Strconv.dq) then Ok (String c "", s)
      else '(w, r) ← scan_quoted g s; Ok (String c w, r)
  end.

Definition blanks : string := String " " (String tab "").

(** The loop of [split]: one word per round. *)
Fixpoint split_words (g : generator) (fuel : nat) (line : string) : res (list string) :=
  match fuel with
  | O => Panic OutOfFuel
  | S fuel =>
      match Strings.TrimLeft line blanks with
      | EmptyString => Ok []
      | String c rest as line =>
          if bool_decide (c = Strconv.dq) then
            '(q, line) ← scan_quoted g rest;
            match Strconv.Unquote (String c q) with
            | None => errorf g "bad quoted string"
            | Some word =>
                match line with
                | String d _ =>
                    if negb (str_has d blanks) then errorf g "expect space after quoted argument"
                    else ws ← split_words g fuel line; Ok (word :: ws)
                | EmptyString => ws ← split_words g fuel line; Ok (word :: ws)
                end
            end
          else
            let i := default (str_len line) (Strings.IndexAny line blanks) in
            ws ← split_words g fuel (str_drop i line);
            Ok (str_take i line :: ws)
      end
  end.

(** [line[len("//go:generate "):len(line)-1]] without a final carriage return. *)
Definition directive_text (line : string) : string :=
  let line := str_drop (S (str_len GoGeneratePrefix)) (str_take (str_len line - 1) line) in
  Strings.TrimSuffix line (String cr "").

Section Directives.
Context (Getenv : string → string) (GOARCH GOOS : string).

Definition setEnv (g : generator) : generator :=
  with_env ["GOARCH=" +:+ GOARCH; "GOOS=" +:+ GOOS; "GOFILE=" +:+ g_file g;
            "GOLINE=" +:+ pretty (lineNum g); "GOPACKAGE=" +:+ g_pkg g; "DOLLAR=$"] g.

Definition expandVar (g : generator) (word : string) : string :=
  let w := word +:+ "=" in
  match find (λ e, Strings.HasPrefix e w) (env g) with
  | Some e => str_drop (str_len w) e
  | None => Getenv word
  end.

(** [words[i] = os.Expand(word, g.expandVar)] for every word. *)
Definition expand_words (g : generator) (s : slice) : generator :=
  with_mem (slice_set (mem g) s (map (λ w, Os.Expand w (expandVar g)) (slice_get (mem g) s))) g.

Definition split (g : generator) (line : string) : res (slice * generator) :=
  let line := directive_text line in
  ws ← split_words g (S (str_len line)) line;
  let '(s, m) := slice_new (mem g) ws in
  let '(s, m) :=
    match ws with
    | w :: args =>
        match commands g !! w with
        | Some c => slice_append m c args
        | None => (s, m)
        end
    | [] => (s, m)
    end in
  Ok (s, expand_words (with_mem m g) s).

Definition setShorthand (g : generator) (words : slice) : res generator :=
  match slice_get (mem g) words with
  | _ :: command :: _ =>
      match commands g !! command with
      | Some _ => errorf g ("command " +:+ Strconv.Quote command +:+ " defined multiply defined")
      | None => Ok (with_commands (<[command := slice_from words 2]> (commands g)) g)
      end
  | _ => errorf g "no command specified for -command"
  end.

(** A callback reads and changes a state of its own, or returns an error. *)
Context {St : Type} (f : St → nat → list string → string + St).

(** One directive. *)
Definition directive (g : generator) (st : St) (buf : string) : res (generator * St) :=
  let g := setEnv g in
  '(words, g) ← split g buf;
  match slice_get (mem g) words with
  | [] => errorf g "no arguments to directive"
  | (w :: _) as ws =>
      if str_eqb w "-command" then g ← setShorthand g words; Ok (g, st)
      else match f st (lineNum g) ws with
           | inl err => errorf g ("callback error: " +:+ err)
           | inr st => Ok (g, st)
           end
  end.

(** [matches]: one line per round. *)
Fixpoint matches (fuel : nat) (g : generator) (st : St) (rest : string) : res St :=
  match fuel with
  | O => Panic OutOfFuel
  | S fuel =>
      let g := with_lineNum (S (lineNum g)) g in
      let '(buf, err, rest) := ReadSlice rest in
      match err with
      | Some ErrBufferFull =>
          if isGoGenerate buf then errorf g "directive too long"
          else
            '(err, rest) ← skip_line fuel rest;
            match err with
            | None => matches fuel g st rest
            | Some _ => Ok st
            end
      | Some EOF => if isGoGenerate buf then errorf g "error reading" else Ok st
      | None =>
          if negb (isGoGenerate buf) then matches fuel g st rest
          else '(g, st) ← directive g st buf; matches fuel g st rest
      end
  end.

(** Every panic [matches] can meet is an error, which it recovers and returns. *)
Definition recovered (p : gopanic) : string :=
  match p with
  | PanicMsg e => e
  | OutOfFuel => "out of fuel"
  | IndexOutOfRange => "runtime error: index out of range"
  | NilDeref => "runtime error: invalid memory address or nil pointer dereference"
  | TypeAssertion => "interface conversion"
  end.

Context (Open : string → string + string).

Definition DirFunc (pkg dir file : string) (st : St) : string + St :=
  match Open (Filepath.Join [dir; file]) with
  | inl err => inl err
  | inr content =>
      let g := MkGenerator dir file pkg ∅ 0 [] [] in
      match matches (S (str_len content)) g st content with
      | Ok st => inr st
      | Panic p => inl (recovered p)
      end
  end.
End Directives.

(** ** FilesContainingCmd *)
Record Package := MkPackage {
  ImportPath : string;
  GoFiles : list string;
  CgoFiles : list string;
  TestGoFiles : list string;
  XTestGoFiles : list string
}.

Section FilesContainingCmd.
Context (Getenv : string → string) (GOARCH GOOS : string).
Context (Open : string → string + string) (ImportDir : string → string + Package).
Abbreviation counts := (gmap string nat).

Definition checkMatch (command file : string) (matchMap : counts) (line : nat) (args : list string)
    : string + counts :=
  match args with
  | a :: _ =>
      inr (if str_eqb (Filepath.Base a) command
           then <[file := S (default 0 (matchMap !! file))]> matchMap else matchMap)
  | [] => inl "runtime error: index out of range"
  end.

Fixpoint match_files (pkg : Package) (dir command : string) (files : list string) (matchMap : counts)
    : string + counts :=
  match files with
  | [] => inr matchMap
  | file :: files =>
      match DirFunc Getenv GOARCH GOOS (checkMatch command file) Open (ImportPath pkg) dir file matchMap with
      | inl err => inl err
      | inr matchMap => match_files pkg dir command files matchMap
      end
  end.

(** [None] is the nil map. *)
Definition FilesContainingCmd (dir command : string) : string + option counts :=
  let command := Filepath.Base (Strings.TrimSpace command) in
  if str_eqb command "" then inr None
  else
    match ImportDir dir with
    | inl err => inl err
    | inr pkg =>
        let gofiles := GoFiles pkg ++ CgoFiles pkg ++ TestGoFiles pkg ++ XTestGoFiles pkg in
        match match_files pkg dir command gofiles ∅ with
        | inl err => inl err
        | inr matchMap => inr (Some matchMap)
        end
    end.
End FilesContainingCmd.

(** ** Reading lines *)
Lemma take_line n l more :
  str_take n (l +:+ more) = str_take n l +:+ str_take (n - str_len l) more.
Proof.
  revert n; induction l as [|c l IH]; intros [|n]; [done..|by destruct more|].
  exact (f_equal (String c) (IH n)).
Qed.
Lemma drop_line n l more : n ≤ str_len l → str_drop n (l +:+ more) = str_drop n l +:+ more.
Proof.
  revert n; induction l as [|c l IH]; intros [|n] Hn; simpl in *; [done|lia|done|].
  apply IH. lia.
Qed.
Lemma avoids_take n s chars : avoids s chars → avoids (str_take n s) chars.
Proof.
  intros Hs c Hc. specialize (Hs c Hc). rewrite <-(str_take_drop n s), str_has_app in Hs.
  by apply orb_false_iff in Hs as [? _].
Qed.
Lemma avoids_drop n s chars : avoids s chars → avoids (str_drop n s) chars.
Proof.
  intros Hs c Hc. specialize (Hs c Hc). rewrite <-(str_take_drop n s), str_has_app in Hs.
  by apply orb_false_iff in Hs as [_ ?].
Qed.

Lemma str_take_ge n s : str_len s ≤ n → str_take n s = s.
Proof.
  revert n; induction s as [|c s IH]; intros [|n] Hn; simpl in *; [done..|lia|]. rewrite IH; [done|lia].
Qed.
Lemma str_drop_ge n s : str_len s ≤ n → str_drop n s = "".
Proof.
  revert n; induction s as [|c s IH]; intros [|n] Hn; simpl in *; [done..|lia|]. apply IH. lia.
Qed.

Lemma avoids_nl s : str_has newline s = false → avoids s nl.
Proof. intros Hs c. simpl. rewrite orb_false_r. by intros ->%bool_decide_eq_true. Qed.

Lemma ReadSlice_line l more :
  avoids l nl → str_len l < defaultBufSize →
  ReadSlice (l +:+ String newline more) = (l +:+ nl, None, more).
Proof.
  intros Hl Hlen. unfold ReadSlice. rewrite take_line, str_take_ge by lia.
  destruct (defaultBufSize - str_len l) as [|k] eqn:Hk; [lia|].
  change (str_take (S k) (String newline more)) with (String newline (str_take k more)).
  rewrite IndexAny_app by done. cbv beta iota. clear Hk Hlen.
  assert (l +:+ String newline more = (l +:+ nl) +:+ more) as -> by by rewrite str_app_assoc.
  assert (S (str_len l) = str_len (l +:+ nl)) as -> by (rewrite str_len_app; simpl; lia).
  by rewrite str_take_app, str_drop_app.
Qed.
Lemma ReadSlice_tail l :
  avoids l nl → str_len l < defaultBufSize → ReadSlice l = (l, Some EOF, "").
Proof.
  intros Hl Hlen. unfold ReadSlice. rewrite IndexAny_avoids by by apply avoids_take.
  by rewrite (proj2 (Nat.leb_gt _ _) Hlen).
Qed.
Lemma ReadSlice_full l more :
  avoids l nl → defaultBufSize ≤ str_len l →
  ReadSlice (l +:+ more) =
  (str_take defaultBufSize l, Some ErrBufferFull, str_drop defaultBufSize l +:+ more).
Proof.
  intros Hl Hlen. unfold ReadSlice. rewrite take_line, drop_line by done.
  replace (defaultBufSize - str_len l) with 0 by lia. cbn [str_take].
  rewrite str_app_nil, IndexAny_avoids by by apply avoids_take.
  rewrite str_len_app. by rewrite (proj2 (Nat.leb_le _ _)) by lia.
Qed.

Lemma skip_line_run fuel l more :
  avoids l nl → str_len l < fuel → skip_line fuel (l +:+ String newline more) = Ok (None, more).
Proof.
  revert l; induction fuel as [|fuel IH]; intros l Hl Hf; [lia|]. cbn [skip_line].
  destruct (decide (str_len l < defaultBufSize)); [by rewrite ReadSlice_line|].
  rewrite ReadSlice_full by (done || lia). apply IH; [by apply avoids_drop|].
  rewrite str_drop_len. assert (0 < defaultBufSize) by apply (Nat.lt_0_succ _). lia.
Qed.
Lemma skip_tail_run fuel l :
  avoids l nl → str_len l < fuel → skip_line fuel l = Ok (Some EOF, "").
Proof.
  revert l; induction fuel as [|fuel IH]; intros l Hl Hf; [lia|]. cbn [skip_line].
  destruct (decide (str_len l < defaultBufSize)); [by rewrite ReadSlice_tail|].
  rewrite <-(str_app_nil l), ReadSlice_full by (done || lia). rewrite str_app_nil.
  apply IH; [by apply avoids_drop|].
  rewrite str_drop_len. assert (0 < defaultBufSize) by apply (Nat.lt_0_succ _). lia.
Qed.

Lemma Join_Split s c : Strings.Join (Strings.Split s c) (String c "") = s.
Proof.
  induction s as [|d s IH]; [done|]. cbn [Strings.Split]. pose proof (Strings.Split_ne s c) as Hne.
  case_bool_decide as Hd; [subst|]; destruct (Strings.Split s c) as [|w ws]; try done.
  - exact (f_equal (String c) IH).
  - destruct ws; exact (f_equal (String d) IH).
Qed.

(** A line decides whether it is a directive before its end. *)
Lemma prefix_app_long p s t : str_len p ≤ str_len s → Strings.HasPrefix (s +:+ t) p = Strings.HasPrefix s p.
Proof.
  unfold Strings.HasPrefix. revert s; induction p as [|c p IH]; intros s Hs.
  - by destruct s, t.
  - destruct s as [|d s]; simpl in *; [lia|]. case_match; [apply IH; lia|done].
Qed.
Lemma isGoGenerate_long s t : 14 ≤ str_len s → isGoGenerate (s +:+ t) = isGoGenerate s.
Proof. intros Hs. unfold isGoGenerate. by rewrite !prefix_app_long. Qed.

(** ** Words *)
Definition not_fuel {A} (r : res A) : Prop := r ≠ Panic OutOfFuel.
Lemma not_fuel_bind {A B} (m : res A) (k : A → res B) :
  not_fuel m → (∀ a, m = Ok a → not_fuel (k a)) → not_fuel (m ≫= k).
Proof. unfold not_fuel. destruct m as [a|p]; simpl; [|congruence]. intros _ H. by apply H. Qed.

Lemma scan_quoted_len g s :
  not_fuel (scan_quoted g s) ∧ ∀ w r, scan_quoted g s = Ok (w, r) → str_len r < str_len s.
Proof.
  remember (str_len s) as n eqn:Hn. revert s Hn.
  induction (lt_wf n) as [n _ IH]; intros s ->.
  destruct s as [|c s]; [by split|]. cbn [scan_quoted].
  case_bool_decide; [destruct s as [|d s]; [by split|]|case_bool_decide]; simpl.
  - destruct (IH (str_len s) ltac:(simpl; lia) s eq_refl) as [Hf Hl]. split.
    + apply not_fuel_bind; [done|]. by intros [].
    + intros w r ([w' r'] & Hs & [= <- <-])%bind_Ok. apply Hl in Hs. lia.
  - split; [done|]. intros w r [= <- <-]. lia.
  - destruct (IH (str_len s) ltac:(simpl; lia) s eq_refl) as [Hf Hl]. split.
    + apply not_fuel_bind; [done|]. by intros [].
    + intros w r ([w' r'] & Hs & [= <- <-])%bind_Ok. apply Hl in Hs. lia.
Qed.

Lemma split_words_fuel g fuel line : str_len line < fuel → not_fuel (split_words g fuel line).
Proof.
  revert line; induction fuel as [|fuel IH]; intros line Hf; [lia|]. cbn [split_words].
  pose proof (TrimLeft_len line blanks) as Ht. pose proof (TrimLeft_head line blanks) as Hc.
  destruct (Strings.TrimLeft line blanks) as [|c rest]; [done|].
  specialize (Hc c rest eq_refl). cbn [String.length] in Ht.
  case_bool_decide.
  - destruct (scan_quoted_len g rest) as [Hq Hl]. apply not_fuel_bind; [done|].
    intros [q r] Hs. apply Hl in Hs. assert (not_fuel (split_words g fuel r)) by (apply IH; lia).
    case_match; [|done].
    destruct r as [|d r]; [|destruct (negb _); [done|]]; by apply not_fuel_bind.
  - apply not_fuel_bind; [|done]. apply IH. rewrite str_drop_len. cbn [Strings.IndexAny]. rewrite Hc.
    destruct (Strings.IndexAny rest blanks); simpl; lia.
Qed.

(** How a word can be written: as a Go string literal, or as it is. *)
Definition plain (w : string) : Prop :=
  avoids w blanks ∧ str_has cr w = false ∧ str_has newline w = false ∧
  ∃ c r, w = String c r ∧ c ≠ Strconv.dq.
Definition written (w p : string) : Prop := p = Strconv.Quote w ∨ (p = w ∧ plain w).

Lemma quote_byte_shape c :
  (Strconv.quote_byte c = String c "" ∧ c ≠ Strconv.dq ∧ c ≠ Strconv.bslash) ∨
  ∃ d t, Strconv.quote_byte c = String Strconv.bslash (String d t) ∧
         avoids t (String Strconv.dq (String Strconv.bslash "")).
Proof.
  destruct c as [[] [] [] [] [] [] [] []];
    first [left; split; [reflexivity|split; discriminate]
          |right; do 2 eexists; split; [reflexivity|]; repeat (apply avoids_cons; split; [reflexivity|]);
           by intros ? ?].
Qed.
Lemma scan_text g t r w r' :
  avoids t (String Strconv.dq (String Strconv.bslash "")) → scan_quoted g r = Ok (w, r') →
  scan_quoted g (t +:+ r) = Ok (t +:+ w, r').
Proof.
  intros Ht Hr. induction t as [|c t IH]; [done|]. apply avoids_cons in Ht as [Hc Ht]. simpl in *.
  rewrite (IH Ht). rewrite !orb_false_iff, !bool_decide_eq_false in Hc. destruct Hc as (? & ? & _).
  by rewrite !bool_decide_eq_false_2.
Qed.
Lemma scan_quote_byte g c r w r' :
  scan_quoted g r = Ok (w, r') →
  scan_quoted g (Strconv.quote_byte c +:+ r) = Ok (Strconv.quote_byte c +:+ w, r').
Proof.
  intros H. destruct (quote_byte_shape c) as [(-> & Hq & Hb)|(d & t & -> & Ht)].
  - apply scan_text; [|done]. apply avoids_cons. split; [|by intros ? ?].
    simpl. by rewrite !bool_decide_eq_false_2.
  - simpl. by rewrite (scan_text _ _ _ _ _ Ht H).
Qed.
Lemma scan_quote_bytes g s r :
  scan_quoted g (Strconv.quote_bytes s +:+ r) = Ok (Strconv.quote_bytes s, r).
Proof.
  induction s as [|c s IH]; [done|]. cbn [Strconv.quote_bytes]. rewrite str_app_assoc.
  by apply scan_quote_byte.
Qed.

Lemma split_space g fuel r : split_words g fuel (String " " r) = split_words g fuel r.
Proof. destruct fuel; [done|]. cbn [split_words]. by rewrite TrimLeft_step. Qed.

Lemma split_word g fuel w p r :
  written w p → (r = "" ∨ ∃ r', r = String " " r') →
  split_words g (S fuel) (p +:+ r) = (ws ← split_words g fuel r; Ok (w :: ws)).
Proof.
  intros [->|[-> (Hb & _ & _ & c & w' & -> & Hc)]] Hr; cbn [split_words].
  - change (Strconv.Quote w +:+ r) with (String Strconv.dq (Strconv.quote_bytes w +:+ r)).
    rewrite TrimLeft_step. change (str_has Strconv.dq blanks) with false. cbv beta iota.
    rewrite bool_decide_eq_true_2, scan_quote_bytes by done. cbn [mbind res_bind].
    change (String Strconv.dq (Strconv.quote_bytes w)) with (Strconv.Quote w).
    rewrite Unquote_Quote. by destruct Hr as [->|[r' ->]].
  - change (String c w' +:+ r) with (String c (w' +:+ r)). pose proof Hb as [Hcb _]%avoids_cons.
    rewrite TrimLeft_step, Hcb, bool_decide_eq_false_2 by done.
    assert (default (str_len (String c (w' +:+ r))) (Strings.IndexAny (String c (w' +:+ r)) blanks) =
            str_len (String c w')) as ->.
    + destruct Hr as [->|[r' ->]].
      * rewrite str_app_nil. by rewrite IndexAny_avoids.
      * change (String c (w' +:+ String " " r')) with (String c w' +:+ String " " r').
        by rewrite IndexAny_app.
    + change (String c (w' +:+ r)) with (String c w' +:+ r). by rewrite str_drop_app, str_take_app.
Qed.

Lemma split_written g ws ps fuel :
  Forall2 written ws ps → length ws < fuel → split_words g fuel (Strings.Join ps " ") = Ok ws.
Proof.
  intros H. revert fuel. induction H as [|w p ws ps Hw Hws IH]; intros [|fuel] Hf; try (simpl in Hf; lia);
    [done|]. destruct ps as [|p' ps].
  - apply Forall2_nil_inv_r in Hws as ->. simpl Strings.Join.
    rewrite <-(str_app_nil p), (split_word g fuel w) by auto. destruct fuel; [simpl in Hf; lia|done].
  - change (Strings.Join (p :: p' :: ps) " ") with (p +:+ String " " (Strings.Join (p' :: ps) " ")).
    rewrite (split_word g fuel w), split_space, IH by (eauto || (simpl in *; lia)). done.
Qed.

(** The text of a directive. *)
Definition directive_line (ps : list string) : string :=
  GoGeneratePrefix +:+ " " +:+ Strings.Join ps " ".

Lemma directive_text_line t :
  Strings.HasSuffix t (String cr "") = false →
  directive_text (GoGeneratePrefix +:+ " " +:+ t +:+ nl) = t.
Proof.
  intros Ht. unfold directive_text.
  assert (GoGeneratePrefix +:+ " " +:+ t +:+ nl = (GoGeneratePrefix +:+ " " +:+ t) +:+ nl) as ->
    by by rewrite !str_app_assoc.
  rewrite (str_len_app _ nl), Nat.add_sub, str_take_app.
  change (str_drop (S (str_len GoGeneratePrefix)) (GoGeneratePrefix +:+ " " +:+ t)) with t.
  unfold Strings.TrimSuffix. by rewrite Ht.
Qed.

Lemma Join_last ps p sp : ∃ t, Strings.Join (ps ++ [p]) sp = t +:+ p.
Proof.
  induction ps as [|q ps [t IH]]; [by exists ""|].
  destruct ps as [|q' ps]; [exists (q +:+ sp); by rewrite str_app_assoc|].
  exists (q +:+ sp +:+ t). rewrite !str_app_assoc, <-IH. done.
Qed.
Lemma written_no_cr w p : written w p → p ≠ "" ∧ ∀ t, p ≠ t +:+ String cr "".
Proof.
  intros [->|[-> (_ & Hcr & _ & c & r & -> & _)]]; (split; [done|]); intros t Ht.
  - unfold Strconv.Quote in Ht. rewrite quote_bytes_body in Ht.
    by apply (snoc_last (String Strconv.dq (quote_body w))) in Ht.
  - rewrite Ht, str_has_app in Hcr. simpl in Hcr. by rewrite orb_true_r in Hcr.
Qed.
Lemma Join_no_cr ws ps :
  Forall2 written ws ps → Strings.HasSuffix (Strings.Join ps " ") (String cr "") = false.
Proof.
  intros H. apply not_true_iff_false. rewrite HasSuffix_spec. intros [t Ht].
  destruct ps as [|p ps _] using rev_ind; [by destruct t|].
  destruct (Join_last ps p " ") as [t' Hj]. rewrite Hj in Ht.
  apply Forall2_app_inv_r in H as (? & ? & _ & (w & ? & Hw & _)%Forall2_cons_inv_r & _).
  destruct (written_no_cr _ _ Hw) as [Hne Hcr].
  apply app_last in Ht as [q Hq]; [|done]. by apply (Hcr q).
Qed.

(** ** Shorthands *)

(** The slices of the shorthands lie in allocated arrays. *)
Definition slice_ok (m : arrays) (s : slice) : Prop :=
  ∃ a, m !! s_arr s = Some a ∧ s_off s + s_len s ≤ length a.
Definition gen_ok (g : generator) : Prop := ∀ k c, commands g !! k = Some c → slice_ok (mem g) c.

Lemma slice_new_ok m ws s m' :
  slice_new m ws = (s, m') → slice_ok m' s ∧ slice_get m' s = ws ∧ s_arr s = length m ∧
  ∀ s', slice_ok m s' → slice_ok m' s' ∧ slice_get m' s' = slice_get m s'.
Proof.
  intros [= <- <-]. unfold slice_ok, slice_get. simpl. rewrite list_lookup_middle by done. simpl.
  split; [by exists ws|]. split; [by rewrite drop_0, take_ge|]. split; [done|].
  intros s' (a & Ha & Hlen). rewrite (lookup_app_l_Some _ _ _ _ Ha), Ha. eauto.
Qed.

Lemma slice_set_ok m s ws :
  slice_ok m s → length ws = s_len s →
  slice_ok (slice_set m s ws) s ∧ slice_get (slice_set m s ws) s = ws ∧
  (∀ s', slice_ok m s' → slice_ok (slice_set m s ws) s') ∧
  ∀ s', s_arr s' ≠ s_arr s → slice_get (slice_set m s ws) s' = slice_get m s'.
Proof.
  intros (a & Ha & Hlen) Hws. unfold slice_ok, slice_get, slice_set.
  assert (length (take (s_off s) a ++ ws ++ drop (s_off s + s_len s) a) = length a) as Hl.
  { rewrite !length_app, length_take, length_drop. lia. }
  split; [|split; [|split]].
  - rewrite list_lookup_alter_eq, Ha. simpl. eexists. split; [done|]. by rewrite Hl.
  - rewrite list_lookup_alter_eq, Ha. simpl. rewrite drop_app_length' by (rewrite length_take; lia).
    by rewrite take_app_length'.
  - intros s' (a' & Ha' & Hlen'). destruct (decide (s_arr s' = s_arr s)) as [E|].
    + rewrite E in *. rewrite list_lookup_alter_eq, Ha. simplify_eq. simpl. eexists. split; [done|]. by rewrite Hl.
    + rewrite list_lookup_alter_ne by done. eauto.
  - intros s' Hne. by rewrite list_lookup_alter_ne.
Qed.

(** The words of a directive after shorthands are replaced. *)
Definition substituted (g : generator) (ws : list string) : list string :=
  match ws with
  | w :: args =>
      match commands g !! w with
      | Some c => slice_get (mem g) c ++ args
      | None => ws
      end
  | [] => []
  end.

(** The directive is a shorthand and nothing else. *)
Definition bare (g : generator) (ws : list string) : Prop :=
  ∃ w, ws = [w] ∧ is_Some (commands g !! w).

Section DirectiveFacts.
Context (Getenv : string → string) (GOARCH GOOS : string).
Abbreviation expandVar := (expandVar Getenv).
Abbreviation split := (split Getenv).

(** The slice [split] expands: a new one, or the one of the shorthand. *)
Lemma substitute_run g ws :
  gen_ok g →
  ∃ s m,
    (let '(s, m) := slice_new (mem g) ws in
     match ws with
     | w :: args => match commands g !! w with Some c => slice_append m c args | None => (s, m) end
     | [] => (s, m)
     end) = (s, m) ∧
    slice_ok m s ∧ slice_get m s = substituted g ws ∧
    (∀ s', slice_ok (mem g) s' → slice_ok m s' ∧ slice_get m s' = slice_get (mem g) s') ∧
    (bare g ws ∨ length (mem g) ≤ s_arr s).
Proof.
  intros Hg. destruct (slice_new (mem g) ws) as [s m] eqn:Hs.
  apply slice_new_ok in Hs as (Hok & Hget & Harr & Hold).
  destruct ws as [|w args]; simpl.
  { exists s, m. split_and!; try done. right. lia. }
  destruct (commands g !! w) as [c|] eqn:Hc; simpl.
  2: { exists s, m. split_and!; try done. right. lia. }
  destruct (Hold c (Hg _ _ Hc)) as [Hcok Hcget]. destruct args as [|a args].
  - exists c, m. split_and!; try done; [by rewrite app_nil_r|]. left. exists w. eauto.
  - destruct (slice_append m c (a :: args)) as [s2 m2] eqn:Hs2. exists s2, m2. split; [done|].
    apply slice_new_ok in Hs2 as (Hok2 & Hget2 & Harr2 & Hold2). rewrite Hcget in Hget2.
    split_and!; try done.
    + intros s' Hs'. destruct (Hold s' Hs') as [H1 H2]. destruct (Hold2 s' H1) as [H3 H4].
      split; [done|]. by rewrite H4.
    + right. destruct Hok as (a' & Ha' & _). apply lookup_lt_Some in Ha'. lia.
Qed.

Lemma split_run g line ws :
  gen_ok g → split_words g (S (str_len (directive_text line))) (directive_text line) = Ok ws →
  ∃ s m, split g line = Ok (s, with_mem m g) ∧ slice_ok m s ∧ gen_ok (with_mem m g) ∧
    slice_get m s = map (λ w, Os.Expand w (expandVar g)) (substituted g ws) ∧
    (bare g ws ∨ ∀ s', slice_ok (mem g) s' → slice_get m s' = slice_get (mem g) s').
Proof.
  intros Hg Hws. destruct (substitute_run g ws Hg) as (s & m & Hsub & Hok & Hget & Hold & Hfresh).
  unfold GoDirective.split. cbv zeta. rewrite Hws. cbn [mbind res_bind].
  destruct (slice_new (mem g) ws) as [s0 m0]. rewrite Hsub.
  set (ws' := map (λ w, Os.Expand w (expandVar g)) (substituted g ws)).
  assert (length ws' = s_len s) as Hlen.
  { unfold ws'. rewrite length_map, <-Hget. destruct Hok as (a & Ha & Hl).
    unfold slice_get. rewrite Ha. simpl. rewrite length_take, length_drop. lia. }
  destruct (slice_set_ok m s ws' Hok Hlen) as (Hok' & Hget' & Hall & Hother).
  exists s, (slice_set m s ws'). split_and!; try done.
  - do 2 f_equal. unfold expand_words, with_mem. simpl. by rewrite Hget.
  - intros k c Hk. apply Hall, Hold, (Hg k), Hk.
  - destruct Hfresh as [?|Hfr]; [by left|right]. intros s' Hs'. destruct (Hold s' Hs') as [_ <-].
    apply Hother. destruct Hs' as (a & Ha & _). apply lookup_lt_Some in Ha. lia.
Qed.

Lemma split_directive g ws ps :
  Forall2 written ws ps →
  split_words g (S (str_len (directive_text (directive_line ps +:+ nl))))
    (directive_text (directive_line ps +:+ nl)) = Ok ws.
Proof.
  intros H. unfold directive_line. rewrite !str_app_assoc, directive_text_line by by eapply Join_no_cr.
  apply split_written; [done|]. pose proof H as ->%Forall2_length.
  assert (Forall (λ p, p ≠ "") ps) as Hne.
  { clear -H. induction H as [|w p ? ? Hw]; constructor; [|done]. by apply (written_no_cr _ _ Hw). }
  enough (length ps ≤ str_len (Strings.Join ps " ")) by lia.
  clear H. induction Hne as [|p ps Hp Hps IH]; [done|].
  assert (1 ≤ str_len p) by (destruct p; [done|simpl; lia]).
  destruct ps as [|p' ps]; [simpl in *; lia|].
  change (Strings.Join (p :: p' :: ps) " ") with (p +:+ " " +:+ Strings.Join (p' :: ps) " ").
  rewrite !str_len_app. simpl in *. lia.
Qed.

(** C40: whatever words a directive is written with, each as a Go string literal or,
    where it has no special characters, as it is, [split] gives those words with the
    shorthand at the front replaced and every variable expanded.  It leaves all
    shorthands as they are, unless the directive is a shorthand with no arguments. *)
Theorem split_spec g ws ps :
  gen_ok g → Forall2 written ws ps →
  ∃ s m, split g (directive_line ps +:+ nl) = Ok (s, with_mem m g) ∧ gen_ok (with_mem m g) ∧
    slice_get m s = map (λ w, Os.Expand w (expandVar g)) (substituted g ws) ∧
    (bare g ws ∨ ∀ k c, commands g !! k = Some c → slice_get m c = slice_get (mem g) c).
Proof.
  intros Hg H. destruct (split_run g _ ws Hg (split_directive g ws ps H)) as (s & m & ? & _ & ? & ? & Hold).
  exists s, m. split_and!; try done. destruct Hold as [?|Hold]; [by left|right]. eauto.
Qed.

(** ** Files as lists of lines *)
Context {St : Type} (f : St → nat → list string → string + St).

(** The lines of a file one by one.  The last one has no newline; a line that does
    not fit the buffer is an error when it is a directive. *)
Fixpoint run_lines (g : generator) (st : St) (lines : list string) : res St :=
  match lines with
  | [] => Ok st
  | l :: lines =>
      let g := with_lineNum (S (lineNum g)) g in
      if negb (isGoGenerate (l +:+ nl)) then run_lines g st lines
      else if defaultBufSize <=? str_len l then errorf g "directive too long"
      else match lines with
           | [] => errorf g "error reading"
           | _ => '(g, st) ← directive Getenv GOARCH GOOS f g st (l +:+ nl); run_lines g st lines
           end
  end.

Lemma prefix_nl p l :
  str_has newline p = false → Strings.HasPrefix (l +:+ nl) p = Strings.HasPrefix l p.
Proof.
  unfold Strings.HasPrefix. revert l; induction p as [|c p IH]; intros l.
  - intros _. by destruct l.
  - cbn [str_has]. intros [Hc Hp]%orb_false_iff. apply bool_decide_eq_false in Hc.
    destruct l as [|d l]; simpl; [by destruct (Ascii.ascii_dec c newline)|].
    case_match; [by apply IH|done].
Qed.
Lemma isGoGenerate_nl l : isGoGenerate (l +:+ nl) = isGoGenerate l.
Proof. unfold isGoGenerate. by rewrite !prefix_nl. Qed.
Lemma isGoGenerate_full l :
  defaultBufSize ≤ str_len l → isGoGenerate (str_take defaultBufSize l) = isGoGenerate l.
Proof.
  intros Hl. rewrite <-(str_take_drop defaultBufSize l) at 2. symmetry. apply isGoGenerate_long.
  rewrite str_take_len, Nat.min_l by done. apply Nat.leb_le. vm_compute. reflexivity.
Qed.

Lemma matches_last fuel g st l :
  avoids l nl → str_len l < fuel →
  matches Getenv GOARCH GOOS f fuel g st l = run_lines g st [l].
Proof.
  intros Hl Hf. destruct fuel as [|fuel]; [lia|]. cbn [matches run_lines]. rewrite isGoGenerate_nl.
  destruct (decide (str_len l < defaultBufSize)) as [Hs|Hs].
  - rewrite ReadSlice_tail, (proj2 (Nat.leb_gt _ _) Hs) by done. by destruct (isGoGenerate l).
  - rewrite <-(str_app_nil l) at 1. rewrite ReadSlice_full, isGoGenerate_full by (done || lia).
    rewrite (proj2 (Nat.leb_le _ _)) by lia. destruct (isGoGenerate l); [done|].
    rewrite str_app_nil, skip_tail_run; [done|by apply avoids_drop|].
    rewrite str_drop_len. assert (0 < defaultBufSize) by apply (Nat.lt_0_succ _). lia.
Qed.

Lemma matches_run fuel g st l lines :
  Forall (λ l, avoids l nl) (l :: lines) → str_len (Strings.Join (l :: lines) nl) < fuel →
  matches Getenv GOARCH GOOS f fuel g st (Strings.Join (l :: lines) nl) = run_lines g st (l :: lines).
Proof.
  revert fuel g st l; induction lines as [|l' lines IH]; intros fuel g st l Hl Hf.
  { apply matches_last; [|done]. by apply Forall_cons_1 in Hl as [? _]. }
  apply Forall_cons_1 in Hl as [Hl Hls].
  set (more := Strings.Join (l' :: lines) nl) in *.
  change (Strings.Join (l :: l' :: lines) nl) with (l +:+ String newline more) in *.
  rewrite str_len_app in Hf. cbn [String.length] in Hf. destruct fuel as [|fuel]; [lia|].
  assert (∀ g st, matches Getenv GOARCH GOOS f fuel g st more = run_lines g st (l' :: lines)) as IH'
    by (intros; apply IH; [done|unfold more in *; lia]).
  remember (l' :: lines) as ls eqn:Hls'. cbn [matches run_lines]. rewrite isGoGenerate_nl.
  destruct (decide (str_len l < defaultBufSize)) as [Hs|Hs].
  - rewrite ReadSlice_line, isGoGenerate_nl, (proj2 (Nat.leb_gt _ _) Hs) by done.
    destruct (isGoGenerate l); cbn [negb]; [|apply IH']. rewrite Hls'.
    destruct (directive _ _ _ _ _ _ _) as [[g' st']|]; [|done]. cbn [mbind res_bind].
    rewrite <-Hls'. apply IH'.
  - rewrite ReadSlice_full, isGoGenerate_full, (proj2 (Nat.leb_le _ _)) by (done || lia).
    destruct (isGoGenerate l); [done|]. cbn [negb].
    rewrite skip_line_run; [apply IH'|by apply avoids_drop|].
    rewrite str_drop_len. assert (0 < defaultBufSize) by apply (Nat.lt_0_succ _). lia.
Qed.

Lemma directive_fuel g st buf : not_fuel (directive Getenv GOARCH GOOS f g st buf).
Proof.
  unfold directive. apply not_fuel_bind.
  - unfold GoDirective.split. apply not_fuel_bind; [apply split_words_fuel; lia|].
    intros ws _. case_match. by case_match.
  - intros [s g'] _. case_match; [done|]. case_match; [|by case_match].
    apply not_fuel_bind; [|done]. unfold setShorthand. by repeat case_match.
Qed.

Lemma matches_content g st content :
  matches Getenv GOARCH GOOS f (S (str_len content)) g st content =
  run_lines g st (Strings.Split content newline).
Proof.
  rewrite <-(Join_Split content newline) at 1 2.
  pose proof (Strings.Split_no_sep content newline) as Hall.
  pose proof (Strings.Split_ne content newline). destruct (Strings.Split content newline) as [|l ls]; [done|].
  apply matches_run; [|lia]. eapply list.Forall_impl; [exact Hall|]. apply avoids_nl.
Qed.
Lemma run_lines_fuel g st ls : not_fuel (run_lines g st ls).
Proof.
  revert g st. induction ls as [|l ls IH]; intros g st; [done|]. cbn [run_lines].
  case_match; [apply IH|]. case_match; [done|]. case_match; [done|].
  apply not_fuel_bind; [apply directive_fuel|]. intros [] _. apply IH.
Qed.

(** C39: reading a file through the buffer is the same as taking its lines one by
    one, for every file: short lines, lines longer than the buffer, which are
    skipped whole unless they are directives, and a last line without a newline.
    The loops over the reader and over the words always end. *)
Theorem matches_lines g st content :
  matches Getenv GOARCH GOOS f (S (str_len content)) g st content =
    run_lines g st (Strings.Split content newline) ∧
  run_lines g st (Strings.Split content newline) ≠ Panic OutOfFuel.
Proof. split; [apply matches_content|apply run_lines_fuel]. Qed.
End DirectiveFacts.

(** ** Counting directives *)

(** Source files, line by line: text that is no directive, and directives given by
    their words and how these are written. *)
Inductive src_line :=
  | Text (l : string)
  | Directive (ws ps : list string).
Definition render (l : src_line) : string :=
  match l with Text l => l | Directive _ ps => directive_line ps end.
Definition content (lines : list src_line) : string :=
  Strings.Join (map render lines ++ [""]) nl.

Definition line_ok (l : src_line) : Prop :=
  match l with
  | Text l => str_has newline l = false ∧ isGoGenerate l = false
  | Directive ws ps =>
      Forall2 written ws ps ∧ Forall (λ w, str_has "$" w = false) ws ∧
      str_len (directive_line ps) < defaultBufSize ∧
      ∃ w args, ws = w :: args ∧ w ≠ "-command"
  end.

(** The directives of a file that run [command]. *)
Definition runs (command : string) (l : src_line) : bool :=
  match l with
  | Directive (w :: _) _ => str_eqb (Filepath.Base w) command
  | _ => false
  end.
Definition hits (command : string) (lines : list src_line) : nat :=
  length (filter (λ l, runs command l = true) lines).

Lemma quote_no_newline c : str_has newline (Strconv.quote_byte c) = false.
Proof. destruct c as [[] [] [] [] [] [] [] []]; reflexivity. Qed.
Lemma Quote_no_newline s : str_has newline (Strconv.Quote s) = false.
Proof.
  unfold Strconv.Quote. change (str_has newline (String Strconv.dq ?t)) with (str_has newline t).
  induction s as [|c s IH]; [done|]. cbn [Strconv.quote_bytes]. by rewrite str_has_app, quote_no_newline.
Qed.
Lemma directive_no_newline ws ps : Forall2 written ws ps → str_has newline (directive_line ps) = false.
Proof.
  intros H. unfold directive_line. rewrite !str_has_app. simpl.
  induction H as [|w p ws ps Hw _ IH]; [done|].
  assert (str_has newline p = false) as Hp
    by (destruct Hw as [->|[-> (_ & _ & ? & _)]]; [apply Quote_no_newline|done]).
  destruct ps as [|p' ps]; [done|].
  change (Strings.Join (p :: p' :: ps) " ") with (p +:+ " " +:+ Strings.Join (p' :: ps) " ").
  by rewrite !str_has_app, Hp.
Qed.

Lemma isGoGenerate_directive ps : isGoGenerate (directive_line ps) = true.
Proof. unfold isGoGenerate, directive_line. by rewrite <-str_app_assoc, HasPrefix_app. Qed.

Lemma content_lines lines :
  Forall line_ok lines → Strings.Split (content lines) newline = map render lines ++ [""].
Proof.
  intros H. apply Strings.Split_Join; [by destruct lines|]. apply list.Forall_app. split; [|by repeat constructor].
  apply list.Forall_fmap. eapply list.Forall_impl; [exact H|]. intros [l|ws ps]; [by intros []|].
  intros [Hw _]. by eapply directive_no_newline.
Qed.

Section Counts.
Context (Getenv : string → string) (GOARCH GOOS : string).
Abbreviation counts := (gmap string nat).

Definition bump (n : nat) (file : string) (m : counts) : counts :=
  match n with O => m | _ => <[file := n + default 0 (m !! file)]> m end.
Lemma bump_S n file m : bump n file (<[file := S (default 0 (m !! file))]> m) = bump (S n) file m.
Proof.
  destruct n as [|n]; simpl; [done|]. rewrite lookup_insert_eq, insert_insert_eq. simpl. f_equal. lia.
Qed.

Lemma map_Expand_id ws h : Forall (λ w, str_has "$" w = false) ws → map (λ w, Os.Expand w h) ws = ws.
Proof. induction 1 as [|w ws Hw _ IH]; simpl; [done|]. by rewrite Expand_id, IH. Qed.

Lemma directive_line_run command file g m ws ps :
  commands g = ∅ → line_ok (Directive ws ps) →
  ∃ g', directive Getenv GOARCH GOOS (checkMatch command file) g m (directive_line ps +:+ nl) =
    Ok (g', if runs command (Directive ws ps) then <[file := S (default 0 (m !! file))]> m else m) ∧
    commands g' = ∅.
Proof.
  intros Hg (Hw & Hd & _ & w & args & -> & Hc).
  assert (gen_ok (setEnv GOARCH GOOS g)) as Hok
    by (intros k c; change (commands (setEnv GOARCH GOOS g)) with (commands g); by rewrite Hg).
  destruct (split_run Getenv _ _ _ Hok (split_directive _ _ _ Hw)) as (s & mm & Hs & _ & _ & Hget & _).
  unfold directive. rewrite Hs. cbn [mbind res_bind]. cbn [mem with_mem]. rewrite Hget.
  unfold substituted. change (commands (setEnv GOARCH GOOS g)) with (commands g).
  rewrite Hg, lookup_empty, map_Expand_id by done. unfold str_eqb. rewrite bool_decide_eq_false_2 by done.
  eexists. split; [reflexivity|done].
Qed.

Lemma run_lines_count command file g m lines :
  commands g = ∅ → Forall line_ok lines →
  run_lines Getenv GOARCH GOOS (checkMatch command file) g m (map render lines ++ [""]) =
  Ok (bump (hits command lines) file m).
Proof.
  intros Hg H. revert g m Hg. induction H as [|l lines Hl _ IH]; intros g m Hg; [done|].
  assert (map render lines ++ [""] ≠ []) as Hne by by destruct lines.
  cbn [map app run_lines]. rewrite isGoGenerate_nl. destruct l as [l|ws ps]; cbn [render].
  - destruct Hl as [_ ->]. by apply IH.
  - rewrite isGoGenerate_directive. cbn [negb].
    pose proof Hl as (_ & _ & Hlen & _). rewrite (proj2 (Nat.leb_gt _ _) Hlen).
    destruct (map render lines ++ [""]) as [|x xs] eqn:Hx; [done|]. rewrite <-Hx in *. clear Hx x xs.
    destruct (directive_line_run command file (with_lineNum (S (lineNum g)) g) m ws ps Hg Hl)
      as (g' & -> & Hg'). cbn [mbind res_bind].
    rewrite IH by done. unfold hits. f_equal. rewrite filter_cons.
    destruct (runs command (Directive ws ps)); [rewrite decide_True by done|by rewrite decide_False].
    apply bump_S.
Qed.

Context (Open : string → string + string) (ImportDir : string → string + Package).
Context (dir : string) (pkg : Package) (source : string → list src_line).

(** The files of the package can be read and are sources of the kind above. *)
Definition readable_files (files : list string) : Prop := ∀ f, f ∈ files →
  Open (Filepath.Join [dir; f]) = inr (content (source f)) ∧ Forall line_ok (source f).

Lemma DirFunc_count command file m :
  readable_files [file] →
  DirFunc Getenv GOARCH GOOS (checkMatch command file) Open (ImportPath pkg) dir file m =
  inr (bump (hits command (source file)) file m).
Proof.
  intros H. destruct (H file) as [Hopen Hok]; [by left|]. unfold DirFunc. rewrite Hopen.
  rewrite matches_content, content_lines by done.
  by rewrite run_lines_count.
Qed.

Lemma match_files_count command files m :
  NoDup files → readable_files files → (∀ f, f ∈ files → m !! f = None) →
  ∃ m', match_files Getenv GOARCH GOOS Open pkg dir command files m = inr m' ∧
    ∀ f, m' !! f = if decide (f ∈ files ∧ 0 < hits command (source f))
                   then Some (hits command (source f)) else m !! f.
Proof.
  revert m. induction files as [|file files IH]; intros m Hnd Hr Hm.
  { exists m. split; [done|]. intros f. rewrite decide_False; [done|]. by intros [?%elem_of_nil _]. }
  apply list.NoDup_cons in Hnd as [Hni Hnd]. cbn [match_files].
  rewrite DirFunc_count by (intros f ->%list_elem_of_singleton; apply Hr; by left).
  set (n := hits command (source file)).
  assert (∀ f, bump n file m !! f = if decide (f = file ∧ 0 < n) then Some n else m !! f) as Hb.
  { intros f. destruct n as [|n]; simpl; [by rewrite decide_False by lia|].
    rewrite (Hm file) by by left. rewrite lookup_insert. simpl. rewrite Nat.add_0_r.
    destruct (decide (f = file)) as [->|]; [rewrite !decide_True by (naive_solver lia); reflexivity|].
    rewrite !decide_False by naive_solver. done. }
  destruct (IH (bump n file m)) as (m' & Hrun & Hm'); [done|intros f Hf; apply Hr; by right| |].
  { intros f Hf. rewrite Hb, decide_False; [apply Hm; by right|]. intros [-> _]. done. }
  exists m'. split; [done|]. intros f. rewrite Hm', Hb.
  destruct (decide (f = file)) as [->|Hne].
  - rewrite (decide_False (P := file ∈ files ∧ _)) by naive_solver. unfold n.
    apply decide_ext. rewrite elem_of_cons. naive_solver.
  - rewrite (decide_False (P := f = file ∧ _)) by naive_solver.
    apply decide_ext. rewrite elem_of_cons. naive_solver.
Qed.

(** [FilesContainingCmd] counts: when the files of the package have directives
    of quoted or plain words, and no shorthands or variables, a file is in the
    result exactly when one of its directives runs the command, with the number of
    those directives; commands are compared by their base names. *)
Theorem FilesContainingCmd_counts command files :
  ImportDir dir = inr pkg → files = GoFiles pkg ++ CgoFiles pkg ++ TestGoFiles pkg ++ XTestGoFiles pkg →
  NoDup files → readable_files files →
  ∃ m, FilesContainingCmd Getenv GOARCH GOOS Open ImportDir dir command = inr (Some m) ∧
    ∀ f n, m !! f = Some n ↔
      f ∈ files ∧ n = hits (Filepath.Base (Strings.TrimSpace command)) (source f) ∧ 0 < n.
Proof.
  intros Hi -> Hnd Hr. unfold FilesContainingCmd, str_eqb.
  rewrite bool_decide_eq_false_2 by apply Base_ne. rewrite Hi.
  destruct (match_files_count (Filepath.Base (Strings.TrimSpace command)) _ ∅ Hnd Hr) as (m & Hrun & Hm).
  { intros f _. apply lookup_empty. }
  exists m. rewrite Hrun. split; [done|]. intros f n. rewrite Hm. case_decide as Hd.
  - split; [intros [= <-]; tauto|intros (_ & -> & _); done].
  - rewrite lookup_empty. split; [done|]. intros (? & -> & ?). destruct Hd. done.
Qed.

(** The guard for an empty command is never taken: the base of a path is never
    empty, so a blank command is looked for under the name of the current
    directory instead. *)
Theorem blank_command_not_refused command :
  FilesContainingCmd Getenv GOARCH GOOS Open ImportDir dir command ≠ inr None.
Proof.
  unfold FilesContainingCmd, str_eqb. rewrite bool_decide_eq_false_2 by apply Base_ne.
  case_match; [done|]. by case_match.
Qed.
End Counts.

(** ** The shorthand that is overwritten *)
Definition collect (st : list (nat * list string)) (n : nat) (ws : list string)
    : string + list (nat * list string) := inr (st ++ [(n, ws)]).
Definition shorthand_file (args : list string) : string :=
  Strings.Join [directive_line ["-command"; "here"; "echo"; "${DOLLAR}GOLINE"];
                directive_line ("here" :: args); directive_line ("here" :: args); ""] nl.

(** A shorthand used without arguments is overwritten by its own expansion: the
    second use of a shorthand for the line number gives the number of the line of
    the first use.  With an argument each use gives its own line, as the copy that
    [setShorthand] means to force is made. *)
Theorem shorthand_overwritten Getenv GOARCH GOOS file :
  let run args := DirFunc Getenv GOARCH GOOS collect (λ _, inr (shorthand_file args)) "main" "." file [] in
  run [] = inr [(2, ["echo"; "2"]); (3, ["echo"; "2"])] ∧
  run ["x"] = inr [(2, ["echo"; "2"; "x"]); (3, ["echo"; "3"; "x"])].
Proof. split; vm_compute; reflexivity. Qed.

(** ** A package *)
Definition eg_source (f : string) : list src_line :=
  if str_eqb f "d.go" then
    [Text "package main"; Text ""; Directive ["/bin/ls"] [Strconv.Quote "/bin/ls"];
     Directive ["ls"; "-l"] ["ls"; "-l"]]
  else [Text "package main"].
Definition eg_pkg : Package := MkPackage "eg01" ["c.go"; "d.go"] [] [] [].
Definition eg_open (p : string) : string + string :=
  if str_eqb p "eg01/c.go" then inr (content (eg_source "c.go"))
  else if str_eqb p "eg01/d.go" then inr (content (eg_source "d.go"))
  else inl "file does not exist".

Lemma eg_plain w c r : w = String c r → c ≠ Strconv.dq →
  forallb (λ b, negb (str_has b w)) [" "%char; tab; cr; newline] = true → plain w.
Proof.
  intros Hw Hc H. rewrite forallb_forall in H.
  assert (∀ b, In b [" "%char; tab; cr; newline] → str_has b w = false) as Hb
    by (intros b Hb; apply negb_true_iff, H, Hb).
  repeat split; [|apply Hb; simpl; tauto..|by exists c, r].
  intros d. unfold blanks. simpl. rewrite orb_false_r, orb_true_iff, !bool_decide_eq_true.
  intros [->| ->]; apply Hb; simpl; tauto.
Qed.
Lemma eg_lines_ok f : Forall line_ok (eg_source f).
Proof.
  assert (plain "ls" ∧ plain "-l") as [H1 H2]
    by (split; (eapply eg_plain; [reflexivity|discriminate|reflexivity])).
  assert (∀ w args ps, w ≠ "-command" → Forall2 written (w :: args) ps →
    forallb (λ w, negb (str_has "$" w)) (w :: args) = true →
    (str_len (directive_line ps) <? defaultBufSize) = true → line_ok (Directive (w :: args) ps)) as Hd.
  { intros w args ps Hc Hw Hdol Hlen. split; [done|]. split; [|split; [by apply Nat.ltb_lt|eauto]].
    apply list.Forall_forall. intros x Hx. rewrite forallb_forall in Hdol.
    by apply negb_true_iff, Hdol, list_elem_of_In. }
  unfold eg_source. destruct (str_eqb f "d.go"); repeat (apply list.Forall_cons; split); try apply Forall_nil_2.
  1-2,5: by split.
  - apply Hd; [discriminate| |reflexivity..]. constructor; [by left|constructor].
  - apply Hd; [discriminate| |reflexivity..]. constructor; [by right|]. constructor; [by right|constructor].
Qed.
Lemma eg_readable : readable_files eg_open "eg01" eg_source ["c.go"; "d.go"].
Proof.
  intros f Hf. split; [|apply eg_lines_ok].
  apply elem_of_cons in Hf as [->| ->%list_elem_of_singleton]; reflexivity.
Qed.

Lemma FilesContainingCmd_counts_witness :
  ∃ m, FilesContainingCmd (λ _, "") "amd64" "linux" eg_open (λ _, inr eg_pkg) "eg01" "/bin/ls" = inr (Some m) ∧
    m !! "d.go" = Some 2 ∧ m !! "c.go" = None.
Proof.
  destruct (FilesContainingCmd_counts (λ _, "") "amd64" "linux" eg_open (λ _, inr eg_pkg) "eg01" eg_pkg
    eg_source "/bin/ls" ["c.go"; "d.go"] eq_refl eq_refl) as (m & Hrun & Hm).
  - apply (bool_decide_unpack _). vm_compute. exact I.
  - exact eg_readable.
  - exists m. split; [exact Hrun|]. split.
    + apply Hm. split; [right; left|]. split; [reflexivity|lia].
    + destruct (m !! "c.go") as [n|] eqn:Hn; [|reflexivity].
      apply Hm in Hn as (_ & Hn & Hpos). vm_compute in Hn. subst n. lia.
Defined.

Definition eg_gen : generator := MkGenerator "." "a.go" "main" {["here" := MkSlice 0 2 1]} 3 []
  [["-command"; "here"; "echo"]].
Lemma split_spec_witness :
  ∃ s m, split (λ _, "") eg_gen (directive_line ["here"; "ls"] +:+ nl) = Ok (s, with_mem m eg_gen) ∧
    slice_get m s = ["echo"; "ls"].
Proof.
  destruct (split_spec (λ _, "") eg_gen ["here"; "ls"] ["here"; "ls"]) as (s & m & Hs & _ & Hget & _).
  - intros k c Hk. unfold eg_gen in Hk. cbn [commands] in Hk. apply lookup_singleton_Some in Hk as [_ <-].
    exists ["-command"; "here"; "echo"]. split; [reflexivity|simpl; lia].
  - do 2 (constructor; [right; split; [reflexivity|];
      eapply eg_plain; [reflexivity|discriminate|reflexivity]|]). constructor.
  - exists s, m. split; [exact Hs|]. rewrite Hget. vm_compute. reflexivity.
Defined.
