(* ===== verification/GoAst.v ===== *)
(** * The Go syntax trees the generators read

    The part of [go/ast] that [cmd/reactGen] and [cmd/stateGen] look at, as
    [go/parser] makes it: the parameters of a function are never nil, its results
    are nil when it has none, and the fields of a struct are nil never in practice.
    An expression of a kind the generators do not look into is [OtherExpr], with the
    text [go/printer] prints for it and the selectors of packages in it. *)

From S2P Require Import Prelude GoLib.

Inductive expr :=
  | Ident (name : string)
  | StarExpr (x : expr)
  | SelectorExpr (x : expr) (sel : string)
  | ArrayType (len : option string) (elt : expr)
  | OtherExpr (text : string) (uses : list (string * string)).

(** A field of a struct, a parameter or a result: its names and its type. *)
Abbreviation field_list := (list (list string * expr)).

Record FuncDecl := MkFunc {
  fn_recv : option expr;            (* the type of the receiver *)
  fn_name : string;
  fn_params : field_list;
  fn_results : option field_list
}.

(** The type of a type declaration. *)
Inductive type_expr :=
  | StructType (fields : option field_list)
  | NotStruct (e : expr).

Inductive decl :=
  | DFunc (f : FuncDecl)
  | DType (specs : list (string * type_expr))
  | DVar (specs : list (list string * option expr))
  | DOther.

Record ImportSpec := MkImport { imp_name : option string; imp_path : string }.

Record ast_file := MkFile { file_imports : list ImportSpec; file_decls : list decl }.

(** [printer.Fprint] on a type. *)
Fixpoint print_expr (e : expr) : string :=
  match e with
  | Ident n => n
  | StarExpr x => "*" +:+ print_expr x
  | SelectorExpr x sel => print_expr x +:+ "." +:+ sel
  | ArrayType len elt => "[" +:+ default "" len +:+ "]" +:+ print_expr elt
  | OtherExpr t _ => t
  end.

#[export] Instance expr_eq_dec : EqDecision expr.
Proof. solve_decision. Defined.
