(* ===== verification/StateTree.v ===== *)
(** * stateGen: the run time of a generated state tree

    Models the code every package generated by stateGen ends with (the last
    template of [gen] in [cmd/stateGen/gen.go]; output, for example,
    [examples/sites/globalstate/state/gen_state_stateGen.go] from [NewRoot] on): the
    [rootNode] that keeps the values of all leaves under their paths, and the
    subscriptions to paths.

    A [*Sub] is an index into the list of all subscriptions ever made.  A value is
    compared with [==] on interfaces, a parameter that may panic, as it does for
    values whose type cannot be compared; callbacks are names whose meaning is a
    parameter, so they may change the tree again.  The order in which [range] visits
    a set of subscriptions is a parameter. *)

From S2P Require Import Prelude GoLib GoGenerate.

Section StateTree.
Context {V CB : Type}.

Record Sub := MkSub { sub_prefix : string; sub_cb : CB }.
Record rootNode := MkRoot {
  store : gmap string V;
  cbs : gmap string (gset nat);
  subs : gset nat;
  all_subs : list Sub
}.
Definition newRootNode : rootNode := MkRoot ∅ ∅ ∅ [].

Definition subscribe (prefix : string) (cb : CB) : M rootNode nat := λ r,
  let res := length (all_subs r) in
  let l := default ∅ (cbs r !! prefix) in
  Ok (res, MkRoot (store r) (<[prefix := {[res]} ∪ l]> (cbs r)) ({[res]} ∪ subs r)
             (all_subs r ++ [MkSub prefix cb])).

Definition unsubscribe (s : nat) : M rootNode unit := λ r,
  if bool_decide (s ∉ subs r) then Panic (PanicMsg "No such sub")
  else
    o ← of_option NilDeref (all_subs r !! s);
    match cbs r !! sub_prefix o with
    | None => Panic (PanicMsg "Real problems...")
    | Some l =>
        Ok (tt, MkRoot (store r) (<[sub_prefix o := l ∖ {[s]}]> (cbs r)) (subs r ∖ {[s]}) (all_subs r))
    end.

Definition Clear (s : nat) : M rootNode unit := unsubscribe s.

Definition get (k : string) : M rootNode (option V) := mget (λ r, store r !! k).

Context (val_eqb : V → V → res bool).
Context (range_set : gset nat → list nat).

(** The loop over the parts of a key: [kk] grows by one part each round. *)
Fixpoint collect_subs (r : rootNode) (kk : string) (parts : list string) : list nat :=
  match parts with
  | [] => []
  | p :: parts =>
      let kk := Filepath.Join [kk; p] in
      match cbs r !! kk with
      | Some ll => range_set ll ++ collect_subs r kk parts
      | None => collect_subs r kk parts
      end
  end.

Definition with_store (m : gmap string V) (r : rootNode) : rootNode :=
  MkRoot m (cbs r) (subs r) (all_subs r).
End StateTree.
Arguments Sub : clear implicits.
Arguments rootNode : clear implicits.

(** Where a program keeps its tree.  Callbacks run in the world of the program. *)
Class HasRoot (V CB W : Type) := {
  root : W → rootNode V CB;
  put_root : rootNode V CB → W → W;
  root_put : ∀ r w, root (put_root r w) = r;
  put_root_put : ∀ r r' w, put_root r (put_root r' w) = put_root r w;
  put_root_id : ∀ w, put_root (root w) w = w;
}.
#[export] Instance HasRoot_self V CB : HasRoot V CB (rootNode V CB) :=
  {| root w := w; put_root r _ := r; root_put _ _ := eq_refl; put_root_put _ _ _ := eq_refl; put_root_id _ := eq_refl |}.

Section Set_.
Context {V CB W : Type} {HR : HasRoot V CB W}.

(** An operation on the tree of a world. *)
Definition on_root {A} (m : M (rootNode V CB) A) : M W A := λ w,
  '(a, r) ← m (root w); Ok (a, put_root r w).

Context (val_eqb : V → V → res bool).
Context (range_set : gset nat → list nat).
Context (run_cb : CB → M W unit).

Fixpoint run_subs (l : list nat) : M W unit :=
  match l with
  | [] => mret tt
  | s :: l =>
      o ← (λ w, o ← of_option NilDeref (all_subs (root w) !! s); Ok (o, w));
      _ ← run_cb (sub_cb o);
      run_subs l
  end.

Definition set (k : string) (v : V) : M W unit := λ w,
  same ← match store (root w) !! k with
         | Some curr => val_eqb v curr
         | None => Ok false
         end;
  if same : bool then Ok (tt, w)
  else
    let r := with_store (<[k := v]> (store (root w))) (root w) in
    run_subs (collect_subs range_set r "" (Strings.Split k Filepath.slash)) (put_root r w).
End Set_.

(** [Get] and [Set] of a leaf. *)
Section Leaf.
Context {V CB W : Type} {HR : HasRoot V CB W} (val_eqb : V → V → res bool) (range_set : gset nat → list nat).
Context (run_cb : CB → M W unit) (zero : V).
Definition leaf_Get (prefix : string) : M W V := v ← on_root (get prefix); mret (default zero v).
Definition leaf_Set (prefix : string) (v : V) : M W unit :=
  set val_eqb range_set run_cb prefix v.
End Leaf.

(** ** Paths *)

(** The key of a path of names. *)
Abbreviation key ps := (Strings.Join ps "/").

Lemma key_cons p ps : ps ≠ [] → key (p :: ps) = p +:+ String Filepath.slash (key ps).
Proof. by destruct ps. Qed.

Lemma clean_plain b acc ws :
  Forall plain_file ws → foldl (Filepath.clean_step b) acc ws = reverse ws ++ acc.
Proof.
  intros H. revert acc. induction H as [|w ws (_ & H0 & H1 & H2) _ IH]; intros acc; [done|].
  cbn [foldl]. unfold Filepath.clean_step at 2, str_eqb. rewrite !bool_decide_eq_false_2 by done.
  cbn [orb]. rewrite IH, reverse_cons, <-app_assoc. done.
Qed.

Lemma key_front ps : ps ≠ [] → Forall plain_file ps → Strings.HasPrefix (key ps) "/" = false ∧ key ps ≠ "".
Proof.
  intros Hne H. destruct H as [|p ps (Hs & Hp & _) _]; [done|].
  destruct p as [|c p]; [done|].
  assert (∃ t, key (String c p :: ps) = String c t) as [t Ht] by (destruct ps; eexists; reflexivity).
  rewrite Ht. split; [|done]. rewrite HasPrefix_byte. apply bool_decide_eq_false_2. intros <-.
  cbn [str_has] in Hs. by rewrite bool_decide_eq_true_2 in Hs.
Qed.

Lemma Split_key ps : ps ≠ [] → Forall plain_file ps → Strings.Split (key ps) Filepath.slash = ps.
Proof.
  intros Hne H. apply Strings.Split_Join; [done|]. eapply list.Forall_impl; [exact H|]. by intros ? [? _].
Qed.

Lemma Clean_key ps : ps ≠ [] → Forall plain_file ps → Filepath.Clean (key ps) = key ps.
Proof.
  intros Hne H. unfold Filepath.Clean. rewrite (Split_key ps Hne H).
  destruct (key_front ps Hne H) as [-> Hk].
  rewrite clean_plain, app_nil_r, reverse_involutive by done. unfold str_eqb.
  by rewrite bool_decide_eq_false_2.
Qed.

(** Joining one more name. *)
Lemma Join_key ps p :
  Forall plain_file (ps ++ [p]) → Filepath.Join [key ps; p] = key (ps ++ [p]).
Proof.
  intros H. pose proof H as [Hps [(Hp & Hne & _) _]%Forall_cons_1]%list.Forall_app.
  destruct (decide (ps = [])) as [->|Hn].
  - cbn [Strings.Join Filepath.Join app]. unfold str_eqb. rewrite bool_decide_eq_true_2 by done.
    rewrite bool_decide_eq_false_2 by done. by apply (Clean_key [p]).
  - cbn [Filepath.Join]. unfold str_eqb.
    rewrite bool_decide_eq_false_2 by by apply key_front.
    replace (Strings.Join [key ps; p] "/") with (key (ps ++ [p])) by by rewrite Join_snoc.
    apply Clean_key; [by destruct ps|done].
Qed.

Lemma key_inj ps qs :
  ps ≠ [] → qs ≠ [] → Forall plain_file ps → Forall plain_file qs → key ps = key qs → ps = qs.
Proof.
  intros Hp Hq HP HQ H. by rewrite <-(Split_key ps), H, Split_key.
Qed.

(** ** The specification

    Values by path, and the subscriptions that are live. *)
Section Refinement.
Context {V CB : Type}.
Implicit Types (r : rootNode V CB).

Record tree := MkTree { values : gmap string V; live : gmap nat (Sub CB); next : nat }.

Definition spec_subscribe (prefix : string) (cb : CB) (t : tree) : tree :=
  MkTree (values t) (<[next t := MkSub prefix cb]> (live t)) (S (next t)).
Definition spec_clear (s : nat) (t : tree) : tree :=
  MkTree (values t) (delete s (live t)) (next t).
Definition spec_set (k : string) (v : V) (t : tree) : tree :=
  MkTree (<[k := v]> (values t)) (live t) (next t).

(** [r] implements [t]: every live subscription is in the set of its own prefix and
    in no other. *)
Record implements r (t : tree) : Prop := {
  imp_values : store r = values t;
  imp_next : length (all_subs r) = next t;
  imp_live : ∀ s, s ∈ subs r ↔ is_Some (live t !! s);
  imp_subs : ∀ s o, live t !! s = Some o → all_subs r !! s = Some o;
  imp_cbs : ∀ p s, (∃ l, cbs r !! p = Some l ∧ s ∈ l) ↔ ∃ o, live t !! s = Some o ∧ sub_prefix o = p
}.

Lemma imp_fresh r t s : implements r t → next t ≤ s → live t !! s = None.
Proof.
  intros H Hs. destruct (live t !! s) as [o|] eqn:Ho; [|done].
  apply (imp_subs r t H), lookup_lt_Some in Ho. rewrite (imp_next r t H) in Ho. lia.
Qed.

Lemma newRootNode_implements : implements newRootNode (MkTree ∅ ∅ 0).
Proof.
  split; try done; simpl.
  - intros s. rewrite lookup_empty, elem_of_empty. split; [done|by intros []].
  - intros p s. setoid_rewrite lookup_empty. naive_solver.
Qed.

Lemma subscribe_run r t p cb :
  implements r t →
  ∃ r', subscribe p cb r = Ok (next t, r') ∧ implements r' (spec_subscribe p cb t).
Proof.
  intros H. pose proof (imp_fresh r t (next t) H (le_n _)) as Hf. destruct H as [Hv Hn Hl Hs Hc].
  eexists. unfold subscribe. rewrite Hn. split; [reflexivity|]. split; simpl; [done|..].
  - rewrite length_app. simpl. lia.
  - intros s. rewrite elem_of_union, elem_of_singleton, Hl, lookup_insert_is_Some'. naive_solver.
  - intros s o. rewrite lookup_insert_Some. intros [[<- <-]|[_ Ho]].
    + by rewrite <-Hn, lookup_app_r, Nat.sub_diag by lia.
    + by apply lookup_app_l_Some, Hs.
  - intros q s. setoid_rewrite lookup_insert_Some. split.
    + intros (l & [[<- <-]|[Hne Hq]] & Hin).
      * apply elem_of_union in Hin as [->%elem_of_singleton|Hin]; [eauto|].
        destruct (cbs r !! p) as [l|] eqn:Hp; [|by apply elem_of_empty in Hin].
        destruct (proj1 (Hc p s)) as (o & Ho & <-); [eauto|]. exists o. split; [right|done].
        split; [|done]. intros <-. congruence.
      * destruct (proj1 (Hc q s)) as (o & Ho & <-); [eauto|]. exists o. split; [right|done].
        split; [|done]. intros <-. congruence.
    + intros (o & [[<- <-]|[Hne Ho]] & Hq).
      * simpl in Hq. subst. eexists. split; [by left|]. set_solver.
      * destruct (proj2 (Hc q s)) as (l & Hl' & Hin); [eauto|].
        destruct (decide (p = q)) as [->|]; [|by exists l; eauto].
        eexists. split; [by left|]. rewrite Hl'. set_solver.
Qed.

Lemma unsubscribe_run r t s :
  implements r t →
  match live t !! s with
  | Some _ => ∃ r', unsubscribe s r = Ok (tt, r') ∧ implements r' (spec_clear s t)
  | None => unsubscribe s r = Panic (PanicMsg "No such sub")
  end.
Proof.
  intros [Hv Hn Hl Hs Hc]. unfold unsubscribe. destruct (live t !! s) as [o|] eqn:Ho.
  2: { rewrite bool_decide_eq_true_2; [done|]. rewrite Hl, Ho. by intros []. }
  rewrite bool_decide_eq_false_2 by (rewrite Hl, Ho; by intros []).
  rewrite (Hs _ _ Ho). simpl. destruct (proj2 (Hc (sub_prefix o) s)) as (l & Hcl & Hin); [eauto|].
  rewrite Hcl. eexists. split; [reflexivity|]. split; simpl; try done.
  - intros s'. rewrite elem_of_difference, elem_of_singleton, Hl, lookup_delete_is_Some. naive_solver.
  - intros s' o'. rewrite lookup_delete_Some. intros [_ ?]. auto.
  - intros q s'. setoid_rewrite lookup_delete_Some. setoid_rewrite lookup_insert_Some. split.
    + intros (l' & [[<- <-]|[Hne Hq]] & Hin').
      * apply elem_of_difference in Hin' as [Hin' Hns]. rewrite elem_of_singleton in Hns.
        destruct (proj1 (Hc (sub_prefix o) s')) as (o' & Ho' & Hp); [eauto|]. naive_solver.
      * destruct (proj1 (Hc q s')) as (o' & Ho' & Hp); [eauto|]. naive_solver.
    + intros (o' & [Hne Ho'] & <-). destruct (proj2 (Hc (sub_prefix o') s')) as (l' & Hl' & Hin'); [eauto|].
      destruct (decide (sub_prefix o = sub_prefix o')) as [E|E].
      * rewrite <-E in *. simplify_eq. eexists. split; [by left|]. set_solver.
      * exists l'. eauto.
Qed.

(** ** What a change notifies *)

(** [p] is the path of a node on the way to [ps], or of [ps] itself. *)
Definition on_path (ps : list string) (p : string) : Prop :=
  ∃ pre, pre ≠ [] ∧ pre `prefix_of` ps ∧ p = key pre.

Context (range_set : gset nat → list nat).
Hypothesis range_set_ok : ∀ l, range_set l ≡ₚ elements l.

Lemma collect_subs_at r pre ps :
  Forall plain_file (pre ++ ps) →
  ∀ s, s ∈ collect_subs range_set r (key pre) ps ↔
    ∃ q l, pre `prefix_of` q ∧ q ≠ pre ∧ q `prefix_of` pre ++ ps ∧ cbs r !! key q = Some l ∧ s ∈ l.
Proof.
  revert pre. induction ps as [|p ps IH]; intros pre H s; cbn [collect_subs].
  { split; [by intros ?%elem_of_nil|]. rewrite app_nil_r. intros (q & l & H1 & H2 & H3 & _).
    destruct H2, H1 as [z ->]. apply prefix_length in H3. rewrite length_app in H3.
    destruct z; [by rewrite app_nil_r|simpl in H3; lia]. }
  rewrite Join_key; [|by apply (list.Forall_app _ (pre ++ [p]) ps); rewrite <-app_assoc].
  assert (pre ++ p :: ps = (pre ++ [p]) ++ ps) as E by by rewrite <-app_assoc.
  rewrite E in H |- *. specialize (IH (pre ++ [p]) H s).
  transitivity ((∃ l, cbs r !! key (pre ++ [p]) = Some l ∧ s ∈ l) ∨
                s ∈ collect_subs range_set r (key (pre ++ [p])) ps).
  { destruct (cbs r !! key (pre ++ [p])) as [l|]; [|naive_solver].
    rewrite elem_of_app, range_set_ok, elem_of_elements. naive_solver. }
  rewrite IH. split.
  - intros [(l & Hl & Hs)|(q & l & H1 & H2 & H3 & Hl & Hs)].
    + exists (pre ++ [p]), l. split_and!; try done; [by eexists| |by eexists].
      intros Hq. apply (f_equal length) in Hq. rewrite length_app in Hq. simpl in Hq. lia.
    + exists q, l. split_and!; try done; [etrans; [|exact H1]; by eexists|]. intros ->.
      apply prefix_length in H1. rewrite length_app in H1. simpl in H1. lia.
  - intros (q & l & [z ->] & H2 & H3 & Hl & Hs). rewrite <-E in H3. apply prefix_app_inv in H3.
    destruct z as [|z0 z]; [by rewrite app_nil_r in H2|].
    apply prefix_cons_inv_1 in H3 as Hz. apply prefix_cons_inv_2 in H3. subst z0.
    destruct z as [|z0 z]; [left; eauto|]. right.
    exists ((pre ++ [p]) ++ z0 :: z), l. split_and!; try done.
    + by eexists.
    + intros Hq. apply (f_equal length) in Hq. rewrite !length_app in Hq. simpl in Hq. lia.
    + by apply prefix_app.
    + by rewrite <-app_assoc.
Qed.
Lemma collect_subs_NoDup r t pre ps :
  implements r t → Forall plain_file (pre ++ ps) → NoDup (collect_subs range_set r (key pre) ps).
Proof.
  intros Hr. revert pre. induction ps as [|p ps IH]; intros pre H; cbn [collect_subs]; [constructor|].
  rewrite Join_key; [|by apply (list.Forall_app _ (pre ++ [p]) ps); rewrite <-app_assoc].
  assert (pre ++ p :: ps = (pre ++ [p]) ++ ps) as E by by rewrite <-app_assoc.
  rewrite E in H. specialize (IH _ H). destruct (cbs r !! key (pre ++ [p])) as [l|] eqn:Hl; [|done].
  apply list.NoDup_app. split_and!; [rewrite range_set_ok; apply NoDup_elements| |done].
  intros s Hs (q & l' & [z ->] & Hne & Hq & Hl' & Hs')%collect_subs_at; [|done].
  rewrite range_set_ok, elem_of_elements in Hs.
  destruct (proj1 (imp_cbs r t Hr (key (pre ++ [p])) s)) as (o & Ho & Hp); [eauto|].
  destruct (proj1 (imp_cbs r t Hr (key ((pre ++ [p]) ++ z)) s)) as (o' & Ho' & Hp'); [eauto|].
  apply Hne. symmetry. destruct Hq as [z' Hz']. rewrite Hz' in H.
  apply key_inj; [by destruct pre|by destruct pre|..|congruence].
  - by rewrite <-app_assoc in H; apply list.Forall_app in H as [? _].
  - by apply list.Forall_app in H as [? _].
Qed.

Context {W : Type} {HR : HasRoot V CB W}.
Context (val_eqb : V → V → res bool) (run_cb : CB → M W unit).

(** Whether [v] is what the leaf at [k] has. *)
Definition same_value (m : gmap string V) (k : string) (v : V) : res bool :=
  match m !! k with Some c => val_eqb v c | None => Ok false end.

(** [w] with [v] in the leaf at [k]. *)
Definition with_value (k : string) (v : V) (w : W) : W :=
  put_root (with_store (<[k := v]> (store (root w))) (root w)) w.

Lemma collect_subs_store r m kk ps :
  collect_subs range_set (with_store m r) kk ps = collect_subs range_set r kk ps.
Proof. revert kk. induction ps as [|p ps IH]; intros kk; cbn; [done|]. by rewrite IH. Qed.

Lemma set_changes k v w :
  same_value (store (root w)) k v = Ok false →
  set val_eqb range_set run_cb k v w =
  run_subs run_cb (collect_subs range_set (root w) "" (Strings.Split k Filepath.slash)) (with_value k v w).
Proof.
  unfold same_value, set. intros H.
  destruct (store (root w) !! k) as [c|]; [rewrite H|]; cbn [mbind res_bind]; by rewrite collect_subs_store.
Qed.
Lemma set_same k v w :
  same_value (store (root w)) k v = Ok true → set val_eqb range_set run_cb k v w = Ok (tt, w).
Proof.
  unfold same_value, set. intros H. destruct (store (root w) !! k) as [c|]; [by rewrite H|done].
Qed.

Lemma with_store_implements r t k v :
  implements r t → implements (with_store (<[k := v]> (store r)) r) (spec_set k v t).
Proof. intros [Hv Hn Hl Hs Hc]. split; simpl; try done. by rewrite Hv. Qed.


Lemma set_run w t ps v :
  implements (root w) t → ps ≠ [] → Forall plain_file ps →
  match same_value (values t) (key ps) v with
  | Ok true => set val_eqb range_set run_cb (key ps) v w = Ok (tt, w)
  | Ok false =>
      ∃ l, set val_eqb range_set run_cb (key ps) v w = run_subs run_cb l (with_value (key ps) v w) ∧
        implements (root (with_value (key ps) v w)) (spec_set (key ps) v t) ∧
        NoDup l ∧ ∀ s, s ∈ l ↔ ∃ o, live t !! s = Some o ∧ on_path ps (sub_prefix o)
  | Panic e => set val_eqb range_set run_cb (key ps) v w = Panic e
  end.
Proof.
  intros H Hne Hps. rewrite <-(imp_values _ t H).
  destruct (same_value (store (root w)) (key ps) v) as [[]|e] eqn:Hv.
  - by apply set_same.
  - eexists. rewrite set_changes by done. split; [reflexivity|]. unfold with_value. rewrite root_put.
    split; [by apply with_store_implements|].
    rewrite Split_key by done. change "" with (key []). split; [by eapply collect_subs_NoDup|].
    intros s. rewrite collect_subs_at by done. cbn [app]. split.
    + intros (q & l & _ & Hq & Hqp & Hl & Hs).
      destruct (proj1 (imp_cbs _ t H (key q) s)) as (o & Ho & Hp); [eauto|]. exists o. split; [done|].
      by exists q.
    + intros (o & Ho & q & Hq & Hqp & Hp).
      destruct (proj2 (imp_cbs _ t H (key q) s)) as (l & Hl & Hs); [eauto|].
      exists q, l. split_and!; try done. by apply prefix_nil.
  - unfold same_value in Hv. unfold set. destruct (store (root w) !! key ps); simplify_eq/=. by rewrite Hv.
Qed.

(** C23: a change to the leaf at a path stores the value, and then runs the callback of
    every live subscription to the leaf or to a node above it, each once, and no
    other; setting the value a leaf has already does nothing, and values that
    cannot be compared with the one a leaf has make [set] panic. *)
Theorem set_notifies w t ps v :
  implements (root w) t → ps ≠ [] → Forall plain_file ps →
  match same_value (values t) (key ps) v with
  | Ok true => set val_eqb range_set run_cb (key ps) v w = Ok (tt, w)
  | Ok false =>
      ∃ l, set val_eqb range_set run_cb (key ps) v w = run_subs run_cb l (with_value (key ps) v w) ∧
        implements (root (with_value (key ps) v w)) (spec_set (key ps) v t) ∧
        NoDup l ∧ ∀ s, s ∈ l ↔ ∃ o, live t !! s = Some o ∧ on_path ps (sub_prefix o)
  | Panic e => set val_eqb range_set run_cb (key ps) v w = Panic e
  end.
Proof. exact (set_run w t ps v). Qed.
End Refinement.

(** ** One subscription *)
Definition str_same (a b : string) : res bool := Ok (str_eqb a b).


Lemma set_notifies_witness :
  ∃ r l, subscribe "App" 7 (newRootNode : rootNode string nat) = Ok (0, r) ∧
    set str_same elements (λ _, mret tt) "App/Name" "x" r =
      run_subs (λ _, mret tt) l (with_value "App/Name" "x" r) ∧ 0 ∈ l.
Proof.
  destruct (subscribe_run (newRootNode : rootNode string nat) (MkTree ∅ ∅ 0) "App" 7 newRootNode_implements) as (r & Hr & Hi).
  exists r.
  destruct (set_notifies (V := string) (CB := nat) (HR := HasRoot_self string nat) elements (λ l, reflexivity _) str_same
              (λ _, mret tt) r (spec_subscribe "App" 7 (MkTree ∅ ∅ 0)) ["App"; "Name"] "x" Hi)
    as (l & Hrun & _ & _ & Hl).
  - discriminate.
  - repeat constructor; discriminate.
  - exists l. split; [exact Hr|]. split; [exact Hrun|]. apply Hl.
    exists (MkSub "App" 7). split; [vm_compute; reflexivity|]. exists ["App"]. split; [discriminate|].
    split; [exists ["Name"]; reflexivity|reflexivity].
Defined.
