(* ===== verification/StateGen.v ===== *)
(** * stateGen: the generator of state trees

    Models [cmd/stateGen/gen.go] of [src/_vendor/src/myitcv.io/react]: [parse] collects
    the node types [_Node_X] and the variable [root] of a package, [ok] checks
    the root, [gen] walks the types and writes one struct with its constructor per
    node and per type of leaf.  What is written is kept as data ([item]); [build] is
    the meaning of the constructors: the tree of nodes and leaves that [NewRoot]
    makes, each with the path [path.Join] gives it.  [StateTree] is the code that
    keeps the values. *)

From S2P Require Import Prelude GoLib GoGenerate GoAst StateTree.

Definition rootVar : string := "root".
Definition leafTypeName : string := "Leaf".
Definition nodePrefix : string := "_Node_".

Record field := MkField { f_Name : string; f_Type : string }.
Record leafField := MkLeaf { l_Name : string; l_Type : string; l_LeafType : string }.
Record node := MkNode { n_Name : string; children : list field; leaves : list leafField }.
Definition zero_node : node := MkNode "" [] [].

(** ** addImports *)

(** [strings.Replace(es, ".", "", -1)] *)
Fixpoint drop_dots (s : string) : string :=
  match s with
  | EmptyString => ""
  | String c s => if bool_decide (c = "."%char) then drop_dots s else String c (drop_dots s)
  end.

(** [unicode.ToUpper] of the first rune, for names that start with an ASCII byte. *)
Definition upper_byte (c : ascii) : ascii :=
  let n := Ascii.nat_of_ascii c in
  if (97 <=? n) && (n <=? 122) then Ascii.ascii_of_nat (n - 32) else c.
Definition upperInitial (s : string) : string :=
  match s with
  | EmptyString => ""
  | String c s => String (upper_byte c) s
  end.

(** The name of the type of a leaf whose values have type [es]. *)
Definition leafType (es : string) : string :=
  let s := drop_dots es in
  let s := if Strings.HasPrefix s "*" then Strings.TrimPrefix s "*" +:+ "P" else s in
  upperInitial s +:+ leafTypeName.

(** The selectors [importFinder] meets in a type: [x.Sel] where [x] is a name. *)
Fixpoint selectors_in (e : expr) : list string :=
  match e with
  | Ident _ => []
  | StarExpr x => selectors_in x
  | SelectorExpr (Ident x) _ => [x]
  | SelectorExpr x _ => selectors_in x
  | ArrayType _ elt => selectors_in elt
  | OtherExpr _ uses => uses.*1
  end.

(** [importFinder.Visit]: does the name [x] stand for this import? *)
Definition import_matches (x : string) (i : ImportSpec) : bool :=
  match imp_name i with
  | Some n => str_eqb x n
  | None =>
      let cleanPath := Strings.Trim (imp_path i) (String Strconv.dq "") in
      str_eqb x (default "" (list.last (Strings.Split cleanPath Filepath.slash)))
  end.

(** The imports of a file a type uses, by position in the file. *)
Definition find_imports (imports : list ImportSpec) (e : expr) : list nat :=
  (filter (λ p : nat * ImportSpec, existsb (λ x, import_matches x p.2) (selectors_in e) = true)
     (zip (seq 0 (length imports)) imports)).*1.

(** ** parse *)
Record gen := MkGen {
  roots : list string;                 (* the types of the variables called root *)
  nodes : gmap string node;            (* by the name of the type, [_Node_X] *)
  g_imports : gset (string * nat)      (* imports to repeat: file and position *)
}.

Definition node_ident (e : expr) : option string :=
  match e with
  | Ident n | StarExpr (Ident n) => if Strings.HasPrefix n nodePrefix then Some n else None
  | _ => None
  end.

(** The loop over the fields of a node type. *)
Fixpoint parse_fields (fields : field_list) : list field * list leafField :=
  match fields with
  | [] => ([], [])
  | (names, typ) :: fields =>
      let '(cs, ls) := parse_fields fields in
      match node_ident typ with
      | Some n => (map (λ x, MkField x (Strings.TrimPrefix n nodePrefix)) names ++ cs, ls)
      | None =>
          let es := print_expr typ in
          (cs, map (λ x, MkLeaf x es (leafType es)) names ++ ls)
      end
  end.

Definition leaf_imports (fn : string) (imports : list ImportSpec) (fields : field_list) : gset (string * nat) :=
  list_to_set (f ← fields;
    match node_ident f.2 with
    | Some _ => []
    | None => map (pair fn) (find_imports imports f.2)
    end).

Definition parseNode (fn : string) (imports : list ImportSpec) (g : gen) (s : string * type_expr) : gen :=
  match s.2 with
  | StructType (Some fields) =>
      if negb (Strings.HasPrefix s.1 nodePrefix) then g
      else
        let '(cs, ls) := parse_fields fields in
        MkGen (roots g)
          (<[s.1 := MkNode (Strings.TrimPrefix s.1 nodePrefix) cs ls]> (nodes g))
          (leaf_imports fn imports fields ∪ g_imports g)
  | _ => g
  end.

Definition parseRoot (g : gen) (s : list string * option expr) : gen :=
  match s with
  | ([n], Some (Ident t)) =>
      if str_eqb n rootVar then MkGen (roots g ++ [t]) (nodes g) (g_imports g) else g
  | _ => g
  end.

Definition parse_decl (fn : string) (imports : list ImportSpec) (g : gen) (d : decl) : gen :=
  match d with
  | DType specs => foldl (parseNode fn imports) g specs
  | DVar specs => foldl parseRoot g specs
  | _ => g
  end.

(** [parse], with the files in the order [range] visits them. *)
Definition parse (files : list (string * ast_file)) : gen :=
  foldl (λ g f, foldl (parse_decl f.1 (file_imports f.2)) g (file_decls f.2)) (MkGen [] ∅ ∅) files.

(** [ok] and the test of [rootType] after it: an error, nothing to do, or the root. *)
Inductive check := Failed | NoRoot | Root (rt : node).
Definition ok (g : gen) : check :=
  match roots g with
  | [] => NoRoot
  | [t] => match nodes g !! t with Some rt => Root rt | None => Failed end
  | _ => Failed
  end.

(** ** gen *)
Inductive item :=
  | GenNode (n : node)
  | GenLeaf (l : leafField)
  | GenRoot (name : string).

(** The queues and the names seen. *)
Record work := MkWork {
  nodesToVisit : list node;
  seenNodes : gset string;
  leavesToVisit : list leafField;
  seenLeaves : gset string
}.

Definition visit_child (ns : gmap string node) (w : work) (c : field) : work :=
  if bool_decide (f_Type c ∈ seenNodes w) then w
  else MkWork (nodesToVisit w ++ [default zero_node (ns !! (nodePrefix +:+ f_Type c))])
         ({[f_Type c]} ∪ seenNodes w) (leavesToVisit w) (seenLeaves w).
Definition visit_leaf (w : work) (l : leafField) : work :=
  if bool_decide (l_LeafType l ∈ seenLeaves w) then w
  else MkWork (nodesToVisit w) (seenNodes w) (leavesToVisit w ++ [l]) ({[l_LeafType l]} ∪ seenLeaves w).

Definition genNode (ns : gmap string node) (w : work) (n : node) : work :=
  foldl visit_leaf (foldl (visit_child ns) w (children n)) (leaves n).

(** [for len(g.nodesToVisit) != 0]: the nodes written and the leaves to write. *)
Fixpoint node_loop (ns : gmap string node) (fuel : nat) (w : work) : res (list node * list leafField) :=
  match nodesToVisit w with
  | [] => Ok ([], leavesToVisit w)
  | h :: q =>
      match fuel with
      | O => Panic OutOfFuel
      | S fuel =>
          '(ns', ls) ← node_loop ns fuel
             (genNode ns (MkWork q (seenNodes w) (leavesToVisit w) (seenLeaves w)) h);
          Ok (h :: ns', ls)
      end
  end.

(** The types of children: no other node is ever queued. *)
Definition child_types (ns : gmap string node) : gset string :=
  list_to_set (n ← (map_to_list ns).*2; map f_Type (children n)).

Definition gen_items (ns : gmap string node) (rt : node) : res (list item) :=
  '(hs, ls) ← node_loop ns (S (size (child_types ns))) (MkWork [rt] ∅ [] ∅);
  Ok (map GenNode hs ++ map GenLeaf ls ++ [GenRoot (n_Name rt)]).

(** ** Queues without repetitions *)
Section Fresh.
Context {A : Type} (name : A → string).

(** The entries of a list whose name was not seen before. *)
Fixpoint fresh (seen : gset string) (xs : list A) : list A :=
  match xs with
  | [] => []
  | x :: xs =>
      if bool_decide (name x ∈ seen) then fresh seen xs
      else x :: fresh ({[name x]} ∪ seen) xs
  end.
Abbreviation names xs := (list_to_set (map name xs) : gset string).

Lemma fresh_spec seen xs :
  NoDup (map name (fresh seen xs)) ∧ (∀ x, x ∈ fresh seen xs → x ∈ xs ∧ name x ∉ seen) ∧
  ∀ x, x ∈ xs → name x ∈ seen ∪ names (fresh seen xs).
Proof.
  revert seen. induction xs as [|x xs IH]; intros seen; cbn [fresh].
  { split; [constructor|]. split; intros x Hx; by apply elem_of_nil in Hx. }
  case_bool_decide as Hx.
  - destruct (IH seen) as (H1 & H2 & H3). split_and!; [done|..].
    + intros y Hy. destruct (H2 y Hy). split; [by right|done].
    + intros y [->|Hy]%elem_of_cons; [set_solver|auto].
  - destruct (IH ({[name x]} ∪ seen)) as (H1 & H2 & H3). cbn [map list_to_set]. split_and!.
    + apply list.NoDup_cons. split; [|done]. intros (y & Hy & [_ Hn]%H2)%list_elem_of_fmap. set_solver.
    + intros y [->|Hy]%elem_of_cons; [split; [by left|done]|]. destruct (H2 y Hy). split; [by right|set_solver].
    + intros y [->|Hy%H3]%elem_of_cons; set_solver.
Qed.

Lemma fresh_app seen xs ys :
  fresh seen (xs ++ ys) = fresh seen xs ++ fresh (names (fresh seen xs) ∪ seen) ys.
Proof.
  revert seen. induction xs as [|x xs IH]; intros seen; cbn [fresh app].
  { f_equal. set_solver. }
  case_bool_decide; [apply IH|]. rewrite IH. cbn [app map list_to_set]. do 3 f_equal. set_solver.
Qed.
End Fresh.

Section Gen.
Context (ns : gmap string node).

(** The node a name stands for. *)
Definition look (t : string) : node := default zero_node (ns !! (nodePrefix +:+ t)).

Lemma visit_children cs w :
  foldl (visit_child ns) w cs =
  MkWork (nodesToVisit w ++ map look (map f_Type (fresh f_Type (seenNodes w) cs)))
    (list_to_set (map f_Type (fresh f_Type (seenNodes w) cs)) ∪ seenNodes w)
    (leavesToVisit w) (seenLeaves w).
Proof.
  revert w. induction cs as [|c cs IH]; intros w; cbn [foldl fresh].
  { destruct w. cbn. f_equal; [by rewrite app_nil_r|set_solver]. }
  rewrite IH. unfold visit_child. case_bool_decide; cbn; [done|].
  rewrite <-app_assoc. f_equal. set_solver.
Qed.
Lemma visit_leaves ls w :
  foldl visit_leaf w ls =
  MkWork (nodesToVisit w) (seenNodes w) (leavesToVisit w ++ fresh l_LeafType (seenLeaves w) ls)
    (list_to_set (map l_LeafType (fresh l_LeafType (seenLeaves w) ls)) ∪ seenLeaves w).
Proof.
  revert w. induction ls as [|l ls IH]; intros w; cbn [foldl fresh].
  { destruct w. cbn. f_equal; [by rewrite app_nil_r|set_solver]. }
  rewrite IH. unfold visit_leaf. case_bool_decide; cbn; [done|].
  rewrite <-app_assoc. f_equal. set_solver.
Qed.

(** [t'] is the type of a child of a node of type [t]. *)
Definition child_of (t t' : string) : Prop := t' ∈ map f_Type (children (look t)).

Lemma child_types_look t t' : child_of t t' → t' ∈ child_types ns.
Proof.
  unfold child_of, look, child_types. destruct (ns !! (nodePrefix +:+ t)) as [n|] eqn:Hn; simpl.
  - intros H. apply elem_of_list_to_set, list_elem_of_bind. exists n. split; [done|].
    apply list_elem_of_fmap. eexists (_, n). split; [done|]. by apply elem_of_map_to_list.
  - by intros ?%elem_of_nil.
Qed.

(** The names still to be queued. *)
Definition unseen (w : work) : nat := size (child_types ns ∖ seenNodes w).

Lemma node_loop_run fuel tq w :
  nodesToVisit w = map look tq → length tq + unseen w ≤ fuel →
  ∃ new ls, node_loop ns fuel w = Ok (map look (tq ++ new), ls) ∧
    NoDup new ∧ (∀ t, t ∈ new → (t ∉ seenNodes w) ∧ ∃ t0, t0 ∈ tq ∧ tc child_of t0 t) ∧
    (∀ t t', t ∈ tq ++ new → child_of t t' → t' ∈ seenNodes w ∨ t' ∈ new).
Proof.
  revert tq w. induction fuel as [|fuel IH]; intros tq w Hq Hf.
  { destruct tq as [|t tq]; simpl in *; [|lia]. exists [], (leavesToVisit w). simpl. rewrite Hq.
    split_and!; [done|apply NoDup_nil_2|by intros ? ?%elem_of_nil|by intros ? ? ?%elem_of_nil]. }
  destruct tq as [|t tq]; cbn [node_loop]; rewrite Hq; cbn [map].
  { exists [], (leavesToVisit w). split_and!; [done|apply NoDup_nil_2|by intros ? ?%elem_of_nil|by intros ? ? ?%elem_of_nil]. }
  destruct (fresh_spec f_Type (seenNodes w) (children (look t))) as (H1 & H2 & H3).
  set (cs := fresh f_Type (seenNodes w) (children (look t))) in *.
  set (w' := genNode ns (MkWork (map look tq) (seenNodes w) (leavesToVisit w) (seenLeaves w)) (look t)).
  assert (nodesToVisit w' = map look (tq ++ map f_Type cs) ∧
          seenNodes w' = list_to_set (map f_Type cs) ∪ seenNodes w) as [Hq' Hs'].
  { unfold w', genNode. rewrite visit_children, visit_leaves. cbn. by rewrite map_app. }
  destruct (IH (tq ++ map f_Type cs) w' Hq') as (new & ls & Hrun & Hnd & Hnew & Hclosed).
  { cbn [length] in Hf. rewrite length_app, length_map.
    enough (length cs + unseen w' = unseen w) by lia. unfold unseen. rewrite Hs'.
    rewrite <-(length_map f_Type cs), <-(size_list_to_set (C := gset string)), <-size_union by set_solver.
    f_equal. apply leibniz_equiv. assert (∀ c, c ∈ cs → f_Type c ∈ child_types ns ∖ seenNodes w).
    { intros c Hc. destruct (H2 c Hc). apply elem_of_difference. split; [|done].
      apply (child_types_look t), list_elem_of_fmap. eauto. }
    intros x. rewrite elem_of_union, !elem_of_difference, elem_of_union, elem_of_list_to_set. split.
    - intros [(c & -> & Hc)%list_elem_of_fmap|?]; [by apply elem_of_difference, H|tauto].
    - intros [? ?]. destruct (decide (x ∈ map f_Type cs)); tauto. }
  exists (map f_Type cs ++ new), ls. rewrite Hrun. cbn [mbind res_bind].
  rewrite <-app_assoc. split_and!; [done|..].
  - apply list.NoDup_app. split_and!; [done| |done]. intros x Hx Hx'. apply Hnew in Hx' as [Hx' _].
    rewrite Hs' in Hx'. set_solver.
  - intros x [Hx|Hx]%elem_of_app.
    + apply list_elem_of_fmap in Hx as (c & -> & Hc). destruct (H2 c Hc) as [Hc1 Hc2]. split; [done|].
      exists t. split; [by left|]. apply tc_once, list_elem_of_fmap. eauto.
    + destruct (Hnew x Hx) as [Hx1 (t0 & Ht0 & Htc)]. split; [set_solver|].
      apply elem_of_app in Ht0 as [Ht0|Ht0]; [exists t0; split; [by right|done]|].
      exists t. split; [by left|]. apply list_elem_of_fmap in Ht0 as (c & -> & Hc).
      eapply tc_l; [|exact Htc]. apply list_elem_of_fmap. destruct (H2 c Hc). eauto.
  - intros x y [->|Hx]%elem_of_cons Hy.
    + apply list_elem_of_fmap in Hy as (c & -> & Hc). specialize (H3 c Hc). set_solver.
    + destruct (Hclosed x y) as [Hy'|Hy']; [by rewrite <-app_assoc|done| |].
      * rewrite Hs' in Hy'. set_solver.
      * right. apply elem_of_app. by right.
Qed.

Lemma node_loop_leaves fuel w hs ls :
  node_loop ns fuel w = Ok (hs, ls) →
  ls = leavesToVisit w ++ fresh l_LeafType (seenLeaves w) (hs ≫= leaves).
Proof.
  revert w hs. induction fuel as [|fuel IH]; intros w hs; cbn [node_loop];
    destruct (nodesToVisit w) as [|h q]; try done; [by intros [= <- <-]; rewrite app_nil_r..|].
  intros ([hs' ls'] & Hrun & [= <- <-])%bind_Ok. apply IH in Hrun as ->.
  unfold genNode. rewrite visit_children, visit_leaves. cbn [leavesToVisit seenLeaves].
  rewrite bind_cons, fresh_app, app_assoc. done.
Qed.

(** C30: the generator always ends.  It writes the root, then every type of node that can
    be reached from the root through children, once each, also when types refer to each
    other in circles, then one type for each kind of leaf in any of them.  The root is not
    marked as seen when it is queued: it is written a second time exactly when it is
    below itself, and else every type of node is written once. *)
Theorem gen_visits t n :
  ns !! (nodePrefix +:+ t) = Some n →
  ∃ ts ls, gen_items ns n =
      Ok (map GenNode (n :: map look ts) ++ map GenLeaf ls ++ [GenRoot (n_Name n)]) ∧
    NoDup ts ∧ (∀ t', t' ∈ ts ↔ tc child_of t t') ∧ (NoDup (t :: ts) ↔ ¬ tc child_of t t) ∧
    NoDup (map l_LeafType ls) ∧
    ∀ lt, lt ∈ map l_LeafType ls ↔ ∃ l, l ∈ ((n :: map look ts) ≫= leaves) ∧ l_LeafType l = lt.
Proof.
  intros Hn. assert (look t = n) as Hl by (unfold look; by rewrite Hn).
  destruct (node_loop_run (S (size (child_types ns))) [t] (MkWork [n] ∅ [] ∅))
    as (ts & ls & Hrun & Hnd & Hnew & Hclosed).
  { cbn. by rewrite Hl. }
  { unfold unseen. cbn. rewrite difference_empty_L. lia. }
  exists ts, ls. unfold gen_items. rewrite Hrun. cbn [app map]. rewrite Hl.
  assert (∀ t', t' ∈ ts ↔ tc child_of t t') as Hts.
  { intros t'. split.
    + intros Ht. destruct (Hnew t' Ht) as [_ (t0 & ->%list_elem_of_singleton & Htc)]. done.
    + assert (∀ x y, x = t ∨ x ∈ ts → child_of x y → y ∈ ts) as Hstep.
      { intros x y Hx Hy. destruct (Hclosed x y) as [Hs|Hs]; [|done|by apply elem_of_empty in Hs|done].
        destruct Hx as [->|Hx]; [by left|by right]. }
      enough (∀ x, tc child_of x t' → x = t ∨ x ∈ ts → t' ∈ ts) by eauto.
      intros x Htc. induction Htc; eauto. }
  split; [done|]. split; [done|]. split; [done|]. split; [rewrite list.NoDup_cons, Hts; tauto|].
  pose proof (node_loop_leaves _ _ _ _ Hrun) as ->. cbn [app map leavesToVisit seenLeaves]. rewrite Hl.
    destruct (fresh_spec l_LeafType ∅ ((n :: map look ts) ≫= leaves)) as (H1 & H2 & H3).
    split; [done|]. intros lt. rewrite list_elem_of_fmap. split.
    + intros (l & -> & Hin). exists l. split; [by apply H2|done].
    + intros (l & Hin & <-). apply H3, elem_of_union in Hin as [Hin|Hin]; [by apply elem_of_empty in Hin|].
      apply elem_of_list_to_set, list_elem_of_fmap in Hin as (l' & E & Hin). exists l'. done.
Qed.
End Gen.

(** ** The tree the generated constructors make *)

(** A node: its path, its children and its leaves by the names of their fields; a
    leaf is its path. *)
#[warnings="-register-all"]
Inductive stree := SNode (prefix : string) (kids : list (string * stree)) (lvs : list (string * string)).

(** [newX] for a leaf type and for a node type; a type that is not declared does not
    compile, a type that is below itself recurs for ever. *)
Definition newLeaf (l : leafField) (prefix : string) : string := Filepath.Join [prefix; l_LeafType l].
Fixpoint newNode (ns : gmap string node) (fuel : nat) (n : node) (prefix : string) : option stree :=
  match fuel with
  | O => None
  | S fuel =>
      let prefix := Filepath.Join [prefix; n_Name n] in
      kids ← mapM (λ c, n' ← ns !! (nodePrefix +:+ f_Type c);
                        t ← newNode ns fuel n' prefix; Some (f_Name c, t)) (children n);
      Some (SNode prefix kids (map (λ l, (l_Name l, newLeaf l prefix)) (leaves n)))
  end.
Definition NewRoot (ns : gmap string node) (fuel : nat) (rt : node) : option stree := newNode ns fuel rt "".

(** The leaves of a node, and the paths of all leaves below it. *)
Definition leaves_of (t : stree) : list (string * string) := match t with SNode _ _ lvs => lvs end.
Fixpoint tree_keys (t : stree) : list string :=
  match t with SNode _ kids lvs => concat (map (λ p, tree_keys p.2) kids) ++ lvs.*2 end.

Section Keys.
Context (ns : gmap string node).

(** Names are Go identifiers, and no node has two children or two leaves of one
    type. *)
Definition node_ok (n : node) : Prop :=
  plain_file (n_Name n) ∧ Forall plain_file (map l_LeafType (leaves n)) ∧
  NoDup (map f_Type (children n)) ∧ NoDup (map l_LeafType (leaves n)).
Hypothesis ns_ok : ∀ t n, ns !! (nodePrefix +:+ t) = Some n → n_Name n = t ∧ node_ok n.

Lemma newNode_inv fuel n ps t :
  newNode ns fuel n (key ps) = Some t → Forall plain_file ps → node_ok n →
  ∃ fuel' kids, fuel = S fuel' ∧
    t = SNode (key (ps ++ [n_Name n])) kids
          (map (λ l, (l_Name l, key (ps ++ [n_Name n; l_LeafType l]))) (leaves n)) ∧
    Forall2 (λ c p, ∃ n', ns !! (nodePrefix +:+ f_Type c) = Some n' ∧
               newNode ns fuel' n' (key (ps ++ [n_Name n])) = Some p.2) (children n) kids.
Proof.
  destruct fuel as [|fuel]; [done|]. cbn [newNode]. intros H Hps (Hn & Hl & _).
  assert (Forall plain_file (ps ++ [n_Name n])) as Hp by (apply list.Forall_app; auto).
  rewrite Join_key in H by done. apply bind_Some in H as (kids & Hk & [= <-]).
  exists fuel, kids. split; [done|]. split.
  - f_equal. apply map_ext_in. intros l Hin%list_elem_of_In. unfold newLeaf. f_equal.
    rewrite Join_key, <-app_assoc; [done|]. apply list.Forall_app. split; [done|].
    apply list.Forall_singleton. rewrite list.Forall_forall in Hl. apply Hl, list_elem_of_fmap. eauto.
  - apply mapM_Some in Hk. eapply Forall2_impl; [|exact Hk]. intros c [x t'].
    intros (n' & Hn' & (t'' & Ht & [= <- <-])%bind_Some)%bind_Some. eauto.
Qed.

Lemma newNode_keys fuel n ps t k :
  newNode ns fuel n (key ps) = Some t → Forall plain_file ps → node_ok n → k ∈ tree_keys t →
  ∃ qs, qs ≠ [] ∧ Forall plain_file (ps ++ n_Name n :: qs) ∧ k = key (ps ++ n_Name n :: qs).
Proof.
  revert n ps t. induction fuel as [|fuel IH]; intros n ps t H Hps Hok Hk; [done|].
  pose proof Hok as (Hn & Hl & _).
  destruct (newNode_inv _ _ _ _ H Hps Hok) as (fuel' & kids & [= <-] & -> & Hkids).
  apply elem_of_app in Hk as [Hk|Hk].
  - apply list_elem_of_In, in_concat in Hk as (l & Hl' & Hin). apply in_map_iff in Hl' as (p & <- & Hp).
    apply list_elem_of_In in Hp, Hin. apply list_elem_of_lookup in Hp as [i Hi].
    destruct (Forall2_lookup_r _ _ _ _ _ Hkids Hi) as (c & Hc & n' & Hn' & Hnew).
    destruct (ns_ok _ _ Hn') as [Hname Hok'].
    destruct (IH n' _ _ Hnew) as (qs & Hne & Hpl & ->); [by apply list.Forall_app; auto|done|done|].
    rewrite <-app_assoc in *. exists (n_Name n' :: qs). done.
  - apply list_elem_of_fmap in Hk as (p & -> & Hp). apply list_elem_of_fmap in Hp as (l & -> & Hin).
    exists [l_LeafType l]. split; [done|]. split; [|done].
    apply list.Forall_app. split; [done|]. constructor; [done|]. apply list.Forall_singleton.
    rewrite list.Forall_forall in Hl. apply Hl, list_elem_of_fmap. eauto.
Qed.

(** Lists of which no two have an element in common. *)
Lemma NoDup_concat_map {A} (f : A → list string) l :
  (∀ x, x ∈ l → NoDup (f x)) →
  (∀ i j x y, l !! i = Some x → l !! j = Some y → i ≠ j → ∀ k, k ∈ f x → k ∈ f y → False) →
  NoDup (concat (map f l)).
Proof.
  induction l as [|x l IH]; intros H1 H2; [apply NoDup_nil_2|]. cbn [map concat].
  apply list.NoDup_app. split_and!; [apply H1; by left| |apply IH].
  - intros k Hk Hk'. apply list_elem_of_In, in_concat in Hk' as (l' & Hl' & Hin).
    apply in_map_iff in Hl' as (y & <- & Hy). apply list_elem_of_In in Hy, Hin.
    apply list_elem_of_lookup in Hy as [j Hj]. by apply (H2 0 (S j) x y eq_refl Hj ltac:(lia) k).
  - intros y Hy. apply H1. by right.
  - intros i j y z Hi Hj Hne. apply (H2 (S i) (S j) y z Hi Hj). lia.
Qed.

Lemma newNode_NoDup fuel n ps t :
  newNode ns fuel n (key ps) = Some t → Forall plain_file ps → node_ok n → NoDup (tree_keys t).
Proof.
  revert n ps t. induction fuel as [|fuel IH]; intros n ps t H Hps Hok; [done|].
  pose proof Hok as (Hn & Hl & Hc & Hlt).
  destruct (newNode_inv _ _ _ _ H Hps Hok) as (fuel' & kids & [= <-] & -> & Hkids).
  assert (Forall plain_file (ps ++ [n_Name n])) as Hp by (apply list.Forall_app; auto).
  assert (∀ i p k, kids !! i = Some p → k ∈ tree_keys p.2 → ∃ c qs, children n !! i = Some c ∧ qs ≠ [] ∧
    Forall plain_file (ps ++ n_Name n :: f_Type c :: qs) ∧ k = key (ps ++ n_Name n :: f_Type c :: qs)) as Hkey.
  { intros i p k Hi Hk. destruct (Forall2_lookup_r _ _ _ _ _ Hkids Hi) as (c & Hci & n' & Hn' & Hnew).
    destruct (ns_ok _ _ Hn') as [E Hok'].
    destruct (newNode_keys _ _ _ _ _ Hnew Hp Hok' Hk) as (qs & Hne & Hpl & ->).
    rewrite <-app_assoc, E in *. by exists c, qs. }
  cbn [tree_keys]. apply list.NoDup_app. split_and!.
  - apply NoDup_concat_map.
    + intros p [i Hi]%list_elem_of_lookup.
      destruct (Forall2_lookup_r _ _ _ _ _ Hkids Hi) as (c & Hci & n' & Hn' & Hnew).
      by apply (IH _ _ _ Hnew), (ns_ok _ _ Hn').
    + intros i j p q Hi Hj Hne k Hk Hk'.
      destruct (Hkey i p k Hi Hk) as (c & qs & Hci & Hq & Hpl & ->).
      destruct (Hkey j q _ Hj Hk') as (c' & qs' & Hcj & Hq' & Hpl' & E).
      apply key_inj in E; [|by destruct ps|by destruct ps|done|done].
      apply app_inv_head in E. injection E as E _.
      apply Hne. eapply (NoDup_lookup (map f_Type (children n))); [done|..];
        rewrite list_lookup_fmap; [by rewrite Hci|rewrite Hcj]; simpl; by rewrite E.
  - intros k Hk (p & -> & (l & -> & Hin)%list_elem_of_fmap)%list_elem_of_fmap.
    apply list_elem_of_In, in_concat in Hk as (ks & Hks & Hk). apply in_map_iff in Hks as (p & <- & Hpi).
    apply list_elem_of_In in Hpi, Hk. apply list_elem_of_lookup in Hpi as [i Hi].
    destruct (Hkey i p _ Hi Hk) as (c & qs & _ & Hq & Hpl & E).
    apply key_inj in E; [|by destruct ps|by destruct ps| |done].
    + apply app_inv_head in E. by destruct qs.
    + apply list.Forall_app. split; [done|]. constructor; [done|]. apply list.Forall_singleton.
      rewrite list.Forall_forall in Hl. apply Hl, list_elem_of_fmap. eauto.
  - assert ((map (λ l, (l_Name l, key (ps ++ [n_Name n; l_LeafType l]))) (leaves n)).*2 =
            (λ lt, key (ps ++ [n_Name n; lt])) <$> map l_LeafType (leaves n)) as ->.
    { clear. induction (leaves n) as [|l ls IH]; [done|]. cbn. by rewrite <-IH. }
    apply NoDup_fmap_2_strong; [|done]. rewrite list.Forall_forall in Hl. intros x y Hx Hy E.
    apply key_inj in E; [|by destruct ps|by destruct ps|..].
    + apply app_inv_head in E. congruence.
    + apply list.Forall_app. repeat constructor; auto; apply Hn || apply Hl; done.
    + apply list.Forall_app. repeat constructor; auto; apply Hn || apply Hl; done.
Qed.

(** ** When the constructors return *)

(** Every child has a declared type. *)
Definition declared : Prop :=
  ∀ t n c, ns !! (nodePrefix +:+ t) = Some n → c ∈ children n → is_Some (ns !! (nodePrefix +:+ f_Type c)).
(** No type is below itself. *)
Definition acyclic : Prop := ∃ rank : string → nat, ∀ t t', child_of ns t t' → rank t' < rank t.

Lemma child_of_lookup t n c : ns !! (nodePrefix +:+ t) = Some n → c ∈ children n → child_of ns t (f_Type c).
Proof. intros Hn Hc. unfold child_of, look. rewrite Hn. apply list_elem_of_fmap. eauto. Qed.

Lemma newNode_mono fuel fuel' n p tr :
  newNode ns fuel n p = Some tr → fuel ≤ fuel' → newNode ns fuel' n p = Some tr.
Proof.
  revert fuel' n p tr. induction fuel as [|fuel IH]; intros [|fuel'] n p tr H Hle; try done; [lia|].
  cbn [newNode] in *. apply bind_Some in H as (kids & Hk & E). apply bind_Some. exists kids. split; [|done].
  apply mapM_Some. apply mapM_Some in Hk. eapply Forall2_impl; [|exact Hk]. intros c k.
  intros (n' & Hn' & (t & Ht & [= <-])%bind_Some)%bind_Some. apply bind_Some. exists n'.
  split; [done|]. apply bind_Some. exists t. split; [apply (IH _ _ _ _ Ht); lia|done].
Qed.

Lemma newNode_total (rank : string → nat) fuel t n p :
  declared → (∀ t t', child_of ns t t' → rank t' < rank t) →
  ns !! (nodePrefix +:+ t) = Some n → rank t < fuel → ∃ tr, newNode ns fuel n p = Some tr.
Proof.
  intros Hd Hr. revert t n p. induction fuel as [|fuel IH]; intros t n p Hn Hf; [lia|]. cbn [newNode].
  match goal with |- context [mapM ?f (children n)] => assert (∃ kids, mapM f (children n) = Some kids) as [kids ->] end.
  { apply mapM_is_Some, list.Forall_forall. intros c Hc. destruct (Hd t n c Hn Hc) as [n' Hn']. 
    pose proof (Hr _ _ (child_of_lookup t n c Hn Hc)).
    destruct (IH (f_Type c) n' (Filepath.Join [p; n_Name n]) Hn') as [tr Htr]; [lia|].
    exists (f_Name c, tr). apply bind_Some. exists n'. split; [done|]. apply bind_Some. eauto. }
  cbn. eauto.
Qed.

(** C31: when no type is below itself and no node has two children or two leaves of the
    same type, [NewRoot] returns a tree, and all leaves of it have paths of their
    own, so what is set in one is not seen in another. *)
Theorem leaves_independent t n :
  declared → acyclic → ns !! (nodePrefix +:+ t) = Some n →
  ∃ fuel tr, (∀ fuel', fuel ≤ fuel' → NewRoot ns fuel' n = Some tr) ∧ NoDup (tree_keys tr).
Proof.
  intros Hd [rank Hr] Hn. destruct (newNode_total rank (S (rank t)) t n "" Hd Hr Hn) as [tr Htr]; [lia|].
  exists (S (rank t)), tr. split; [intros fuel' Hle; by apply (newNode_mono _ _ _ _ _ Htr)|].
  by apply (newNode_NoDup _ _ [] _ Htr), (ns_ok _ _ Hn).
Qed.

Lemma newNode_below fuel t n p tr t' :
  newNode ns fuel n p = Some tr → ns !! (nodePrefix +:+ t) = Some n → tc (child_of ns) t t' →
  ∃ fuel' n' p' tr', fuel' < fuel ∧ ns !! (nodePrefix +:+ t') = Some n' ∧ newNode ns fuel' n' p' = Some tr'.
Proof.
  intros H Hn Htc. revert fuel n p tr H Hn.
  assert (∀ x y fuel n p tr, child_of ns x y → newNode ns fuel n p = Some tr → ns !! (nodePrefix +:+ x) = Some n →
    ∃ fuel' n' p' tr', fuel' < fuel ∧ ns !! (nodePrefix +:+ y) = Some n' ∧ newNode ns fuel' n' p' = Some tr') as Hstep.
  { intros x y [|fuel] n p tr Hc H Hn; [done|]. cbn [newNode] in H. apply bind_Some in H as (kids & Hk & _).
    unfold child_of, look in Hc. rewrite Hn in Hc. cbn in Hc.
    apply list_elem_of_fmap in Hc as (c & -> & [i Hi]%list_elem_of_lookup). apply mapM_Some in Hk.
    destruct (Forall2_lookup_l _ _ _ _ _ Hk Hi) as (k & _ & (n' & Hn' & (tr' & Htr & _)%bind_Some)%bind_Some).
    exists fuel, n', (Filepath.Join [p; n_Name n]), tr'. split; [lia|]. split; [done|exact Htr]. }
  induction Htc as [x y Hxy|x y z Hxy _ IH]; intros fuel n p tr H Hn; [by eapply Hstep|].
  destruct (Hstep _ _ _ _ _ _ Hxy H Hn) as (f1 & n1 & p1 & tr1 & Hf & Hn1 & H1).
  destruct (IH f1 n1 p1 tr1 H1 Hn1) as (f2 & n2 & p2 & tr2 & ? & ? & ?).
  exists f2, n2, p2, tr2. split; [lia|done].
Qed.

(** A type of node that is below itself is generated like any other, by [gen_visits],
    but its constructor never returns. *)
Theorem recursive_node_diverges t n :
  ns !! (nodePrefix +:+ t) = Some n → tc (child_of ns) t t → ∀ fuel p, newNode ns fuel n p = None.
Proof.
  intros Hn Htc fuel. induction fuel as [fuel IH] using lt_wf_ind. intros p.
  destruct (newNode ns fuel n p) as [tr|] eqn:H; [|done]. exfalso.
  destruct (newNode_below _ _ _ _ _ _ H Hn Htc) as (f & n' & p' & tr' & Hf & Hn' & H').
  assert (n' = n) as -> by congruence. by rewrite IH in H'.
Qed.
End Keys.

(** Two leaves of one node with values of the same type are the same leaf: their
    paths are made of types and not of the names of the fields, so setting one sets
    the other. *)
Theorem same_type_leaves_alias {V CB} (val_eqb : V → V → res bool) range_set
    (run_cb : CB → M (rootNode V CB) unit) ns fuel n prefix tr x y :
  newNode ns fuel n prefix = Some tr → x ∈ leaves n → y ∈ leaves n → l_LeafType x = l_LeafType y →
  ∃ kx ky, (l_Name x, kx) ∈ leaves_of tr ∧ (l_Name y, ky) ∈ leaves_of tr ∧
    ∀ v zero, ∃ r, leaf_Set val_eqb range_set run_cb kx v newRootNode = Ok (tt, r) ∧
                   leaf_Get zero ky r = Ok (v, r).
Proof.
  intros H Hx Hy E. destruct fuel as [|fuel]; [done|]. cbn [newNode] in H.
  apply bind_Some in H as (kids & _ & [= <-]). set (p := Filepath.Join [prefix; n_Name n]).
  exists (newLeaf x p), (newLeaf y p). cbn [leaves_of].
  split; [apply list_elem_of_fmap; by exists x|]. split; [apply list_elem_of_fmap; by exists y|].
  intros v zero. assert (newLeaf y p = newLeaf x p) as -> by (unfold newLeaf; by rewrite E).
  set (k := newLeaf x p). exists (with_store (<[k := v]> ∅) newRootNode). split.
  - unfold leaf_Set. rewrite set_changes by done.
    assert (∀ kk ps, collect_subs range_set (newRootNode : rootNode V CB) kk ps = []) as ->; [|done].
    intros kk ps. revert kk. induction ps as [|q ps IH]; intros kk; cbn [collect_subs]; [done|].
    cbn [newRootNode cbs]. rewrite lookup_empty. apply IH.
  - unfold leaf_Get, on_root, get, mget, mbind, M_bind. cbn. by rewrite lookup_insert_eq.
Qed.

(** ** dogen *)
Definition stateGenCmd : string := "stateGen".

Definition gen_imports_of (files : list (string * ast_file)) (g : gen) : list ImportSpec :=
  omap (λ p : string * nat, f ← snd <$> find (λ f : string * ast_file, bool_decide (f.1 = p.1)) files; file_imports f !! p.2)
    (elements (g_imports g)).

(** One package: [None] when it failed, else the file to write, if any: its name, the
    imports it repeats and what the templates write. *)
Definition gen_package (dir pn : string) (files : list (string * ast_file))
    : res (option (option (string * list ImportSpec * list item))) :=
  let files := filter (λ f, FileGeneratedBy f.1 stateGenCmd = false) files in
  let g := parse files in
  match ok g with
  | Failed => Ok None
  | NoRoot => Ok (Some None)
  | Root rt =>
      items ← gen_items (nodes g) rt;
      Ok (Some (Some (Filepath.Join [dir; NameFile pn stateGenCmd], gen_imports_of files g, items)))
  end.

(** All packages of the directory: whether none failed, and the files. *)
Fixpoint dogen (dir : string) (pkgs : list (string * list (string * ast_file)))
    : res (bool * list (string * list ImportSpec * list item)) :=
  match pkgs with
  | [] => Ok (true, [])
  | (pn, files) :: pkgs =>
      r ← gen_package dir pn files;
      '(good, out) ← dogen dir pkgs;
      Ok (match r with
          | None => (false, out)
          | Some None => (good, out)
          | Some (Some f) => (good, f :: out)
          end)
  end.

(** ** The state of the globalstate example *)
Definition in_quotes (s : string) : string := String Strconv.dq (s +:+ String Strconv.dq "").
Definition model_import : ImportSpec :=
  MkImport None (in_quotes "myitcv.io/react/examples/sites/globalstate/model").
Definition model_type (n : string) : expr := StarExpr (SelectorExpr (Ident "model") n).

(** [examples/sites/globalstate/state/state.go] *)
Definition state_go : ast_file := MkFile [model_import]
  [DVar [(["State"], None)];
   DVar [(["root"], Some (Ident "_Node_App"))];
   DType [("_Node_App", StructType (Some [(["CurrentPerson"], model_type "Person");
                                          (["Root"], StarExpr (Ident "_Node_Data"))]))];
   DType [("_Node_Data", StructType (Some [(["People"], model_type "People")]))]].

Definition App_node : node :=
  MkNode "App" [MkField "Root" "Data"] [MkLeaf "CurrentPerson" "*model.Person" "ModelPersonPLeaf"].
Definition Data_node : node :=
  MkNode "Data" [] [MkLeaf "People" "*model.People" "ModelPeoplePLeaf"].

(** The declarations of [gen_state_stateGen.go], in its order, from its source. *)
Lemma globalstate_generated :
  dogen "state" [("state", [("gen_state_stateGen.go", MkFile [] []); ("state.go", state_go)])] =
  Ok (true, [("state/gen_state_stateGen.go", [model_import],
    [GenNode App_node; GenNode Data_node;
     GenLeaf (MkLeaf "CurrentPerson" "*model.Person" "ModelPersonPLeaf");
     GenLeaf (MkLeaf "People" "*model.People" "ModelPeoplePLeaf");
     GenRoot "App"])]).
Proof. vm_compute. reflexivity. Qed.

(** A leaf is named after its type without the dots, so a type of another package and
    a type of this one can get the same leaf, and only the first one is written. *)
Lemma leafType_collision :
  leafType (print_expr (SelectorExpr (Ident "model") "Person")) = leafType (print_expr (Ident "modelPerson")).
Proof. reflexivity. Qed.

Definition state_nodes : gmap string node := nodes (parse [("state.go", state_go)]).

Lemma gen_visits_witness :
  ∃ ts ls, gen_items state_nodes App_node =
    Ok (map GenNode (App_node :: map (look state_nodes) ts) ++ map GenLeaf ls ++ [GenRoot "App"]) ∧
    "Data" ∈ ts.
Proof.
  destruct (gen_visits state_nodes "App" App_node) as (ts & ls & Hrun & _ & Hts & _).
  - vm_compute. reflexivity.
  - exists ts, ls. split; [exact Hrun|]. apply Hts, tc_once. vm_compute. left.
Defined.

Lemma state_nodes_eq : state_nodes = {["_Node_App" := App_node; "_Node_Data" := Data_node]}.
Proof. vm_compute. reflexivity. Qed.
Lemma state_nodes_ok t n : state_nodes !! (nodePrefix +:+ t) = Some n → n_Name n = t ∧ node_ok n.
Proof.
  rewrite state_nodes_eq.
  assert (∀ s, plain_file s ↔ bool_decide (str_has Filepath.slash s = false ∧ s ≠ "" ∧ s ≠ "." ∧ s ≠ ".."))
    as Hpl by (intros s; by rewrite bool_decide_spec).
  intros [[E <-]|[_ [E <-]%lookup_singleton_Some]]%lookup_insert_Some;
    apply (f_equal (λ s, Strings.TrimPrefix s nodePrefix)) in E; rewrite TrimPrefix_app in E;
    (split; [exact E|]); unfold node_ok; rewrite Hpl;
    (split; [done|]); (split; [|split; [|]]);
    try (apply (bool_decide_unpack _); vm_compute; exact I).
  all: repeat constructor; by apply Hpl.
Qed.

Lemma state_nodes_children t n c :
  state_nodes !! (nodePrefix +:+ t) = Some n → c ∈ children n → t = "App" ∧ f_Type c = "Data".
Proof.
  rewrite state_nodes_eq.
  intros [[E <-]|[_ [E <-]%lookup_singleton_Some]]%lookup_insert_Some Hc; [|by apply elem_of_nil in Hc].
  apply list_elem_of_singleton in Hc as ->. split; [|done].
  apply (f_equal (λ s, Strings.TrimPrefix s nodePrefix)) in E. by rewrite TrimPrefix_app in E.
Qed.

Lemma leaves_independent_witness :
  ∃ tr, NewRoot state_nodes 2 App_node = Some tr ∧
    tree_keys tr = ["App/Data/ModelPeoplePLeaf"; "App/ModelPersonPLeaf"] ∧
    ∃ fuel tr', (∀ fuel', fuel ≤ fuel' → NewRoot state_nodes fuel' App_node = Some tr') ∧ NoDup (tree_keys tr').
Proof.
  eexists. split; [vm_compute; reflexivity|]. split; [reflexivity|].
  apply (leaves_independent state_nodes state_nodes_ok "App" App_node).
  - intros t n c Hn Hc. destruct (state_nodes_children t n c Hn Hc) as [_ ->]. vm_compute. eauto.
  - exists (λ s, if str_eqb s "App" then 1 else 0). intros t t' Hc. unfold child_of, look in Hc.
    destruct (state_nodes !! (nodePrefix +:+ t)) as [n|] eqn:Hn; [|by apply elem_of_nil in Hc].
    apply list_elem_of_fmap in Hc as (c & -> & Hc).
    destruct (state_nodes_children t n c Hn Hc) as [-> ->]. vm_compute. lia.
  - vm_compute. reflexivity.
Defined.

(** Two strings in one node. *)
Definition Names_node : node := MkNode "Names" []
  [MkLeaf "First" "string" "StringLeaf"; MkLeaf "Last" "string" "StringLeaf"].
Lemma same_type_leaves_alias_witness :
  ∃ kx ky, ("First", kx) ∈ [("First", "Names/StringLeaf"); ("Last", "Names/StringLeaf")] ∧
    ("Last", ky) ∈ [("First", "Names/StringLeaf"); ("Last", "Names/StringLeaf")] ∧
    ∀ v zero, ∃ r, leaf_Set (λ a b, Ok (str_eqb a b)) elements (λ _ : nat, mret tt) kx v newRootNode = Ok (tt, r) ∧
                   leaf_Get zero ky r = Ok (v, r).
Proof.
  apply (same_type_leaves_alias (λ a b, Ok (str_eqb a b)) elements (λ _ : nat, mret tt) ∅ 1 Names_node ""
    (SNode "Names" [] [("First", "Names/StringLeaf"); ("Last", "Names/StringLeaf")])
    (MkLeaf "First" "string" "StringLeaf") (MkLeaf "Last" "string" "StringLeaf")).
  - vm_compute. reflexivity.
  - left.
  - right. left.
  - reflexivity.
Defined.
