(* ===== verification/ReactGen.v ===== *)
(** * reactGen: the generator of component proxies

    Models [cmd/reactGen/gen.go] and [comp_gen.go] of
    [src/_vendor/src/myitcv.io/react]: [dogen] collects the component definitions, the
    structs and the methods of a package, [genComp] decides what a component has
    (state, props, its own [GetInitialState], [Equals], and so on) and fills in one
    template.  What the template writes is kept as data ([gen_decl]), one constructor
    per declaration of the template. *)

From S2P Require Import Prelude GoLib GoGenerate GoAst.

Definition reactPkg : string := "myitcv.io/react".
Definition compDefName : string := "ComponentDef".
Definition compDefSuffix : string := "Def".
Definition stateTypeSuffix : string := "State".
Definition propsTypeSuffix : string := "Props".
Definition propsTypeTmplPrefix : string := "_".
Definition getInitialState : string := "GetInitialState".
Definition componentWillReceiveProps : string := "ComponentWillReceiveProps".
Definition equals : string := "Equals".
Definition reactGenCmd : string := "reactGen".

(** ** gen.go *)
Record gen := MkGen {
  isReactCore : bool;
  propsTmpls : gset string;
  components : gset string;
  types : gset string;
  pointMeths : gmap string (list FuncDecl);
  nonPointMeths : gmap string (list FuncDecl)
}.
Definition new_gen (core : bool) : gen := MkGen core ∅ ∅ ∅ ∅ ∅.

(** The first import of [myitcv.io/react] and the name it goes by. *)
Fixpoint find_import (imports : list ImportSpec) : option string :=
  match imports with
  | [] => None
  | i :: imports =>
      if str_eqb (Strings.Trim (imp_path i) (String Strconv.dq "")) reactPkg
      then Some (match imp_name i with Some n => n | None => Filepath.Base reactPkg end)
      else find_import imports
  end.

Definition add_method (m : gmap string (list FuncDecl)) (t : string) (f : FuncDecl) : gmap string (list FuncDecl) :=
  <[t := default [] (m !! t) ++ [f]]> m.

Definition add_func (g : gen) (f : FuncDecl) : gen :=
  match fn_recv f with
  | Some (StarExpr (Ident t)) =>
      MkGen (isReactCore g) (propsTmpls g) (components g) (types g) (add_method (pointMeths g) t f) (nonPointMeths g)
  | Some (Ident t) =>
      MkGen (isReactCore g) (propsTmpls g) (components g) (types g) (pointMeths g) (add_method (nonPointMeths g) t f)
  | _ => g
  end.

(** An anonymous field of type [impName.ComponentDef]. *)
Definition is_compDef (impName : string) (f : list string * expr) : bool :=
  match f with
  | ([], SelectorExpr (Ident x) sel) => str_eqb sel compDefName && str_eqb x impName
  | _ => false
  end.

Definition is_tmpl_name (n : string) : bool :=
  Strings.HasPrefix n propsTypeTmplPrefix && Strings.HasSuffix n propsTypeSuffix.

Definition add_type (impName : string) (g : gen) (ts : string * type_expr) : gen :=
  match ts with
  | (n, StructType (Some fields)) =>
      if is_tmpl_name n then
        MkGen (isReactCore g) ({[n]} ∪ propsTmpls g) (components g) (types g) (pointMeths g) (nonPointMeths g)
      else if existsb (is_compDef impName) fields && Strings.HasSuffix n compDefSuffix then
        MkGen (isReactCore g) (propsTmpls g) ({[n]} ∪ components g) (types g) (pointMeths g) (nonPointMeths g)
      else
        MkGen (isReactCore g) (propsTmpls g) (components g) ({[n]} ∪ types g) (pointMeths g) (nonPointMeths g)
  | _ => g
  end.

Definition add_decl (impName : string) (g : gen) (d : decl) : gen :=
  match d with
  | DFunc f => add_func g f
  | DType specs => foldl (add_type impName) g specs
  | _ => g
  end.

Definition add_file (g : gen) (f : string * ast_file) : gen :=
  if FileGeneratedBy f.1 reactGenCmd then g
  else
    let imp := find_import (file_imports f.2) in
    if negb (bool_decide (is_Some imp)) && negb (isReactCore g) then g
    else foldl (add_decl (default "" imp)) g (file_decls f.2).

(** The files of a package, in the order [range] visits them. *)
Definition collect (core : bool) (files : list (string * ast_file)) : gen := foldl add_file (new_gen core) files.

(** ** comp_gen.go *)
Record compGen := MkCompGen {
  Recv : string;
  Name : string;
  HasState : bool;
  HasProps : bool;
  HasGetInitState : bool;
  HasComponentWillReceiveProps : bool;
  PropsHasEquals : bool;
  StateHasEquals : bool;
  RendersSlice : bool;
  RendersMethods : list (string * string)    (* name and type *)
}.

(** [unicode.ToLower] of the first rune, for names that start with an ASCII byte. *)
Definition recv_of (name : string) : string :=
  match name with
  | String c _ => String (Strings.lower_byte c) ""
  | EmptyString => Strings.bytes [239; 191; 189]   (* utf8.RuneError *)
  end.

Definition meths (g : gen) (t : string) : list FuncDecl := default [] (nonPointMeths g !! t).

Definition no_fields (l : option field_list) : bool := match l with Some (_ :: _) => false | _ => true end.

Definition renders_method (m : FuncDecl) : option (string * string) :=
  if negb (Strings.HasPrefix (fn_name m) "Renders") then None
  else match fn_params m with
       | [(_, t)] => if no_fields (fn_results m) then Some (fn_name m, print_expr t) else None
       | _ => None
       end.

Definition renders_slice (m : FuncDecl) : bool :=
  str_eqb (fn_name m) "Render" &&
  match fn_params m, fn_results m with
  | [], Some [(_, ArrayType None _)] => true
  | _, _ => false
  end.

Definition is_ident (e : expr) (n : string) : bool :=
  match e with Ident x => str_eqb x n | _ => false end.

(** [m.Type.Results != nil && len(m.Type.Results.List) != 1] guards the look at the
    first result, which a method without results does not have. *)
Definition result_is (m : FuncDecl) (n : string) : res bool :=
  match fn_results m with
  | None => Panic NilDeref
  | Some [(_, t)] => Ok (is_ident t n)
  | Some _ => Ok false
  end.

(** The loop that looks for [GetInitialState], which stops at the first one found. *)
Fixpoint has_getInitialState (stateType : string) (ms : list FuncDecl) : res bool :=
  match ms with
  | [] => Ok false
  | m :: ms =>
      if negb (str_eqb (fn_name m) getInitialState) then has_getInitialState stateType ms
      else match fn_params m with
           | [] => found ← result_is m stateType;
                   if found : bool then Ok true else has_getInitialState stateType ms
           | _ => has_getInitialState stateType ms
           end
  end.

(** One round of the loops that look for [Equals]. *)
Definition is_equals (t : string) (m : FuncDecl) : res bool :=
  if negb (str_eqb (fn_name m) equals) then Ok false
  else match fn_params m with
       | [(_, p)] =>
           (* the guards on the number of results come before the parameter *)
           match fn_results m with
           | Some ([] | _ :: _ :: _) => Ok false
           | _ => if is_ident p t then result_is m "bool" else Ok false
           end
       | _ => Ok false
       end.
Fixpoint has_equals (t : string) (ms : list FuncDecl) : res bool :=
  match ms with
  | [] => Ok false
  | m :: ms => b ← is_equals t m; bs ← has_equals t ms; Ok (b || bs)
  end.

Definition receives_props (t : string) (m : FuncDecl) : bool :=
  str_eqb (fn_name m) componentWillReceiveProps &&
  match fn_params m with
  | [(_, p)] => no_fields (fn_results m) && is_ident p t
  | _ => false
  end.

Definition genComp (g : gen) (defName : string) : res compGen :=
  let name := Strings.TrimSuffix defName compDefSuffix in
  if isReactCore g then
    Panic (PanicMsg ("don't yet know how to generate core components like " +:+ name))
  else
    let stateType := name +:+ stateTypeSuffix in
    let propsType := name +:+ propsTypeSuffix in
    let hasState := bool_decide (stateType ∈ types g) in
    let hasPropsTmpl := bool_decide (propsTypeTmplPrefix +:+ name +:+ propsTypeSuffix ∈ types g) in
    let hasPropsType := bool_decide (propsType ∈ types g) in
    let hasProps := hasPropsTmpl || hasPropsType in
    let ms := meths g defName in
    gis ← (if hasState then has_getInitialState stateType ms else Ok false);
    seq ← (if hasState then has_equals stateType (meths g stateType) else Ok false);
    let cwrp := hasProps && existsb (receives_props propsType) ms in
    peq ← (if hasProps then has_equals propsType (meths g propsType) else Ok false);
    Ok (MkCompGen (recv_of name) name hasState hasProps gis cwrp peq seq
          (existsb renders_slice ms) (omap renders_method ms)).

(** The declarations of the template. *)
Inductive render_body := RenderOne (v : string) | RenderSlice (v : string).
Inductive gen_decl :=
  | ElemStruct                                   (* type XElem struct *)
  | RendersFunc (recv m t : string)              (* func (x *XElem) RendersT(T) {} *)
  | Noop (recv : string) (ms : list string)      (* func (x *XElem) noop() *)
  | Build                                        (* func buildX(cd) react.Component *)
  | BuildElem (props : bool)                     (* func buildXElem(...) *XElem *)
  | RendersElement (recv : string) (body : render_body)
  | SetState (recv : string)
  | State (recv : string)
  | IsState (recv : string)
  | StateVar                                     (* var _ react.State = XState{} *)
  | GetInitialStateIntf (recv : string) (own : bool)
  | StateEqualsIntf (recv : string) (own : bool)
  | IsProps (recv : string)
  | Props (recv : string)
  | ComponentWillReceivePropsIntf (recv : string)
  | PropsEqualsIntf (recv : string) (own : bool)
  | PropsVar.                                    (* var _ react.Props = XProps{} *)

Definition template (cg : compGen) : list gen_decl :=
  let r := Recv cg in
  [ElemStruct] ++
  map (λ p, RendersFunc r p.1 p.2) (RendersMethods cg) ++
  (match RendersMethods cg with [] => [] | ms => [Noop r ms.*1] end) ++
  [Build; BuildElem (HasProps cg);
   RendersElement r (if RendersSlice cg then RenderSlice "t" else RenderOne r)] ++
  (if HasState cg then
     [SetState r; State r; IsState r; StateVar; GetInitialStateIntf r (HasGetInitState cg);
      StateEqualsIntf r (StateHasEquals cg)] else []) ++
  (if HasProps cg then
     [IsProps r; Props r] ++
     (if HasComponentWillReceiveProps cg then [ComponentWillReceivePropsIntf r] else []) ++
     [PropsEqualsIntf r (PropsHasEquals cg); PropsVar] else []).

(** The file written for a component: its name, the component and the declarations. *)
Definition comp_file (g : gen) (defName : string) : res (string * (string * list gen_decl)) :=
  cg ← genComp g defName;
  Ok (NameFile (Name cg) reactGenCmd, (Name cg, template cg)).

(** One package, with the components in the order [range] visits them. *)
Definition dogen (range_set : gset string → list string) (core : bool) (files : list (string * ast_file))
    : res (list (string * (string * list gen_decl))) :=
  let g := collect core files in
  res_map (comp_file g) (range_set (components g)).

(** ** What the flags say *)

(** The signatures [genComp] looks for. *)
Definition sig_getInitialState (t : string) (m : FuncDecl) : Prop :=
  fn_name m = getInitialState ∧ fn_params m = [] ∧ ∃ x, fn_results m = Some [(x, Ident t)].
Definition sig_equals (t : string) (m : FuncDecl) : Prop :=
  fn_name m = equals ∧ (∃ x, fn_params m = [(x, Ident t)]) ∧ ∃ y, fn_results m = Some [(y, Ident "bool")].
Definition sig_receives (t : string) (m : FuncDecl) : Prop :=
  fn_name m = componentWillReceiveProps ∧ (∃ x, fn_params m = [(x, Ident t)]) ∧
  no_fields (fn_results m) = true.

Lemma is_ident_true e n : is_ident e n = true ↔ e = Ident n.
Proof.
  unfold is_ident, str_eqb. destruct e; try done. rewrite bool_decide_eq_true. split; [by intros ->|by intros [=]].
Qed.
Lemma is_ident_false e n : is_ident e n = false → e ≠ Ident n.
Proof. intros H E. by rewrite (proj2 (is_ident_true e n) E) in H. Qed.

Lemma result_is_Ok m n b : result_is m n = Ok b → b = true ↔ ∃ x, fn_results m = Some [(x, Ident n)].
Proof.
  unfold result_is. destruct (fn_results m) as [[|[x t] [|]]|]; intros [= <-];
    try (split; [done|by intros (? & [=])]).
  rewrite is_ident_true. split; [intros ->; eauto|by intros (? & [=])].
Qed.

Lemma is_equals_Ok t m b : is_equals t m = Ok b → b = true ↔ sig_equals t m.
Proof.
  unfold is_equals, sig_equals, str_eqb. case_bool_decide as Hn; cbn [negb].
  2: { intros [= <-]. split; [done|by intros [? _]]. }
  destruct (fn_params m) as [|[x p] [|]]; try (intros [= <-]; split; [done|by intros (_ & [? [=]] & _)]).
  destruct (fn_results m) as [[|r [|]]|] eqn:Hr;
    try (intros [= <-]; split; [done|by intros (_ & _ & ? & [=])]).
  - destruct (is_ident p t) eqn:Hp.
    + apply is_ident_true in Hp as ->. intros H. rewrite (result_is_Ok _ _ _ H), Hr.
      split; [eauto|by intros (_ & _ & ?)].
    + apply is_ident_false in Hp. intros [= <-]. split; [done|]. by intros (_ & [? [= _ ?]] & _).
  - destruct (is_ident p t) eqn:Hp; [unfold result_is; by rewrite Hr|].
    intros [= <-]. split; [done|by intros (_ & _ & ? & [=])].
Qed.
Lemma has_equals_Ok t ms b : has_equals t ms = Ok b → b = true ↔ ∃ m, m ∈ ms ∧ sig_equals t m.
Proof.
  revert b. induction ms as [|m ms IH]; intros b; cbn [has_equals].
  - intros [= <-]. split; [done|]. by intros (m & ?%elem_of_nil & _).
  - intros (b1 & H1 & (b2 & H2 & [= <-])%bind_Ok)%bind_Ok.
    rewrite orb_true_iff, (is_equals_Ok _ _ _ H1), (IH _ H2). setoid_rewrite elem_of_cons. split.
    + intros [?|(m' & ? & ?)]; eauto.
    + intros (m' & [->|?] & ?); eauto.
Qed.
Lemma has_getInitialState_Ok t ms b :
  has_getInitialState t ms = Ok b → b = true ↔ ∃ m, m ∈ ms ∧ sig_getInitialState t m.
Proof.
  induction ms as [|m ms IH]; cbn [has_getInitialState].
  { intros [= <-]. split; [done|]. by intros (m & ?%elem_of_nil & _). }
  assert (∀ b, ¬ sig_getInitialState t m → (b = true ↔ ∃ m, m ∈ ms ∧ sig_getInitialState t m) →
    b = true ↔ ∃ m', m' ∈ m :: ms ∧ sig_getInitialState t m') as Hskip.
  { intros b' Hm ->. setoid_rewrite elem_of_cons. split; intros (m' & Hin & Hs); [eauto|].
    destruct Hin as [->|Hin]; [done|eauto]. }
  unfold str_eqb. case_bool_decide as Hn; cbn [negb]; [|intros H; apply Hskip; [by intros [? _]|auto]].
  destruct (fn_params m) as [|p ps] eqn:Hp.
  - intros (found & Hf & H)%bind_Ok. pose proof (result_is_Ok _ _ _ Hf) as Hr. destruct found.
    + injection H as <-. split; [|done]. intros _. exists m. split; [by left|].
      split; [done|]. split; [done|]. by apply Hr.
    + apply Hskip; [|auto]. intros (_ & _ & Hx). by apply Hr in Hx.
  - intros H. apply Hskip; [|auto]. intros (_ & E & _). congruence.
Qed.
Lemma receives_props_true t m : receives_props t m = true ↔ sig_receives t m.
Proof.
  unfold receives_props, sig_receives, str_eqb. rewrite andb_true_iff, bool_decide_eq_true.
  destruct (fn_params m) as [|[x p] [|]].
  - split; [by intros []|by intros (_ & [? [=]] & _)].
  - rewrite andb_true_iff, is_ident_true. split.
    + intros (? & ? & ->). eauto.
    + intros (? & [? [= _ ->]] & ?). done.
  - split; [by intros []|by intros (_ & [? [=]] & _)].
Qed.

(** No template of props is among the types. *)
Lemma collect_types core files n : n ∈ types (collect core files) → is_tmpl_name n = false.
Proof.
  unfold collect. assert (∀ n, n ∈ types (new_gen core) → is_tmpl_name n = false) as H by set_solver.
  revert H. generalize (new_gen core). induction files as [|f files IH]; intros g H; [apply H|].
  cbn [foldl]. apply IH. unfold add_file. case_match; [done|]. case_match; [done|].
  generalize (default "" (find_import (file_imports f.2))). intros imp. clear -H.
  revert g H. induction (file_decls f.2) as [|d ds IH]; intros g H; [done|]. cbn [foldl].
  apply IH. clear IH. destruct d as [fn|specs| |]; cbn [add_decl]; try done.
  - unfold add_func. by repeat case_match.
  - revert g H. induction specs as [|[m t] specs IH]; intros g H; [done|]. cbn [foldl]. apply IH. clear IH.
    unfold add_type. destruct t as [[fields|]|]; try done. destruct (is_tmpl_name m) eqn:Hm; [done|].
    case_match; [done|]. cbn [types]. set_solver.
Qed.

Lemma tmpl_name n : is_tmpl_name (propsTypeTmplPrefix +:+ n +:+ propsTypeSuffix) = true.
Proof.
  unfold is_tmpl_name. rewrite HasPrefix_app. cbn [andb]. rewrite <-str_app_assoc. apply HasSuffix_app.
Qed.

Lemma genComp_inv g d cg :
  genComp g d = Ok cg →
  let name := Strings.TrimSuffix d compDefSuffix in
  let stateType := name +:+ stateTypeSuffix in
  let propsType := name +:+ propsTypeSuffix in
  Name cg = name ∧ Recv cg = recv_of name ∧
  HasState cg = bool_decide (stateType ∈ types g) ∧
  HasProps cg = bool_decide (propsTypeTmplPrefix +:+ propsType ∈ types g) || bool_decide (propsType ∈ types g) ∧
  (HasGetInitState cg = true ↔ HasState cg = true ∧ ∃ m, m ∈ meths g d ∧ sig_getInitialState stateType m) ∧
  (StateHasEquals cg = true ↔ HasState cg = true ∧ ∃ m, m ∈ meths g stateType ∧ sig_equals stateType m) ∧
  (HasComponentWillReceiveProps cg = true ↔
     HasProps cg = true ∧ ∃ m, m ∈ meths g d ∧ sig_receives propsType m) ∧
  (PropsHasEquals cg = true ↔ HasProps cg = true ∧ ∃ m, m ∈ meths g propsType ∧ sig_equals propsType m).
Proof.
  unfold genComp. case_match; [done|]. cbv zeta.
  set (name := Strings.TrimSuffix d compDefSuffix). set (st := name +:+ stateTypeSuffix).
  set (pt := name +:+ propsTypeSuffix).
  intros (gis & Hg & (seq & Hs & (peq & Hp & [= <-])%bind_Ok)%bind_Ok)%bind_Ok.
  cbn [Name Recv HasState HasProps HasGetInitState StateHasEquals HasComponentWillReceiveProps PropsHasEquals].
  set (hs := bool_decide (st ∈ types g)) in *.
  set (hp := bool_decide (propsTypeTmplPrefix +:+ pt ∈ types g) || bool_decide (pt ∈ types g)) in *.
  split; [done|]. split; [done|]. split; [done|]. split; [done|]. split_and!.
  - destruct hs; [rewrite (has_getInitialState_Ok _ _ _ Hg); tauto|]. injection Hg as <-. by split; [|intros []].
  - destruct hs; [rewrite (has_equals_Ok _ _ _ Hs); tauto|]. injection Hs as <-. by split; [|intros []].
  - rewrite andb_true_iff, existsb_exists. setoid_rewrite receives_props_true.
    setoid_rewrite <-list_elem_of_In. done.
  - destruct hp; [rewrite (has_equals_Ok _ _ _ Hp); tauto|]. injection Hp as <-. by split; [|intros []].
Qed.

(** For the components of a package, every part of the generated file is there for
    exactly one reason: the state proxies when a struct [XState] is declared, the
    props proxies when a struct [XProps] is, and a component's own [GetInitialState],
    [ComponentWillReceiveProps] and [Equals] are called when methods with these
    signatures are declared. *)
Theorem genComp_flags files d cg :
  genComp (collect false files) d = Ok cg →
  let g := collect false files in
  let name := Strings.TrimSuffix d compDefSuffix in
  let st := name +:+ stateTypeSuffix in
  let pt := name +:+ propsTypeSuffix in
  Name cg = name ∧
  (HasState cg = true ↔ st ∈ types g) ∧ (HasProps cg = true ↔ pt ∈ types g) ∧
  (HasGetInitState cg = true ↔ st ∈ types g ∧ ∃ m, m ∈ meths g d ∧ sig_getInitialState st m) ∧
  (StateHasEquals cg = true ↔ st ∈ types g ∧ ∃ m, m ∈ meths g st ∧ sig_equals st m) ∧
  (HasComponentWillReceiveProps cg = true ↔ pt ∈ types g ∧ ∃ m, m ∈ meths g d ∧ sig_receives pt m) ∧
  (PropsHasEquals cg = true ↔ pt ∈ types g ∧ ∃ m, m ∈ meths g pt ∧ sig_equals pt m).
Proof.
  intros H. cbv zeta. destruct (genComp_inv _ _ _ H) as (Hn & _ & Hs & Hp & Hg & He & Hr & Hq).
  set (name := Strings.TrimSuffix d compDefSuffix) in *.
  assert (HasProps cg = bool_decide (name +:+ propsTypeSuffix ∈ types (collect false files))) as Hp'.
  { rewrite Hp. rewrite (bool_decide_eq_false_2 (propsTypeTmplPrefix +:+ _ ∈ _)); [done|].
    intros Hin%collect_types. by rewrite tmpl_name in Hin. }
  rewrite Hg, He, Hr, Hq, Hs, Hp', !bool_decide_eq_true. done.
Qed.

(** A props template [_XProps] does nothing: [genComp] looks for it among the types,
    where [dogen] never puts it, so a component that has a template and no [XProps]
    struct is generated without props. *)
Theorem props_template_ignored files d cg :
  let g := collect false files in
  let name := Strings.TrimSuffix d compDefSuffix in
  genComp g d = Ok cg → propsTypeTmplPrefix +:+ name +:+ propsTypeSuffix ∈ propsTmpls g →
  name +:+ propsTypeSuffix ∉ types g →
  HasProps cg = false ∧ BuildElem true ∉ template cg.
Proof.
  cbv zeta. intros H _ Hn. destruct (genComp_inv _ _ _ H) as (_ & _ & _ & Hp & _).
  set (name := Strings.TrimSuffix d compDefSuffix) in *.
  rewrite (bool_decide_eq_false_2 (name +:+ propsTypeSuffix ∈ _)) in Hp by done.
  rewrite (bool_decide_eq_false_2 (propsTypeTmplPrefix +:+ _ ∈ _)) in Hp.
  2: { intros Hin%collect_types. by rewrite tmpl_name in Hin. }
  split; [done|]. unfold template. rewrite Hp. cbn [orb].
  intros Hin. repeat (apply elem_of_app in Hin as [Hin|Hin]);
    try (apply list_elem_of_singleton in Hin; discriminate); try by apply elem_of_nil in Hin.
  - apply list_elem_of_fmap in Hin as (? & [=] & _).
  - destruct (RendersMethods cg); [by apply elem_of_nil in Hin|].
    apply list_elem_of_singleton in Hin. discriminate.
  - repeat (apply elem_of_cons in Hin as [Hin|Hin]; [discriminate|]). by apply elem_of_nil in Hin.
  - destruct (HasState cg); [|by apply elem_of_nil in Hin].
    repeat (apply elem_of_cons in Hin as [Hin|Hin]; [discriminate|]). by apply elem_of_nil in Hin.
Qed.

(** ** Methods without results *)
Definition has_results (m : FuncDecl) : Prop := is_Some (fn_results m).

Lemma result_is_total m n : has_results m → ∃ b, result_is m n = Ok b.
Proof. intros [rs Hr]. unfold result_is. rewrite Hr. destruct rs as [|[? ?] [|]]; eauto. Qed.
Lemma has_equals_total t ms :
  (∀ m, m ∈ ms → fn_name m = equals → has_results m) → ∃ b, has_equals t ms = Ok b.
Proof.
  induction ms as [|m ms IH]; intros H; cbn [has_equals]; [eauto|].
  destruct IH as [bs Hbs]; [intros m' Hm'; apply H; by right|]. rewrite Hbs.
  assert (∃ b, is_equals t m = Ok b) as [b ->]; [|cbn; eauto].
  unfold is_equals, str_eqb. case_bool_decide as Hn; cbn [negb]; [|eauto].
  destruct (fn_params m) as [|[? p] [|]]; eauto.
  destruct (H m) as [rs Hr]; [by left|done|]. rewrite Hr.
  destruct (is_ident p t); [|destruct rs as [|? [|]]; eauto].
  destruct (result_is_total m "bool") as [b Hb]; [by eexists|]. destruct rs as [|? [|]]; eauto.
Qed.
Lemma has_getInitialState_total t ms :
  (∀ m, m ∈ ms → fn_name m = getInitialState → has_results m) → ∃ b, has_getInitialState t ms = Ok b.
Proof.
  induction ms as [|m ms IH]; intros H; cbn [has_getInitialState]; [eauto|].
  destruct IH as [bs Hbs]; [intros m' Hm'; apply H; by right|]. rewrite Hbs.
  unfold str_eqb. case_bool_decide as Hn; cbn [negb]; [|eauto]. destruct (fn_params m); [|eauto].
  destruct (result_is_total m t) as [[] ->]; [apply H; [by left|done]|..]; cbn; eauto.
Qed.
Lemma is_equals_cases t m : is_equals t m = Panic NilDeref ∨ ∃ b, is_equals t m = Ok b.
Proof. unfold is_equals, result_is. repeat case_match; eauto. Qed.
Lemma has_equals_panics t ms m x :
  m ∈ ms → fn_name m = equals → fn_params m = [(x, Ident t)] → fn_results m = None →
  has_equals t ms = Panic NilDeref.
Proof.
  intros Hin Hn Hp Hr. induction ms as [|m' ms IH]; [by apply elem_of_nil in Hin|]. cbn [has_equals].
  apply elem_of_cons in Hin as [<-|Hin].
  - unfold is_equals, result_is, is_ident, str_eqb. rewrite Hn, Hp, Hr.
    by rewrite !bool_decide_eq_true_2.
  - rewrite (IH Hin). by destruct (is_equals_cases t m') as [->|[b ->]].
Qed.
Lemma collect_core core files : isReactCore (collect core files) = core.
Proof.
  unfold collect. change core with (isReactCore (new_gen core)) at 2. generalize (new_gen core).
  induction files as [|f files IH]; intros g; [done|]. cbn [foldl]. rewrite IH. clear IH.
  unfold add_file. case_match; [done|]. case_match; [done|].
  generalize (default "" (find_import (file_imports f.2))). intros imp. clear. revert g.
  induction (file_decls f.2) as [|d ds IH]; intros g; [done|]. cbn [foldl]. rewrite IH. clear IH.
  destruct d as [fn|specs| |]; cbn [add_decl]; try done.
  - unfold add_func. by repeat case_match.
  - revert g. induction specs as [|[m t] specs IH]; intros g; [done|]. cbn [foldl]. rewrite IH.
    unfold add_type. by repeat case_match.
Qed.

Lemma genComp_total g d :
  isReactCore g = false →
  (∀ t m, m ∈ meths g t → fn_name m = equals ∨ fn_name m = getInitialState → has_results m) →
  ∃ cg, genComp g d = Ok cg.
Proof.
  intros Hc H. unfold genComp. rewrite Hc.
  match goal with |- context [if ?b then has_getInitialState ?t ?ms else _] =>
    assert (∃ r, (if b then has_getInitialState t ms else Ok false) = Ok r) as [gis ->] end.
  { destruct (bool_decide _); [|eauto]. apply has_getInitialState_total. eauto. }
  cbn [mbind res_bind].
  repeat match goal with |- context [if ?b then has_equals ?t ?ms else Ok false] =>
    let r := fresh "r" in
    assert (∃ r, (if b then has_equals t ms else Ok false) = Ok r) as [r ->]
      by (destruct b; [apply has_equals_total; eauto|eauto]);
    cbn [mbind res_bind] end. eauto.
Qed.

(** The generator does not fail on a component when every method called [Equals] or
    [GetInitialState] has results; but one such method without results makes it
    fail with a nil pointer, where it means to go on to the next method. *)
Theorem genComp_no_results files d :
  let g := collect false files in
  let st := Strings.TrimSuffix d compDefSuffix +:+ stateTypeSuffix in
  ((∀ t m, m ∈ meths g t → fn_name m = equals ∨ fn_name m = getInitialState → has_results m) →
     ∃ cg, genComp g d = Ok cg) ∧
  ∀ m x, st ∈ types g → (∃ b, has_getInitialState st (meths g d) = Ok b) → m ∈ meths g st →
    fn_name m = equals → fn_params m = [(x, Ident st)] → fn_results m = None →
    genComp g d = Panic NilDeref.
Proof.
  cbv zeta. split; [intros H; apply genComp_total; [apply collect_core|done]|].
  intros m x Ht [b Hb] Hin Hn Hp Hr. unfold genComp. rewrite collect_core. cbv zeta. rewrite (bool_decide_eq_true_2 _ Ht), Hb.
  cbn [mbind res_bind]. rewrite (has_equals_panics _ _ m x Hin Hn Hp Hr). reflexivity.
Qed.

(** For a component whose [Render] returns a slice, the generated method calls
    [t.Render()] whatever its receiver is called, which is right only for components
    whose name starts with that letter. *)
Theorem renders_slice_receiver files d cg :
  genComp (collect false files) d = Ok cg → RendersSlice cg = true →
  RendersElement (Recv cg) (RenderSlice "t") ∈ template cg ∧
  (Recv cg = "t" ↔ ∃ c rest, Name cg = String c rest ∧ (c = "t"%char ∨ c = "T"%char)).
Proof.
  intros H Hs. destruct (genComp_inv _ _ _ H) as (Hn & Hr & _). split.
  - unfold template. rewrite Hs. apply elem_of_app. right. apply elem_of_app. right.
    apply elem_of_app. right. apply elem_of_app. left. right. right. left.
  - rewrite Hr, <-Hn. unfold recv_of. destruct (Name cg) as [|c rest].
    + split; [vm_compute; discriminate|]. by intros (? & ? & ? & _).
    + split.
      * intros E. exists c, rest. split; [done|]. injection E as E. revert E.
        destruct c as [[] [] [] [] [] [] [] []]; vm_compute; intros E; try discriminate E; auto.
      * by intros (c' & r' & [= <- <-] & [->| ->]).
Qed.
