(* ===== verification/ReactGenOrder.v ===== *)
(** * reactGen and the order of maps

    [cmd/reactGen/gen.go] ranges over two maps, the files of a package and the
    components it found, so the order in which it reads declarations and writes
    files is not fixed.  This file shows what of its output depends on that order. *)

From S2P Require Import Prelude GoLib GoGenerate GoAst ReactGen.

(** ** What one file adds *)

(** [r] is [g] with what was collected in [d] added to it. *)
Record joins (g d r : gen) : Prop := {
  joins_core : isReactCore r = isReactCore g;
  joins_types : types r = types d ∪ types g;
  joins_components : components r = components d ∪ components g;
  joins_meths : ∀ t, meths r t = meths g t ++ meths d t
}.

Lemma joins_new g core : joins g (new_gen core) g.
Proof.
  split; cbn; try set_solver. intros t. unfold meths at 3. cbn. by rewrite lookup_empty, app_nil_r.
Qed.

Lemma meths_add_method ms t t' f :
  default [] (add_method ms t f !! t') = default [] (ms !! t') ++ (if bool_decide (t = t') then [f] else []).
Proof.
  unfold add_method. case_bool_decide as Ht.
  - subst. by rewrite lookup_insert_eq.
  - by rewrite lookup_insert_ne, app_nil_r.
Qed.

Lemma add_func_joins g d r f : joins g d r → joins g (add_func d f) (add_func r f).
Proof.
  intros [Hc Ht Hp Hm]. unfold add_func. destruct (fn_recv f) as [[t|[]| | |]|]; split; try done.
  intros t'. unfold meths in *. cbn [nonPointMeths]. rewrite !meths_add_method, Hm. by rewrite app_assoc.
Qed.
Lemma add_type_joins imp g d r ts : joins g d r → joins g (add_type imp d ts) (add_type imp r ts).
Proof.
  intros [Hc Ht Hp Hm]. unfold add_type. destruct ts as [n [[fields|]|]]; [|by split..].
  destruct (is_tmpl_name n); [by split|]. case_match; split; cbn [types components isReactCore]; try done.
  - by rewrite Hp, assoc_L by apply _.
  - by rewrite Ht, assoc_L by apply _.
Qed.
Lemma add_decl_joins imp g d r dc : joins g d r → joins g (add_decl imp d dc) (add_decl imp r dc).
Proof.
  intros H. destruct dc as [f|specs| |]; cbn [add_decl]; try done; [by apply add_func_joins|].
  revert d r H. induction specs as [|ts specs IH]; intros d r H; [done|]. by apply IH, add_type_joins.
Qed.
Lemma add_file_joins g f : joins g (add_file (new_gen (isReactCore g)) f) (add_file g f).
Proof.
  unfold add_file. cbn [isReactCore new_gen]. destruct (FileGeneratedBy _ _); [apply joins_new|].
  case_match; [apply joins_new|]. generalize (default "" (find_import (file_imports f.2))). intros imp.
  assert (joins g (new_gen (isReactCore g)) g) as Hj by apply joins_new. revert Hj.
  generalize (new_gen (isReactCore g)) as d. generalize g at 2 4 as r.
  induction (file_decls f.2) as [|dc ds IH]; intros r d Hj; [done|]. by apply IH, add_decl_joins.
Qed.

(** ** What a package collects, file by file *)
Definition file_gen (core : bool) (f : string * ast_file) : gen := add_file (new_gen core) f.

Lemma fold_joins files g :
  let r := foldl add_file g files in
  (∀ n, n ∈ types r ↔ n ∈ types g ∨ ∃ f, f ∈ files ∧ n ∈ types (file_gen (isReactCore g) f)) ∧
  (∀ n, n ∈ components r ↔ n ∈ components g ∨ ∃ f, f ∈ files ∧ n ∈ components (file_gen (isReactCore g) f)) ∧
  (∀ t, meths r t = meths g t ++ (files ≫= λ f, meths (file_gen (isReactCore g) f) t)).
Proof.
  cbv zeta. revert g. induction files as [|f files IH]; intros g; cbn [foldl].
  { split_and!; intros n; [set_solver..|]. by rewrite app_nil_r. }
  destruct (IH (add_file g f)) as (Ht & Hc & Hm). destruct (add_file_joins g f) as [Ec Et Ep Em].
  unfold file_gen in *. rewrite Ec in *. split_and!.
  - intros n. rewrite Ht, Et, elem_of_union. setoid_rewrite elem_of_cons. naive_solver.
  - intros n. rewrite Hc, Ep, elem_of_union. setoid_rewrite elem_of_cons. naive_solver.
  - intros t. rewrite Hm, Em. cbn. by rewrite app_assoc.
Qed.

Section Perm.
Context (files files' : list (string * ast_file)) (core : bool) (Hperm : files ≡ₚ files').

Lemma collect_types_perm : types (collect core files) = types (collect core files').
Proof.
  apply set_eq. intros n. unfold collect.
  rewrite (proj1 (fold_joins files _)), (proj1 (fold_joins files' _)). by setoid_rewrite Hperm.
Qed.
Lemma collect_components_perm : components (collect core files) = components (collect core files').
Proof.
  apply set_eq. intros n. unfold collect.
  rewrite (proj1 (proj2 (fold_joins files _))), (proj1 (proj2 (fold_joins files' _))).
  by setoid_rewrite Hperm.
Qed.
Lemma collect_meths_perm t : meths (collect core files) t ≡ₚ meths (collect core files') t.
Proof.
  unfold collect. rewrite (proj2 (proj2 (fold_joins files _))), (proj2 (proj2 (fold_joins files' _))).
  by rewrite Hperm.
Qed.
End Perm.

(** ** What one component makes of it *)
Lemma bool_iff (a b : bool) P : (a = true ↔ P) → (b = true ↔ P) → a = b.
Proof. intros Ha Hb. destruct a, b; try done; [symmetry; apply Hb, Ha|apply Ha, Hb]; done. Qed.

Lemma has_equals_perm t ms ms' b b' :
  ms ≡ₚ ms' → has_equals t ms = Ok b → has_equals t ms' = Ok b' → b = b'.
Proof.
  intros Hp H H'. eapply bool_iff; [by apply has_equals_Ok|].
  rewrite (has_equals_Ok _ _ _ H'). by setoid_rewrite Hp.
Qed.
Lemma has_getInitialState_perm t ms ms' b b' :
  ms ≡ₚ ms' → has_getInitialState t ms = Ok b → has_getInitialState t ms' = Ok b' → b = b'.
Proof.
  intros Hp H H'. eapply bool_iff; [by apply has_getInitialState_Ok|].
  rewrite (has_getInitialState_Ok _ _ _ H'). by setoid_rewrite Hp.
Qed.
Lemma existsb_perm {A} (f : A → bool) l l' : l ≡ₚ l' → existsb f l = existsb f l'.
Proof.
  intros Hp. eapply bool_iff; [apply existsb_exists|]. rewrite existsb_exists.
  setoid_rewrite <-list_elem_of_In. by setoid_rewrite Hp.
Qed.

Lemma guarded_eq (c : bool) (x y : res bool) b b' :
  (∀ b b', x = Ok b → y = Ok b' → b = b') →
  (if c then x else Ok false) = Ok b → (if c then y else Ok false) = Ok b' → b = b'.
Proof. destruct c; [eauto|congruence]. Qed.

(** The same component, but for the order of its [Renders] methods. *)
Definition same_comp (a b : compGen) : Prop :=
  RendersMethods a ≡ₚ RendersMethods b ∧
  b = MkCompGen (Recv a) (Name a) (HasState a) (HasProps a) (HasGetInitState a)
        (HasComponentWillReceiveProps a) (PropsHasEquals a) (StateHasEquals a) (RendersSlice a)
        (RendersMethods b).

Lemma genComp_perm files files' d a b :
  files ≡ₚ files' → genComp (collect false files) d = Ok a → genComp (collect false files') d = Ok b →
  same_comp a b.
Proof.
  intros Hp. unfold genComp. rewrite !collect_core. cbv zeta.
  rewrite <-(collect_types_perm files files' false Hp).
  pose proof (collect_meths_perm files files' false Hp) as Hm.
  set (g := collect false files) in *. set (g' := collect false files') in *. clearbody g g'.
  intros (gis & Hg & (seq & Hs & (peq & Hq & [= <-])%bind_Ok)%bind_Ok)%bind_Ok.
  intros (gis' & Hg' & (seq' & Hs' & (peq' & Hq' & [= <-])%bind_Ok)%bind_Ok)%bind_Ok.
  assert (gis = gis') as <-
    by (eapply guarded_eq; [|exact Hg|exact Hg']; intros ? ?; by apply has_getInitialState_perm).
  assert (seq = seq') as <-
    by (eapply guarded_eq; [|exact Hs|exact Hs']; intros ? ?; by apply has_equals_perm).
  assert (peq = peq') as <-
    by (eapply guarded_eq; [|exact Hq|exact Hq']; intros ? ?; by apply has_equals_perm).
  split; cbn; [by rewrite (Hm d)|]. f_equal; [|by apply existsb_perm].
  by rewrite (existsb_perm _ _ _ (Hm d)).
Qed.

Lemma same_comp_eq a b : same_comp a b → length (RendersMethods a) ≤ 1 → a = b.
Proof.
  intros [Hp Hb] Hl. assert (RendersMethods a = RendersMethods b) as E.
  { destruct (RendersMethods a) as [|x [|]]; [symmetry; by apply Permutation_nil| |cbn in Hl; lia].
    symmetry. by apply Permutation_length_1_inv. }
  rewrite Hb, <-E. by destruct a.
Qed.

(** Every method [genComp] may look at the results of has results, and a component
    has at most one [Renders] method. *)
Definition orderly (g : gen) : Prop :=
  (∀ t m, m ∈ meths g t → fn_name m = equals ∨ fn_name m = getInitialState → has_results m) ∧
  ∀ t, length (omap renders_method (meths g t)) ≤ 1.

Lemma genComp_RendersMethods g d cg :
  genComp g d = Ok cg → RendersMethods cg = omap renders_method (meths g d).
Proof.
  unfold genComp. case_match; [done|]. cbv zeta.
  by intros (gis & Hg & (seq & Hs & (peq & Hq & [= <-])%bind_Ok)%bind_Ok)%bind_Ok.
Qed.
Lemma orderly_perm files files' :
  files ≡ₚ files' → orderly (collect false files) → orderly (collect false files').
Proof.
  intros Hp [H1 H2]. split.
  - intros t m. rewrite <-(collect_meths_perm files files' false Hp t). apply H1.
  - intros t. rewrite <-(collect_meths_perm files files' false Hp t). apply H2.
Qed.

Lemma comp_file_perm files files' d :
  files ≡ₚ files' → orderly (collect false files) →
  ∃ x, comp_file (collect false files) d = Ok x ∧ comp_file (collect false files') d = Ok x.
Proof.
  intros Hp Ho. pose proof (orderly_perm _ _ Hp Ho) as Ho'.
  destruct (genComp_total (collect false files) d) as [a Ha]; [apply collect_core|apply Ho|].
  destruct (genComp_total (collect false files') d) as [b Hb]; [apply collect_core|apply Ho'|].
  assert (a = b) as <-.
  { eapply same_comp_eq; [by eapply genComp_perm|]. rewrite (genComp_RendersMethods _ _ _ Ha). apply Ho. }
  unfold comp_file. rewrite Ha, Hb. cbn. eauto.
Qed.

Lemma dogen_total range_set files :
  orderly (collect false files) → ∃ out, dogen range_set false files = Ok out.
Proof.
  intros Ho. apply res_map_total, list.Forall_forall. intros d _.
  destruct (comp_file_perm files files d (reflexivity _) Ho) as (x & ? & _). eauto.
Qed.
Lemma dogen_perm range_set range_set' files files' out :
  (∀ X, range_set X ≡ₚ range_set' X) → files ≡ₚ files' → orderly (collect false files) →
  dogen range_set false files = Ok out → ∃ out', dogen range_set' false files' = Ok out' ∧ out ≡ₚ out'.
Proof.
  intros Hr Hp Ho. unfold dogen. rewrite <-(collect_components_perm files files' false Hp).
  intros (out' & Hout & Hpo)%(res_map_perm _ _ _ _ (Hr _)). exists out'. split; [|done].
  revert Hout. apply res_map_ext_Ok. intros d y _ Hy.
  destruct (comp_file_perm files files' d Hp Ho) as (x & Hx & Hx'). congruence.
Qed.

(** The generator does not fail and writes the same files, with the same
    declarations in the same order, in whatever order it ranges over the files of a
    package and over the components, as long as no component has two [Renders]
    methods and no [Equals] or [GetInitialState] lacks results. *)
Theorem reactGen_deterministic range_set range_set' files files' :
  (∀ X, range_set X ≡ₚ elements X) → (∀ X, range_set' X ≡ₚ elements X) →
  files ≡ₚ files' → orderly (collect false files) →
  ∃ out out', dogen range_set false files = Ok out ∧ dogen range_set' false files' = Ok out' ∧ out ≡ₚ out'.
Proof.
  intros Hr Hr' Hp Ho. destruct (dogen_total range_set files Ho) as [out Hout].
  destruct (dogen_perm range_set range_set' files files' out) as (out' & ? & ?); [|done..|eauto].
  intros X. by rewrite Hr, Hr'.
Qed.

(** [orderly], decided on the methods a package has. *)
Definition orderlyb (g : gen) : bool :=
  forallb (λ p, forallb (λ m, negb (str_eqb (fn_name m) equals || str_eqb (fn_name m) getInitialState)
                              || bool_decide (is_Some (fn_results m))) p.2 &&
                (length (omap renders_method p.2) <=? 1)%nat) (map_to_list (nonPointMeths g)).

Lemma orderlyb_orderly g : orderlyb g = true → orderly g.
Proof.
  unfold orderlyb. rewrite forallb_forall. intros H.
  assert (∀ t, meths g t = [] ∨ (t, meths g t) ∈ map_to_list (nonPointMeths g)) as Hm.
  { intros t. unfold meths. destruct (_ !! t) eqn:E; [right|by left]. by apply elem_of_map_to_list. }
  split; intros t; destruct (Hm t) as [->|Hin%list_elem_of_In%H%andb_true_iff]; cbn.
  - by intros m ?%elem_of_nil.
  - destruct Hin as [Hin _]. rewrite forallb_forall in Hin. intros m Hm'%list_elem_of_In%Hin Hn.
    unfold str_eqb in Hm'. rewrite orb_true_iff, negb_true_iff, orb_false_iff, !bool_decide_eq_false in Hm'.
    rewrite bool_decide_eq_true in Hm'. unfold has_results. tauto.
  - lia.
  - destruct Hin as [_ Hin]. by apply Nat.leb_le in Hin.
Qed.
