(* ===== verification/ReactVet.v ===== *)
(** * reactVet: the vet program

    Models [cmd/reactVet/react_vetter.go] and [reactVet.go] of
    [src/_vendor/src/myitcv.io/react]: the walk over the files that import
    [myitcv.io/react/jsx] ([vet_call], [walk]), the packages of a directory
    ([vetPackages]), and [vet], which makes the file names relative and sorts.

    [go/build], [go/parser] and [go/types] are parameters: [load] is what is on disk
    under an import path, [typecheck] the type checker. *)

From stdpp Require Import lexico sorting pretty.
From S2P Require Import Prelude GoLib GoAst CoreGen.

Definition jsxImportPath : string := "myitcv.io/react/jsx".
Definition jsxHTML : string := "HTML".
Definition jsxMarkdown : string := "Markdown".
Definition jsxHTMLElem : string := "HTMLElem".

(** [token.Position]; the offset is left out, the line and the column give it. *)
Record Position := MkPosition { Filename : string; Line : Z; Column : Z }.

(** The nodes of a file: what the walk looks at, everything else is [OtherNode] with
    its children in the order [ast.Walk] visits them. *)
Inductive node :=
  | IdentNode (pos : Position) (name : string)
  | SelectorNode (pos : Position) (x : node) (sel : string)
  | CallNode (pos : Position) (f : node) (args : list node)
  | OtherNode (pos : Position) (children : list node).

Definition node_Pos (n : node) : Position :=
  match n with
  | IdentNode p _ | SelectorNode p _ _ | CallNode p _ _ | OtherNode p _ => p
  end.

Record vet_file := MkVetFile { f_Imports : list ImportSpec; f_node : node }.

(** [types.TypeAndValue]: whether the type is [types.Typ[types.String]], and the value of
    a constant. *)
Record TypeAndValue := MkTV { tv_isString : bool; tv_Value : option string }.
Definition types_info : Type := node → option TypeAndValue.

Record vetErr := MkVetErr { pos : Position; msg : string }.

#[export] Instance Position_eq_dec : EqDecision Position.
Proof. solve_decision. Defined.
#[export] Instance vetErr_eq_dec : EqDecision vetErr.
Proof. solve_decision. Defined.

Definition vetErr_String (r : vetErr) : string :=
  Filename (pos r) +:+ ":" +:+ pretty (Line (pos r)) +:+ ":" +:+ pretty (Column (pos r)) +:+ ": " +:+ msg r.

Definition errorf (n : node) (m : string) : vetErr := MkVetErr (node_Pos n) m.
Definition not_constant : string := "argument must be a constant string".

(** A loop whose rounds append to one list. *)
Definition res_flat_map {A B} (f : A → res (list B)) (l : list A) : res (list B) :=
  rs ← res_map f l; Ok (concat rs).

(** ** jsxWalker *)
Definition is_constant (info : types_info) (a : node) : bool :=
  match info a with
  | Some tv => tv_isString tv && bool_decide (is_Some (tv_Value tv))
  | None => false
  end.
Definition is_jsx_func (sel : string) : bool :=
  str_eqb sel jsxHTML || str_eqb sel jsxHTMLElem || str_eqb sel jsxMarkdown.

(** [Visit] on a call of function [f]. *)
Definition vet_call (info : types_info) (name : string) (f : node) (args : list node) : res (list vetErr) :=
  match f with
  | SelectorNode _ (IdentNode _ i) sel =>
      if negb (str_eqb i name) then Ok []
      else if negb (is_jsx_func sel) then Panic (PanicMsg ("unknown jsx package method " +:+ sel))
      else match args with
           | [a] => if is_constant info a then Ok [] else Ok [errorf a not_constant]
           | _ => Panic (PanicMsg ("expected 1 arg; got " +:+ pretty (length args)))
           end
  | _ => Ok []
  end.

(** [ast.Walk]: a node before its children; the selector of a selector expression is an
    identifier, at which [Visit] does nothing. *)
Fixpoint walk (info : types_info) (name : string) (n : node) : res (list vetErr) :=
  match n with
  | IdentNode _ _ => Ok []
  | SelectorNode _ x _ => walk info name x
  | CallNode _ f args =>
      es ← vet_call info name f args;
      fs ← walk info name f;
      rs ← res_flat_map (walk info name) args;
      Ok (es ++ fs ++ rs)
  | OtherNode _ children => res_flat_map (walk info name) children
  end.

(** ** vetPackages *)

(** The names under which a file imports the package, one per import. *)
Definition jsx_name (i : ImportSpec) : option string :=
  if str_eqb (Strings.Trim (imp_path i) (String Strconv.dq "")) jsxImportPath then
    Some (match imp_name i with
          | Some n => if str_eqb n "_" then Filepath.Base jsxImportPath else n
          | None => Filepath.Base jsxImportPath
          end)
  else None.
Definition jsx_files (f : vet_file) : list (vet_file * string) :=
  map (λ n, (f, n)) (omap jsx_name (f_Imports f)).

Record build_package := MkPackage {
  ImportPath : string;
  pkgs : gmap string (gmap string vet_file)   (* package name, file name *)
}.

Section Vet.
Context (range_map : ∀ A : Type, gmap string A → list (string * A)).
Context (typecheck : string → list vet_file → res types_info).

Definition vet_package (path : string) (files : gmap string vet_file) : res (list vetErr) :=
  let fs := (range_map _ files).*2 in
  match fs ≫= jsx_files with
  | [] => Ok []
  | jsxFiles =>
      info ← typecheck path fs;
      res_flat_map (λ j, walk info j.2 (f_node j.1)) jsxFiles
  end.

Definition vetPackages (bpkg : build_package) : res (list vetErr) :=
  let pns := Sort.Strings (range_map _ (pkgs bpkg)).*1 in
  res_flat_map (λ n, vet_package (ImportPath bpkg) (default ∅ (pkgs bpkg !! n))) pns.
End Vet.

(** ** vet *)

(** [filepath.Rel] on Unix, element by element. *)
Definition path_elems (p : string) : list string := filter (λ e, e ≠ "") (Strings.Split p Filepath.slash).
Fixpoint strip_common (bs ts : list string) : list string * list string :=
  match bs, ts with
  | b :: bs', t :: ts' => if str_eqb b t then strip_common bs' ts' else (bs, ts)
  | _, _ => (bs, ts)
  end.
Definition Rel (basepath targpath : string) : option string :=
  let base := Filepath.Clean basepath in
  let targ := Filepath.Clean targpath in
  if str_eqb targ base then Some "."
  else
    let base := if str_eqb base "." then "" else base in
    if negb (bool_decide (Strings.HasPrefix base "/" = Strings.HasPrefix targ "/")) then None
    else
      match strip_common (path_elems base) (path_elems targ) with
      | (".." :: _, _ :: _) => None
      | (bs, ts) => Some (Strings.Join (map (λ _, "..") bs ++ ts) "/")
      end.

Definition make_rel (wd : string) (e : vetErr) : res vetErr :=
  match Rel wd (Filename (pos e)) with
  | None => Panic (PanicMsg "relative path error")
  | Some rel => Ok (MkVetErr (MkPosition rel (Line (pos e)) (Column (pos e))) (msg e))
  end.

(** The function given to [sort.Slice]. *)
Definition vet_less (a b : vetErr) : bool :=
  let l := pos a in let r := pos b in
  if negb (str_eqb (Filename l) (Filename r)) then Strings.ltb (Filename l) (Filename r)
  else if negb (Line l =? Line r)%Z then (Line l <? Line r)%Z
  else if negb (Column l =? Column r)%Z then (Column l <? Column r)%Z
  else Strings.ltb (msg a) (msg b).
Definition vet_le (a b : vetErr) : Prop := vet_less b a = false.
#[export] Instance vet_le_dec a b : Decision (vet_le a b).
Proof. unfold vet_le. apply _. Defined.

Definition vet range_map typecheck (load : string → res build_package) (wd : string) (specs : list string)
    : res (list vetErr) :=
  errs ← res_flat_map (λ spec, bpkg ← load spec; vetPackages range_map typecheck bpkg) specs;
  rels ← res_map (make_rel wd) errs;
  Ok (merge_sort vet_le rels).

(** ** What the walk reports *)

(** The calls of a node. *)
Fixpoint calls (n : node) : list (node * list node) :=
  match n with
  | IdentNode _ _ => []
  | SelectorNode _ x _ => calls x
  | CallNode _ f args => (f, args) :: calls f ++ concat (map calls args)
  | OtherNode _ children => concat (map calls children)
  end.
Definition jsx_call (name : string) (c : node * list node) : option (string * list node) :=
  match c.1 with
  | SelectorNode _ (IdentNode _ i) sel => if str_eqb i name then Some (sel, c.2) else None
  | _ => None
  end.

(** The calls that count: those of a selector on an identifier spelled [name].  The walker
    looks at the spelling only, not at what the identifier refers to. *)
Definition jsx_calls (name : string) (n : node) : list (string * list node) := omap (jsx_call name) (calls n).

Definition call_ok (c : string * list node) : Prop := is_jsx_func c.1 = true ∧ ∃ a, c.2 = [a].
Definition reports (info : types_info) (c : string * list node) : list vetErr :=
  match c.2 with
  | [a] => if is_constant info a then [] else [errorf a not_constant]
  | _ => []
  end.

Section node_induction.
Context (P : node → Prop) (Hi : ∀ p n, P (IdentNode p n)) (Hs : ∀ p x s, P x → P (SelectorNode p x s)).
Context (Hc : ∀ p f args, P f → Forall P args → P (CallNode p f args)).
Context (Ho : ∀ p cs, Forall P cs → P (OtherNode p cs)).
Fixpoint node_ind' (n : node) : P n :=
  let all := fix all (l : list node) : Forall P l :=
    match l with [] => List.Forall_nil P | x :: l => @List.Forall_cons _ P x l (node_ind' x) (all l) end in
  match n with
  | IdentNode p n => Hi p n
  | SelectorNode p x s => Hs p x s (node_ind' x)
  | CallNode p f args => Hc p f args (node_ind' f) (all args)
  | OtherNode p cs => Ho p cs (all cs)
  end.
End node_induction.

Lemma res_flat_map_Ok {A B} (f : A → res (list B)) l ys :
  res_flat_map f l = Ok ys ↔ ∃ rs, Forall2 (λ x r, f x = Ok r) l rs ∧ ys = concat rs.
Proof.
  unfold res_flat_map. rewrite bind_Ok. setoid_rewrite res_map_Forall2. split.
  - intros (rs & ? & [= <-]). eauto.
  - intros (rs & ? & ->). eauto.
Qed.

(** A loop that for every element checks [P] and appends [g]. *)
Lemma res_flat_map_spec {A B} (f : A → res (list B)) (P : A → Prop) (g : A → list B) l ys :
  Forall (λ x, ∀ r, f x = Ok r ↔ P x ∧ r = g x) l →
  res_flat_map f l = Ok ys ↔ Forall P l ∧ ys = concat (map g l).
Proof.
  intros H. rewrite res_flat_map_Ok. split.
  - intros (rs & Hrs & ->). revert H. induction Hrs as [|x r l rs Hx _ IH]; intros H; [by split|].
    apply Forall_cons_1 in H as [Hx' H]. apply Hx' in Hx as [HP ->].
    destruct (IH H) as [? E]. split; [by constructor|]. cbn. by rewrite E.
  - intros [HP ->]. exists (map g l). split; [|done]. induction HP as [|x l Hx _ IH]; cbn; [constructor|].
    apply Forall_cons_1 in H as [Hx' H]. constructor; [by apply Hx'|by apply IH].
Qed.

Lemma vet_call_spec info name f args errs :
  vet_call info name f args = Ok errs ↔
  Forall call_ok (option_list (jsx_call name (f, args))) ∧
  errs = concat (map (reports info) (option_list (jsx_call name (f, args)))).
Proof.
  unfold vet_call, jsx_call. cbn [fst snd].
  destruct f as [?|? [? i|?|?|?] sel|?|?]; cbn; try (split; [intros [= <-]; by split|by intros [_ ->]]).
  destruct (str_eqb i name); cbn; [|split; [intros [= <-]; by split|by intros [_ ->]]].
  rewrite app_nil_r. rewrite list.Forall_singleton. unfold call_ok, reports. cbn [fst snd].
  destruct (is_jsx_func sel); cbn; [|split; [done|by intros [[? _] _]]].
  destruct args as [|a [|]]; try (split; [done|by intros [(_ & ? & [=]) _]]).
  destruct (is_constant info a); (split; [intros [= <-]|intros [_ ->]]; eauto).
Qed.

Lemma walk_list_spec info name l ys :
  Forall (λ n, ∀ errs, walk info name n = Ok errs ↔
    Forall call_ok (jsx_calls name n) ∧ errs = concat (map (reports info) (jsx_calls name n))) l →
  res_flat_map (walk info name) l = Ok ys ↔
  Forall call_ok (omap (jsx_call name) (concat (map calls l))) ∧
  ys = concat (map (reports info) (omap (jsx_call name) (concat (map calls l)))).
Proof.
  intros H. rewrite (res_flat_map_spec _ _ _ _ _ H). clear H. revert ys.
  induction l as [|n l IH]; intros ys; cbn [map concat]; [split; (intros [_ ->]; split; [constructor|done])|].
  rewrite omap_app, map_app, concat_app, list.Forall_app, list.Forall_cons.
  specialize (IH (concat (map (λ n, concat (map (reports info) (jsx_calls name n))) l))).
  split.
  - intros [[Hn Hl] ->]. destruct (proj1 IH (conj Hl eq_refl)) as [? <-]. done.
  - intros [[Hn Hl] ->]. assert (Forall (λ x, Forall call_ok (jsx_calls name x)) l) as Hl'.
    { clear -Hl. induction l as [|n l IH]; [constructor|]. cbn [map concat] in Hl.
      rewrite omap_app, list.Forall_app in Hl. constructor; [apply Hl|apply IH, Hl]. }
    destruct (proj1 IH (conj Hl' eq_refl)) as [_ <-]. done.
Qed.

(** The walk succeeds when every call of the package is of a known function with one
    argument, and reports those whose argument is not a constant. *)
Lemma walk_spec info name n errs :
  walk info name n = Ok errs ↔
  Forall call_ok (jsx_calls name n) ∧ errs = concat (map (reports info) (jsx_calls name n)).
Proof.
  revert errs. induction n as [p i|p x s IH|p f args IHf IH|p cs IH] using node_ind'; intros errs.
  - cbn. split; [intros [= <-]; by split|by intros [_ ->]].
  - apply IH.
  - cbn [walk]. unfold jsx_calls in *. cbn [calls].
    rewrite !bind_Ok. setoid_rewrite bind_Ok. setoid_rewrite bind_Ok.
    setoid_rewrite vet_call_spec. setoid_rewrite IHf.
    setoid_rewrite (λ ys, walk_list_spec info name args ys IH).
    change ((f, args) :: calls f ++ concat (map calls args))
      with ([(f, args)] ++ calls f ++ concat (map calls args)).
    rewrite !omap_app, !map_app, !concat_app, !list.Forall_app.
    replace (omap (jsx_call name) [(f, args)]) with (option_list (jsx_call name (f, args)))
      by (cbn; by destruct (jsx_call name (f, args))).
    split.
    + intros (? & [? ->] & ? & [? ->] & ? & [? ->] & [= <-]). done.
    + intros [(? & ? & ?) ->]. eauto 10.
  - cbn [walk]. unfold jsx_calls. cbn [calls]. by apply walk_list_spec.
Qed.

(** ** The order of the errors *)

(** Strings in the order of [strings.Compare]. *)
#[export] Instance string_lexico : Lexico string := λ s t, String.ltb s t = true.

Lemma ltb_le s t : String.ltb s t = true ↔ Sort.le s t ∧ s ≠ t.
Proof.
  unfold Sort.le, String.ltb, String.leb. destruct (String.compare s t) eqn:E.
  - apply String.compare_eq_iff in E. subst. split; [done|by intros []].
  - split; [|done]. intros _. split; [done|]. intros ->.
    pose proof (String.compare_antisym t t) as Ht. by rewrite E in Ht.
  - split; [done|by intros []].
Qed.
#[export] Instance string_lexico_po : StrictOrder (@lexico string _).
Proof.
  split.
  - intros s [_ ?]%ltb_le. done.
  - intros s t u [H1 N1]%ltb_le [H2 N2]%ltb_le. apply ltb_le. split; [by apply (Sort.le_trans s t u)|].
    intros ->. by apply N1, Sort.le_antisym.
Qed.
#[export] Instance string_lexico_trichotomy : TrichotomyT (@lexico string _).
Proof.
  intros s t. destruct (String.compare s t) eqn:E.
  - left. right. by apply String.compare_eq_iff.
  - left. left. unfold lexico, string_lexico, String.ltb. by rewrite E.
  - right. unfold lexico, string_lexico, String.ltb. by rewrite String.compare_antisym, E.
Defined.

(** What [vet_less] compares, most significant first. *)
Definition vet_key (e : vetErr) : string * (Z * (Z * string)) :=
  (Filename (pos e), (Line (pos e), (Column (pos e), msg e))).

Lemma vet_key_inj a b : vet_key a = vet_key b → a = b.
Proof. destruct a as [[]], b as [[]]. cbn. by intros [= -> -> -> ->]. Qed.

Lemma vet_less_key a b : vet_less a b = true ↔ lexico (vet_key a) (vet_key b).
Proof.
  unfold vet_less, vet_key, str_eqb. unfold lexico, prod_lexico. cbn [fst snd].
  unfold lexico, prod_lexico, string_lexico, Z_lexico. cbn [fst snd].
  assert (∀ s, String.ltb s s ≠ true) as Hirr by (intros s [_ ?]%ltb_le; done).
  case_bool_decide as Hf; cbn [negb]; [|naive_solver]. rewrite Hf.
  destruct (Z.eqb_spec (Line (pos a)) (Line (pos b))) as [Hl|Hl]; cbn [negb].
  2: { rewrite Z.ltb_lt. naive_solver. }
  rewrite Hl. destruct (Z.eqb_spec (Column (pos a)) (Column (pos b))) as [Hc|Hc]; cbn [negb].
  2: { rewrite Z.ltb_lt. pose proof (Z.lt_irrefl (Line (pos b))). naive_solver. }
  rewrite Hc. pose proof (Z.lt_irrefl (Line (pos b))). pose proof (Z.lt_irrefl (Column (pos b))).
  naive_solver.
Qed.
Lemma vet_le_key a b : vet_le a b ↔ lexico (vet_key a) (vet_key b) ∨ a = b.
Proof.
  unfold vet_le. rewrite <-not_true_iff_false, vet_less_key.
  destruct (trichotomyT lexico (vet_key a) (vet_key b)) as [[H|H%vet_key_inj]|H].
  - split; [eauto|]. intros _ H'. by eapply (irreflexivity lexico (vet_key a)), transitivity.
  - subst. split; [eauto|]. intros _. apply (irreflexivity lexico).
  - split; [done|]. intros [H'| ->] _; [|by apply (irreflexivity lexico (vet_key b)) in H].
    by eapply (irreflexivity lexico (vet_key a)), transitivity.
Qed.

#[export] Instance vet_le_trans : Transitive vet_le.
Proof.
  intros a b c. rewrite !vet_le_key. intros [H1| ->] [H2| ->]; eauto. left. by trans (vet_key b).
Qed.
#[export] Instance vet_le_antisym : AntiSymm (=) vet_le.
Proof.
  intros a b. rewrite !vet_le_key. intros [H1| ->] [H2|?]; try done.
  exfalso. by eapply (irreflexivity lexico (vet_key a)), transitivity.
Qed.
#[export] Instance vet_le_total : Total vet_le.
Proof.
  intros a b. rewrite !vet_le_key.
  destruct (trichotomyT lexico (vet_key a) (vet_key b)) as [[H|H%vet_key_inj]|H]; eauto.
Qed.

(** ** Loops in another order *)
Lemma concat_perm {A} (rs rs' : list (list A)) : rs ≡ₚ rs' → concat rs ≡ₚ concat rs'.
Proof.
  induction 1 as [|x l l' _ IH|x y l|]; cbn; [done|by rewrite IH| |by etrans].
  rewrite !app_assoc. by rewrite (Permutation_app_comm x y).
Qed.
Lemma res_flat_map_perm {A B} (f : A → res (list B)) l l' ys :
  l ≡ₚ l' → res_flat_map f l = Ok ys → ∃ ys', res_flat_map f l' = Ok ys' ∧ ys ≡ₚ ys'.
Proof.
  intros Hp. unfold res_flat_map. intros (rs & Hrs & [= <-])%bind_Ok.
  destruct (res_map_perm _ _ _ _ Hp Hrs) as (rs' & -> & Hp'). cbn. eexists. split; [done|].
  by apply concat_perm.
Qed.
(** The same loop with rounds that return the same errors in another order. *)
Lemma res_flat_map_mono {A B} (f g : A → res (list B)) l ys :
  (∀ x r, x ∈ l → f x = Ok r → ∃ r', g x = Ok r' ∧ r ≡ₚ r') →
  res_flat_map f l = Ok ys → ∃ ys', res_flat_map g l = Ok ys' ∧ ys ≡ₚ ys'.
Proof.
  intros H (rs & Hrs & ->)%res_flat_map_Ok. setoid_rewrite res_flat_map_Ok.
  induction Hrs as [|x r l rs Hx _ IH]; [by exists []; split; [exists []|]|].
  destruct IH as (ys' & (rs' & Hrs' & ->) & Hp); [intros ? ? ?; apply H; by right|].
  destruct (H x r) as (r' & Hr' & Hp'); [by left|done|].
  exists (concat (r' :: rs')). split; [exists (r' :: rs'); split; [by constructor|done]|].
  cbn. by rewrite Hp', Hp.
Qed.
Lemma elem_of_concat {A} (y : A) rs : y ∈ concat rs ↔ ∃ r, r ∈ rs ∧ y ∈ r.
Proof.
  induction rs as [|r rs IH]; cbn.
  - split; [by intros ?%elem_of_nil|by intros (? & ?%elem_of_nil & _)].
  - rewrite elem_of_app, IH. setoid_rewrite elem_of_cons. naive_solver.
Qed.
Lemma elem_of_res_flat_map {A B} (f : A → res (list B)) l ys y :
  res_flat_map f l = Ok ys → y ∈ ys ↔ ∃ x r, x ∈ l ∧ f x = Ok r ∧ y ∈ r.
Proof.
  intros (rs & Hrs & ->)%res_flat_map_Ok. rewrite elem_of_concat. split.
  - intros (r & (i & Hi)%list_elem_of_lookup & Hy).
    destruct (Forall2_lookup_r _ _ _ _ _ Hrs Hi) as (x & Hx & Hf).
    exists x, r. split; [by eapply list_elem_of_lookup_2|done].
  - intros (x & r & (i & Hi)%list_elem_of_lookup & Hf & Hy).
    destruct (Forall2_lookup_l _ _ _ _ _ Hrs Hi) as (r' & Hr' & Hf').
    exists r'. split; [by eapply list_elem_of_lookup_2|]. congruence.
Qed.

Section Theorems.
Context (typecheck : string → list vet_file → res types_info).

(** What the type checker finds does not depend on the order of the files. *)
Definition order_free : Prop :=
  ∀ path fs fs' info, fs ≡ₚ fs' → typecheck path fs = Ok info → typecheck path fs' = Ok info.

Section Range.
Context (range_map : ∀ A : Type, gmap string A → list (string * A)) (Hr : Gen.range_ok range_map).

Lemma elem_of_range {A} (m : gmap string A) x : x ∈ (range_map A m).*2 ↔ ∃ k, m !! k = Some x.
Proof.
  rewrite list_elem_of_fmap. setoid_rewrite (Hr A m). split.
  - intros ([k y] & -> & ?%elem_of_map_to_list). eauto.
  - intros [k ?%elem_of_map_to_list]. exists (k, x). eauto.
Qed.

Lemma elem_of_range_keys {A} (m : gmap string A) k :
  k ∈ Sort.Strings (range_map A m).*1 ↔ is_Some (m !! k).
Proof.
  rewrite Sort.Strings_perm, (Hr _ m), list_elem_of_fmap. split.
  - intros ([k' y] & -> & ?%elem_of_map_to_list). eauto.
  - intros [y ?%elem_of_map_to_list]. exists (k, y). eauto.
Qed.

(** The errors of one package, without the test for files to walk: with none of them
    the type checker is not run. *)
Lemma elem_of_vet_package path files errs e :
  vet_package range_map typecheck path files = Ok errs →
  e ∈ errs ↔ ∃ info fn f nm sel a,
    typecheck path (range_map _ files).*2 = Ok info ∧ files !! fn = Some f ∧
    nm ∈ omap jsx_name (f_Imports f) ∧ (sel, [a]) ∈ jsx_calls nm (f_node f) ∧
    is_constant info a = false ∧ e = errorf a not_constant.
Proof.
  unfold vet_package.
  assert (∀ f nm, (f, nm) ∈ (range_map _ files).*2 ≫= jsx_files ↔
    (∃ fn, files !! fn = Some f) ∧ nm ∈ omap jsx_name (f_Imports f)) as Hj.
  { intros f nm. rewrite list_elem_of_bind. setoid_rewrite elem_of_range. unfold jsx_files.
    setoid_rewrite list_elem_of_fmap. split.
    - intros (f' & (n & [= <- <-] & ?) & ?). done.
    - intros [? ?]. exists f. eauto. }
  destruct ((range_map _ files).*2 ≫= jsx_files) as [|j js].
  - intros [= <-]. split; [by intros ?%elem_of_nil|]. intros (info & fn & f & nm & sel & a & _ & ? & ? & _).
    exfalso. apply (elem_of_nil (f, nm)), Hj. eauto.
  - intros (info & Hi & H)%bind_Ok. rewrite (elem_of_res_flat_map _ _ _ _ H). split.
    + intros ([f nm] & r & [[fn Hf] Hn]%Hj & [_ ->]%walk_spec & Hy). cbn [fst snd] in *.
      apply elem_of_concat in Hy as (rs & (c & -> & Hc)%list_elem_of_fmap & Hy).
      destruct c as [sel [|a [|]]]; unfold reports in Hy; cbn in Hy; try by apply elem_of_nil in Hy.
      destruct (is_constant info a) eqn:Ha; [by apply elem_of_nil in Hy|].
      apply list_elem_of_singleton in Hy as ->. exists info, fn, f, nm, sel, a. done.
    + intros (info' & fn & f & nm & sel & a & Hi' & Hf & Hn & Hc & Ha & ->).
      assert (info' = info) as -> by congruence. clear Hi'.
      assert ((f, nm) ∈ j :: js) as Hin by (apply Hj; eauto).
      apply res_flat_map_Ok in H as (rs & Hrs & _).
      apply list_elem_of_lookup in Hin as [i Hin].
      destruct (Forall2_lookup_l _ _ _ _ _ Hrs Hin) as (r & _ & Hw). pose proof Hw as [_ ->]%walk_spec.
      exists (f, nm), (concat (map (reports info) (jsx_calls nm (f_node f)))).
      split; [by eapply list_elem_of_lookup_2|]. split; [exact Hw|]. apply elem_of_concat.
      exists (reports info (sel, [a])). split; [by apply list_elem_of_fmap_2|].
      unfold reports. cbn. rewrite Ha. by apply list_elem_of_singleton.
Qed.

Lemma elem_of_vetPackages bpkg errs e :
  vetPackages range_map typecheck bpkg = Ok errs →
  e ∈ errs ↔ ∃ pn files r, pkgs bpkg !! pn = Some files ∧
    vet_package range_map typecheck (ImportPath bpkg) files = Ok r ∧ e ∈ r.
Proof.
  intros H. rewrite (elem_of_res_flat_map _ _ _ _ H). clear H. split.
  - intros (pn & r & [files Hf]%elem_of_range_keys & Hv & He). rewrite Hf in Hv. eauto 10.
  - intros (pn & files & r & Hf & Hv & He). exists pn, r. rewrite elem_of_range_keys, Hf. eauto.
Qed.
Lemma vetPackages_Ok bpkg errs pn files :
  vetPackages range_map typecheck bpkg = Ok errs → pkgs bpkg !! pn = Some files →
  ∃ r, vet_package range_map typecheck (ImportPath bpkg) files = Ok r.
Proof.
  intros (rs & Hrs & _)%res_flat_map_Ok Hf.
  assert (pn ∈ Sort.Strings (range_map _ (pkgs bpkg)).*1) as [i Hi]%list_elem_of_lookup.
  { by apply elem_of_range_keys. }
  destruct (Forall2_lookup_l _ _ _ _ _ Hrs Hi) as (r & _ & H). rewrite Hf in H. eauto.
Qed.
End Range.

(** C20: when the vet program ends, what it prints is sorted by file, line, column and
    message, and it is exactly the calls, in the files that import [myitcv.io/react/jsx], of
    a function selected from an identifier spelled like the name the file imports it as,
    whose argument is not a constant string.  (Nothing is selected from a dot import, so such
    a file has no such call; and a variable with the name of the import is taken for it.) *)
Theorem vet_reports range_map load wd specs errs :
  Gen.range_ok range_map → vet range_map typecheck load wd specs = Ok errs →
  Sorted vet_le errs ∧
  ∀ e, e ∈ errs ↔ ∃ spec bpkg pn files fn f nm info sel a,
    spec ∈ specs ∧ load spec = Ok bpkg ∧ pkgs bpkg !! pn = Some files ∧ files !! fn = Some f ∧
    typecheck (ImportPath bpkg) (range_map _ files).*2 = Ok info ∧
    nm ∈ omap jsx_name (f_Imports f) ∧ (sel, [a]) ∈ jsx_calls nm (f_node f) ∧
    is_constant info a = false ∧ make_rel wd (errorf a not_constant) = Ok e.
Proof.
  intros Hr (es & Hes & (rels & Hrels & [= <-])%bind_Ok)%bind_Ok.
  split; [apply Sorted_merge_sort, _|]. intros e. rewrite merge_sort_Permutation.
  apply res_map_Forall2 in Hrels.
  assert (e ∈ rels ↔ ∃ e0, e0 ∈ es ∧ make_rel wd e0 = Ok e) as ->.
  { split.
    - intros (i & Hi)%list_elem_of_lookup. destruct (Forall2_lookup_r _ _ _ _ _ Hrels Hi) as (e0 & ? & ?).
      exists e0. split; [by eapply list_elem_of_lookup_2|done].
    - intros (e0 & (i & Hi)%list_elem_of_lookup & Hm).
      destruct (Forall2_lookup_l _ _ _ _ _ Hrels Hi) as (e1 & He1 & ?).
      assert (e1 = e) as -> by congruence. by eapply list_elem_of_lookup_2. }
  setoid_rewrite (elem_of_res_flat_map _ _ _ _ Hes). split.
  - intros (e0 & (spec & r & Hs & (bpkg & Hl & Hv)%bind_Ok & He0) & Hm).
    apply (elem_of_vetPackages range_map Hr _ _ _ Hv) in He0 as (pn & files & r' & Hpn & Hvp & He0).
    apply (elem_of_vet_package range_map Hr _ _ _ _ Hvp) in He0
      as (info & fn & f & nm & sel & a & ? & ? & ? & ? & ? & ->).
    by exists spec, bpkg, pn, files, fn, f, nm, info, sel, a.
  - intros (spec & bpkg & pn & files & fn & f & nm & info & sel & a & Hs & Hl & Hpn & Hf & Hi & Hn & Hc & Ha & Hm).
    exists (errorf a not_constant). split; [|done].
    apply res_flat_map_Ok in Hes as (rs & Hrs & _).
    pose proof Hs as (i & Hsi)%list_elem_of_lookup.
    destruct (Forall2_lookup_l _ _ _ _ _ Hrs Hsi) as (r & _ & Hr').
    exists spec, r. split; [done|]. split; [done|]. rewrite Hl in Hr'. cbn in Hr'.
    apply (elem_of_vetPackages range_map Hr _ _ _ Hr').
    pose proof (vetPackages_Ok range_map Hr _ _ _ _ Hr' Hpn) as [r' Hr'']. exists pn, files, r'.
    split; [done|]. split; [done|]. apply (elem_of_vet_package range_map Hr _ _ _ _ Hr'').
    by exists info, fn, f, nm, sel, a.
Qed.

Section Orders.
Context (r r' : ∀ A : Type, gmap string A → list (string * A)).
Context (Hr : Gen.range_ok r) (Hr' : Gen.range_ok r') (Hfree : order_free).

Lemma vet_package_perm path files errs :
  vet_package r typecheck path files = Ok errs →
  ∃ errs', vet_package r' typecheck path files = Ok errs' ∧ errs ≡ₚ errs'.
Proof.
  unfold vet_package. assert ((r _ files).*2 ≡ₚ (r' _ files).*2) as Hp by by rewrite (Hr _ files), (Hr' _ files).
  assert ((r _ files).*2 ≫= jsx_files ≡ₚ (r' _ files).*2 ≫= jsx_files) as Hj by by rewrite Hp.
  destruct ((r _ files).*2 ≫= jsx_files) as [|j js] eqn:E.
  - intros [= <-]. apply Permutation_nil in Hj as ->. by exists [].
  - intros (info & Hi & H)%bind_Ok. rewrite (Hfree _ _ _ _ Hp Hi).
    destruct ((r' _ files).*2 ≫= jsx_files) as [|j' js']; [by apply Permutation_nil_r in Hj|].
    cbn [mbind res_bind]. by apply (res_flat_map_perm _ _ _ _ Hj).
Qed.
Lemma vetPackages_perm bpkg errs :
  vetPackages r typecheck bpkg = Ok errs →
  ∃ errs', vetPackages r' typecheck bpkg = Ok errs' ∧ errs ≡ₚ errs'.
Proof.
  unfold vetPackages. rewrite (Sort.Strings_unique (r' _ _).*1 (r _ (pkgs bpkg)).*1)
    by by rewrite (Hr _ (pkgs bpkg)), (Hr' _ (pkgs bpkg)).
  apply res_flat_map_mono. intros pn errs' _. apply vet_package_perm.
Qed.

(** The vet program prints the same errors in the same order, in whatever order the
    maps of packages and files are ranged over. *)
Theorem vet_deterministic load wd specs errs :
  vet r typecheck load wd specs = Ok errs → vet r' typecheck load wd specs = Ok errs.
Proof.
  unfold vet. intros (es & Hes & (rels & Hrels & [= <-])%bind_Ok)%bind_Ok.
  apply (res_flat_map_mono _ (λ spec, bpkg ← load spec; vetPackages r' typecheck bpkg)) in Hes
    as (es' & -> & Hp).
  2: { intros spec x _ (bpkg & Hl & Hx)%bind_Ok. rewrite Hl. by apply vetPackages_perm. }
  cbn [mbind res_bind]. destruct (res_map_perm _ _ _ _ Hp Hrels) as (rels' & -> & Hp').
  cbn [mbind res_bind]. f_equal. apply (Sorted_unique vet_le); [apply Sorted_merge_sort, _..|].
  by rewrite !merge_sort_Permutation.
Qed.
End Orders.
End Theorems.

(** ** Dot imports *)

(** The identifiers calls are selected from. *)
Fixpoint idents (n : node) : list string :=
  match n with
  | IdentNode _ i => [i]
  | SelectorNode _ x _ => idents x
  | CallNode _ f args => idents f ++ concat (map idents args)
  | OtherNode _ children => concat (map idents children)
  end.

Lemma no_jsx_calls name n : name ∉ idents n → jsx_calls name n = [].
Proof.
  assert (∀ l, Forall (λ n, (name ∉ idents n) → omap (jsx_call name) (calls n) = []) l →
    (name ∉ concat (map idents l)) → omap (jsx_call name) (concat (map calls l)) = []) as Hl.
  { induction 1 as [|x l Hx _ IH]; cbn [map concat]; [done|]. rewrite elem_of_app. intros H.
    rewrite omap_app, Hx, IH by tauto. done. }
  unfold jsx_calls. induction n as [p i|p x s IH|p f args IHf IH|p cs IH] using node_ind'; cbn [idents calls].
  - done.
  - done.
  - rewrite elem_of_app. intros H.
    change ((f, args) :: calls f ++ concat (map calls args))
      with ([(f, args)] ++ calls f ++ concat (map calls args)).
    rewrite !omap_app, IHf, Hl by tauto. rewrite !app_nil_r. unfold jsx_call. cbn [omap list_omap fst].
    destruct f as [?|? [? i|?|?|?] sel|?|?]; try done. unfold str_eqb. case_bool_decide; [|done].
    subst. cbn [idents] in H. set_solver.
  - by apply Hl.
Qed.

(** A file that imports the package as [.] is not vetted at all: no identifier is a
    dot, and its calls are not selected from one. *)
Theorem dot_import_not_vetted info imps n :
  omap jsx_name imps = ["."] → "." ∉ idents n →
  res_flat_map (λ j, walk info j.2 (f_node j.1)) (jsx_files (MkVetFile imps n)) = Ok [].
Proof.
  intros Hi Hn. unfold jsx_files. cbn [f_Imports]. rewrite Hi. cbn [map].
  assert (walk info "." n = Ok []) as Hw by (apply walk_spec; by rewrite no_jsx_calls).
  unfold res_flat_map. cbn [res_map fst snd f_node]. by rewrite Hw.
Qed.

(** ** The example of the tests *)
Definition at_ (l c : Z) : Position := MkPosition "/r/cmd/reactVet/_testFiles/example.go" l c.
Definition const_c (l c : Z) : node := IdentNode (at_ l c) "c".
Definition lit (l c : Z) : node := OtherNode (at_ l c) [].
Definition var_s (l c : Z) : node := IdentNode (at_ l c) "s".
Definition jsx_stmt (l : Z) (sel : string) (arg : node) : node :=
  OtherNode (at_ l 2) [IdentNode (at_ l 2) "_";
    CallNode (at_ l 6) (SelectorNode (at_ l 6) (IdentNode (at_ l 6) "jsx") sel) [arg]].
Definition example_go : vet_file := MkVetFile
  [MkImport None (String Strconv.dq (jsxImportPath +:+ String Strconv.dq ""))]
  (OtherNode (at_ 1 1) [
    jsx_stmt 14 "HTML" (const_c 14 15); jsx_stmt 15 "HTML" (lit 15 15); jsx_stmt 16 "HTML" (var_s 16 15);
    jsx_stmt 18 "HTMLElem" (const_c 18 19); jsx_stmt 19 "HTMLElem" (lit 19 19); jsx_stmt 20 "HTMLElem" (var_s 20 19);
    jsx_stmt 22 "Markdown" (const_c 22 19); jsx_stmt 23 "Markdown" (lit 23 19); jsx_stmt 24 "Markdown" (var_s 24 19)]).
Definition example_info : types_info := λ n,
  match n with
  | IdentNode _ x => Some (MkTV true (if str_eqb x "c" then Some "hello world" else None))
  | OtherNode _ [] => Some (MkTV true (Some "hello world"))
  | _ => None
  end.
Definition example_check (path : string) (fs : list vet_file) : res types_info := Ok example_info.
Definition example_load (spec : string) : res build_package :=
  Ok (MkPackage spec {["main" := {["example.go" := example_go]}]}).
Definition example_vet r : res (list vetErr) :=
  vet r example_check example_load "/r/cmd/reactVet" ["myitcv.io/react/cmd/reactVet/_testFiles"].
Definition example_errs : list vetErr :=
  map (λ p, MkVetErr (MkPosition "_testFiles/example.go" p.1 p.2) not_constant) [(16, 15); (20, 19); (24, 19)]%Z.

(** What the test expects. *)
Lemma example_vetted :
  example_vet Gen.some_order = Ok example_errs ∧
  map vetErr_String example_errs =
    ["_testFiles/example.go:16:15: argument must be a constant string";
     "_testFiles/example.go:20:19: argument must be a constant string";
     "_testFiles/example.go:24:19: argument must be a constant string"].
Proof. split; vm_compute; reflexivity. Qed.

Lemma vet_reports_witness :
  example_vet Gen.some_order = Ok example_errs ∧ Sorted vet_le example_errs.
Proof.
  split; [apply example_vetted|].
  apply (vet_reports example_check Gen.some_order example_load "/r/cmd/reactVet"
    ["myitcv.io/react/cmd/reactVet/_testFiles"]); [apply Gen.some_order_ok|apply example_vetted].
Defined.

Lemma vet_deterministic_witness : example_vet Gen.reverse_order = Ok example_errs.
Proof.
  apply (vet_deterministic example_check Gen.some_order Gen.reverse_order).
  - apply Gen.some_order_ok.
  - apply Gen.reverse_order_ok.
  - intros path fs fs' info _ H. exact H.
  - apply example_vetted.
Defined.
