(* ===== verification/HtmlNode.v ===== *)
(** * golang.org/x/net/html: trees of nodes

    The part of package [html] that [jsx] works on: [Node] and [RemoveChild] of
    [src/_vendor/src/golang.org/x/net/html/node.go].  Nodes are mutable and
    linked in every direction, so they live in a heap [dom].  [itree] is the
    tree such nodes stand for, with the address of each node; [linked] says that
    the pointers of the heap spell that tree out. *)

From S2P Require Import Prelude GoLib.

Inductive NodeType :=
  | ErrorNode | TextNode | DocumentNode | ElementNode | CommentNode | DoctypeNode | scopeMarkerNode.
#[export] Instance NodeType_eq_dec : EqDecision NodeType.
Proof. solve_decision. Defined.

Record Attribute := { attr_Namespace : string; Key : string; Val : string }.

(** The fields of a node that are not pointers. *)
Record ndata := MkData { Type_ : NodeType; DataAtom : N; Data : string; Namespace : string; Attr : list Attribute }.

Abbreviation nid := nat.

Record Node := MkNode {
  node_data : ndata;
  Parent : option nid;
  FirstChild : option nid;
  LastChild : option nid;
  PrevSibling : option nid;
  NextSibling : option nid;
}.

Abbreviation dom := (gmap nat Node).

(** Reading through a pointer, and assigning to a field through it. *)
Definition get (h : dom) (i : nid) : res Node := of_option NilDeref (h !! i).
Definition modify (f : Node → Node) (i : nid) (h : dom) : res dom :=
  n ← get h i; Ok (<[i := f n]> h).

Definition set_Parent (x : option nid) (n : Node) : Node :=
  MkNode (node_data n) x (FirstChild n) (LastChild n) (PrevSibling n) (NextSibling n).
Definition set_FirstChild (x : option nid) (n : Node) : Node :=
  MkNode (node_data n) (Parent n) x (LastChild n) (PrevSibling n) (NextSibling n).
Definition set_LastChild (x : option nid) (n : Node) : Node :=
  MkNode (node_data n) (Parent n) (FirstChild n) x (PrevSibling n) (NextSibling n).
Definition set_PrevSibling (x : option nid) (n : Node) : Node :=
  MkNode (node_data n) (Parent n) (FirstChild n) (LastChild n) x (NextSibling n).
Definition set_NextSibling (x : option nid) (n : Node) : Node :=
  MkNode (node_data n) (Parent n) (FirstChild n) (LastChild n) (PrevSibling n) x.

Definition RemoveChild (n c : nid) (h : dom) : res dom :=
  cn ← get h c;
  if bool_decide (Parent cn ≠ Some n) then
    Panic (PanicMsg "html: RemoveChild called for a non-child Node")
  else
    nn ← get h n;
    h ← (if bool_decide (FirstChild nn = Some c) then
           cn ← get h c; modify (set_FirstChild (NextSibling cn)) n h
         else Ok h);
    cn ← get h c;
    h ← match NextSibling cn with
        | Some s => modify (set_PrevSibling (PrevSibling cn)) s h
        | None => Ok h
        end;
    nn ← get h n;
    h ← (if bool_decide (LastChild nn = Some c) then
           cn ← get h c; modify (set_LastChild (PrevSibling cn)) n h
         else Ok h);
    cn ← get h c;
    h ← match PrevSibling cn with
        | Some p => modify (set_NextSibling (NextSibling cn)) p h
        | None => Ok h
        end;
    h ← modify (set_Parent None) c h;
    h ← modify (set_PrevSibling None) c h;
    modify (set_NextSibling None) c h.

(** ** The trees behind the pointers *)
#[local] Unset Elimination Schemes.
Inductive itree := INode (i : nid) (d : ndata) (ks : list itree).
#[local] Set Elimination Schemes.

Definition root (t : itree) : nid := let 'INode i _ _ := t in i.
Definition data (t : itree) : ndata := let 'INode _ d _ := t in d.
Definition kids (t : itree) : list itree := let 'INode _ _ ks := t in ks.

Lemma itree_ind (P : itree → Prop) :
  (∀ i d ks, Forall P ks → P (INode i d ks)) → ∀ t, P t.
Proof.
  intros H. fix IH 1. intros [i d ks]. apply H.
  induction ks as [|k ks IHks]; constructor; [apply IH|apply IHks].
Qed.

Fixpoint ids (t : itree) : list nid :=
  match t with INode i _ ks => i :: concat (map ids ks) end.
Abbreviation ids_of ts := (concat (map ids ts)).

(** The first address of a list of trees, and the last one. *)
Definition first_of (ts : list itree) (x : option nid) : option nid :=
  match ts with [] => x | t :: _ => Some (root t) end.
Fixpoint last_of (ts : list itree) (x : option nid) : option nid :=
  match ts with [] => x | t :: ts => last_of ts (Some (root t)) end.

Definition node_of (par prev next : option nid) (t : itree) : Node :=
  MkNode (data t) par (first_of (kids t) None) (last_of (kids t) None) prev next.

(** A row of trees between the siblings [prev] and [next], each of which satisfies
    [L] with its own siblings. *)
Definition row (L : option nid → option nid → itree → Prop) :
    option nid → option nid → list itree → Prop :=
  fix row prev next ks :=
    match ks with
    | [] => True
    | k :: ks => L prev (first_of ks next) k ∧ row (Some (root k)) next ks
    end.

(** [linked h par prev next t]: the heap [h] holds the tree [t], whose root has
    these parent and siblings. *)
Fixpoint linked (h : dom) (par prev next : option nid) (t : itree) : Prop :=
  match t with
  | INode i d ks => h !! i = Some (node_of par prev next t) ∧
                    row (linked h (Some i)) None None ks
  end.

Definition siblings (h : dom) (par : option nid) : option nid → option nid → list itree → Prop :=
  row (linked h par).

Lemma linked_eq h par prev next t :
  linked h par prev next t ↔
  h !! root t = Some (node_of par prev next t) ∧ siblings h (Some (root t)) None None (kids t).
Proof. by destruct t. Qed.

Lemma siblings_app h par prev next l1 l2 :
  siblings h par prev next (l1 ++ l2) ↔
  siblings h par prev (first_of l2 next) l1 ∧ siblings h par (last_of l1 prev) next l2.
Proof.
  revert prev; induction l1 as [|k l1 IH]; intros prev; simpl; [naive_solver|].
  rewrite (IH (Some (root k))). destruct l1; simpl; tauto.
Qed.

Lemma last_of_app l t x : last_of (l ++ [t]) x = Some (root t).
Proof. revert x; induction l as [|k l IH]; intros x; simpl; [done|apply IH]. Qed.

Lemma root_ids t : root t ∈ ids t.
Proof. destruct t. left. Qed.

(** *** What a tree does not depend on *)
Definition agree (h h' : dom) (l : list nid) : Prop := ∀ i, i ∈ l → h' !! i = h !! i.

Lemma agree_sub h h' l l' : (∀ i, i ∈ l' → i ∈ l) → agree h h' l → agree h h' l'.
Proof. intros Hs H i Hi. by apply H, Hs. Qed.

Lemma linked_agree h h' par prev next t :
  agree h h' (ids t) → linked h par prev next t → linked h' par prev next t.
Proof.
  revert par prev next; induction t as [i d ks IH] using itree_ind; intros par prev next Hag.
  rewrite !linked_eq. intros [Hi Hks]. simpl in *. split.
  { rewrite Hag; [done|left]. }
  assert (Hag' : agree h h' (ids_of ks)) by (intros j Hj; apply Hag; by right).
  clear Hag Hi. revert Hag' Hks. generalize (@None nid) at 1 3 as p. unfold siblings.
  induction IH as [|k ks Hk _ IHks]; intros p Hag; simpl; [done|].
  intros [H1 H2]. split.
  - apply Hk; [|done]. eapply agree_sub; [|exact Hag]. intros j Hj. simpl. set_solver.
  - apply IHks; [|done]. eapply agree_sub; [|exact Hag]. intros j Hj. simpl. set_solver.
Qed.

Lemma siblings_agree h h' par prev next ks :
  agree h h' (ids_of ks) → siblings h par prev next ks → siblings h' par prev next ks.
Proof.
  revert prev; induction ks as [|k ks IH]; intros prev Hag; simpl in *; [done|].
  intros [H1 H2]. split.
  - eapply linked_agree; [|done]. eapply agree_sub; [|exact Hag]. set_solver.
  - apply IH; [|done]. eapply agree_sub; [|exact Hag]. set_solver.
Qed.

(** ** RemoveChild on a tree *)
Lemma get_Some h i n : h !! i = Some n → get h i = Ok n.
Proof. unfold get. by intros ->. Qed.

(** Reading the nodes behind updates at other addresses. *)
Ltac dom_step :=
  repeat (first
    [ progress simpl
    | rewrite lookup_insert_eq
    | rewrite lookup_insert_ne by congruence
    | match goal with H : ?h !! ?i = Some _ |- context [?h !! ?i] => rewrite H end ]).

Lemma RemoveChild_ptr h v c nv nc :
  h !! v = Some nv → h !! c = Some nc → v ≠ c → Parent nc = Some v →
  (∀ s, NextSibling nc = Some s → is_Some (h !! s) ∧ s ≠ v ∧ s ≠ c) →
  (∀ p, PrevSibling nc = Some p → is_Some (h !! p) ∧ p ≠ v ∧ p ≠ c ∧ NextSibling nc ≠ Some p) →
  ∃ h', RemoveChild v c h = Ok h' ∧ ∀ i, h' !! i =
    if decide (i = v) then
      Some (MkNode (node_data nv) (Parent nv)
        (if decide (FirstChild nv = Some c) then NextSibling nc else FirstChild nv)
        (if decide (LastChild nv = Some c) then PrevSibling nc else LastChild nv)
        (PrevSibling nv) (NextSibling nv))
    else if decide (i = c) then
      Some (MkNode (node_data nc) None (FirstChild nc) (LastChild nc) None None)
    else if decide (Some i = NextSibling nc) then set_PrevSibling (PrevSibling nc) <$> h !! i
    else if decide (Some i = PrevSibling nc) then set_NextSibling (NextSibling nc) <$> h !! i
    else h !! i.
Proof.
  intros Hv Hc Hvc Hpar Hnext Hprev. unfold RemoveChild, modify.
  destruct nv as [dv pv fv lv sv nv], nc as [dc pc fc lc sc nc]. simpl in *. subst pc.
  rewrite (get_Some _ _ _ Hc). simpl. rewrite bool_decide_eq_false_2 by naive_solver.
  rewrite (get_Some _ _ _ Hv). simpl.
  destruct nc as [s|].
  1: destruct (Hnext s eq_refl) as ([ns Hs] & Hsv & Hsc).
  all: destruct sc as [p|].
  1,3: destruct (Hprev p eq_refl) as ([np Hp] & Hpv & Hpc & Hps).
  all: destruct (bool_decide_reflect (fv = Some c)), (decide (fv = Some c)); try done.
  all: unfold get; dom_step.
  all: destruct (bool_decide_reflect (lv = Some c)), (decide (lv = Some c)); try done.
  all: dom_step.
  all: eexists; split; [done|]; intros i.
  all: destruct (decide (i = v)) as [->|Hiv]; [by dom_step|].
  all: destruct (decide (i = c)) as [->|Hic]; [by dom_step|].
  all: repeat case_decide; simplify_eq; by dom_step.
Qed.

Lemma last_of_app2 l1 l2 x : last_of (l1 ++ l2) x = last_of l2 (last_of l1 x).
Proof. revert x; induction l1 as [|k l1 IH]; intros x; simpl; [done|apply IH]. Qed.
Lemma last_of_in l x : l = [] ∧ last_of l x = x ∨ ∃ l' t, l = l' ++ [t] ∧ last_of l x = Some (root t).
Proof.
  destruct l as [|t l _] using rev_ind; [by left|]. right. exists l, t. by rewrite last_of_app.
Qed.

Lemma linked_change h h' par prev next par' prev' next' t :
  h' !! root t = Some (node_of par' prev' next' t) → agree h h' (ids_of (kids t)) →
  linked h par prev next t → linked h' par' prev' next' t.
Proof. rewrite !linked_eq. intros Ht Hag [_ Hks]. split; [done|]. by eapply siblings_agree. Qed.

Lemma ids_kids t : ids t = root t :: ids_of (kids t).
Proof. by destruct t. Qed.

Lemma ids_of_app l1 l2 : ids_of (l1 ++ l2) = ids_of l1 ++ ids_of l2.
Proof. by rewrite map_app, concat_app. Qed.

(** Redirecting the last of a row of siblings to another next sibling. *)
Lemma siblings_set_next h h' par prev next next' l :
  NoDup (ids_of l) → siblings h par prev next l →
  (∀ i, i ∈ ids_of l → h' !! i = if decide (Some i = last_of l None)
                                 then set_NextSibling next' <$> h !! i else h !! i) →
  siblings h' par prev next' l.
Proof.
  destruct (last_of_in l None) as [[-> _]|(l' & t & -> & ->)]; [done|].
  rewrite ids_of_app. simpl. rewrite app_nil_r, ids_kids. intros Hnd Hl Hh'.
  apply list.NoDup_app in Hnd as (Hnd1 & Hdis & Hnd2).
  apply siblings_app in Hl as [Hl [Ht _]]. apply siblings_app. split; [|split; [|done]].
  - eapply siblings_agree; [|exact Hl]. intros i Hi. rewrite Hh' by set_solver.
    rewrite decide_False; [done|]. intros [= ->]. apply (Hdis _ Hi). left.
  - eapply linked_change; [| |exact Ht].
    + rewrite Hh' by set_solver. rewrite decide_True by done.
      apply linked_eq in Ht as [-> _]. done.
    + intros i Hi. rewrite Hh' by set_solver. rewrite decide_False; [done|].
      intros [= ->]. by apply NoDup_cons_1_1 in Hnd2.
Qed.

(** Redirecting the first of a row of siblings to another previous sibling. *)
Lemma siblings_set_prev h h' par prev prev' next l :
  NoDup (ids_of l) → siblings h par prev next l →
  (∀ i, i ∈ ids_of l → h' !! i = if decide (Some i = first_of l None)
                                 then set_PrevSibling prev' <$> h !! i else h !! i) →
  siblings h' par prev' next l.
Proof.
  destruct l as [|t l]; [done|]. simpl. rewrite ids_kids. intros Hnd [Ht Hl] Hh'.
  apply list.NoDup_app in Hnd as (Hnd1 & Hdis & Hnd2). split.
  - eapply linked_change; [| |exact Ht].
    + rewrite Hh' by set_solver. rewrite decide_True by done.
      apply linked_eq in Ht as [-> _]. done.
    + intros i Hi. rewrite Hh' by set_solver. rewrite decide_False; [done|].
      intros [= ->]. by apply NoDup_cons_1_1 in Hnd1.
  - eapply siblings_agree; [|exact Hl]. intros i Hi. rewrite Hh' by set_solver.
    rewrite decide_False; [done|]. intros [= ->]. apply (Hdis (root t)); [left|done].
Qed.

Lemma first_of_in l i : first_of l None = Some i → i ∈ ids_of l.
Proof.
  destruct l as [|t l]; simpl; [done|]. intros [= <-].
  apply elem_of_app. left. apply root_ids.
Qed.
Lemma last_of_in_ids l i : last_of l None = Some i → i ∈ ids_of l.
Proof.
  destruct (last_of_in l None) as [[-> ->]|(l' & t & -> & ->)]; [done|]. intros [= <-].
  rewrite ids_of_app. apply elem_of_app. right. simpl. rewrite app_nil_r. apply root_ids.
Qed.

(** Every address of a tree is allocated. *)
Lemma linked_dom h par prev next t i :
  linked h par prev next t → i ∈ ids t → is_Some (h !! i).
Proof.
  revert par prev next. induction t as [v d ks IH] using itree_ind. intros par prev next.
  rewrite linked_eq. simpl. intros [Hv Hks] [->|Hi]%elem_of_cons; [by eexists|].
  clear Hv. revert Hks Hi. generalize (@None nid) at 1 as p.
  induction IH as [|k ks Hk _ IHks]; intros p; simpl; [by intros _ ?%elem_of_nil|].
  intros [H1 H2] [Hi|Hi]%elem_of_app; [exact (Hk _ _ _ H1 Hi)|exact (IHks _ H2 Hi)].
Qed.
Lemma siblings_dom h par prev next ks i :
  siblings h par prev next ks → i ∈ ids_of ks → is_Some (h !! i).
Proof.
  revert prev; induction ks as [|k ks IH]; intros prev; simpl; [by intros _ ?%elem_of_nil|].
  intros [H1 H2] [Hi|Hi]%elem_of_app; [by eapply linked_dom|by eapply IH].
Qed.

(** The addresses of a node, of the children before [w], of [w] and of the
    children after it are all different. *)
Lemma ids_apart v d pre w post :
  NoDup (ids (INode v d (pre ++ w :: post))) →
  NoDup (ids_of pre) ∧ NoDup (ids w) ∧ NoDup (ids_of post) ∧
  (∀ i, i ∈ ids_of pre → i ≠ v ∧ (i ∉ ids w) ∧ (i ∉ ids_of post)) ∧
  (∀ i, i ∈ ids w → i ≠ v ∧ (i ∉ ids_of pre) ∧ (i ∉ ids_of post)) ∧
  (∀ i, i ∈ ids_of post → i ≠ v ∧ (i ∉ ids_of pre) ∧ (i ∉ ids w)).
Proof.
  simpl. rewrite ids_of_app. simpl. rewrite list.NoDup_cons, !list.NoDup_app, !not_elem_of_app.
  setoid_rewrite not_elem_of_app. intros ((Hv1 & Hv2 & Hv3) & Hn1 & Hd1 & Hn2 & Hd2 & Hn3).
  split_and!; try done; intros i Hi; split_and!; try (intros ->; done); try (by apply Hd1);
    try (by apply Hd2); intros Hi'; naive_solver.
Qed.

(** [RemoveChild] takes a child out of its tree and leaves it on its own. *)
Lemma RemoveChild_run h par prev next v d pre w post :
  linked h par prev next (INode v d (pre ++ w :: post)) →
  NoDup (ids (INode v d (pre ++ w :: post))) →
  ∃ h', RemoveChild v (root w) h = Ok h' ∧
    linked h' par prev next (INode v d (pre ++ post)) ∧ linked h' None None None w ∧
    (∀ i, i ∉ ids (INode v d (pre ++ w :: post)) → h' !! i = h !! i).
Proof.
  rewrite (linked_eq h). simpl root. simpl kids. intros [Hv Hks] Hnd.
  apply siblings_app in Hks as [Hpre [Hw Hpost]]. pose proof Hw as Hw0.
  apply linked_eq in Hw as [Hw _].
  apply ids_apart in Hnd as (Hn1 & Hn2 & Hn3 & Dpre & Dw & Dpost).
  pose proof (Dw _ (root_ids w)) as (Hwv & Hwpre & Hwpost).
  destruct (RemoveChild_ptr h v (root w) _ _ Hv Hw) as (h' & Hrun & Hh').
  { done. }
  { done. }
  { intros s Hs%first_of_in. destruct (Dpost s Hs) as (? & ? & Hsw).
    split_and!; [exact (siblings_dom _ _ _ _ _ _ Hpost Hs)|done|].
    intros ->. by apply Hsw, root_ids. }
  { intros p Hp%last_of_in_ids. destruct (Dpre p Hp) as (? & Hpw & ?).
    split_and!; [exact (siblings_dom _ _ _ _ _ _ Hpre Hp)|done| |].
    - intros ->. by apply Hpw, root_ids.
    - by intros Hs%first_of_in. }
  simpl in Hh'. exists h'. split; [done|]. split_and!.
  - apply linked_eq. simpl. split.
    + rewrite Hh', decide_True by done. unfold node_of. simpl. do 2 f_equal.
      * destruct pre as [|k pre]; simpl; [by rewrite decide_True|].
        rewrite decide_False; [done|]. intros [= Hk]. apply Hwpre. rewrite <-Hk.
        apply (first_of_in (k :: pre)). done.
      * rewrite !last_of_app2. simpl. destruct (last_of_in post (Some (root w)))
          as [[-> ->]|(post' & t & -> & ->)]; [by rewrite decide_True|].
        rewrite last_of_app, decide_False; [done|]. intros [= Ht]. apply Hwpost. rewrite <-Ht.
        apply last_of_in_ids, last_of_app.
    + apply siblings_app. split.
      * eapply siblings_set_next; [done|exact Hpre|]. intros i Hi.
        destruct (Dpre i Hi) as (Hiv & Hiw & Hip).
        rewrite Hh', decide_False, decide_False by (done || intros ->; by apply Hiw, root_ids).
        rewrite decide_False; [done|]. intros Hs. by apply Hip, first_of_in.
      * eapply siblings_set_prev; [done|exact Hpost|]. intros i Hi.
        destruct (Dpost i Hi) as (Hiv & Hip & Hiw).
        rewrite Hh', decide_False, decide_False by (done || intros ->; by apply Hiw, root_ids).
        destruct (decide (Some i = last_of pre None)); [exfalso; by apply Hip, last_of_in_ids|].
        done.
  - eapply linked_change; [| |exact Hw0].
    + rewrite Hh', decide_False, decide_True by done. done.
    + intros i Hi. rewrite ids_kids in Hn2, Dw.
      destruct (Dw i) as (Hiv & Hip & Hipo); [by right|]. rewrite Hh', decide_False by done.
      rewrite decide_False by (intros ->; by apply NoDup_cons_1_1 in Hn2).
      rewrite decide_False by (intros Hs; by apply Hipo, first_of_in).
      rewrite decide_False by (intros Hs; by apply Hip, last_of_in_ids). done.
  - intros i Hi. simpl in Hi. rewrite ids_of_app in Hi. simpl in Hi.
    rewrite not_elem_of_cons, !not_elem_of_app in Hi. destruct Hi as (Hiv & Hipre & Hiw & Hipo).
    rewrite Hh', decide_False by done. rewrite decide_False by (intros ->; by apply Hiw, root_ids).
    rewrite decide_False by (intros Hs; by apply Hipo, first_of_in).
    rewrite decide_False by (intros Hs; by apply Hipre, last_of_in_ids). done.
Qed.
