(* ===== verification/HtmlNodeOps.v ===== *)
(** * golang.org/x/net/html: the operations on nodes

    The rest of [src/_vendor/src/golang.org/x/net/html/node.go]: [InsertBefore],
    [AppendChild], [reparentChildren] and [clone] on the heap of [HtmlNode], and the
    stack of nodes of the parser.  A stack is a list of pointers, its top at the end. *)

From S2P Require Import Prelude GoLib HtmlNode.

Definition detached (n : Node) : bool :=
  bool_decide (Parent n = None ∧ PrevSibling n = None ∧ NextSibling n = None).

Definition InsertBefore (n newChild : nid) (oldChild : option nid) (h : dom) : res dom :=
  c ← get h newChild;
  if negb (detached c) then Panic (PanicMsg "html: InsertBefore called for an attached child Node")
  else
    '(prev, next) ← match oldChild with
                    | Some o => on ← get h o; Ok (PrevSibling on, Some o)
                    | None => nn ← get h n; Ok (LastChild nn, None)
                    end;
    h ← match prev with
        | Some p => modify (set_NextSibling (Some newChild)) p h
        | None => modify (set_FirstChild (Some newChild)) n h
        end;
    h ← match next with
        | Some x => modify (set_PrevSibling (Some newChild)) x h
        | None => modify (set_LastChild (Some newChild)) n h
        end;
    h ← modify (set_Parent (Some n)) newChild h;
    h ← modify (set_PrevSibling prev) newChild h;
    modify (set_NextSibling next) newChild h.

Definition AppendChild (n c : nid) (h : dom) : res dom :=
  cn ← get h c;
  if negb (detached cn) then Panic (PanicMsg "html: AppendChild called for an attached child Node")
  else
    nn ← get h n;
    let last := LastChild nn in
    h ← match last with
        | Some l => modify (set_NextSibling (Some c)) l h
        | None => modify (set_FirstChild (Some c)) n h
        end;
    h ← modify (set_LastChild (Some c)) n h;
    h ← modify (set_Parent (Some n)) c h;
    modify (set_PrevSibling last) c h.

(** The loop, with fuel for its rounds. *)
Fixpoint reparentChildren (fuel : nat) (dst src : nid) (h : dom) : res dom :=
  match fuel with
  | O => Panic OutOfFuel
  | S fuel =>
      s ← get h src;
      match FirstChild s with
      | None => Ok h
      | Some child =>
          h ← RemoveChild src child h;
          h ← AppendChild dst child h;
          reparentChildren fuel dst src h
      end
  end.

(** The new node; its namespace is empty. *)
Definition clone (n : nid) (h : dom) : res (nid * dom) :=
  nn ← get h n;
  let d := node_data nn in
  let m := fresh (base.dom h : gset nid) in
  Ok (m, <[m := MkNode (MkData (Type_ d) (DataAtom d) (Data d) "" (Attr d)) None None None None None]> h).

(** ** nodeStack *)
Abbreviation nodeStack := (list ptr).

Definition pop (s : nodeStack) : res (ptr * nodeStack) :=
  let i := Z.of_nat (length s) in
  n ← go_index s (i - 1);
  Ok (n, take (length s - 1) s).
Definition top (s : nodeStack) : res ptr :=
  let i := Z.of_nat (length s) in
  if (0 <? i)%Z then go_index s (i - 1) else Ok None.

(** The loop of [index], from [k - 1] down. *)
Fixpoint index_from (s : nodeStack) (n : ptr) (k : nat) : Z :=
  match k with
  | O => -1
  | S k => if bool_decide (s !! k = Some n) then Z.of_nat k else index_from s n k
  end.
Definition index (s : nodeStack) (n : ptr) : Z := index_from s n (length s).

(** [a] is the number of an atom. *)
Fixpoint contains (s : nodeStack) (a : N) (h : dom) : res bool :=
  match s with
  | [] => Ok false
  | n :: s =>
      n ← of_option NilDeref n;
      nn ← get h n;
      if bool_decide (DataAtom (node_data nn) = a) then Ok true else contains s a h
  end.

(** [copy(l[d:], src)] *)
Definition go_copy {A} (l : list A) (d : nat) (src : list A) : list A :=
  let k := (length l - d) `min` length src in
  take d l ++ take k src ++ drop (d + k) l.
(** [l[i:]] *)
Definition go_from {A} (l : list A) (i : Z) : res (list A) :=
  if ((0 <=? i) && (i <=? Z.of_nat (length l)))%Z then Ok (drop (Z.to_nat i) l)
  else Panic IndexOutOfRange.

Definition insert (s : nodeStack) (i : Z) (n : ptr) : res nodeStack :=
  let s := s ++ [None] in
  _ ← go_from s (i + 1);
  src ← go_from s i;
  let s := go_copy s (Z.to_nat (i + 1)) src in
  go_update s i n.
Definition remove (s : nodeStack) (n : ptr) : res nodeStack :=
  let i := index s n in
  if (i =? -1)%Z then Ok s
  else
    _ ← go_from s i;
    src ← go_from s (i + 1);
    let s := go_copy s (Z.to_nat i) src in
    let j := (Z.of_nat (length s) - 1)%Z in
    s ← go_update s j None;
    Ok (take (Z.to_nat j) s).

(** ** Inserting into a tree *)
Lemma InsertBefore_ptr h v c old nv nc prev next :
  h !! v = Some nv → h !! c = Some nc → v ≠ c → detached nc = true →
  match old with
  | Some o => ∃ no, h !! o = Some no ∧ prev = PrevSibling no ∧ next = Some o ∧ o ≠ v ∧ o ≠ c
  | None => prev = LastChild nv ∧ next = None
  end →
  (∀ p, prev = Some p → is_Some (h !! p) ∧ p ≠ v ∧ p ≠ c ∧ next ≠ Some p) →
  ∃ h', InsertBefore v c old h = Ok h' ∧ ∀ i, h' !! i =
    if decide (i = v) then
      Some (MkNode (node_data nv) (Parent nv)
        (match prev with None => Some c | _ => FirstChild nv end)
        (match next with None => Some c | _ => LastChild nv end) (PrevSibling nv) (NextSibling nv))
    else if decide (i = c) then Some (MkNode (node_data nc) (Some v) (FirstChild nc) (LastChild nc) prev next)
    else if decide (Some i = prev) then set_NextSibling (Some c) <$> h !! i
    else if decide (Some i = next) then set_PrevSibling (Some c) <$> h !! i
    else h !! i.
Proof.
  intros Hv Hc Hvc Hdet Hold Hprev. unfold InsertBefore, modify.
  rewrite (get_Some _ _ _ Hc). cbn [mbind res_bind]. rewrite Hdet. cbn [negb].
  destruct nv as [dv pv fv lv sv nv], nc as [dc pc fc lc sc nc]. cbn in Hold.
  destruct old as [o|].
  - destruct Hold as (no & Ho & -> & -> & Hov & Hoc). rewrite (get_Some _ _ _ Ho). cbn [mbind res_bind].
    destruct no as [do po fo lo so no]. cbn [PrevSibling] in *. destruct so as [p|].
    1: destruct (Hprev p eq_refl) as ([np Hp] & Hpv & Hpc & Hpn).
    all: unfold get; dom_step.
    all: eexists; split; [done|]; intros i.
    all: destruct (decide (i = v)) as [->|Hiv]; [by dom_step|].
    all: destruct (decide (i = c)) as [->|Hic]; [by dom_step|].
    all: repeat case_decide; simplify_eq; by dom_step.
  - destruct Hold as [-> ->]. rewrite (get_Some _ _ _ Hv). cbn [mbind res_bind LastChild]. destruct lv as [p|].
    1: destruct (Hprev p eq_refl) as ([np Hp] & Hpv & Hpc & Hpn).
    all: unfold get; dom_step.
    all: eexists; split; [done|]; intros i.
    all: destruct (decide (i = v)) as [->|Hiv]; [by dom_step|].
    all: destruct (decide (i = c)) as [->|Hic]; [by dom_step|].
    all: repeat case_decide; simplify_eq; by dom_step.
Qed.

(** The heap determines, and is determined by, the tree in it. *)
Lemma linked_unique h h' par prev next t :
  linked h par prev next t → linked h' par prev next t → agree h h' (ids t).
Proof.
  revert par prev next. induction t as [v d ks IH] using itree_ind. intros par prev next.
  rewrite !linked_eq. cbn [root kids ids]. intros [Hv Hks] [Hv' Hks'] i [->|Hi]%elem_of_cons; [congruence|].
  clear Hv Hv'. revert Hks Hks' Hi. unfold siblings. generalize (@None nid) at 1 3 as p.
  induction IH as [|k ks Hk _ IHks]; intros p; cbn; [by intros _ _ ?%elem_of_nil|].
  intros [H1 H2] [H3 H4] [Hi|Hi]%elem_of_app; [exact (Hk _ _ _ H1 H3 i Hi)|exact (IHks _ H2 H4 Hi)].
Qed.

Lemma last_of_some l x y : last_of l None = Some x → last_of l y = Some x.
Proof. destruct (last_of_in l None) as [[-> H]|(l' & t & -> & H)]; [done|]. by rewrite !last_of_app. Qed.

(** What [InsertBefore] finds next to the place of the new child. *)
Lemma place_run h v d pre post par prev next :
  linked h par prev next (INode v d (pre ++ post)) → NoDup (ids (INode v d (pre ++ post))) →
  match first_of post None with
  | Some o => ∃ no, h !! o = Some no ∧ last_of pre None = PrevSibling no ∧ first_of post None = Some o ∧ o ≠ v
  | None => last_of pre None = last_of (pre ++ post) None ∧ first_of post None = None
  end.
Proof.
  rewrite linked_eq. cbn [root kids ids]. intros [_ [_ Hpost]%siblings_app] [Hv _]%list.NoDup_cons.
  destruct post as [|k post]; cbn [first_of]; [by rewrite app_nil_r|].
  destruct Hpost as [[Hk _]%linked_eq _]. eexists. split; [exact Hk|]. split; [done|]. split; [done|].
  intros <-. apply Hv. rewrite ids_of_app. cbn. pose proof (root_ids k). set_solver.
Qed.

(** [InsertBefore] puts a tree on its own before a child, or behind the last one. *)
Lemma InsertBefore_run h par prev next v d pre w post :
  linked h par prev next (INode v d (pre ++ post)) → linked h None None None w →
  NoDup (ids (INode v d (pre ++ w :: post))) →
  ∃ h', InsertBefore v (root w) (first_of post None) h = Ok h' ∧
    linked h' par prev next (INode v d (pre ++ w :: post)) ∧
    (∀ i, i ∉ ids (INode v d (pre ++ w :: post)) → h' !! i = h !! i).
Proof.
  intros Ht Hw Hnd.
  assert (NoDup (ids (INode v d (pre ++ post)))) as Hnd'.
  { cbn in Hnd |- *. rewrite ids_of_app in Hnd |- *. cbn in Hnd. rewrite list.NoDup_cons, !list.NoDup_app in *. set_solver. }
  pose proof (place_run _ _ _ _ _ _ _ _ Ht Hnd') as Hplace.
  pose proof Ht as [Hv [Hpre Hpost]%siblings_app]%linked_eq. cbn [root] in Hv. pose proof Hw as [Hwn _]%linked_eq.
  apply ids_apart in Hnd as (Hn1 & Hn2 & Hn3 & Dpre & Dw & Dpost).
  pose proof (Dw _ (root_ids w)) as (Hwv & Hwpre & Hwpost).
  destruct (InsertBefore_ptr h v (root w) (first_of post None) _ _ (last_of pre None) (first_of post None) Hv Hwn)
    as (h' & Hrun & Hh'); [done|done|..].
  { destruct (first_of post None) as [o|] eqn:Ho; [|exact Hplace].
    destruct Hplace as (no & H1 & H2 & _ & H3). exists no. split_and!; try done. intros ->. by apply Hwpost, first_of_in. }
  { intros p Hp%last_of_in_ids. destruct (Dpre p Hp) as (? & Hpw & Hpp). split_and!; [exact (siblings_dom _ _ _ _ _ _ Hpre Hp)|done| |].
    - intros ->. by apply Hpw, root_ids.
    - by intros Hs%first_of_in. }
  exists h'. split; [done|]. split.
  - apply linked_eq. cbn [root kids]. split.
    + rewrite Hh', decide_True by done. unfold node_of. cbn. do 2 f_equal.
      * destruct pre as [|k pre]; [done|]. cbn. by destruct (last_of_in pre (Some (root k))) as [[-> ->]|(? & ? & -> & ->)].
      * rewrite !last_of_app2. cbn. destruct post as [|k post]; [done|]. done.
    + apply siblings_app. split; [|split].
      * eapply siblings_set_next; [done|exact Hpre|]. intros i Hi. destruct (Dpre i Hi) as (Hiv & Hiw & Hip).
        rewrite Hh', decide_False, decide_False by (done || intros ->; by apply Hiw, root_ids).
        destruct (decide (Some i = last_of pre None)); [done|]. rewrite decide_False; [done|]. intros Hs. by apply Hip, first_of_in.
      * eapply linked_change; [| |exact Hw].
        -- rewrite Hh', decide_False, decide_True by done. done.
        -- intros i Hi. rewrite ids_kids in Hn2, Dw. destruct (Dw i) as (Hiv & Hip & Hipo); [by right|].
           rewrite Hh', decide_False by done. rewrite decide_False by (intros ->; by apply NoDup_cons_1_1 in Hn2).
           rewrite decide_False by (intros Hs; by apply Hip, last_of_in_ids).
           rewrite decide_False by (intros Hs; by apply Hipo, first_of_in). done.
      * eapply siblings_set_prev; [done|exact Hpost|]. intros i Hi. destruct (Dpost i Hi) as (Hiv & Hip & Hiw).
        rewrite Hh', decide_False, decide_False by (done || intros ->; by apply Hiw, root_ids).
        rewrite decide_False by (intros Hs; by apply Hip, last_of_in_ids). done.
  - intros i Hi. cbn in Hi. rewrite ids_of_app in Hi. cbn in Hi. rewrite not_elem_of_cons, !not_elem_of_app in Hi.
    destruct Hi as (Hiv & Hipre & Hiw & Hipo). rewrite Hh', decide_False by done.
    rewrite decide_False by (intros ->; by apply Hiw, root_ids).
    rewrite decide_False by (intros Hs; by apply Hipre, last_of_in_ids).
    rewrite decide_False by (intros Hs; by apply Hipo, first_of_in). done.
Qed.

(** [AppendChild] is [InsertBefore] with nothing to insert before. *)
Lemma AppendChild_InsertBefore h v c nv nc :
  h !! v = Some nv → h !! c = Some nc → v ≠ c → detached nc = true →
  (∀ l, LastChild nv = Some l → is_Some (h !! l) ∧ l ≠ v ∧ l ≠ c) →
  AppendChild v c h = InsertBefore v c None h.
Proof.
  intros Hv Hc Hvc Hdet Hlast. unfold AppendChild, InsertBefore, modify.
  rewrite (get_Some _ _ _ Hc). cbn [mbind res_bind]. rewrite Hdet. cbn [negb].
  rewrite (get_Some _ _ _ Hv). cbn [mbind res_bind].
  apply bool_decide_eq_true in Hdet as (_ & _ & Hn).
  destruct nv as [dv pv fv lv sv nv], nc as [dc pc fc lc sc nc]. cbn in Hn, Hlast |- *. subst nc.
  destruct lv as [l|].
  1: destruct (Hlast l eq_refl) as ([nl Hl] & Hlv & Hlc).
  all: unfold get; dom_step; f_equal; unfold set_PrevSibling, set_NextSibling; cbn; by rewrite !insert_insert_eq.
Qed.

Lemma AppendChild_run h par prev next v d ks w :
  linked h par prev next (INode v d ks) → linked h None None None w →
  NoDup (ids (INode v d (ks ++ [w]))) →
  ∃ h', AppendChild v (root w) h = Ok h' ∧ linked h' par prev next (INode v d (ks ++ [w])) ∧
    (∀ i, i ∉ ids (INode v d (ks ++ [w])) → h' !! i = h !! i).
Proof.
  intros Ht Hw Hnd. pose proof (InsertBefore_run h par prev next v d ks w []) as Hrun. rewrite app_nil_r in Hrun.
  destruct (Hrun Ht Hw Hnd) as (h' & Hr & Hl & Hf). exists h'. split; [|done]. rewrite <-Hr. cbn [first_of].
  pose proof Ht as [Hv Hks]%linked_eq. pose proof Hw as [Hwn _]%linked_eq. cbn [root kids] in *.
  apply (ids_apart v d ks w []) in Hnd as (_ & _ & _ & Dks & Dw & _). destruct (Dw _ (root_ids w)) as (Hwv & Hwk & _).
  eapply AppendChild_InsertBefore; [exact Hv|exact Hwn|done|done|]. cbn. intros l Hl'%last_of_in_ids.
  destruct (Dks l Hl') as (Hlv & Hlw & _). split_and!; [exact (siblings_dom _ _ _ _ _ _ Hks Hl')|done|].
  intros ->. by apply Hlw, root_ids.
Qed.

(** C27: [RemoveChild] undoes [InsertBefore]: inserting a tree that stands on its own before
    a child, or at the end, makes it a child in that place, and removing it again gives
    back the heap there was, pointer for pointer. *)
Theorem insert_remove_roundtrip h par prev next v d pre w post :
  linked h par prev next (INode v d (pre ++ post)) → linked h None None None w →
  NoDup (ids (INode v d (pre ++ w :: post))) →
  ∃ h', InsertBefore v (root w) (first_of post None) h = Ok h' ∧
    linked h' par prev next (INode v d (pre ++ w :: post)) ∧
    RemoveChild v (root w) h' = Ok h.
Proof.
  intros Ht Hw Hnd. destruct (InsertBefore_run h par prev next v d pre w post Ht Hw Hnd) as (h1 & H1 & Hl1 & Hf1).
  destruct (RemoveChild_run h1 par prev next v d pre w post Hl1 Hnd) as (h2 & H2 & Hl2 & Hw2 & Hf2).
  exists h1. split; [done|]. split; [done|]. rewrite H2. f_equal. apply map_eq. intros i.
  destruct (decide (i ∈ ids (INode v d (pre ++ w :: post)))) as [Hi|Hi]; [|by rewrite Hf2, Hf1].
  assert (i ∈ ids (INode v d (pre ++ post)) ∨ i ∈ ids w) as [Hi'|Hi'].
  { cbn in Hi |- *. rewrite ids_of_app in Hi |- *. cbn in Hi. set_solver. }
  - exact (linked_unique _ _ _ _ _ _ Ht Hl2 i Hi').
  - exact (linked_unique _ _ _ _ _ _ Hw Hw2 i Hi').
Qed.

(** C28: [reparentChildren] ends, and moves all children of a node behind those of another,
    in order and with everything below them; nothing else changes. *)
Theorem reparentChildren_moves fuel h u e ks v d cs p1 a1 b1 p2 a2 b2 :
  linked h p1 a1 b1 (INode u e ks) → linked h p2 a2 b2 (INode v d cs) →
  NoDup (ids (INode u e ks) ++ ids (INode v d cs)) → length cs < fuel →
  ∃ h', reparentChildren fuel u v h = Ok h' ∧
    linked h' p1 a1 b1 (INode u e (ks ++ cs)) ∧ linked h' p2 a2 b2 (INode v d []) ∧
    (∀ i, i ∉ ids (INode u e ks) ++ ids (INode v d cs) → h' !! i = h !! i).
Proof.
  revert h ks fuel. induction cs as [|w cs IH]; intros h ks fuel Hu Hv Hnd Hf.
  all: destruct fuel as [|fuel]; [cbn in Hf; lia|]; cbn [reparentChildren].
  all: pose proof Hv as [Hvn _]%linked_eq; cbn [root] in Hvn; rewrite (get_Some _ _ _ Hvn); cbn [mbind res_bind node_of FirstChild kids first_of].
  { exists h. rewrite app_nil_r. done. }
  cbn [ids map concat] in Hnd.
  assert (NoDup (u :: ids_of ks) ∧ NoDup (v :: ids w ++ ids_of cs) ∧
    (∀ i, i ∈ u :: ids_of ks → i ∉ v :: ids w ++ ids_of cs)) as (Hn1 & Hn2 & Hdis)
    by (apply list.NoDup_app in Hnd as (? & ? & ?); done).
  destruct (RemoveChild_run h p2 a2 b2 v d [] w cs Hv Hn2) as (h1 & H1 & Hv1 & Hw1 & Hf1). rewrite H1. cbn [mbind res_bind].
  assert (linked h1 p1 a1 b1 (INode u e ks)) as Hu1.
  { eapply linked_agree; [|exact Hu]. intros i Hi. apply Hf1. by apply Hdis. }
  assert (NoDup (ids (INode u e (ks ++ [w])))) as Hn3.
  { cbn. rewrite ids_of_app. cbn. rewrite app_nil_r. apply (list.NoDup_app (u :: ids_of ks)).
    apply list.NoDup_cons in Hn2 as [_ Hn2]. apply list.NoDup_app in Hn2 as (Hn2 & _). split_and!; [done| |done].
    intros i Hi Hi'. apply (Hdis i Hi). right. set_solver. }
  destruct (AppendChild_run h1 p1 a1 b1 u e ks w Hu1 Hw1 Hn3) as (h2 & H2 & Hu2 & Hf2). rewrite H2. cbn [mbind res_bind].
  assert (∀ i, i ∈ v :: ids_of cs → i ∉ ids (INode u e (ks ++ [w]))) as Hdis2.
  { intros i Hi Hi'. cbn in Hi'. rewrite ids_of_app in Hi'. cbn in Hi'. rewrite app_nil_r in Hi'.
    apply (elem_of_app (u :: ids_of ks)) in Hi' as [Hi'|Hi'].
    - apply (Hdis i Hi'). set_solver.
    - apply list.NoDup_cons in Hn2 as [Hv' Hn2]. apply list.NoDup_app in Hn2 as (_ & Hd & _). set_solver. }
  assert (linked h2 p2 a2 b2 (INode v d cs)) as Hv2.
  { eapply linked_agree; [|exact Hv1]. intros i Hi. apply Hf2. by apply Hdis2. }
  destruct (IH h2 (ks ++ [w]) fuel Hu2 Hv2) as (h3 & H3 & Hu3 & Hv3 & Hf3).
  - apply list.NoDup_app. split_and!; [done|intros i Hi Hi'; by apply (Hdis2 i Hi')|].
    apply list.NoDup_cons in Hn2 as [Hv' Hn2]. apply list.NoDup_app in Hn2 as (_ & _ & Hn2). apply list.NoDup_cons. set_solver.
  - cbn in Hf. lia.
  - exists h3. rewrite <-app_assoc in Hu3. split; [done|]. split; [done|]. split; [done|]. intros i Hi. cbn in Hi.
    rewrite Hf3, Hf2, Hf1; [done|..]; cbn; rewrite ?ids_of_app; cbn; set_solver.
Qed.

(** ** The stack *)
Lemma index_from_notin s n k : (∀ i, i < k → s !! i ≠ Some n) → index_from s n k = (-1)%Z.
Proof.
  induction k as [|k IH]; intros Hk; cbn [index_from]; [done|].
  rewrite bool_decide_eq_false_2 by (apply Hk; lia). apply IH. intros i Hi. apply Hk. lia.
Qed.
Lemma index_from_last s n k j :
  j < k → s !! j = Some n → (∀ i, j < i → i < k → s !! i ≠ Some n) → index_from s n k = Z.of_nat j.
Proof.
  induction k as [|k IH]; intros Hj Hs Hk; [lia|]. cbn [index_from]. destruct (decide (j = k)) as [->|].
  - by rewrite bool_decide_eq_true_2.
  - rewrite bool_decide_eq_false_2 by (apply Hk; lia). apply IH; [lia|done|]. intros i Hi1 Hi2. apply Hk; lia.
Qed.
Lemma index_notin s n : n ∉ s → index s n = (-1)%Z.
Proof. intros Hn. apply index_from_notin. intros i _ Hi. by apply Hn, list_elem_of_lookup_2 with i. Qed.
Lemma index_split s1 n s2 : n ∉ s2 → index (s1 ++ n :: s2) n = Z.of_nat (length s1).
Proof.
  intros Hn. apply index_from_last; [rewrite length_app; cbn; lia|by apply list_lookup_middle|].
  intros i Hi _ Hs. apply Hn. rewrite lookup_app_r in Hs by lia. destruct (i - length s1) as [|k] eqn:Hk; [lia|].
  by apply list_elem_of_lookup_2 with k.
Qed.

Lemma go_from_Ok {A} (l : list A) (i : nat) : i ≤ length l → go_from l (Z.of_nat i) = Ok (drop i l).
Proof.
  intros Hi. unfold go_from. rewrite Nat2Z.id.
  by destruct (Z.leb_spec 0 (Z.of_nat i)), (Z.leb_spec (Z.of_nat i) (Z.of_nat (length l))); try lia.
Qed.

Lemma insert_run s (i : nat) n : i ≤ length s → insert s (Z.of_nat i) n = Ok (take i s ++ n :: drop i s).
Proof.
  intros Hi. unfold insert. replace (Z.of_nat i + 1)%Z with (Z.of_nat (S i)) by lia.
  assert (length (s ++ [None]) = S (length s)) as Hl by (rewrite length_app; cbn; lia).
  rewrite (go_from_Ok _ (S i)) by lia. cbn [mbind res_bind]. rewrite (go_from_Ok _ i) by lia. cbn [mbind res_bind].
  assert (go_copy (s ++ [None]) (S i) (drop i (s ++ [None])) = take (S i) (s ++ [None]) ++ drop i s) as Hcopy.
  { unfold go_copy. rewrite length_drop, Hl. replace ((S (length s) - S i) `min` (S (length s) - i)) with (length s - i) by lia.
    f_equal. rewrite drop_app_le by lia. rewrite take_app_le by (rewrite length_drop; lia).
    rewrite take_ge by (rewrite length_drop; lia). rewrite (drop_ge (s ++ _)) by lia. by rewrite app_nil_r. }
  rewrite Nat2Z.id, Hcopy. unfold go_update.
  assert (length (take (S i) (s ++ [None]) ++ drop i s) = S (length s)) as Hlen.
  { rewrite length_app, length_take, length_drop, Hl. lia. }
  destruct (Z.leb_spec 0 (Z.of_nat i)), (Z.ltb_spec (Z.of_nat i) (Z.of_nat (length (take (S i) (s ++ [None]) ++ drop i s)))); try lia.
  cbn [andb]. rewrite Nat2Z.id. f_equal. rewrite insert_app_l by (rewrite length_take; lia).
  destruct (lookup_lt_is_Some_2 (s ++ [None]) i ltac:(lia)) as [x Hx]. rewrite (take_S_r _ _ x Hx).
  assert (length (take i (s ++ [None])) = i) as Hti by (rewrite length_take; lia).
  rewrite insert_app_r_alt, Hti, Nat.sub_diag by lia. cbn. rewrite <-app_assoc. cbn. by rewrite take_app_le by lia.
Qed.

Lemma insert_bad s i n : ¬ (0 ≤ i ≤ Z.of_nat (length s))%Z → insert s i n = Panic IndexOutOfRange.
Proof.
  intros Hi. unfold insert, go_from. rewrite length_app. cbn [length].
  destruct (Z.leb_spec 0 (i + 1)), (Z.leb_spec (i + 1) (Z.of_nat (length s + 1))); try done.
  destruct (Z.leb_spec 0 i); [lia|done].
Qed.

Lemma remove_run s1 n s2 : n ∉ s2 → remove (s1 ++ n :: s2) n = Ok (s1 ++ s2).
Proof.
  intros Hn. unfold remove. rewrite index_split by done. set (s := s1 ++ n :: s2). set (i := length s1).
  assert (length s = S (i + length s2)) as Hl by (unfold s; rewrite length_app; cbn; lia).
  destruct (Z.eqb_spec (Z.of_nat i) (-1)); [lia|]. replace (Z.of_nat i + 1)%Z with (Z.of_nat (S i)) by lia.
  rewrite (go_from_Ok s i) by lia. cbn [mbind res_bind]. rewrite (go_from_Ok s (S i)) by lia. cbn [mbind res_bind].
  assert (drop (S i) s = s2) as -> by (unfold s, i; by rewrite drop_app_ge, Nat.sub_succ_l, Nat.sub_diag by lia).
  assert (go_copy s i s2 = s1 ++ s2 ++ drop (i + length s2) s) as Hcopy.
  { unfold go_copy. rewrite Hl. replace ((S (i + length s2) - i) `min` length s2) with (length s2) by lia.
    unfold s, i at 1. rewrite take_app_length, (take_ge s2) by lia. done. }
  rewrite Nat2Z.id, Hcopy. assert (length (drop (i + length s2) s) = 1) as Hd by (rewrite length_drop; lia).
  assert (length (s1 ++ s2 ++ drop (i + length s2) s) = S (i + length s2)) as Hlen by (rewrite !length_app, Hd; fold i; lia).
  rewrite Hlen. replace (Z.of_nat (S (i + length s2)) - 1)%Z with (Z.of_nat (i + length s2)) by lia.
  unfold go_update. rewrite Hlen. destruct (Z.leb_spec 0 (Z.of_nat (i + length s2))), (Z.ltb_spec (Z.of_nat (i + length s2)) (Z.of_nat (S (i + length s2)))); try lia.
  cbn [andb mbind res_bind]. rewrite Nat2Z.id, app_assoc. f_equal. 
  replace (i + length s2) with (length (s1 ++ s2)) by (rewrite length_app; done).
  rewrite insert_app_r_alt by lia. by rewrite take_app_length.
Qed.

(** With nodes on the stack that exist, [contains] looks for one with the atom. *)
Lemma contains_spec s a h :
  Forall (λ n, ∃ i nn, n = Some i ∧ h !! i = Some nn) s →
  ∃ b, contains s a h = Ok b ∧
    (b = true ↔ ∃ i nn, Some i ∈ s ∧ h !! i = Some nn ∧ DataAtom (node_data nn) = a).
Proof.
  induction 1 as [|n s (i & nn & -> & Hi) Hs (b & Hb & IH)]; simpl.
  - exists false. split; [done|]. split; [done|]. by intros (i & nn & []%not_elem_of_nil & _).
  - unfold get. cbn. rewrite Hi. cbn. case_bool_decide as Ha.
    + exists true. split; [done|]. split; [|done]. intros _. exists i, nn. by split; [left|].
    + exists b. split; [done|]. rewrite IH. split.
      * intros (j & mm & Hj & H). exists j, mm. by split; [right|].
      * intros (j & mm & [[= ->]|Hj]%elem_of_cons & Hm & H); [congruence|]. by exists j, mm.
Qed.

(** The stack of nodes: [pop] and [top] give the node pushed last; [insert] makes room
    for a node at any index up to the length and panics on every other index; [remove]
    takes out the top-most occurrence of a node and does nothing when there is none, so
    it undoes [insert]; the two [copy] calls on overlapping slices lose nothing. *)
Theorem nodeStack_spec (s s1 s2 : nodeStack) (n : ptr) :
  pop (s ++ [n]) = Ok (n, s) ∧ pop [] = Panic IndexOutOfRange ∧ top (s ++ [n]) = Ok n ∧ top [] = Ok None ∧
  (∀ i, insert s i n = if ((0 <=? i) && (i <=? Z.of_nat (length s)))%Z
                       then Ok (take (Z.to_nat i) s ++ n :: drop (Z.to_nat i) s) else Panic IndexOutOfRange) ∧
  (n ∉ s → remove s n = Ok s) ∧
  (n ∉ s2 → remove (s1 ++ n :: s2) n = Ok (s1 ++ s2)).
Proof.
  assert (go_index (s ++ [n]) (Z.of_nat (length (s ++ [n])) - 1) = Ok n) as Hlast.
  { rewrite length_app. cbn. replace (Z.of_nat (length s + 1) - 1)%Z with (Z.of_nat (length s)) by lia.
    apply go_index_nat. by apply list_lookup_middle. }
  split_and!.
  - unfold pop. rewrite Hlast. cbn. f_equal. f_equal. rewrite length_app. cbn. by rewrite Nat.add_sub, take_app_length.
  - done.
  - unfold top. rewrite Hlast. rewrite length_app. cbn. by destruct (Z.ltb_spec 0 (Z.of_nat (length s + 1))); [|lia].
  - done.
  - intros i. destruct (Z.leb_spec 0 i), (Z.leb_spec i (Z.of_nat (length s))); cbn [andb]; try (apply insert_bad; lia).
    rewrite <-(insert_run s (Z.to_nat i) n) by lia. by rewrite Z2Nat.id by lia.
  - intros Hn. unfold remove. by rewrite index_notin.
  - apply remove_run.
Qed.

(** ** Witnesses *)

(** A list with one item, and another item on its own. *)
Definition li_data : ndata := MkData ElementNode 0 "li" "" [].
Definition ul_data : ndata := MkData ElementNode 0 "ul" "" [].
Definition one_item : dom := {[
  0 := MkNode ul_data None (Some 1) (Some 1) None None;
  1 := MkNode li_data (Some 0) None None None None;
  2 := MkNode li_data None None None None None;
  3 := MkNode ul_data None None None None None]}.

Lemma insert_remove_roundtrip_witness :
  ∃ h', InsertBefore 0 2 (Some 1) one_item = Ok h' ∧ RemoveChild 0 2 h' = Ok one_item.
Proof.
  destruct (insert_remove_roundtrip one_item None None None 0 ul_data [] (INode 2 li_data []) [INode 1 li_data []])
    as (h' & H1 & _ & H2).
  - split; [reflexivity|]. split; [|exact I]. split; [reflexivity|exact I].
  - split; [reflexivity|exact I].
  - apply (bool_decide_unpack _). vm_compute. exact I.
  - exists h'. split; [exact H1|exact H2].
Defined.
Lemma reparentChildren_moves_witness :
  ∃ h', reparentChildren 2 3 0 one_item = Ok h' ∧ linked h' None None None (INode 3 ul_data [INode 1 li_data []]).
Proof.
  destruct (reparentChildren_moves 2 one_item 3 ul_data [] 0 ul_data [INode 1 li_data []] None None None None None None)
    as (h' & H1 & H2 & _).
  - split; [reflexivity|exact I].
  - split; [reflexivity|]. split; [|exact I]. split; [reflexivity|exact I].
  - apply (bool_decide_unpack _). vm_compute. exact I.
  - cbn. lia.
  - exists h'. split; [exact H1|exact H2].
Defined.
