(* ===== verification/JsxWalk.v ===== *)
(** * jsx: removing whitespace from a parsed fragment

    Models the loop of [HTML] in [src/_vendor/src/myitcv.io/react/jsx/jsx.go]
    that visits the parsed nodes and removes text that is only white space
    ([walk], with its inner loop [walk_children]), on the heap of [HtmlNode.v].

    [RemoveChild] clears the sibling pointers of the node it removes, and the
    loop then reads [c.NextSibling] of that node: it ends there.  [strip] says
    what the loop does to a tree: of the children of a node, those before the
    first blank one are visited, the blank one is removed, and everything after
    it is kept as it is, blank or not, and never visited.  The main lemma,
    [walk_run], is that the pointer program does exactly [strip]. *)

From S2P Require Import Prelude GoLib HtmlNode.

(** [c.Type == html.TextNode && strings.TrimSpace(c.Data) == ""] *)
Definition is_blank (d : ndata) : bool :=
  bool_decide (Type_ d = TextNode) && str_eqb (Strings.TrimSpace (Data d)) "".

(** [for c != nil { ... }]; returns the extended [toWalk]. *)
Fixpoint walk_children (fuel : nat) (v : nid) (c : option nid) (toWalk : list nid) (h : dom)
    : res (list nid * dom) :=
  match c with
  | None => Ok (toWalk, h)
  | Some c =>
      match fuel with
      | O => Panic OutOfFuel
      | S fuel =>
          cn ← get h c;
          h ← (if is_blank (node_data cn) then RemoveChild v c h else Ok h);
          cn ← get h c;
          walk_children fuel v (NextSibling cn) (toWalk ++ [c]) h
      end
  end.

(** [for len(toWalk) > 0 { ... }] *)
Fixpoint walk (fuel : nat) (toWalk : list nid) (h : dom) : res dom :=
  match toWalk with
  | [] => Ok h
  | v :: toWalk =>
      match fuel with
      | O => Panic OutOfFuel
      | S fuel =>
          vn ← get h v;
          '(toWalk, h) ← walk_children fuel v (FirstChild vn) toWalk h;
          walk fuel toWalk h
      end
  end.

(** ** What the loop does to a tree *)
Definition strip_kids (strip : itree → itree) : list itree → list itree :=
  fix go ks :=
    match ks with
    | [] => []
    | k :: ks => if is_blank (data k) then ks else strip k :: go ks
    end.

Fixpoint strip (t : itree) : itree :=
  match t with INode i d ks => INode i d (strip_kids strip ks) end.

(** Each list of children has no blank one, or splits at the first. *)
Lemma blank_split ks :
  Forall (λ k, is_blank (data k) = false) ks ∨
  ∃ pre w post, ks = pre ++ w :: post ∧
    Forall (λ k, is_blank (data k) = false) pre ∧ is_blank (data w) = true.
Proof.
  induction ks as [|k ks IH]; [by left|].
  destruct (is_blank (data k)) eqn:Hk; [by right; exists [], k, ks|].
  destruct IH as [IH|(pre & w & post & -> & Hpre & Hw)]; [left; by constructor|].
  right. exists (k :: pre), w, post. split_and!; [done|by constructor|done].
Qed.

Lemma strip_kids_none f ks :
  Forall (λ k, is_blank (data k) = false) ks → strip_kids f ks = map f ks.
Proof. induction 1 as [|k ks Hk _ IH]; simpl; [done|]. by rewrite Hk, IH. Qed.
Lemma strip_kids_blank f pre w post :
  Forall (λ k, is_blank (data k) = false) pre → is_blank (data w) = true →
  strip_kids f (pre ++ w :: post) = map f pre ++ post.
Proof. intros Hpre Hw. induction Hpre as [|k ks Hk _ IH]; simpl; [by rewrite Hw|]. by rewrite Hk, IH. Qed.

Lemma root_strip t : root (strip t) = root t.
Proof. by destruct t. Qed.

(** ** The inner loop *)
Lemma linked_kid h par prev next v d pre k post :
  linked h par prev next (INode v d (pre ++ k :: post)) →
  linked h (Some v) (last_of pre None) (first_of post None) k.
Proof. intros [_ Hks]%linked_eq. simpl in Hks. by apply siblings_app in Hks as [_ [Hk _]]. Qed.

Lemma walk_children_none fuel h par prev next v d dn ks q :
  linked h par prev next (INode v d (dn ++ ks)) →
  Forall (λ k, is_blank (data k) = false) ks → length ks ≤ fuel →
  walk_children fuel v (first_of ks None) q h = Ok (q ++ map root ks, h).
Proof.
  intros Hl Hks. revert fuel dn q Hl.
  induction Hks as [|k ks Hk Hks IH]; intros fuel dn q Hl Hf; simpl.
  - rewrite app_nil_r. by destruct fuel.
  - destruct fuel as [|fuel]; simpl in *; [lia|].
    pose proof (linked_kid _ _ _ _ _ _ _ _ _ Hl) as [Hkn _]%linked_eq.
    rewrite (get_Some _ _ _ Hkn). simpl. rewrite Hk. simpl.
    rewrite (get_Some _ _ _ Hkn). simpl.
    rewrite (IH fuel (dn ++ [k])); [by rewrite <-app_assoc|by rewrite <-app_assoc|lia].
Qed.

Lemma walk_children_blank fuel h par prev next v d dn pre w post q :
  linked h par prev next (INode v d (dn ++ pre ++ w :: post)) →
  NoDup (ids (INode v d (dn ++ pre ++ w :: post))) →
  Forall (λ k, is_blank (data k) = false) pre → is_blank (data w) = true → length pre < fuel →
  ∃ h', walk_children fuel v (first_of (pre ++ w :: post) None) q h =
          Ok (q ++ map root pre ++ [root w], h') ∧
    linked h' par prev next (INode v d (dn ++ pre ++ post)) ∧ linked h' None None None w ∧
    (∀ i, i ∉ ids (INode v d (dn ++ pre ++ w :: post)) → h' !! i = h !! i).
Proof.
  intros Hl Hnd Hpre Hw. revert fuel dn q Hl Hnd.
  induction Hpre as [|k pre Hk Hpre IH]; intros fuel dn q Hl Hnd Hf; simpl in *.
  - destruct fuel as [|fuel]; [lia|]. simpl.
    pose proof (linked_kid _ _ _ _ _ _ _ _ _ Hl) as [Hkn _]%linked_eq.
    rewrite (get_Some _ _ _ Hkn). simpl. rewrite Hw.
    destruct (RemoveChild_run _ _ _ _ _ _ _ _ _ Hl Hnd) as (h' & Hrun & Hl' & Hw' & Hag).
    rewrite Hrun. simpl. pose proof Hw' as [Hwn _]%linked_eq.
    rewrite (get_Some _ _ _ Hwn). simpl. exists h'.
    split; [by destruct fuel|]. split; [exact Hl'|]. split; [exact Hw'|exact Hag].
  - destruct fuel as [|fuel]; [lia|]. simpl.
    pose proof (linked_kid _ _ _ _ _ _ _ _ _ Hl) as [Hkn _]%linked_eq.
    rewrite (get_Some _ _ _ Hkn). simpl. rewrite Hk. simpl.
    rewrite (get_Some _ _ _ Hkn). simpl.
    destruct (IH fuel (dn ++ [k]) (q ++ [root k])) as (h' & Hrun & Hl' & Hw' & Hag);
      rewrite <-?app_assoc in *; simpl in *; [done|done|lia|].
    exists h'. by rewrite Hrun.
Qed.

(** ** The outer loop *)

(** A tree with the parent and the siblings of its root. *)
Record ctx := Ctx { c_par : option nid; c_prev : option nid; c_next : option nid }.
Definition linked_in (h : dom) (q : ctx * itree) : Prop :=
  linked h (c_par q.1) (c_prev q.1) (c_next q.1) q.2.
Definition strip_in (q : ctx * itree) : ctx * itree := (q.1, strip q.2).

Fixpoint ctxs (par prev next : option nid) (ks : list itree) : list (ctx * itree) :=
  match ks with
  | [] => []
  | k :: ks => (Ctx par prev (first_of ks next), k) :: ctxs par (Some (root k)) next ks
  end.

Lemma siblings_ctxs h par prev next ks :
  siblings h par prev next ks ↔ Forall (linked_in h) (ctxs par prev next ks).
Proof.
  revert prev; induction ks as [|k ks IH]; intros prev; simpl; [by split|].
  rewrite (IH (Some (root k))), list.Forall_cons. done.
Qed.
Lemma ctxs_snd par prev next ks : (ctxs par prev next ks).*2 = ks.
Proof. revert prev; induction ks as [|k ks IH]; intros prev; simpl; [done|]. by rewrite IH. Qed.

Lemma first_of_strip ks x : first_of (map strip ks) x = first_of ks x.
Proof. destruct ks; simpl; [done|]. by rewrite root_strip. Qed.
Lemma last_of_strip ks x : last_of (map strip ks) x = last_of ks x.
Proof. revert x; induction ks as [|k ks IH]; intros x; simpl; [done|]. by rewrite IH, root_strip. Qed.
Lemma ctxs_strip par prev next ks :
  ctxs par prev next (map strip ks) = map strip_in (ctxs par prev next ks).
Proof.
  revert prev; induction ks as [|k ks IH]; intros prev; simpl; [done|].
  by rewrite IH, root_strip, first_of_strip.
Qed.

(** A node whose first children were stripped and whose other children were left
    alone. *)
Lemma linked_strip h h' c v d pre post :
  linked_in h (c, INode v d (pre ++ post)) → h' !! v = h !! v →
  Forall (λ q, linked_in h' (strip_in q)) (ctxs (Some v) None (first_of post None) pre) →
  agree h h' (ids_of post) →
  linked_in h' (c, INode v d (map strip pre ++ post)).
Proof.
  intros [Hv Hks]%linked_eq Hv' Hpre Hpost. apply linked_eq. simpl in *.
  apply siblings_app in Hks as [_ Hks]. split.
  - rewrite Hv', Hv. unfold node_of. simpl. do 2 f_equal.
    + destruct pre; simpl; [done|]. by rewrite root_strip.
    + by rewrite !last_of_app2, last_of_strip.
  - apply siblings_app. split.
    + apply siblings_ctxs. rewrite ctxs_strip, list.Forall_fmap. exact Hpre.
    + rewrite last_of_strip. by eapply siblings_agree.
Qed.

Lemma length_ids_of ks : length ks ≤ length (ids_of ks).
Proof.
  induction ks as [|k ks IH]; simpl; [done|]. rewrite length_app.
  destruct k. simpl. lia.
Qed.

Definition queue_ids (Q : list (ctx * itree)) : list nid := ids_of Q.*2.

Lemma queue_ids_cons c v d ks Q : queue_ids ((c, INode v d ks) :: Q) = v :: ids_of ks ++ queue_ids Q.
Proof. done. Qed.
Lemma queue_ids_app Q Q' : queue_ids (Q ++ Q') = queue_ids Q ++ queue_ids Q'.
Proof. unfold queue_ids. by rewrite fmap_app, ids_of_app. Qed.
Lemma queue_ids_ctxs par prev next ks : queue_ids (ctxs par prev next ks) = ids_of ks.
Proof. unfold queue_ids. by rewrite ctxs_snd. Qed.

Lemma linked_in_agree h h' Q :
  agree h h' (queue_ids Q) → Forall (linked_in h) Q → Forall (linked_in h') Q.
Proof.
  intros Hag HQ. induction HQ as [|q Q Hq _ IH]; constructor.
  - eapply linked_agree; [|exact Hq]. eapply agree_sub; [|exact Hag].
    intros i Hi. apply elem_of_app. by left.
  - apply IH. eapply agree_sub; [|exact Hag]. intros i Hi. apply elem_of_app. by right.
Qed.

Lemma walk_run fuel Q h :
  Forall (linked_in h) Q → NoDup (queue_ids Q) → length (queue_ids Q) ≤ fuel →
  ∃ h', walk fuel (map root Q.*2) h = Ok h' ∧ Forall (λ q, linked_in h' (strip_in q)) Q ∧
    ∀ i, i ∉ queue_ids Q → h' !! i = h !! i.
Proof.
  revert Q h; induction fuel as [|fuel IH]; intros Q h HQ Hnd Hf.
  { destruct Q as [|[c [v d ks]] Q]; [by exists h|].
    rewrite queue_ids_cons in Hf. simpl in Hf. lia. }
  destruct Q as [|[c [v d ks]] Q]; [by exists h|].
  apply list.Forall_cons in HQ as [Ht HQ]. pose proof Ht as [Hv Hks]%linked_eq. simpl in Hv, Hks.
  rewrite queue_ids_cons in Hnd, Hf. pose proof Hnd as Hnd0.
  rewrite list.NoDup_cons, list.NoDup_app, not_elem_of_app in Hnd.
  destruct Hnd as ([Hvk HvQ] & Hndk & Hdis & HndQ). simpl in Hf. rewrite length_app in Hf.
  setoid_rewrite queue_ids_cons. setoid_rewrite not_elem_of_cons. setoid_rewrite not_elem_of_app.
  change (map root ((c, INode v d ks) :: Q).*2) with (v :: map root Q.*2).
  set (qs := map root Q.*2). simpl. rewrite (get_Some _ _ _ Hv). simpl.
  destruct (blank_split ks) as [Hno|(pre & w & post & -> & Hpre & Hw)].
  - rewrite (walk_children_none fuel h _ _ _ v d [] ks _ Ht Hno)
      by (pose proof (length_ids_of ks); lia). simpl.
    destruct (IH (Q ++ ctxs (Some v) None None ks) h) as (h' & Hrun & HQ' & Hag).
    { apply list.Forall_app. split; [done|]. by apply siblings_ctxs. }
    { rewrite queue_ids_app, queue_ids_ctxs, list.NoDup_app. split_and!; [done| |done].
      intros i HiQ Hi. by apply (Hdis i). }
    { rewrite queue_ids_app, queue_ids_ctxs, length_app. lia. }
    rewrite fmap_app, ctxs_snd, map_app in Hrun. exists h'. split; [done|].
    apply list.Forall_app in HQ' as [HQ' Hks']. rewrite queue_ids_app, queue_ids_ctxs in Hag.
    setoid_rewrite not_elem_of_app in Hag. split.
    + constructor; [|done]. unfold strip_in. simpl. rewrite strip_kids_none by done.
      rewrite <-(app_nil_r (map strip ks)). apply (linked_strip h);
        [by rewrite app_nil_r|by apply Hag|done|by intros i ?%elem_of_nil].
    + intros i (_ & Hik & HiQ). by apply Hag.
  - assert (Hnt : NoDup (ids (INode v d (pre ++ w :: post)))) by by apply list.NoDup_cons.
    pose proof (ids_apart _ _ _ _ _ Hnt) as (Hn1 & Hn2 & Hn3 & Dpre & Dw & Dpost).
    rewrite ids_of_app in *. simpl in Hvk, Hndk, Hdis, Hf |- *.
    rewrite !not_elem_of_app in Hvk.
    assert (DQ : ∀ i, i ∈ queue_ids Q → i ≠ v ∧ (i ∉ ids_of pre) ∧ (i ∉ ids w) ∧ (i ∉ ids_of post)).
    { intros i Hi. split; [by intros ->|].
      split_and!; intros Hi'; apply (Hdis i); try done; rewrite !elem_of_app; tauto. }
    rewrite !length_app in Hf.
    destruct (walk_children_blank fuel h _ _ _ v d [] pre w post qs Ht Hnt Hpre Hw)
      as (h1 & -> & Ht1 & Hw1 & Hag1).
    { pose proof (length_ids_of pre). destruct w. simpl in Hf. lia. }
    simpl app in Ht1, Hag1. simpl.
    assert (Hids : queue_ids (Q ++ ctxs (Some v) None (first_of post None) pre ++
        [(Ctx None None None, w)]) = queue_ids Q ++ ids_of pre ++ ids w).
    { rewrite !queue_ids_app, queue_ids_ctxs. unfold queue_ids at 2. simpl. by rewrite app_nil_r. }
    destruct (IH (Q ++ ctxs (Some v) None (first_of post None) pre ++ [(Ctx None None None, w)]) h1)
      as (h' & Hrun & HQ' & Hag).
    { rewrite !list.Forall_app, list.Forall_singleton. split_and!; [| |done].
      - eapply linked_in_agree; [|exact HQ]. intros i Hi. apply Hag1.
        simpl. rewrite ids_of_app. simpl. rewrite not_elem_of_cons, !not_elem_of_app. by apply DQ.
      - apply siblings_ctxs. apply linked_eq in Ht1 as [_ Hks1]. by apply siblings_app in Hks1 as [? _]. }
    { rewrite Hids, !list.NoDup_app. setoid_rewrite not_elem_of_app. split_and!; try done.
      - intros i Hi. by apply DQ in Hi as (_ & ? & ? & _).
      - intros i Hi. by apply Dpre in Hi as (_ & ? & _). }
    { rewrite Hids, !length_app. lia. }
    rewrite Hids in Hag. setoid_rewrite not_elem_of_app in Hag. setoid_rewrite not_elem_of_app in Hag.
    rewrite !fmap_app, ctxs_snd in Hrun. exists h'. split; [exact Hrun|].
    rewrite !list.Forall_app in HQ'. destruct HQ' as (HQ' & Hpre' & _). split.
    + constructor; [|done]. unfold strip_in. simpl. rewrite strip_kids_blank by done.
      apply (linked_strip h1); [done|apply Hag; tauto|done|].
      intros i Hi. apply Hag. destruct (Dpost i Hi) as (? & ? & ?). split_and!; [|done..].
      intros HiQ. by apply DQ in HiQ as (_ & _ & _ & ?).
    + intros i (Hiv & Hik & HiQ). rewrite ?ids_of_app in Hik. simpl in Hik.
      rewrite !not_elem_of_app in Hik. rewrite Hag by tauto.
      apply Hag1. simpl. rewrite ids_of_app. simpl. rewrite not_elem_of_cons, !not_elem_of_app. tauto.
Qed.
