(* ===== verification/Jsx.v ===== *)
(** * jsx: HTML as React elements

    Models package [jsx] of [src/_vendor/src/myitcv.io/react/jsx]: [HTML],
    [HTMLElem] and [Markdown] of [jsx.go], [parseBool] of [util.go], [parseCSS]
    of [gen_jsx_cssGen.go], and [parse] with the 44 [parseX] functions of
    [gen_jsx_coreGen.go].

    [html.ParseFragment] and [blackfriday.MarkdownCommon] are parameters.  The
    nodes the former returns are a heap and the addresses of the top nodes;
    [forest] is what its documentation promises of them (detached trees, all
    nodes different).  The loops over pointers run on fuel, the number of nodes;
    [HTML_spec] shows that this is enough and that the result is a function of
    the trees: [parse_tree] of what [strip] leaves of each.

    A [parseX] function is [element_parser] applied to its switch, to the setter
    of the props shared by all elements, to its type assertion on children and
    to its constructor: the shape the generator's template gives all of them. *)

From stdpp Require Import pretty.
From S2P Require Import Prelude GoLib React Elements HtmlNode JsxWalk.

(** ** util.go *)

Definition parseBool (s : string) : bool :=
  match Strconv.ParseBool s with None => false | Some v => v end.

(** ** gen_jsx_cssGen.go *)
Abbreviation quote := Strconv.Quote.
Definition dquote : string := String (Ascii.ascii_of_nat 34) "".

(** The switch of [parseCSS]. *)
Definition css_cases : list (string * (string → CSS → CSS)) := [
  ("float", css_Float);
  ("font-size", css_FontSize);
  ("font-style", css_FontStyle);
  ("height", css_Height);
  ("left", css_Left);
  ("margin-top", css_MarginTop);
  ("max-height", css_MaxHeight);
  ("min-height", css_MinHeight);
  ("overflow", css_Overflow);
  ("overflow-y", css_OverflowY);
  ("position", css_Position);
  ("resize", css_Resize);
  ("top", css_Top);
  ("width", css_Width);
  ("z-index", css_ZIndex)].

(** The first case whose key is [k]. *)
Fixpoint find_case {A} (cases : list (string * A)) (k : string) : option A :=
  match cases with
  | [] => None
  | (k', a) :: cases => if str_eqb k' k then Some a else find_case cases k
  end.

(** The body of the loop of [parseCSS]. *)
Definition css_part (s : string) (css : CSS) (p : string) : res CSS :=
  match Strings.Split p ":"%char with
  | [k; v] =>
      let k := Strings.TrimSpace k in
      let v := Strings.Trim (Strings.TrimSpace v) dquote in
      match find_case css_cases k with
      | Some set => Ok (set v css)
      | None => Panic (PanicMsg ("unknown CSS key " +:+ quote k +:+ " in " +:+ quote s))
      end
  | _ => Panic (PanicMsg ("invalid key-val " +:+ quote p +:+ " in " +:+ quote s))
  end.

Fixpoint css_parts (s : string) (css : CSS) (parts : list string) : res CSS :=
  match parts with
  | [] => Ok css
  | p :: parts => css ← css_part s css p; css_parts s css parts
  end.

Definition parseCSS (s : string) : res CSS :=
  css_parts s css_zero (Strings.Split s ";"%char).

Section Jsx.
Context {RV : ReactValues}.

(** ** gen_jsx_coreGen.go *)

(** A case of the switch on attributes: the key, and the assignment to [vp]. *)
Definition attr_case (P : Type) : Type := string * (string → P → res P).

Section Cases.
Context {P : Type} (on : (El.HTMLProps → El.HTMLProps) → P → P).
Definition case_aria_expanded : attr_case P :=
  ("aria-expanded", λ s p, Ok (on (El.with_AriaExpanded (parseBool s)) p)).
Definition case_aria_haspopup : attr_case P :=
  ("aria-haspopup", λ s p, Ok (on (El.with_AriaHasPopup (parseBool s)) p)).
Definition case_aria_labelledby : attr_case P :=
  ("aria-labelledby", λ s p, Ok (on (El.with_AriaLabelledBy s) p)).
Definition case_class : attr_case P := ("class", λ s p, Ok (on (El.with_ClassName s) p)).
Definition case_id : attr_case P := ("id", λ s p, Ok (on (El.with_ID s) p)).
Definition case_key : attr_case P := ("key", λ s p, Ok (on (El.with_Key s) p)).
Definition case_role : attr_case P := ("role", λ s p, Ok (on (El.with_Role s) p)).
Definition case_style : attr_case P :=
  ("style", λ s p, c ← parseCSS s; Ok (on (El.with_Style (Some c)) p)).
End Cases.

Definition on_self (f : El.HTMLProps → El.HTMLProps) : El.HTMLProps → El.HTMLProps := f.
Definition html_cases : list (attr_case El.HTMLProps) := [
  case_aria_expanded on_self;
  case_aria_haspopup on_self;
  case_aria_labelledby on_self;
  case_class on_self;
  case_id on_self;
  case_key on_self;
  case_role on_self;
  case_style on_self].

(** [ds[k] = v] on a map kept in the order of insertion. *)
Fixpoint ds_set (ds : list (string * string)) (k v : string) : list (string * string) :=
  match ds with
  | [] => [(k, v)]
  | (k', v') :: ds => if str_eqb k' k then (k', v) :: ds else (k', v') :: ds_set ds k v
  end.

(** [for _, a := range n.Attr { switch ... }] *)
Fixpoint attr_loop {P} (tag : string) (cases : list (attr_case P)) (attrs : list Attribute)
    (vp : P) (ds : list (string * string)) : res (P * list (string * string)) :=
  match attrs with
  | [] => Ok (vp, ds)
  | a :: attrs =>
      match find_case cases (Key a) with
      | Some set => vp ← set (Val a) vp; attr_loop tag cases attrs vp ds
      | None =>
          if Strings.HasPrefix (Key a) "data-" then
            attr_loop tag cases attrs vp (ds_set ds (Strings.TrimPrefix (Key a) "data-") (Val a))
          else Panic (PanicMsg ("don't know how to handle <" +:+ tag +:+ "> attribute " +:+
                                quote (Key a)))
      end
  end.

Definition parse_attrs {P} (tag : string) (cases : list (attr_case P))
    (on : (El.HTMLProps → El.HTMLProps) → P → P) (zero : P) (attrs : list Attribute)
    : res (option P) :=
  match attrs with
  | [] => Ok None
  | _ => '(vp, ds) ← attr_loop tag cases attrs zero [];
         Ok (Some (on (El.with_DataSet ds) vp))
  end.

(** [parse(c).(react.Element)] and the two other assertions; the dynamic type of
    an element is the constructor that made it, which its tag names. *)
Definition as_Element (e : Element) : res Element := Ok e.
Definition as_OptionElem (e : Element) : res Element :=
  match e with Elem (Tag "option") _ _ => Ok e | _ => Panic TypeAssertion end.
Definition as_RendersLi (e : Element) : res Element :=
  match e with Elem (Tag "li") _ _ => Ok e | _ => Panic TypeAssertion end.

(** A [parseX] function: its first argument is the loop over the children of the
    node, given the assertion each of them has to pass. *)
Definition parser : Type := ((Element → res Element) → res (list Element)) → ndata → res Element.

Definition element_parser {P} (tag : string) (cases : list (attr_case P))
    (on : (El.HTMLProps → El.HTMLProps) → P → P) (zero : P) (as_T : Element → res Element)
    (ctor : option P → list Element → Element) : parser := λ children n,
  vp ← parse_attrs tag cases on zero (Attr n);
  kids ← children as_T;
  Ok (ctor vp kids).

(** For an [EmptyElement]. *)
Definition empty_parser {P} (tag : string) (cases : list (attr_case P))
    (on : (El.HTMLProps → El.HTMLProps) → P → P) (zero : P) (ctor : option P → Element) : parser :=
  λ _ n, vp ← parse_attrs tag cases on zero (Attr n); Ok (ctor vp).

Definition A_cases : list (attr_case El.AProps) := [
  case_aria_expanded El.A_on_html;
  case_aria_haspopup El.A_on_html;
  case_aria_labelledby El.A_on_html;
  case_class El.A_on_html;
  ("href", λ s p, Ok (El.A_with_Href s p));
  case_id El.A_on_html;
  case_key El.A_on_html;
  case_role El.A_on_html;
  case_style El.A_on_html;
  ("target", λ s p, Ok (El.A_with_Target s p));
  ("title", λ s p, Ok (El.A_with_Title s p))].
Definition parseA : parser :=
  element_parser "a" A_cases El.A_on_html El.A_zero as_Element El.A.
Definition parseAbbr : parser :=
  element_parser "abbr" html_cases on_self El.html_zero as_Element El.Abbr.
Definition parseArticle : parser :=
  element_parser "article" html_cases on_self El.html_zero as_Element El.Article.
Definition parseAside : parser :=
  element_parser "aside" html_cases on_self El.html_zero as_Element El.Aside.
Definition parseB : parser :=
  element_parser "b" html_cases on_self El.html_zero as_Element El.B.
Definition parseBr : parser :=
  element_parser "br" html_cases on_self El.html_zero as_Element El.Br.
Definition Button_cases : list (attr_case El.ButtonProps) := [
  case_aria_expanded El.Button_on_html;
  case_aria_haspopup El.Button_on_html;
  case_aria_labelledby El.Button_on_html;
  case_class El.Button_on_html;
  case_id El.Button_on_html;
  case_key El.Button_on_html;
  case_role El.Button_on_html;
  case_style El.Button_on_html;
  ("type", λ s p, Ok (El.Button_with_Type s p))].
Definition parseButton : parser :=
  element_parser "button" Button_cases El.Button_on_html El.Button_zero as_Element El.Button.
Definition parseCaption : parser :=
  element_parser "caption" html_cases on_self El.html_zero as_Element El.Caption.
Definition parseCode : parser :=
  element_parser "code" html_cases on_self El.html_zero as_Element El.Code.
Definition parseDiv : parser :=
  element_parser "div" html_cases on_self El.html_zero as_Element El.Div.
Definition parseEm : parser :=
  element_parser "em" html_cases on_self El.html_zero as_Element El.Em.
Definition parseFooter : parser :=
  element_parser "footer" html_cases on_self El.html_zero as_Element El.Footer.
Definition parseForm : parser :=
  element_parser "form" html_cases on_self El.html_zero as_Element El.Form.
Definition parseH1 : parser :=
  element_parser "h1" html_cases on_self El.html_zero as_Element El.H1.
Definition parseH2 : parser :=
  element_parser "h2" html_cases on_self El.html_zero as_Element El.H2.
Definition parseH3 : parser :=
  element_parser "h3" html_cases on_self El.html_zero as_Element El.H3.
Definition parseH4 : parser :=
  element_parser "h4" html_cases on_self El.html_zero as_Element El.H4.
Definition parseH5 : parser :=
  element_parser "h5" html_cases on_self El.html_zero as_Element El.H5.
Definition parseH6 : parser :=
  element_parser "h6" html_cases on_self El.html_zero as_Element El.H6.
Definition parseHeader : parser :=
  element_parser "header" html_cases on_self El.html_zero as_Element El.Header.
Definition parseHr : parser :=
  empty_parser "hr" html_cases on_self El.html_zero El.Hr.
Definition parseI : parser :=
  element_parser "i" html_cases on_self El.html_zero as_Element El.I.
Definition IFrame_cases : list (attr_case El.IFrameProps) := [
  case_aria_expanded El.IFrame_on_html;
  case_aria_haspopup El.IFrame_on_html;
  case_aria_labelledby El.IFrame_on_html;
  case_class El.IFrame_on_html;
  case_id El.IFrame_on_html;
  case_key El.IFrame_on_html;
  case_role El.IFrame_on_html;
  ("srcdoc", λ s p, Ok (El.IFrame_with_SrcDoc s p));
  case_style El.IFrame_on_html].
Definition parseIFrame : parser :=
  element_parser "iframe" IFrame_cases El.IFrame_on_html El.IFrame_zero as_Element El.IFrame.
Definition Img_cases : list (attr_case El.ImgProps) := [
  ("alt", λ s p, Ok (El.Img_with_Alt s p));
  case_aria_expanded El.Img_on_html;
  case_aria_haspopup El.Img_on_html;
  case_aria_labelledby El.Img_on_html;
  case_class El.Img_on_html;
  case_id El.Img_on_html;
  case_key El.Img_on_html;
  case_role El.Img_on_html;
  ("src", λ s p, Ok (El.Img_with_Src s p));
  case_style El.Img_on_html].
Definition parseImg : parser :=
  element_parser "img" Img_cases El.Img_on_html El.Img_zero as_Element El.Img.
Definition Input_cases : list (attr_case El.InputProps) := [
  case_aria_expanded El.Input_on_html;
  case_aria_haspopup El.Input_on_html;
  case_aria_labelledby El.Input_on_html;
  case_class El.Input_on_html;
  case_id El.Input_on_html;
  case_key El.Input_on_html;
  ("placeholder", λ s p, Ok (El.Input_with_Placeholder s p));
  case_role El.Input_on_html;
  case_style El.Input_on_html;
  ("type", λ s p, Ok (El.Input_with_Type s p));
  ("value", λ s p, Ok (El.Input_with_Value s p))].
Definition parseInput : parser :=
  element_parser "input" Input_cases El.Input_on_html El.Input_zero as_Element El.Input.
Definition Label_cases : list (attr_case El.LabelProps) := [
  case_aria_expanded El.Label_on_html;
  case_aria_haspopup El.Label_on_html;
  case_aria_labelledby El.Label_on_html;
  case_class El.Label_on_html;
  ("for", λ s p, Ok (El.Label_with_For s p));
  case_id El.Label_on_html;
  case_key El.Label_on_html;
  case_role El.Label_on_html;
  case_style El.Label_on_html].
Definition parseLabel : parser :=
  element_parser "label" Label_cases El.Label_on_html El.Label_zero as_Element El.Label.
Definition parseLi : parser :=
  element_parser "li" html_cases on_self El.html_zero as_Element El.Li.
Definition parseMain : parser :=
  element_parser "main" html_cases on_self El.html_zero as_Element El.Main.
Definition parseNav : parser :=
  element_parser "nav" html_cases on_self El.html_zero as_Element El.Nav.
Definition Option_cases : list (attr_case El.OptionProps) := [
  case_aria_expanded El.Option_on_html;
  case_aria_haspopup El.Option_on_html;
  case_aria_labelledby El.Option_on_html;
  case_class El.Option_on_html;
  case_id El.Option_on_html;
  case_key El.Option_on_html;
  case_role El.Option_on_html;
  case_style El.Option_on_html;
  ("value", λ s p, Ok (El.Option_with_Value s p))].
Definition parseOption : parser :=
  element_parser "option" Option_cases El.Option_on_html El.Option_zero as_Element El.Option.
Definition parseP : parser :=
  element_parser "p" html_cases on_self El.html_zero as_Element El.P.
Definition parsePre : parser :=
  element_parser "pre" html_cases on_self El.html_zero as_Element El.Pre.
Definition Select_cases : list (attr_case El.SelectProps) := [
  case_aria_expanded El.Select_on_html;
  case_aria_haspopup El.Select_on_html;
  case_aria_labelledby El.Select_on_html;
  case_class El.Select_on_html;
  case_id El.Select_on_html;
  case_key El.Select_on_html;
  case_role El.Select_on_html;
  case_style El.Select_on_html;
  ("value", λ s p, Ok (El.Select_with_Value s p))].
Definition parseSelect : parser :=
  element_parser "select" Select_cases El.Select_on_html El.Select_zero as_OptionElem El.Select.
Definition parseSpan : parser :=
  element_parser "span" html_cases on_self El.html_zero as_Element El.Span.
Definition parseStrike : parser :=
  element_parser "s" html_cases on_self El.html_zero as_Element El.Strike.
Definition parseSup : parser :=
  element_parser "sup" html_cases on_self El.html_zero as_Element El.Sup.
Definition parseTable : parser :=
  element_parser "table" html_cases on_self El.html_zero as_Element El.Table.
Definition parseTbody : parser :=
  element_parser "tbody" html_cases on_self El.html_zero as_Element El.Tbody.
Definition parseTd : parser :=
  element_parser "td" html_cases on_self El.html_zero as_Element El.Td.
Definition TextArea_cases : list (attr_case El.TextAreaProps) := [
  case_aria_expanded El.TextArea_on_html;
  case_aria_haspopup El.TextArea_on_html;
  case_aria_labelledby El.TextArea_on_html;
  case_class El.TextArea_on_html;
  case_id El.TextArea_on_html;
  case_key El.TextArea_on_html;
  ("placeholder", λ s p, Ok (El.TextArea_with_Placeholder s p));
  case_role El.TextArea_on_html;
  case_style El.TextArea_on_html;
  ("value", λ s p, Ok (El.TextArea_with_Value s p))].
Definition parseTextArea : parser :=
  element_parser "textarea" TextArea_cases El.TextArea_on_html El.TextArea_zero as_Element El.TextArea.
Definition parseTh : parser :=
  element_parser "th" html_cases on_self El.html_zero as_Element El.Th.
Definition parseThead : parser :=
  element_parser "thead" html_cases on_self El.html_zero as_Element El.Thead.
Definition parseTr : parser :=
  element_parser "tr" html_cases on_self El.html_zero as_Element El.Tr.
Definition parseUl : parser :=
  element_parser "ul" html_cases on_self El.html_zero as_RendersLi El.Ul.

(** The switch of [parse], in order. *)
Definition parsers : list (string * parser) := [
  ("a", parseA);
  ("abbr", parseAbbr);
  ("article", parseArticle);
  ("aside", parseAside);
  ("b", parseB);
  ("br", parseBr);
  ("button", parseButton);
  ("caption", parseCaption);
  ("code", parseCode);
  ("div", parseDiv);
  ("em", parseEm);
  ("footer", parseFooter);
  ("form", parseForm);
  ("h1", parseH1);
  ("h2", parseH2);
  ("h3", parseH3);
  ("h4", parseH4);
  ("h5", parseH5);
  ("h6", parseH6);
  ("header", parseHeader);
  ("hr", parseHr);
  ("i", parseI);
  ("iframe", parseIFrame);
  ("img", parseImg);
  ("input", parseInput);
  ("label", parseLabel);
  ("li", parseLi);
  ("main", parseMain);
  ("nav", parseNav);
  ("option", parseOption);
  ("p", parseP);
  ("pre", parsePre);
  ("select", parseSelect);
  ("span", parseSpan);
  ("s", parseStrike);
  ("sup", parseSup);
  ("table", parseTable);
  ("tbody", parseTbody);
  ("td", parseTd);
  ("textarea", parseTextArea);
  ("th", parseTh);
  ("thead", parseThead);
  ("tr", parseTr);
  ("ul", parseUl)].

Definition nodetype_num (t : NodeType) : string :=
  match t with
  | ErrorNode => "0" | TextNode => "1" | DocumentNode => "2" | ElementNode => "3"
  | CommentNode => "4" | DoctypeNode => "5" | scopeMarkerNode => "6"
  end.

(** [parse], given the loop over the children of the node. *)
Definition parse_node (children : (Element → res Element) → res (list Element)) (n : ndata)
    : res Element :=
  match Type_ n with
  | TextNode => Ok (ES (Data n))
  | ElementNode =>
      match find_case parsers (Data n) with
      | Some parseX => parseX children n
      | None => Panic (PanicMsg ("cannot handle Element " +:+ Data n))
      end
  | t => Panic (PanicMsg ("cannot handle NodeType " +:+ nodetype_num t))
  end.

(** [for c := n.FirstChild; c != nil; c = c.NextSibling { ... }] *)
Fixpoint parse_kids (parse : nid → res Element) (as_T : Element → res Element) (fuel : nat)
    (h : dom) (c : option nid) : res (list Element) :=
  match c with
  | None => Ok []
  | Some c =>
      match fuel with
      | O => Panic OutOfFuel
      | S fuel =>
          e ← parse c;
          k ← as_T e;
          cn ← get h c;
          ks ← parse_kids parse as_T fuel h (NextSibling cn);
          Ok (k :: ks)
      end
  end.

Fixpoint parse (fuel : nat) (h : dom) (n : nid) : res Element :=
  match fuel with
  | O => Panic OutOfFuel
  | S fuel =>
      nd ← get h n;
      parse_node (λ as_T, parse_kids (parse fuel h) as_T fuel h (FirstChild nd)) (node_data nd)
  end.

(** ** jsx.go *)

(** The world: [htmlCache]. *)
Abbreviation cache := (gmap string (list Element)).

(** The result of a parse of [s], or a panic with its error. *)
Definition parsed {A} (s : string) (r : string + A) : res A :=
  match r with
  | inl err => Panic (PanicMsg ("failed to parse HTML " +:+ quote s +:+ ": " +:+ err))
  | inr a => Ok a
  end.

Section HTML.
Context (ParseFragment : string → string + (dom * list nid)).
Context (MarkdownCommon : string → string).

(** The loop that collects [toParse] and [toWalk]. *)
Fixpoint non_blank (h : dom) (elems : list nid) : res (list nid) :=
  match elems with
  | [] => Ok []
  | v :: elems =>
      n ← get h v;
      rest ← non_blank h elems;
      Ok (if is_blank (node_data n) then rest else v :: rest)
  end.

Definition HTML (s : string) : M cache (list Element) :=
  let s := Strings.TrimSpace s in
  htmlCache ← mget id;
  match htmlCache !! s with
  | Some v => mret v
  | None =>
      '(h, elems) ← mlift (parsed s (ParseFragment s));
      let fuel := S (size h) in
      toParse ← mlift (non_blank h elems);
      h ← mlift (walk fuel toParse h);
      res ← mlift (res_map (parse fuel h) toParse);
      _ ← mmodify (λ c, <[s := res]> c);
      mret res
  end.

Definition HTMLElem (s : string) : M cache Element :=
  res ← HTML s;
  match res with
  | [e] => mret e
  | _ => mpanic (PanicMsg ("expected single element result from " +:+ quote s +:+
                          "; got " +:+ pretty (length res)))
  end.

Definition Markdown (s : string) : M cache (list Element) := HTML (MarkdownCommon s).
End HTML.

(** ** Parsing as a function of the tree *)
Fixpoint parse_tree (t : itree) : res Element :=
  match t with
  | INode _ d ks => parse_node (λ as_T, res_map (λ k, e ← parse_tree k; as_T e) ks) d
  end.

(** A [parseX] function uses the loop over the children only by running it. *)
Definition parser_ext (p : parser) : Prop :=
  ∀ c1 c2 n, (∀ as_T, c1 as_T = c2 as_T) → p c1 n = p c2 n.

Lemma element_parser_ext {P} tag (cases : list (attr_case P)) on zero as_T ctor :
  parser_ext (element_parser tag cases on zero as_T ctor).
Proof. intros c1 c2 n H. unfold element_parser. by rewrite H. Qed.

Lemma parsers_ext : Forall (λ p, parser_ext p.2) parsers.
Proof. repeat (constructor; [apply element_parser_ext || by intros ? ? ? ?|]). constructor. Qed.

Lemma find_case_Some {A} (cases : list (string * A)) k a :
  find_case cases k = Some a → (k, a) ∈ cases.
Proof.
  induction cases as [|[k' a'] cases IH]; simpl; [done|]. unfold str_eqb.
  case_bool_decide; [intros [= <-]; subst; left|]. intros Hc. right. auto.
Qed.

Lemma parse_node_ext c1 c2 n :
  (∀ as_T, c1 as_T = c2 as_T) → parse_node c1 n = parse_node c2 n.
Proof.
  intros H. unfold parse_node. destruct (Type_ n); try done.
  destruct (find_case parsers (Data n)) as [p|] eqn:Hp; [|done].
  apply find_case_Some in Hp. pose proof parsers_ext as Hext.
  rewrite list.Forall_forall in Hext. by apply (Hext _ Hp).
Qed.

Lemma parse_kids_run fuel (p : nid → res Element) as_T h par prev next ks :
  siblings h par prev next ks → next = None → length ks ≤ fuel →
  parse_kids p as_T fuel h (first_of ks next) = res_map (λ k, e ← p (root k); as_T e) ks.
Proof.
  intros Hs ->. revert fuel prev Hs.
  induction ks as [|k ks IH]; intros fuel prev Hs Hf; simpl; [by destruct fuel|].
  destruct fuel as [|fuel]; simpl in *; [lia|]. destruct Hs as [Hk Hs].
  apply linked_eq in Hk as [Hk _]. destruct (p (root k)) as [e|]; simpl; [|done].
  destruct (as_T e) as [e'|]; simpl; [|done]. rewrite (get_Some _ _ _ Hk). simpl.
  rewrite (IH fuel (Some (root k))); [done|done|lia].
Qed.

Lemma parse_run t fuel h par prev next :
  linked h par prev next t → length (ids t) ≤ fuel → parse fuel h (root t) = parse_tree t.
Proof.
  revert fuel par prev next; induction t as [i d ks IH] using itree_ind; intros fuel par prev next.
  rewrite linked_eq. simpl root. simpl kids. intros [Hi Hks] Hf. simpl in Hf.
  destruct fuel as [|fuel]; [lia|]. simpl. rewrite (get_Some _ _ _ Hi). simpl.
  apply parse_node_ext. intros as_T.
  rewrite (parse_kids_run fuel _ as_T h (Some i) None None ks)
    by (done || pose proof (length_ids_of ks); lia).
  assert (Hf' : length (ids_of ks) ≤ fuel) by lia. clear Hf Hi. revert Hks Hf'.
  generalize (@None nid) at 1 as p. induction IH as [|k ks Hk _ IHks]; intros p; [done|].
  simpl. rewrite length_app. intros [Hk1 Hks] Hf.
  rewrite (Hk fuel _ _ _ Hk1) by lia. destruct (parse_tree k) as [e|]; simpl; [|done].
  destruct (as_T e) as [e'|]; simpl; [|done]. by rewrite (IHks (Some (root k)) Hks) by lia.
Qed.

(** ** HTML as a function of the string *)

(** The nodes at [elems] are detached trees [ts] with nodes of their own. *)
Definition forest (h : dom) (elems : list nid) (ts : list itree) : Prop :=
  elems = map root ts ∧ Forall (linked h None None None) ts ∧ NoDup (ids_of ts).

(** The elements [HTML] makes of parsed trees. *)
Definition html_trees (ts : list itree) : res (list Element) :=
  res_map (λ t, parse_tree (strip t)) (filter (λ t, is_blank (data t) = false) ts).

Lemma allocated_length (h : dom) (l : list nid) :
  NoDup l → (∀ i, i ∈ l → is_Some (h !! i)) → length l ≤ size h.
Proof.
  intros Hnd Hin. rewrite <-size_dom, <-(size_list_to_set (C := gset nid) l Hnd).
  apply subseteq_size. intros i Hi%elem_of_list_to_set. by apply elem_of_dom, Hin.
Qed.

Lemma strip_ids_length t : length (ids (strip t)) ≤ length (ids t).
Proof.
  induction t as [i d ks IH] using itree_ind. simpl. apply le_n_S.
  induction IH as [|k ks Hk _ IHks]; simpl; [done|].
  destruct (is_blank (data k)); simpl; rewrite ?length_app; lia.
Qed.

Lemma non_blank_run h ts :
  Forall (linked h None None None) ts →
  non_blank h (map root ts) = Ok (map root (filter (λ t, is_blank (data t) = false) ts)).
Proof.
  induction 1 as [|t ts Ht _ IH]; simpl; [done|].
  apply linked_eq in Ht as [Ht _]. rewrite (get_Some _ _ _ Ht). simpl. rewrite IH. simpl.
  rewrite filter_cons. by destruct (is_blank (data t)).
Qed.

(** The trees without the blank top ones are still a forest. *)
Lemma forest_filter h elems ts :
  forest h elems ts →
  let ts' := filter (λ t, is_blank (data t) = false) ts in
  Forall (linked h None None None) ts' ∧ NoDup (ids_of ts').
Proof.
  intros (_ & Hl & Hnd) ts'. split.
  { apply list.Forall_forall. intros t [_ Ht]%list_elem_of_filter.
    rewrite list.Forall_forall in Hl. by apply Hl. }
  subst ts'. clear Hl.
  induction ts as [|t ts IH]; [constructor|]. simpl in Hnd.
  apply list.NoDup_app in Hnd as (Hn1 & Hd & Hn2). rewrite filter_cons.
  case_decide; [|by apply IH]. simpl. apply list.NoDup_app. split_and!; [done| |by apply IH].
  intros i Hi Hi'. apply (Hd i Hi). clear -Hi'.
  induction ts as [|t ts IH]; [done|]. rewrite filter_cons in Hi'. simpl.
  case_decide; simpl in Hi'; [|apply elem_of_app; right; by apply IH].
  apply elem_of_app in Hi' as [?|?]; apply elem_of_app; [by left|right; by apply IH].
Qed.

Lemma walk_parse_run h ts :
  Forall (linked h None None None) ts → NoDup (ids_of ts) →
  ∃ h', walk (S (size h)) (map root ts) h = Ok h' ∧
    res_map (parse (S (size h)) h') (map root ts) = res_map (λ t, parse_tree (strip t)) ts.
Proof.
  intros Hl Hnd.
  assert (Hlen : length (ids_of ts) ≤ size h).
  { apply allocated_length; [done|]. intros i Hi. clear Hnd.
    induction Hl as [|t ts Ht _ IH]; [by apply elem_of_nil in Hi|].
    simpl in Hi. apply elem_of_app in Hi as [Hi|Hi]; [by eapply linked_dom|by apply IH]. }
  set (Q := map (pair (Ctx None None None)) ts).
  assert (HQ : Q.*2 = ts) by (subst Q; rewrite <-list_fmap_compose; apply list_fmap_id).
  destruct (walk_run (S (size h)) Q h) as (h' & Hrun & HQ' & _).
  { subst Q. rewrite list.Forall_fmap. exact Hl. }
  { unfold queue_ids. by rewrite HQ. }
  { unfold queue_ids. rewrite HQ. lia. }
  rewrite HQ in Hrun. exists h'. split; [done|]. subst Q. rewrite list.Forall_fmap in HQ'.
  clear Hrun HQ Hl Hnd. apply le_S in Hlen. revert HQ' Hlen.
  generalize (S (size h)) as n. intros n HQ' Hlen.
  induction HQ' as [|t ts Ht _ IH]; [done|]. simpl. simpl in Hlen. rewrite length_app in Hlen.
  rewrite <-(root_strip t). erewrite parse_run by (exact Ht || pose proof (strip_ids_length t); lia).
  destruct (parse_tree (strip t)); simpl; [|done]. by rewrite IH by lia.
Qed.

Section Spec.
Context (ParseFragment : string → string + (dom * list nid)).
Context (fragment_trees : string → string + list itree).

(** What [html.ParseFragment] promises: an error, or the top nodes of the parsed
    fragment, which have no parent and no siblings. *)
Definition ParseFragment_ok : Prop := ∀ s,
  match fragment_trees s with
  | inr ts => ∃ h elems, ParseFragment s = inr (h, elems) ∧ forest h elems ts
  | inl err => ParseFragment s = inl err
  end.

Hypothesis Hparse : ParseFragment_ok.

(** The result of [HTML] on a trimmed string that is not in the cache. *)
Definition html_trimmed (s : string) : res (list Element) :=
  ts ← parsed s (fragment_trees s);
  html_trees ts.

(** The cache holds results of [HTML]. *)
Definition coherent (c : cache) : Prop := ∀ s es, c !! s = Some es → html_trimmed s = Ok es.

Lemma HTML_run s c :
  coherent c →
  match html_trimmed (Strings.TrimSpace s) with
  | Ok es => HTML ParseFragment s c =
      Ok (es, if decide (is_Some (c !! Strings.TrimSpace s)) then c else <[Strings.TrimSpace s := es]> c)
  | Panic e => HTML ParseFragment s c = Panic e
  end.
Proof.
  intros Hc. unfold HTML. set (s' := Strings.TrimSpace s).
  mstep (eq_refl : mget (W := cache) id c = Ok (c, c)).
  destruct (c !! s') as [es|] eqn:Hs.
  { rewrite (Hc _ _ Hs). by rewrite decide_True by eauto. }
  unfold html_trimmed. specialize (Hparse s').
  destruct (fragment_trees s') as [err|ts]; simpl; [by rewrite Hparse|].
  destruct Hparse as (h & elems & Hp & Hf). rewrite Hp.
  pose proof (forest_filter _ _ _ Hf) as [Hl Hnd]. destruct Hf as (-> & Hl0 & _).
  destruct (walk_parse_run h _ Hl Hnd) as (h' & Hw & Hpr).
  mstep (mlift_run (parsed s' (inr (h, map root ts))) c _ eq_refl).
  mstep (mlift_run _ c _ (non_blank_run h ts Hl0)). mstep (mlift_run _ c _ Hw).
  unfold html_trees. rewrite <-Hpr. unfold mbind, M_bind, mlift.
  by destruct (res_map _ _) as [es|e].
Qed.

Lemma coherent_update s es c :
  coherent c → html_trimmed s = Ok es →
  coherent (if decide (is_Some (c !! s)) then c else <[s := es]> c).
Proof.
  intros Hc Hs. case_decide; [done|]. intros s' es'. rewrite lookup_insert.
  case_decide; [by intros [= <-]; subst|apply Hc].
Qed.

(** C3: [HTML] is a function of the trimmed string.  Whatever calls came before,
    it returns the elements of the parsed trees as [strip] leaves them, or panics
    exactly when one of them cannot be turned into an element; its two loops over
    the linked nodes always end; and it leaves a cache of which the same holds,
    so a repeated call returns the same elements. *)
Theorem HTML_spec s c :
  coherent c →
  match html_trimmed (Strings.TrimSpace s) with
  | Ok es => ∃ c', HTML ParseFragment s c = Ok (es, c') ∧ coherent c' ∧
               HTML ParseFragment s c' = Ok (es, c')
  | Panic e => HTML ParseFragment s c = Panic e
  end.
Proof.
  intros Hc. pose proof (HTML_run s c Hc) as Hrun.
  destruct (html_trimmed (Strings.TrimSpace s)) as [es|e] eqn:He; [|done].
  rewrite Hrun. eexists. split; [done|]. match goal with |- coherent ?x ∧ _ => set (c' := x) end.
  assert (Hc' : coherent c') by by apply coherent_update.
  split; [done|]. pose proof (HTML_run s c' Hc') as Hrun'. rewrite He in Hrun'.
  rewrite Hrun', decide_True; [done|]. subst c'. case_decide; [done|].
  rewrite lookup_insert_eq. eauto.
Qed.

(** The result of [HTMLElem], as a function of the string. *)
Definition html_elem (s : string) : res Element :=
  es ← html_trimmed (Strings.TrimSpace s);
  match es with
  | [e] => Ok e
  | _ => Panic (PanicMsg ("expected single element result from " +:+ quote s +:+
                          "; got " +:+ pretty (length es)))
  end.

(** [HTMLElem] returns the element of a fragment that has exactly one and
    panics, with the number it found, on any other; like [HTML] it does not
    depend on the calls made before. *)
Theorem HTMLElem_spec s c :
  coherent c →
  match html_elem s with
  | Ok e => ∃ c', HTMLElem ParseFragment s c = Ok (e, c') ∧ coherent c' ∧
              html_trimmed (Strings.TrimSpace s) = Ok [e]
  | Panic e => HTMLElem ParseFragment s c = Panic e
  end.
Proof.
  intros Hc. unfold html_elem, HTMLElem. pose proof (HTML_run s c Hc) as Hrun.
  destruct (html_trimmed (Strings.TrimSpace s)) as [es|e] eqn:He; simpl.
  - mstep Hrun. destruct es as [|e [|]]; try done. eexists. split_and!; [done| |done].
    by apply coherent_update.
  - unfold mbind, M_bind. by rewrite Hrun.
Qed.
End Spec.

(** ** White space between the items of a list *)

(** Parsing a row of children stops at the first one that fails its assertion. *)
Lemma res_map_stop {A B} (f : A → res B) pre x post e :
  Forall (λ y, ∃ z, f y = Ok z) pre → f x = Panic e → res_map f (pre ++ x :: post) = Panic e.
Proof.
  intros Hpre Hx. induction Hpre as [|y pre [z Hz] _ IH]; simpl; [by rewrite Hx|].
  rewrite Hz. simpl. by rewrite IH.
Qed.

Lemma blank_parse t : is_blank (data t) = true → parse_tree t = Ok (ES (Data (data t))).
Proof.
  destruct t as [i d ks]. unfold is_blank. simpl. intros [Ht _]%andb_true_iff.
  apply bool_decide_eq_true in Ht. unfold parse_node. by rewrite Ht.
Qed.

(** A tree laid out in a heap has no more nodes than the heap. *)
Lemma linked_ids_size h par prev next t :
  linked h par prev next t → NoDup (ids t) → length (ids t) ≤ size h.
Proof. intros Hl Hnd. apply allocated_length; [done|]. intros i Hi. by eapply linked_dom. Qed.

(** A list [<ul>] with a second blank child among its items, once the first one
    is gone. *)
Lemma ul_blank_parse i da ns pre w mid w2 post :
  Forall (λ k, is_blank (data k) = false) pre → is_blank (data w) = true →
  is_blank (data w2) = true →
  Forall (λ k, ∃ e, (x ← parse_tree k; as_RendersLi x) = Ok e) (map strip pre ++ mid) →
  parse_tree (strip (INode i (MkData ElementNode da "ul" ns []) (pre ++ w :: mid ++ w2 :: post))) =
  Panic TypeAssertion.
Proof.
  intros Hpre Hw Hw2 Hok. cbn [strip]. rewrite strip_kids_blank, app_assoc by done.
  transitivity (kids ← res_map (λ k, e ← parse_tree k; as_RendersLi e)
    ((map strip pre ++ mid) ++ w2 :: post); Ok (El.Ul None kids)); [reflexivity|].
  rewrite (res_map_stop _ (map strip pre ++ mid) w2 post TypeAssertion); [done|done|].
  by rewrite (blank_parse w2).
Qed.

(** C37: only the first blank child of a node is removed, so a list [<ul>] whose
    items are separated by white space in two places or more makes [HTML] panic.
    On the nodes of such a list [walk_children], run as [HTML] runs it, ends at
    the first blank child: it queues the children up to that one, and the list it
    leaves still has every child after it, the second blank one included.  When
    the items before the second blank one are fine on their own, that white space
    then fails the assertion [parse(c).(react.RendersLi)], whatever calls of
    [HTML] came before. *)
Theorem ul_second_blank_panics ParseFragment fragment_trees s c i da ns pre w mid w2 post :
  let d := MkData ElementNode da "ul" ns [] in
  ParseFragment_ok ParseFragment fragment_trees → coherent fragment_trees c →
  fragment_trees (Strings.TrimSpace s) = inr [INode i d (pre ++ w :: mid ++ w2 :: post)] →
  Forall (λ k, is_blank (data k) = false) pre → is_blank (data w) = true →
  is_blank (data w2) = true →
  Forall (λ k, ∃ e, (x ← parse_tree k; as_RendersLi x) = Ok e) (map strip pre ++ mid) →
  HTML ParseFragment s c = Panic TypeAssertion ∧
  ∃ h vn h', ParseFragment (Strings.TrimSpace s) = inr (h, [i]) ∧ get h i = Ok vn ∧
    walk_children (size h) i (FirstChild vn) [] h = Ok (map root pre ++ [root w], h') ∧
    linked h' None None None (INode i d (pre ++ mid ++ w2 :: post)).
Proof.
  intros d Hparse Hc Hts Hpre Hw Hw2 Hok. split.
  - pose proof (HTML_run _ _ Hparse s c Hc) as Hrun.
    assert (html_trimmed fragment_trees (Strings.TrimSpace s) = Panic TypeAssertion) as He.
    { unfold html_trimmed. rewrite Hts.
      change (res_map (λ t, parse_tree (strip t)) [INode i d (pre ++ w :: mid ++ w2 :: post)] =
        Panic TypeAssertion). cbn [res_map]. subst d.
      by rewrite (ul_blank_parse i da ns pre w mid w2 post). }
    by rewrite He in Hrun.
  - specialize (Hparse (Strings.TrimSpace s)). rewrite Hts in Hparse.
    destruct Hparse as (h & elems & Hp & Hel & Hl & Hnd). simpl in Hel, Hnd. subst elems.
    apply list.Forall_cons in Hl as [Hl _]. rewrite app_nil_r in Hnd.
    pose proof (linked_ids_size _ _ _ _ _ Hl Hnd) as Hlen. pose proof Hl as [Hi _]%linked_eq.
    destruct (walk_children_blank (size h) h None None None i d [] pre w (mid ++ w2 :: post) [])
      as (h' & Hrun & Hl' & _); [done|done|done|done| |].
    { pose proof (length_ids_of (pre ++ w :: mid ++ w2 :: post)). simpl in Hlen.
      rewrite length_app in H. simpl in H. lia. }
    exists h. eexists. exists h'. split; [done|]. split; [exact (get_Some _ _ _ Hi)|]. split; done.
Qed.
End Jsx.
