(* ===== verification/JsxCss.v ===== *)
(** * The style attribute

    [parseCSS] of [jsx/gen_jsx_cssGen.go] against the CSS struct it fills:
    reading back a printed style gives the style, and a style that ends with a
    semicolon, which CSS allows, is refused. *)

From S2P Require Import Prelude GoLib React Elements HtmlNode JsxWalk Jsx.

(** The 15 properties: their name in a style, and the field. *)
Definition css_props : list (string * (CSS → string)) := [
  ("float", Float); ("font-size", FontSize); ("font-style", FontStyle); ("height", Height);
  ("left", Left); ("margin-top", MarginTop); ("max-height", MaxHeight); ("min-height", MinHeight);
  ("overflow", Overflow); ("overflow-y", OverflowY); ("position", Position); ("resize", Resize);
  ("top", Top); ("width", Width); ("z-index", ZIndex)].

Definition css_text (c : CSS) : string :=
  Strings.Join (map (λ p, p.1 +:+ ":" +:+ p.2 c) css_props) ";".

(** A value [css_text] can print: no separator in it, nothing to trim around it. *)
Definition css_value_ok (v : string) : Prop :=
  str_has ";"%char v = false ∧ str_has ":"%char v = false ∧
  Strings.Trim (Strings.TrimSpace v) dquote = v.


Lemma css_part_ok s css k v set :
  str_has ":"%char k = false → css_value_ok v → Strings.TrimSpace k = k →
  find_case css_cases k = Some set →
  css_part s css (k +:+ ":" +:+ v) = Ok (set v css).
Proof.
  intros Hk (_ & Hv & Ht) Hkt Hset. unfold css_part.
  change (k +:+ ":" +:+ v) with (k +:+ String ":"%char v).
  rewrite Strings.Split_sep, Strings.Split_one by done. by rewrite Hkt, Hset, Ht.
Qed.

(** C38: round trip.  A style printed as [name:value] pairs separated by
    semicolons, with values that contain no separator and no surrounding white
    space or quotes, is read back as it was. *)
Theorem parseCSS_text c :
  Forall (λ p, css_value_ok (p.2 c)) css_props → parseCSS (css_text c) = Ok c.
Proof.
  intros Hok. unfold parseCSS, css_text. rewrite Strings.Split_Join.
  - unfold css_props in *. cbn [map].
    repeat (apply Forall_cons_1 in Hok as [? Hok]).
    repeat (cbn [css_parts]; erewrite css_part_ok by (done || reflexivity); cbn [mbind res_bind]).
    by destruct c.
  - done.
  - unfold css_props in *. cbn [map].
    repeat (apply Forall_cons_1 in Hok as [[? _] Hok]; constructor;
      [rewrite !str_has_app; cbn [snd fst]; simpl in *; done|]). constructor.
Qed.

Lemma css_parts_empty s css parts : ∃ msg, css_parts s css (parts ++ [""]) = Panic (PanicMsg msg).
Proof.
  revert css; induction parts as [|p parts IH]; intros css; simpl; [by eexists|].
  unfold css_part at 1. destruct (Strings.Split p _) as [|k [|v [|]]]; try by eexists.
  destruct (find_case css_cases (Strings.TrimSpace k)); [apply IH|by eexists].
Qed.

(** A style that ends with a semicolon is refused, whatever comes before:
    the empty declaration after it is not a key and a value, and [parseCSS]
    panics. *)
Theorem parseCSS_final_semicolon s : ∃ msg, parseCSS (s +:+ ";") = Panic (PanicMsg msg).
Proof. unfold parseCSS. rewrite Strings.Split_last. apply css_parts_empty. Qed.

Lemma parseCSS_text_witness :
  parseCSS (css_text (css_MarginTop "0px" (css_OverflowY "hidden" css_zero))) =
  Ok (css_MarginTop "0px" (css_OverflowY "hidden" css_zero)).
Proof. apply (parseCSS_text _). repeat (constructor; [repeat split; reflexivity|]). constructor. Defined.
