(* ===== verification/JsxGen.v ===== *)
(** * jsx against its generator

    [coreGen] writes [jsx/gen_jsx_coreGen.go] from the same tables as the
    elements.  This file ties the 44 [parseX] functions of [Jsx.v], translated
    from that file, to the declarations [dogen] computes from the tables. *)

From S2P Require Import Prelude GoLib React Elements CoreGen HtmlNode JsxWalk Jsx.

Section JsxGen.
Context {RV : ReactValues}.

(** The value an attribute's [HTMLConvertor] gives for the text [s]. *)
Definition convert (conv : string) (s : string) : res fval :=
  if str_eqb conv "a.Val" then Ok (FString s)
  else if str_eqb conv "parseBool(a.Val)" then Ok (FBool (parseBool s))
  else if str_eqb conv "parseCSS(a.Val)" then c ← parseCSS s; Ok (FCSS (Some c))
  else Panic (PanicMsg "no such convertor").

(** The assertion on the children that a type name stands for. *)
Definition assertion (t : string) : Element → res Element :=
  if str_eqb t "react.Element" then as_Element
  else if str_eqb t "*react.OptionElem" then as_OptionElem
  else if str_eqb t "react.RendersLi" then as_RendersLi
  else λ _, Panic TypeAssertion.

(** A [parseX] function: the element it makes, how it sets shared props, the
    props it starts from, and its switch. *)
Record core_parser := CoreParser {
  cp_elem : core_elem;
  cp_on : (El.HTMLProps → El.HTMLProps) → ce_Props cp_elem → ce_Props cp_elem;
  cp_zero : ce_Props cp_elem;
  cp_cases : list (attr_case (ce_Props cp_elem));
}.

Definition plain_parser (n : string) (ctor : option El.HTMLProps → list Element → Element)
    : core_parser :=
  CoreParser (CoreElem n html_fields ctor) on_self El.html_zero html_cases.

(** The [parseX] function the template writes for [d] with these parts. *)
Definition parser_of (d : Gen.Decl) (p : core_parser) : parser :=
  match Gen.d_kids d with
  | Some t => element_parser (Gen.d_React d) (cp_cases p) (cp_on p) (cp_zero p) (assertion t)
                (ce_ctor (cp_elem p))
  | None => empty_parser (Gen.d_React d) (cp_cases p) (cp_on p) (cp_zero p)
              (λ vp, ce_ctor (cp_elem p) vp [])
  end.

(** A case assigns the converted text to its field, and to no other. *)
Definition case_assigns (p : core_parser) (c : string * string * string)
    (k : attr_case (ce_Props (cp_elem p))) : Prop :=
  let '(key, fld, conv) := c in
  key = k.1 ∧ ∀ s vp,
    match convert conv s with
    | Ok v => ∃ vp', k.2 s vp = Ok vp' ∧ field (ce_fields (cp_elem p) vp') fld = Some v ∧
        ∀ f, f ≠ fld → field (ce_fields (cp_elem p) vp') f = field (ce_fields (cp_elem p) vp) f
    | Panic e => k.2 s vp = Panic e
    end.

Definition parser_generated (d : Gen.Decl) (p : core_parser) : Prop :=
  Gen.d_Name d = ce_Name (cp_elem p) ∧
  find_case parsers (Gen.d_React d) = Some (parser_of d p) ∧
  Forall2 (case_assigns p) (Gen.d_parse d) (cp_cases p).

Definition core_parsers : list core_parser := [
  CoreParser (CoreElem "A" (λ p, [("Href", FString (El.A_Href p)); ("Target", FString (El.A_Target p)); ("Title", FString (El.A_Title p))] ++ html_fields (El.A_html p)) El.A)
    El.A_on_html El.A_zero A_cases;
  plain_parser "Abbr" El.Abbr;
  plain_parser "Article" El.Article;
  plain_parser "Aside" El.Aside;
  plain_parser "B" El.B;
  plain_parser "Br" El.Br;
  CoreParser (CoreElem "Button" (λ p, [("Type", FString (El.Button_Type p))] ++ html_fields (El.Button_html p)) El.Button)
    El.Button_on_html El.Button_zero Button_cases;
  plain_parser "Caption" El.Caption;
  plain_parser "Code" El.Code;
  plain_parser "Div" El.Div;
  plain_parser "Em" El.Em;
  plain_parser "Footer" El.Footer;
  plain_parser "Form" El.Form;
  plain_parser "H1" El.H1;
  plain_parser "H2" El.H2;
  plain_parser "H3" El.H3;
  plain_parser "H4" El.H4;
  plain_parser "H5" El.H5;
  plain_parser "H6" El.H6;
  plain_parser "Header" El.Header;
  plain_parser "Hr" (λ p _, El.Hr p);
  plain_parser "I" El.I;
  CoreParser (CoreElem "IFrame" (λ p, [("SrcDoc", FString (El.IFrame_SrcDoc p))] ++ html_fields (El.IFrame_html p)) El.IFrame)
    El.IFrame_on_html El.IFrame_zero IFrame_cases;
  CoreParser (CoreElem "Img" (λ p, [("Alt", FString (El.Img_Alt p)); ("Src", FString (El.Img_Src p))] ++ html_fields (El.Img_html p)) El.Img)
    El.Img_on_html El.Img_zero Img_cases;
  CoreParser (CoreElem "Input" (λ p, [("Placeholder", FString (El.Input_Placeholder p)); ("Type", FString (El.Input_Type p)); ("Value", FString (El.Input_Value p))] ++ html_fields (El.Input_html p)) El.Input)
    El.Input_on_html El.Input_zero Input_cases;
  CoreParser (CoreElem "Label" (λ p, [("For", FString (El.Label_For p))] ++ html_fields (El.Label_html p)) El.Label)
    El.Label_on_html El.Label_zero Label_cases;
  plain_parser "Li" El.Li;
  plain_parser "Main" El.Main;
  plain_parser "Nav" El.Nav;
  CoreParser (CoreElem "Option" (λ p, [("Value", FString (El.Option_Value p))] ++ html_fields (El.Option_html p)) El.Option)
    El.Option_on_html El.Option_zero Option_cases;
  plain_parser "P" El.P;
  plain_parser "Pre" El.Pre;
  CoreParser (CoreElem "Select" (λ p, [("Value", FString (El.Select_Value p))] ++ html_fields (El.Select_html p)) El.Select)
    El.Select_on_html El.Select_zero Select_cases;
  plain_parser "Span" El.Span;
  plain_parser "Strike" El.Strike;
  plain_parser "Sup" El.Sup;
  plain_parser "Table" El.Table;
  plain_parser "Tbody" El.Tbody;
  plain_parser "Td" El.Td;
  CoreParser (CoreElem "TextArea" (λ p, [("Placeholder", FString (El.TextArea_Placeholder p)); ("Value", FString (El.TextArea_Value p))] ++ html_fields (El.TextArea_html p)) El.TextArea)
    El.TextArea_on_html El.TextArea_zero TextArea_cases;
  plain_parser "Th" El.Th;
  plain_parser "Thead" El.Thead;
  plain_parser "Tr" El.Tr;
  plain_parser "Ul" El.Ul].

(** Two structs that differ in the field [fld] only. *)
Lemma field_change fs fs' fld f :
  Forall2 (λ a b, a.1 = b.1 ∧ (a.1 = fld ∨ a.2 = b.2)) fs' fs → f ≠ fld →
  field fs' f = field fs f.
Proof.
  intros H Hf. induction H as [|[n v] [n' v'] fs' fs [Hn Hv] _ IH]; simpl in *; [done|].
  subst n'. unfold str_eqb. case_bool_decide; [|done]. subst n. f_equal. naive_solver.
Qed.

Ltac solve_case :=
  split; [reflexivity|]; intros s vp; unfold convert; cbn -[field parseCSS parseBool];
  try (destruct (parseCSS s) as [c|e]; cbn -[field parseCSS parseBool]; [|reflexivity]);
  eexists; split; [reflexivity|]; split; [reflexivity|];
  intros f; apply field_change;
  repeat (constructor; [split; [reflexivity|]; (right; reflexivity) || (left; reflexivity)|]);
  constructor.

(** The cases of an element with no attributes of its own. *)
Definition html_parse : list (string * string * string) := [
  ("aria-expanded", "AriaExpanded", "parseBool(a.Val)");
  ("aria-haspopup", "AriaHasPopup", "parseBool(a.Val)");
  ("aria-labelledby", "AriaLabelledBy", "a.Val");
  ("class", "ClassName", "a.Val");
  ("id", "ID", "a.Val");
  ("key", "Key", "a.Val");
  ("role", "Role", "a.Val");
  ("style", "Style", "parseCSS(a.Val)")].

Lemma plain_cases n ctor : Forall2 (case_assigns (plain_parser n ctor)) html_parse html_cases.
Proof. repeat (constructor; [solve_case|]). constructor. Qed.

Lemma parsers_as_generated :
  ∃ decls, Gen.core_decls = Ok decls ∧ map fst parsers = map Gen.d_React decls ∧
    Forall2 parser_generated decls core_parsers.
Proof.
  eexists. split; [vm_compute; reflexivity|]. split; [reflexivity|].
  unfold core_parsers. repeat (constructor; [split_and!; [reflexivity|reflexivity|]|]); [..|constructor].
  all: first [exact (plain_cases _ _) | repeat (constructor; [solve_case|]); constructor].
Qed.

(** C21: the JSX parser agrees with the generator.  The switch of [parse] has one
    case per element of the generator's table, keyed by its React name and in the
    same order; the function behind it is the one the template writes: same tag,
    same assertion on the children, same constructor, and one case per attribute
    that HTML can give, which assigns the converted text to the field of that
    attribute and changes no other field. *)
Theorem parsers_generated :
  ∃ decls, Gen.core_decls = Ok decls ∧ map fst parsers = map Gen.d_React decls ∧
    Forall2 parser_generated decls core_parsers.
Proof. exact parsers_as_generated. Qed.

(** ** Parsed elements are inert *)

(** No event handler and no component anywhere in the element. *)
Definition quiet (o : object) : Prop := ∀ k h, obj_get o k ≠ JFunc h.
#[local] Unset Elimination Schemes.
Inductive inert : Element → Prop :=
  | inert_S s : inert (ES s)
  | inert_Elem t o es : quiet o → Forall inert es → inert (Elem (Tag t) (JObject o) es).
#[local] Set Elimination Schemes.

Lemma inert_ind (P : Element → Prop) :
  (∀ s, P (ES s)) →
  (∀ t o es, quiet o → Forall P es → P (Elem (Tag t) (JObject o) es)) → ∀ e, inert e → P e.
Proof.
  intros HS HE. fix IH 2. intros e [s|t o es Ho Hes]; [apply HS|]. apply HE; [done|].
  induction Hes as [|e' es He' _ IHes]; constructor; [by apply IH|done].
Qed.

Definition no_handlers (fs : fields) : Prop := ∀ n h, field fs n ≠ Some (FHandler (Some h)).

Lemma quiet_set o k v : quiet o → (∀ h, v ≠ JFunc h) → quiet (obj_set o k v).
Proof.
  intros Ho Hv k' h. destruct (decide (k' = k)) as [->|Hne].
  - by rewrite obj_get_set_eq.
  - by rewrite obj_get_set_ne.
Qed.

Lemma exec_stmt_quiet fs s o o' :
  no_handlers fs → quiet o → exec_stmt fs s o = Some o' → quiet o'.
Proof.
  intros Hfs Ho. destruct s as [|f pre|f k|f k|f k|f k]; simpl.
  - pose proof (Hfs "Ref") as Hf. destruct (field fs "Ref") as [[]|]; try done.
    destruct h as [h|]; [by destruct (Hf h)|]. by intros [= <-].
  - destruct (field fs f) as [[]|]; try done. intros [= <-]. revert o Ho.
    induction ds as [|[dk dv] ds IH]; intros o Ho; simpl; [done|]. apply IH. by apply quiet_set.
  - destruct (field fs f) as [[]|]; try done. intros [= <-]. unfold El.assign_nonempty.
    case_bool_decide; [done|]. by apply quiet_set.
  - pose proof (Hfs f) as Hf. destruct (field fs f) as [[]|]; try done.
    destruct h as [h|]; [by destruct (Hf h)|]. by intros [= <-].
  - destruct (field fs f) as [[]|]; try done. intros [= <-]. apply quiet_set; [done|]. by destruct c.
  - destruct (field fs f) as [[]|]; try done; intros [= <-]; apply quiet_set; try done. by destruct o0.
Qed.

Lemma exec_stmts_quiet fs ss o o' :
  no_handlers fs → quiet o → exec_stmts fs ss o = Some o' → quiet o'.
Proof.
  intros Hfs. revert o; induction ss as [|s ss IH]; intros o Ho; simpl; [by intros [= <-]|].
  destruct (exec_stmt fs s o) as [o1|] eqn:Hs; [|done]. apply IH. by eapply exec_stmt_quiet.
Qed.

(** The element of a constructor whose props hold no handler. *)
Lemma ctor_inert d e (vp : option (ce_Props e)) es :
  generated_as d e → (∀ p, vp = Some p → no_handlers (ce_fields e p)) → Forall inert es →
  inert (ce_ctor e vp es).
Proof.
  intros (_ & _ & Hrun) Hvp Hes. specialize (Hrun vp es). unfold run_decl in Hrun.
  destruct (match ce_fields e <$> vp with Some fs => _ | None => _ end) as [o|] eqn:Ho; [|done].
  injection Hrun as <-. constructor.
  - destruct vp as [p|]; simpl in Ho; [|by injection Ho as <-].
    eapply exec_stmts_quiet; [by apply Hvp| |exact Ho]. by intros k h.
  - destruct (str_eqb _ _); [constructor|done].
Qed.

(** Setting [DataSet] leaves the other fields alone, and the zero props have no
    handlers. *)
Definition parser_start (p : core_parser) : Prop :=
  no_handlers (ce_fields (cp_elem p) (cp_zero p)) ∧
  ∀ ds vp, no_handlers (ce_fields (cp_elem p) vp) →
    no_handlers (ce_fields (cp_elem p) (cp_on p (El.with_DataSet ds) vp)).

Lemma field_elem fs n v : field fs n = Some v → (n, v) ∈ fs.
Proof.
  induction fs as [|[m w] fs IH]; simpl; [done|]. unfold str_eqb.
  case_bool_decide; [intros [= <-]; subst; left|]. intros Hf. right. auto.
Qed.

Lemma no_handlers_change fs fs' fld :
  Forall2 (λ a b, a.1 = b.1 ∧ (a.1 = fld ∨ a.2 = b.2)) fs' fs →
  (∀ h, field fs' fld ≠ Some (FHandler (Some h))) → no_handlers fs → no_handlers fs'.
Proof.
  intros H Hfld Hfs n h. destruct (decide (n = fld)) as [->|Hne]; [apply Hfld|].
  rewrite (field_change fs fs' fld n) by done. apply Hfs.
Qed.

Lemma core_parsers_start : Forall parser_start core_parsers.
Proof.
  unfold core_parsers. repeat (constructor; [split; [|intros ds vp Hvp]|]); [..|constructor].
  all: first
    [ refine (no_handlers_change _ _ "DataSet" _ _ Hvp); [|by intros h];
      repeat (constructor; [split; [reflexivity|]; (right; reflexivity) || (left; reflexivity)|]);
      constructor
    | intros n h Hf%field_elem; cbn in Hf;
      repeat (apply elem_of_cons in Hf as [Hf|Hf]; [discriminate Hf|]); by apply elem_of_nil in Hf ].
Qed.

(** A case assigns text, a boolean or a style: never a handler. *)
Lemma convert_no_handler conv s v h : convert conv s = Ok v → v ≠ FHandler (Some h).
Proof.
  unfold convert. repeat case_match; try done; try by intros [= <-].
  by intros (c & _ & [= <-])%bind_Ok.
Qed.

Lemma case_no_handlers p c k s vp vp' :
  case_assigns p c k → no_handlers (ce_fields (cp_elem p) vp) → k.2 s vp = Ok vp' →
  no_handlers (ce_fields (cp_elem p) vp').
Proof.
  destruct c as [[key fld] conv]. intros [_ Hset] Hvp Hk. specialize (Hset s vp).
  destruct (convert conv s) as [v|e] eqn:Hc; [|congruence].
  destruct Hset as (vp1 & Hk1 & Hfld & Hother). rewrite Hk in Hk1. injection Hk1 as <-.
  intros n h. destruct (decide (n = fld)) as [->|Hne].
  - rewrite Hfld. intros [= Hv]. by eapply convert_no_handler.
  - rewrite Hother by done. apply Hvp.
Qed.

Lemma attr_loop_no_handlers d p tag attrs vp ds vp' ds' :
  parser_generated d p → no_handlers (ce_fields (cp_elem p) vp) →
  attr_loop tag (cp_cases p) attrs vp ds = Ok (vp', ds') →
  no_handlers (ce_fields (cp_elem p) vp').
Proof.
  intros (_ & _ & Hcases). revert vp ds.
  induction attrs as [|a attrs IH]; intros vp ds Hvp; simpl; [by intros [= <- <-]|].
  destruct (find_case (cp_cases p) (Key a)) as [set|] eqn:Hfc.
  - intros (vp1 & Hset & Hrest)%bind_Ok. eapply IH; [|exact Hrest].
    apply find_case_Some, list_elem_of_lookup in Hfc as [i Hi].
    destruct (Forall2_lookup_r _ _ _ _ _ Hcases Hi) as (c & _ & Hc).
    by eapply (case_no_handlers p c (Key a, set)).
  - destruct (Strings.HasPrefix (Key a) "data-"); [|done]. by apply IH.
Qed.

Lemma parse_attrs_no_handlers d p attrs vp :
  parser_generated d p → parser_start p →
  parse_attrs (Gen.d_React d) (cp_cases p) (cp_on p) (cp_zero p) attrs = Ok (Some vp) →
  no_handlers (ce_fields (cp_elem p) vp).
Proof.
  intros Hgen [Hzero Hds]. unfold parse_attrs. destruct attrs as [|a attrs]; [done|].
  intros ([vp1 ds] & Hloop & [= <-])%bind_Ok. apply Hds.
  by eapply attr_loop_no_handlers.
Qed.

(** Every function of the switch, with what is known of it. *)
Lemma parsers_known tag px :
  find_case parsers tag = Some px →
  ∃ d p, px = parser_of d p ∧ parser_generated d p ∧ parser_start p ∧ generated_as d (cp_elem p).
Proof.
  intros Hpx. destruct parsers_as_generated as (decls & Hd & Hnames & Hgen).
  destruct elements_as_generated as (decls' & Hd' & Hels). rewrite Hd in Hd'. injection Hd' as <-.
  change core_elems with (map cp_elem core_parsers) in Hels.
  apply find_case_Some in Hpx as Hin.
  assert (tag ∈ map Gen.d_React decls) as (d & -> & (i & Hi)%list_elem_of_lookup)%list_elem_of_fmap.
  { rewrite <-Hnames. apply list_elem_of_fmap. exists (tag, px). split; [reflexivity|exact Hin]. }
  destruct (Forall2_lookup_l _ _ _ _ _ Hgen Hi) as (p & Hp & Hg).
  destruct (Forall2_lookup_l _ _ _ _ _ Hels Hi) as (e & He & Hge).
  rewrite list_lookup_fmap, Hp in He. injection He as <-.
  exists d, p. split; [|split; [exact Hg|split; [|exact Hge]]].
  - destruct Hg as (_ & Hf & _). rewrite Hf in Hpx. injection Hpx as <-. reflexivity.
  - exact (Forall_lookup_1 _ _ _ _ core_parsers_start Hp).
Qed.

Lemma assertion_same t e e' : assertion t e = Ok e' → e' = e.
Proof.
  unfold assertion, as_Element, as_OptionElem, as_RendersLi. repeat case_match; naive_solver.
Qed.

Lemma parser_inert px children n e :
  (∀ t es, children (assertion t) = Ok es → Forall inert es) →
  (∃ d p, px = parser_of d p ∧ parser_generated d p ∧ parser_start p ∧ generated_as d (cp_elem p)) →
  px children n = Ok e → inert e.
Proof.
  intros Hch (d & p & -> & Hgen & Hstart & Hel). unfold parser_of.
  destruct (Gen.d_kids d) as [t|].
  - intros (vp & Hvp & (es & Hes & [= <-])%bind_Ok)%bind_Ok. eapply ctor_inert; [exact Hel| |eauto].
    intros q ->. by eapply parse_attrs_no_handlers.
  - intros (vp & Hvp & [= <-])%bind_Ok. eapply ctor_inert; [exact Hel| |constructor].
    intros q ->. by eapply parse_attrs_no_handlers.
Qed.

Lemma parse_tree_inert t e : parse_tree t = Ok e → inert e.
Proof.
  revert e. induction t as [i d ks IH] using itree_ind. intros e. simpl. unfold parse_node.
  destruct (Type_ d); try done; [by intros [= <-]; constructor|].
  destruct (find_case parsers (Data d)) as [px|] eqn:Hpx; [|done].
  apply parser_inert; [|by eapply parsers_known].
  intros t es Hes%res_map_Forall2. clear -IH Hes. revert IH.
  induction Hes as [|k e' ks es Hk _ IHes]; intros HF; [constructor|].
  apply Forall_cons_1 in HF as [HP HF]. constructor; [|by apply IHes].
  apply bind_Ok in Hk as (x & Hx & Ha). apply assertion_same in Ha as ->. by apply HP.
Qed.

(** C34: what [HTML] makes of a fragment is inert: host elements and text only,
    without any event handler, whatever attributes the fragment has.  A fragment
    can style the page, it cannot act on it. *)
Theorem HTML_inert ts es : html_trees ts = Ok es → Forall inert es.
Proof.
  unfold html_trees. intros H%res_map_Forall2.
  induction H as [|t e ts' es He _ IH]; constructor; [by eapply parse_tree_inert|done].
Qed.
End JsxGen.
