(* ===== verification/CssGen.v ===== *)
(** * cssGen: the generator of the CSS struct

    Models [cmd/cssGen/main.go] of [src/_vendor/src/myitcv.io/react]: the table of
    style properties, the loop that fills it in, and the files it writes,
    [gen_react_cssGen.go] (the struct [CSS] and its method [hack]) and
    [jsx/gen_jsx_cssGen.go] ([parseCSS]).  What the templates write for a property is
    given by [gen_fields], [gen_hack] and [gen_cases], in terms of the fields of
    the struct; the theorems are that the definitions translated from the
    generated files are these. *)

From S2P Require Import Prelude GoLib React Elements CoreGen GoGenerate HtmlNode JsxWalk Jsx.

Module CssGen.
Record typ := MkTyp { Name : string; React : string; HTML : string; Type_ : string }.
Definition typ0 : typ := MkTyp "" "" "" "".
Definition html (v : string) : typ := MkTyp "" "" v "".

Definition attrs : gmap string typ := list_to_map [
  ("Float", typ0);
  ("FontSize", html "font-size");
  ("FontStyle", html "font-style");
  ("Height", typ0);
  ("MaxHeight", html "max-height");
  ("MarginTop", html "margin-top");
  ("OverflowY", html "overflow-y");
  ("MinHeight", html "min-height");
  ("Overflow", typ0);
  ("Resize", typ0);
  ("Width", typ0);
  ("Position", typ0);
  ("Top", typ0);
  ("Left", typ0);
  ("ZIndex", html "z-index")].

Definition cssGenCmd : string := "cssGen".

(** The body of the loop over [attrs]. *)
Definition fill (n : string) (a : typ) : typ :=
  MkTyp n
    (if str_eqb (React a) "" then Gen.lowerInitial n else React a)
    (if str_eqb (HTML a) "" then Strings.ToLower n else HTML a)
    (if str_eqb (Type_ a) "" then "string" else Type_ a).

(** The loop, in the order [range] visits the map.  Every [*typ] of the map is
    its own, so filling one leaves the others alone. *)
Definition fill_all (range_map : ∀ A : Type, gmap string A → list (string * A))
    (m : gmap string typ) : gmap string typ :=
  foldl (λ m p, alter (fill p.1) p.1 m) m (range_map typ m).

(** [write] for the two templates: the name of the file, and the entries of the
    table in the order the template visits them. *)
Definition main (range_map : ∀ A : Type, gmap string A → list (string * A)) : list (string * list typ) :=
  let ts := Gen.template_range (fill_all range_map attrs) in
  [(NameFile "react" cssGenCmd, ts);
   (Filepath.Join ["jsx"; NameFile "jsx" cssGenCmd], ts)].

(** ** What the templates write *)

(** The selectors of the struct: reading a field and assigning to it. *)
Definition selectors : list (string * ((CSS → string) * (string → CSS → CSS))) := [
  ("Float", (Float, css_Float)); ("FontSize", (FontSize, css_FontSize));
  ("FontStyle", (FontStyle, css_FontStyle)); ("Height", (Height, css_Height));
  ("Left", (Left, css_Left)); ("MarginTop", (MarginTop, css_MarginTop));
  ("MaxHeight", (MaxHeight, css_MaxHeight)); ("MinHeight", (MinHeight, css_MinHeight));
  ("Overflow", (Overflow, css_Overflow)); ("OverflowY", (OverflowY, css_OverflowY));
  ("Position", (Position, css_Position)); ("Resize", (Resize, css_Resize));
  ("Top", (Top, css_Top)); ("Width", (Width, css_Width)); ("ZIndex", (ZIndex, css_ZIndex))].

(** The fields: their names and types. *)
Definition gen_fields (ts : list typ) : list (string * string) := map (λ t, (Name t, Type_ t)) ts.

(** [o.Set("{{.React}}", c.{{.Name}})] for every entry. *)
Definition gen_hack `{ReactValues} (ts : list typ) (c : CSS) : option object :=
  foldl (λ o t, o ← o; sel ← find_case selectors (Name t); Some (obj_set o (React t) (JStr (sel.1 c))))
    (Some []) ts.

(** [case "{{.HTML}}": res.{{.Name}} = v] for every entry. *)
Definition gen_cases (ts : list typ) : option (list (string * (string → CSS → CSS))) :=
  mapM (λ t, sel ← find_case selectors (Name t); Some (HTML t, sel.2)) ts.

(** ** The order of the loop *)
Lemma fill_list_lookup l (m : gmap string typ) n :
  NoDup l.*1 →
  foldl (λ m (p : string * typ), alter (fill p.1) p.1 m) m l !! n =
  if decide (n ∈ l.*1) then fill n <$> m !! n else m !! n.
Proof.
  revert m. induction l as [|[k a] l IH]; intros m; cbn [foldl fst fmap list_fmap].
  - intros _. by rewrite decide_False by apply not_elem_of_nil.
  - intros [Hk Hl]%list.NoDup_cons. rewrite IH, lookup_alter by done.
    destruct (decide (k = n)) as [->|Hne].
    + by rewrite (decide_False (P := n ∈ l.*1)), decide_True by (done || left).
    + apply decide_ext. rewrite elem_of_cons. naive_solver.
Qed.

Lemma fill_all_lookup r m : Gen.range_ok r → ∀ n, fill_all r m !! n = fill n <$> m !! n.
Proof.
  intros Hr n. pose proof (Hr typ m) as Hp. unfold fill_all.
  rewrite fill_list_lookup by (rewrite Hp; apply NoDup_fst_map_to_list).
  case_decide as Hn; [done|]. destruct (m !! n) as [a|] eqn:Ha; [|done].
  destruct Hn. rewrite Hp. apply list_elem_of_fmap. exists (n, a). split; [done|].
  by apply elem_of_map_to_list.
Qed.

Lemma main_order r r' : Gen.range_ok r → Gen.range_ok r' → main r = main r'.
Proof.
  intros Hr Hr'. unfold main. replace (fill_all r attrs) with (fill_all r' attrs); [done|].
  apply map_eq. intros n. by rewrite !fill_all_lookup.
Qed.

(** A selector reads what was assigned to it, and assigning changes no other. *)
Lemma selectors_fields f f' sel sel' v c :
  find_case selectors f = Some sel → find_case selectors f' = Some sel' →
  sel.1 (sel'.2 v c) = if decide (f = f') then v else sel.1 c.
Proof.
  intros Hf Hf'. apply find_case_Some in Hf, Hf'. unfold selectors in Hf, Hf'.
  repeat (apply elem_of_cons in Hf as [Hf|Hf]; [injection Hf as -> ->;
    repeat (apply elem_of_cons in Hf' as [Hf'|Hf']; [injection Hf' as -> ->; reflexivity|]);
    by apply elem_of_nil in Hf'|]).
  by apply elem_of_nil in Hf.
Qed.

Lemma main_as_generated `{ReactValues} :
  ∃ ts, main Gen.some_order = [("gen_react_cssGen.go", ts); ("jsx/gen_jsx_cssGen.go", ts)] ∧
    gen_fields ts = map (λ s, (s.1, "string")) selectors ∧
    (∀ c, gen_hack ts c = Some (El.css_object c)) ∧
    gen_cases ts = Some css_cases.
Proof.
  eexists. split; [vm_compute; reflexivity|]. split; [reflexivity|]. split; [|reflexivity].
  intros c. reflexivity.
Qed.

(** The name of a property in a style sheet, as JavaScript spells it. *)
Fixpoint camel (up : bool) (s : string) : string :=
  match s with
  | EmptyString => ""
  | String c s =>
      if bool_decide (c = "-"%char) then camel true s
      else
        let n := Ascii.nat_of_ascii c in
        String (if up && (97 <=? n) && (n <=? 122) then Ascii.ascii_of_nat (n - 32) else c) (camel false s)
  end.
Lemma table_names :
  match main Gen.some_order with
  | (_, ts) :: _ => forallb (λ t, str_eqb (camel false (HTML t)) (React t)) ts
  | [] => false
  end = true.
Proof. vm_compute. reflexivity. Qed.

(** C32: the files cssGen writes are the ones in the repository, whatever order it
    fills its table in: [gen_react_cssGen.go] has the struct with these fields and
    [hack] sets these properties of the object, and [jsx/gen_jsx_cssGen.go] has
    [parseCSS] with these cases, each of which assigns its own field and no other.
    The two names of a property in the table agree: the name [hack] sets is the
    name [parseCSS] reads, in the spelling of JavaScript. *)
Theorem css_generated `{ReactValues} r :
  Gen.range_ok r →
  ∃ ts, main r = [("gen_react_cssGen.go", ts); ("jsx/gen_jsx_cssGen.go", ts)] ∧
    gen_fields ts = map (λ s, (s.1, "string")) selectors ∧
    (∀ c, gen_hack ts c = Some (El.css_object c)) ∧
    gen_cases ts = Some css_cases ∧
    (∀ t, t ∈ ts → camel false (HTML t) = React t) ∧
    ∀ f f' sel sel' v c,
      find_case selectors f = Some sel → find_case selectors f' = Some sel' →
      sel.1 (sel'.2 v c) = if decide (f = f') then v else sel.1 c.
Proof.
  intros Hr. destruct main_as_generated as (ts & Hm & Hf & Hh & Hc). exists ts.
  rewrite (main_order r Gen.some_order Hr Gen.some_order_ok).
  split; [done|]. split; [done|]. split; [done|]. split; [done|]. split; [|apply selectors_fields].
  intros t Ht. pose proof table_names as Hn. rewrite Hm, forallb_forall in Hn.
  specialize (Hn t (proj1 (list_elem_of_In _ _) Ht)). by apply bool_decide_eq_true in Hn.
Qed.

Definition no_values : ReactValues := {|
  Props := unit; State := unit; Handler := unit;
  Props_EqualsIntf := λ _ _, Ok true; State_EqualsIntf := λ _ _, Ok true |}.
Lemma css_generated_witness :
  ∃ ts, main Gen.reverse_order = [("gen_react_cssGen.go", ts); ("jsx/gen_jsx_cssGen.go", ts)] ∧
    gen_cases ts = Some css_cases.
Proof.
  destruct (@css_generated no_values Gen.reverse_order Gen.reverse_order_ok) as (ts & Hm & _ & _ & Hc & _).
  exists ts. split; [exact Hm|exact Hc].
Defined.
End CssGen.
