(* ===== verification/Rand.v ===== *)
(** * math/rand on the GopherJS target

    [Outer] keeps a [*rand.Rand] seeded from the clock and draws from it with
    [Intn].  The generator behind a seed is a parameter: [NewSource seed n] is
    the [n]-th value its [Int63] returns.  On top of it [Int31], [Int31n] and
    [Intn] are written out, with Go's [int] 32 bits wide, as GopherJS has it:
    every positive [int] is at most [1<<31 - 1], so [Intn] is [Int31n].  The site
    [latency] draws with [Int63n].

    [Int31n] and [Int63n] redraw while a value is above [max]; that loop runs on fuel, and
    [OutOfFuel] says that all of its draws were rejected. *)

From S2P Require Import Prelude.
#[local] Open Scope Z_scope.

Lemma land_le_r a b : 0 ≤ a → 0 ≤ b → Z.land a b ≤ b.
Proof.
  intros Ha Hb. rewrite <-(Z2N.id a), <-(Z2N.id b), <-N2Z.inj_land by done.
  apply N2Z.inj_le, N.land_le_r.
Qed.

(** The state of a [*rand.Rand]: its seed and how many values were drawn. *)
Record Rand := MkRand { seed : Z; drawn : nat }.

Section Rand.
Context (NewSource : Z → nat → Z).

(** What package [math/rand] documents of a source: [Int63] returns a
    non-negative 63-bit integer. *)
Definition source_ok : Prop := ∀ s n, 0 ≤ NewSource s n < 2 ^ 63.

Definition rand_New (s : Z) : Rand := MkRand s 0.

Definition Int63 (r : Rand) : Z * Rand :=
  (NewSource (seed r) (drawn r), MkRand (seed r) (S (drawn r))).
Definition Int31 (r : Rand) : Z * Rand :=
  let '(v, r) := Int63 r in (Z.shiftr v 32, r).

(** [int32((1 << 31) - 1 - (1<<31)%uint32(n))] *)
Definition max_for (n : Z) : Z := 2 ^ 31 - 1 - 2 ^ 31 mod n.

Fixpoint redraw (draw : Rand → Z * Rand) (fuel : nat) (max : Z) (r : Rand) : res (Z * Rand) :=
  match fuel with
  | O => Panic OutOfFuel
  | S fuel => let '(v, r) := draw r in
              if max <? v then redraw draw fuel max r else Ok (v, r)
  end.

Definition Int31n (fuel : nat) (n : Z) (r : Rand) : res (Z * Rand) :=
  if n <=? 0 then Panic (PanicMsg "invalid argument to Int31n")
  else if Z.land n (n - 1) =? 0 then
    let '(v, r) := Int31 r in Ok (Z.land v (n - 1), r)
  else '(v, r) ← redraw Int31 fuel (max_for n) r; Ok (v mod n, r).

Definition Intn (fuel : nat) (n : Z) (r : Rand) : res (Z * Rand) :=
  if n <=? 0 then Panic (PanicMsg "invalid argument to Intn")
  else Int31n fuel n r.

(** [int64((1 << 63) - 1 - (1<<63)%uint64(n))] *)
Definition max63_for (n : Z) : Z := 2 ^ 63 - 1 - 2 ^ 63 mod n.

Definition Int63n (fuel : nat) (n : Z) (r : Rand) : res (Z * Rand) :=
  if n <=? 0 then Panic (PanicMsg "invalid argument to Int63n")
  else if Z.land n (n - 1) =? 0 then
    let '(v, r) := Int63 r in Ok (Z.land v (n - 1), r)
  else '(v, r) ← redraw Int63 fuel (max63_for n) r; Ok (v mod n, r).

(** Among any [fuel] consecutive draws from here on one is at most [max]. *)
Definition accepts (fuel : nat) (n : Z) (r : Rand) : Prop :=
  ∃ k, (k < fuel)%nat ∧ Z.shiftr (NewSource (seed r) (drawn r + k)) 32 ≤ max_for n.

(** The same for [Int63n]. *)
Definition accepts63 (fuel : nat) (n : Z) (r : Rand) : Prop :=
  ∃ k, (k < fuel)%nat ∧ NewSource (seed r) (drawn r + k) ≤ max63_for n.

Hypothesis Hsource : source_ok.

Lemma Int63_nonneg r : 0 ≤ (Int63 r).1.
Proof. apply Hsource. Qed.
Lemma Int31_nonneg r : 0 ≤ (Int31 r).1.
Proof. simpl. apply Z.shiftr_nonneg, Hsource. Qed.

(** A draw takes one value from the source. *)
Definition draws_one (draw : Rand → Z * Rand) : Prop :=
  ∀ r, 0 ≤ (draw r).1 ∧ (draw r).2 = MkRand (seed r) (S (drawn r)).
Lemma Int63_draws_one : draws_one Int63.
Proof. intros r. split; [apply Int63_nonneg|done]. Qed.
Lemma Int31_draws_one : draws_one Int31.
Proof. intros r. split; [apply Int31_nonneg|done]. Qed.

Lemma redraw_bounds draw fuel max r v r' :
  draws_one draw → redraw draw fuel max r = Ok (v, r') → 0 ≤ v ≤ max ∧ seed r' = seed r.
Proof.
  intros Hd. revert r; induction fuel as [|fuel IH]; intros r; simpl; [done|].
  destruct (Hd r) as [Hv Hr]. destruct (draw r) as [u r1]; simpl in *.
  destruct (Z.ltb_spec max u).
  - intros [H1 ->]%IH. by rewrite Hr.
  - intros [= <- <-]. by rewrite Hr.
Qed.

Lemma redraw_total draw fuel max r :
  draws_one draw →
  (∃ k, (k < fuel)%nat ∧ (draw (MkRand (seed r) (drawn r + k))).1 ≤ max) →
  ∃ v r', redraw draw fuel max r = Ok (v, r').
Proof.
  intros Hd. revert r; induction fuel as [|fuel IH]; intros [s n] (k & Hk & Hmax); simpl in *; [lia|].
  destruct (Hd (MkRand s n)) as [_ Hr]. destruct (draw (MkRand s n)) as [u r1] eqn:Hu; simpl in *. subst r1.
  destruct (Z.ltb_spec max u); [|eauto].
  apply IH. destruct k as [|k]; [rewrite Nat.add_0_r, Hu in Hmax; simpl in Hmax; lia|].
  exists k. split; [lia|]. simpl. by rewrite <-Nat.add_succ_comm in Hmax.
Qed.

Lemma land_bounds v n : 0 ≤ v → 0 < n → 0 ≤ Z.land v (n - 1) < n.
Proof.
  intros Hv Hn. split; [apply Z.land_nonneg; by left|].
  assert (Z.land v (n - 1) ≤ n - 1) by (apply land_le_r; lia). lia.
Qed.

Lemma Intn_bounds fuel n r v r' :
  Intn fuel n r = Ok (v, r') → 0 ≤ v < n ∧ seed r' = seed r.
Proof.
  unfold Intn, Int31n. destruct (Z.leb_spec n 0); [done|].
  destruct (Z.eqb_spec (Z.land n (n - 1)) 0).
  - unfold Int31, Int63. intros [= <- <-]. split; [|done].
    apply land_bounds; [apply (Int31_nonneg r)|done].
  - destruct (redraw Int31 fuel (max_for n) r) as [[u r2]|] eqn:Hr; simpl; [|done].
    apply redraw_bounds in Hr as [_ Hs]; [|apply Int31_draws_one]. intros [= <- <-].
    split; [|done]. by apply Z.mod_pos_bound.
Qed.

Lemma Intn_total fuel n r :
  0 < n → (Z.land n (n - 1) ≠ 0 → accepts fuel n r) →
  ∃ v r', Intn fuel n r = Ok (v, r').
Proof.
  intros Hn Hacc. unfold Intn, Int31n. destruct (Z.leb_spec n 0); [lia|].
  destruct (Z.eqb_spec (Z.land n (n - 1)) 0); [by eexists _, _|].
  destruct (redraw_total Int31 fuel (max_for n) r) as (v & r' & ->); [apply Int31_draws_one|by apply Hacc|].
  by eexists _, _.
Qed.

Lemma Int63n_run fuel n r :
  0 < n → (Z.land n (n - 1) ≠ 0 → accepts63 fuel n r) →
  ∃ v r', Int63n fuel n r = Ok (v, r') ∧ 0 ≤ v < n ∧ seed r' = seed r.
Proof.
  intros Hn Hacc. unfold Int63n. destruct (Z.leb_spec n 0); [lia|].
  destruct (Z.eqb_spec (Z.land n (n - 1)) 0).
  - eexists _, _. split; [done|]. split; [|done]. apply land_bounds; [apply (Int63_nonneg r)|done].
  - destruct (redraw_total Int63 fuel (max63_for n) r) as (v & r' & Hr); [apply Int63_draws_one|by apply Hacc|].
    rewrite Hr. simpl. eexists _, _. split; [done|]. split; [by apply Z.mod_pos_bound|].
    by apply redraw_bounds in Hr as [_ ?]; [|apply Int63_draws_one].
Qed.

(** The redraw loop is what makes the draws unbiased: the accepted values are
    exactly [max_for n + 1] many, a multiple of [n], so each residue is hit by
    the same number of them. *)
Lemma max_for_multiple n : 0 < n → (max_for n + 1) mod n = 0.
Proof.
  intros Hn. unfold max_for.
  replace (2 ^ 31 - 1 - 2 ^ 31 mod n + 1) with (2 ^ 31 - 2 ^ 31 mod n) by lia.
  rewrite (Z.mod_eq (2 ^ 31) n) by lia.
  replace (2 ^ 31 - (2 ^ 31 - n * (2 ^ 31 / n))) with ((2 ^ 31 / n) * n) by lia.
  apply Z.mod_mul. lia.
Qed.
End Rand.
