(* ===== verification/Client.v ===== *)
(** * The components of the client

    Models [outer.go], [preview.go], [chooser.go], [panel.go] and [main.go] of
    [src/client], with the proxies [reactGen] generates for them
    ([gen_Outer_reactGen.go], [gen_Preview_reactGen.go],
    [gen_Chooser_reactGen.go], [gen_Panel_reactGen.go]).

    Each component is a value of [React.Component]: [Outer] keeps the gopher,
    [Preview] draws it, [Chooser] shows the categories, [Panel] one category.
    Gophers, configurations and categories are compared by address, so they live
    in stores; the handlers installed on the elements are the click structs of
    the sources, and [OnClick] is what a click on one of them runs. *)

From S2P Require Import Prelude GoLib React Elements Gopher Rand.

(** ** Go memory of the client *)
Record mem := Mem {
  gophers : list Gopher;
  configs : list Config;
  categories : list Category;
  rands : list Rand;
  alerts : list string;     (* [js.Global.Call("alert", ...)], in order *)
  prevented : nat;          (* calls of [PreventDefault] *)
}.

(** Package initialisation: [hackConfig] is the configuration at address 0. *)
Definition init_mem : mem := Mem [] [hackConfig] hackCategories [] [] 0.
Definition hackConfig_ptr : ptr := Some 0.

(** ** Component definitions: the structs around a [ComponentDef] *)
Record OuterDef := { outer_def : ComponentDef }.
Record ChooserDef := { chooser_def : ComponentDef }.
Record PanelDef := { panel_def : ComponentDef }.
Record PreviewDef := { preview_def : ComponentDef }.

#[export] Instance ComponentDef_eq_dec : EqDecision ComponentDef.
Proof. solve_decision. Defined.
#[export] Instance OuterDef_eq_dec : EqDecision OuterDef.
Proof. solve_decision. Defined.
#[export] Instance ChooserDef_eq_dec : EqDecision ChooserDef.
Proof. solve_decision. Defined.

(** [OuterDef] is the one implementation of the interface [UpdateGopher],
    [ChooserDef] the one of [ExpandPanel]; interface values compare as the
    structs inside them. *)
Record PreviewProps := MkPreviewProps { preview_Current : ptr }.

Record ChooserProps := MkChooserProps {
  chooser_Current : ptr;
  chooser_Config : ptr;
  chooser_Update : OuterDef;
}.

Record PanelProps := MkPanelProps {
  panel_Category : ptr;
  panel_Open : bool;
  panel_Part : Z;
  panel_Selected : string;
  panel_Update : OuterDef;
  panel_Expand : ChooserDef;
}.

Record OuterState := MkOuterState { current : ptr; config : ptr; rand : ptr }.

Record ChooserState := MkChooserState { open : Z }.

#[export] Instance PreviewProps_eq_dec : EqDecision PreviewProps.
Proof. solve_decision. Defined.
#[export] Instance ChooserProps_eq_dec : EqDecision ChooserProps.
Proof. solve_decision. Defined.
#[export] Instance PanelProps_eq_dec : EqDecision PanelProps.
Proof. solve_decision. Defined.
#[export] Instance OuterState_eq_dec : EqDecision OuterState.
Proof. solve_decision. Defined.
#[export] Instance ChooserState_eq_dec : EqDecision ChooserState.
Proof. solve_decision. Defined.

(** The dynamic types behind [react.Props] and [react.State] in this program. *)
Inductive client_props :=
  | PPreview (p : PreviewProps)
  | PChooser (p : ChooserProps)
  | PPanel (p : PanelProps).
Inductive client_state :=
  | SOuter (s : OuterState)
  | SChooser (s : ChooserState).

(** The structs whose [OnClick] method is installed on an element. *)
Inductive click :=
  | shuffleClick (ch : ChooserDef)
  | resetClick (ch : ChooserDef)
  | saveClick (ch : ChooserDef)
  | expandClick (ex : ChooserDef) (i : Z)
  | chooseItemClick (U : OuterDef) (ci : Z) (v : string).

#[export] Instance client_props_eq_dec : EqDecision client_props.
Proof. solve_decision. Defined.
#[export] Instance client_state_eq_dec : EqDecision client_state.
Proof. solve_decision. Defined.
#[export] Instance click_eq_dec : EqDecision click.
Proof. solve_decision. Defined.

(** The type assertions [val.(ChooserProps)] and so on. *)
Definition as_PreviewProps (v : option client_props) : res PreviewProps :=
  match v with Some (PPreview p) => Ok p | _ => Panic TypeAssertion end.
Definition as_ChooserProps (v : option client_props) : res ChooserProps :=
  match v with Some (PChooser p) => Ok p | _ => Panic TypeAssertion end.
Definition as_PanelProps (v : option client_props) : res PanelProps :=
  match v with Some (PPanel p) => Ok p | _ => Panic TypeAssertion end.
Definition as_OuterState (v : client_state) : res OuterState :=
  match v with SOuter s => Ok s | _ => Panic TypeAssertion end.
Definition as_ChooserState (v : client_state) : res ChooserState :=
  match v with SChooser s => Ok s | _ => Panic TypeAssertion end.

(** The generated [EqualsIntf] methods: struct equality. *)
Definition PreviewProps_EqualsIntf (p : PreviewProps) (val : option client_props) : res bool :=
  q ← as_PreviewProps val; Ok (bool_decide (p = q)).
Definition ChooserProps_EqualsIntf (c : ChooserProps) (val : option client_props) : res bool :=
  q ← as_ChooserProps val; Ok (bool_decide (c = q)).
Definition PanelProps_EqualsIntf (p : PanelProps) (val : option client_props) : res bool :=
  q ← as_PanelProps val; Ok (bool_decide (p = q)).
Definition OuterState_EqualsIntf (o : OuterState) (val : client_state) : res bool :=
  q ← as_OuterState val; Ok (bool_decide (o = q)).
Definition ChooserState_EqualsIntf (c : ChooserState) (val : client_state) : res bool :=
  q ← as_ChooserState val; Ok (bool_decide (c = q)).

#[export] Instance client_values : ReactValues := {|
  Props := client_props;
  State := client_state;
  Handler := click;
  Props_EqualsIntf p := match p with
                        | PPreview p => PreviewProps_EqualsIntf p
                        | PChooser p => ChooserProps_EqualsIntf p
                        | PPanel p => PanelProps_EqualsIntf p
                        end;
  State_EqualsIntf s := match s with
                        | SOuter s => OuterState_EqualsIntf s
                        | SChooser s => ChooserState_EqualsIntf s
                        end;
|}.

Abbreviation cworld := (world mem).
Abbreviation CM := (M cworld).

Definition get_mem : CM mem := mget w_ext.
Definition on_mem (f : mem → mem) : CM unit := mmodify (λ w, World (w_js w) (f (w_ext w))).

Definition deref_gopher (p : ptr) : CM Gopher :=
  m ← get_mem; mlift (store_deref (gophers m) p).
Definition deref_config (p : ptr) : CM Config :=
  m ← get_mem; mlift (store_deref (configs m) p).
Definition deref_category (p : ptr) : CM Category :=
  m ← get_mem; mlift (store_deref (categories m) p).
Definition deref_rand (p : ptr) : CM Rand :=
  m ← get_mem; mlift (store_deref (rands m) p).

(** [&Gopher{Parts: parts}] *)
Definition new_Gopher (parts : list string) : CM ptr :=
  m ← get_mem;
  let '(p, gs) := store_alloc (gophers m) {| Parts := parts |} in
  _ ← on_mem (λ m, Mem gs (configs m) (categories m) (rands m) (alerts m) (prevented m));
  mret p.

Definition new_Rand (r : Rand) : CM ptr :=
  m ← get_mem;
  let '(p, rs) := store_alloc (rands m) r in
  _ ← on_mem (λ m, Mem (gophers m) (configs m) (categories m) rs (alerts m) (prevented m));
  mret p.

Definition set_rand (p : ptr) (r : Rand) : CM unit :=
  match p with
  | Some n => on_mem (λ m, Mem (gophers m) (configs m) (categories m)
                               (<[n := r]> (rands m)) (alerts m) (prevented m))
  | None => mpanic NilDeref
  end.

Definition PreventDefault : CM unit :=
  on_mem (λ m, Mem (gophers m) (configs m) (categories m) (rands m) (alerts m) (S (prevented m))).
Definition alert (s : string) : CM unit :=
  on_mem (λ m, Mem (gophers m) (configs m) (categories m) (rands m) (alerts m ++ [s]) (prevented m)).

(** ** Generated proxies *)
Definition OuterDef_State (o : OuterDef) : CM OuterState :=
  s ← ComponentDef_State (outer_def o); mlift (as_OuterState s).
Definition OuterDef_SetState (o : OuterDef) (state : OuterState) : CM unit :=
  ComponentDef_SetState (outer_def o) (SOuter state).
Definition ChooserDef_State (c : ChooserDef) : CM ChooserState :=
  s ← ComponentDef_State (chooser_def c); mlift (as_ChooserState s).
Definition ChooserDef_SetState (c : ChooserDef) (state : ChooserState) : CM unit :=
  ComponentDef_SetState (chooser_def c) (SChooser state).
Definition ChooserDef_Props (c : ChooserDef) : CM ChooserProps :=
  p ← ComponentDef_Props (chooser_def c); mlift (as_ChooserProps (Some p)).
Definition PanelDef_Props (p : PanelDef) : CM PanelProps :=
  q ← ComponentDef_Props (panel_def p); mlift (as_PanelProps (Some q)).
Definition PreviewDef_Props (p : PreviewDef) : CM PreviewProps :=
  q ← ComponentDef_Props (preview_def p); mlift (as_PreviewProps (Some q)).

(** The zero values [OuterState{}] and [ChooserState{}] of
    [GetInitialStateIntf]. *)
Definition OuterState_zero : OuterState := MkOuterState None None None.
Definition ChooserState_zero : ChooserState := MkChooserState 0.

Definition pkg : string := "myitcv.io/gopherize.me/client".
Definition outer_type : rtype := RType "OuterDef" pkg.
Definition preview_type : rtype := RType "PreviewDef" pkg.
Definition chooser_type : rtype := RType "ChooserDef" pkg.
Definition panel_type : rtype := RType "PanelDef" pkg.

(** ** gopher state of Outer *)

(** [defaultGopher]: the first body and the first eyes, nothing else. *)
Definition defaultGopher (c : ptr) : CM ptr :=
  cfg ← deref_config c;
  let parts := replicate (length (Categories cfg)) "" in
  p0 ← mlift (go_index (Categories cfg) 0);
  c0 ← deref_category p0;
  o0 ← mlift (go_index (Options c0) 0);
  parts ← mlift (go_update parts 0 o0);
  p1 ← mlift (go_index (Categories cfg) 1);
  c1 ← deref_category p1;
  o1 ← mlift (go_index (Options c1) 0);
  parts ← mlift (go_update parts 1 o1);
  new_Gopher parts.

Section Client.
(** The environment: the random source behind a seed, the clock, the fuel of
    the redraw loop, and [jsx.HTMLElem]. *)
Context (NewSource : Z → nat → Z) (now : Z) (fuel : nat).
Context (HTMLElem : string → res Element).

(** [s.rand.Intn(n)] through the pointer [p]. *)
Definition rand_Intn (p : ptr) (n : Z) : CM Z :=
  r ← deref_rand p;
  x ← mlift (Intn NewSource fuel n r);
  _ ← set_rand p x.2;
  mret x.1.

Definition OuterDef_ResetGopher (o : OuterDef) : CM unit :=
  s ← OuterDef_State o;
  g ← defaultGopher (config s);
  OuterDef_SetState o (MkOuterState g (config s) (rand s)).

Definition OuterDef_UpdateGopher (o : OuterDef) (part : Z) (val : string) : CM unit :=
  s ← OuterDef_State o;
  g ← deref_gopher (current s);
  let nps := Parts g in   (* make and copy: a fresh slice with the same content *)
  nps ← mlift (go_update nps part val);
  p ← new_Gopher nps;
  OuterDef_SetState o (MkOuterState p (config s) (rand s)).

Definition random_part (r : ptr) (cat : ptr) : CM string :=
  c ← deref_category cat;
  n ← rand_Intn r (Z.of_nat (length (Options c)));
  mlift (go_index (Options c) n).

Definition OuterDef_RandomGopher (o : OuterDef) : CM unit :=
  s ← OuterDef_State o;
  c ← deref_config (config s);
  parts ← mmap (random_part (rand s)) (Categories c);
  p ← new_Gopher parts;
  OuterDef_SetState o (MkOuterState p (config s) (rand s)).

Definition randElem (r : Rand) (ss : list string) : res (string * Rand) :=
  x ← Intn NewSource fuel (Z.of_nat (length ss)) r;
  e ← go_index ss x.1;
  Ok (e, x.2).

Definition OuterDef_ComponentWillMount (o : OuterDef) : CM unit :=
  g ← defaultGopher hackConfig_ptr;
  r ← new_Rand (rand_New now);
  OuterDef_SetState o (MkOuterState g hackConfig_ptr r).

(** ** Preview *)
Definition preview_img (p : string) : Element :=
  El.Img (Some (El.Img_with_Src (Filepath.Join ["artwork"; p +:+ ".png"])
                 (El.Img_on_html (El.with_Style (Some (css_MarginTop "0px" css_zero)))
                   El.Img_zero))) [].

Definition preview_view (curr : Gopher) : Element :=
  let parts := map preview_img (filter (λ p, p ≠ "") (Parts curr)) in
  El.Div (Some (El.with_ClassName "col-xs-8" El.html_zero))
    [El.Div (Some (El.with_ID "preview" El.html_zero)) parts].

Definition PreviewDef_Render (o : PreviewDef) : CM Element :=
  props ← PreviewDef_Props o;
  curr ← deref_gopher (preview_Current props);
  mret (preview_view curr).

Definition buildPreview (cd : ComponentDef) : Component mem := {|
  cmp_type := preview_type;
  RendersElement := PreviewDef_Render {| preview_def := cd |};
  ComponentWillMount := None;
  ComponentDidMount := None;
  ComponentWillReceivePropsIntf := None;
  GetInitialStateIntf := None;
  ComponentWillUnmount := None;
|}.

Definition Preview (p : PreviewProps) : CM Element :=
  CreateElement buildPreview (Some (PPreview p)) [].

(** ** Panel *)
Definition blank : string := Filepath.Join ["artwork"; "whitebox_thumbnail.png"].

Definition panel_item (props : PanelProps) (o : string) : Element :=
  let class := "item" in
  let class := if bool_decide (o = panel_Selected props) then class +:+ " selected"
               else if bool_decide (o = "") then class +:+ " none" else class in
  let src := if bool_decide (o = "") then blank
             else Filepath.Join ["artwork"; o +:+ "_thumbnail.png"] in
  El.Label (Some (El.Label_on_html (λ h, El.with_ClassName class
              (El.with_OnClick (Some (chooseItemClick (panel_Update props) (panel_Part props) o)) h))
              El.Label_zero))
    [El.Img (Some (El.Img_with_Src src El.Img_zero)) []].

(** The element [PanelDef.Render] returns for props [props] and category [cat]. *)
Definition panel_view (props : PanelProps) (cat : Category) : Element :=
  let collapse := if panel_Open props then "" else " collapse" in
  let imgs := if panel_Open props then map (panel_item props) (Options cat) else [] in
  El.Div (Some (El.with_ClassName "panel panel-default" El.html_zero)) [
    El.Div (Some (El.with_ClassName "panel-heading" (El.with_Role "tab" El.html_zero))) [
      El.H4 (Some (El.with_ClassName "panel-title" El.html_zero)) [
        El.A (Some (El.A_on_html (El.with_OnClick
                (Some (expandClick (panel_Expand props) (panel_Part props)))) El.A_zero))
          [ES (Name cat)]
      ]
    ];
    El.Div (Some (El.with_ID "Body" (El.with_ClassName "panel-collapse collapse in"
                   (El.with_Role "tabpanel" El.html_zero)))) [
      El.Div (Some (El.with_ClassName ("panel-body" +:+ collapse) El.html_zero)) [
        El.Div None imgs
      ]
    ]
  ].

Definition PanelDef_Render (pa : PanelDef) : CM Element :=
  props ← PanelDef_Props pa;
  cat ← deref_category (panel_Category props);
  mret (panel_view props cat).

Definition buildPanel (cd : ComponentDef) : Component mem := {|
  cmp_type := panel_type;
  RendersElement := PanelDef_Render {| panel_def := cd |};
  ComponentWillMount := None;
  ComponentDidMount := None;
  ComponentWillReceivePropsIntf := None;
  GetInitialStateIntf := None;
  ComponentWillUnmount := None;
|}.

Definition Panel (p : PanelProps) : CM Element :=
  CreateElement buildPanel (Some (PPanel p)) [].

(** ** Chooser *)

(** The argument of [jsx.HTMLElem] in [ChooserDef.Render], line by line. *)
Definition nl : string := String (Ascii.ascii_of_nat 10) "".
Definition tab : string := String (Ascii.ascii_of_nat 9) "".
Definition dquote : string := String (Ascii.ascii_of_nat 34) "".
Definition footer_html : string :=
  nl +:+ tab +:+ tab +:+ tab +:+ "<footer>" +:+ nl +:+
  Strings.Join (map (λ l, tab +:+ tab +:+ tab +:+ tab +:+ l) [
    "Be truly unique, there are";
    "<span class='total_combinations'></span>";
    "<hr/>";
    "Artwork by <a href='https://twitter.com/ashleymcnamara' target='_blank'>Ashley McNamara</a><br />inspired by <a href='http://reneefrench.blogspot.co.uk/' target='_blank'>Renee French</a><br />";
    "Original web app by <a href='https://twitter.com/matryer' target='_blank'>Mat Ryer</a><br/>";
    "Front-end Go React version by <a href=" +:+ dquote +:+ "https://twitter.com/_myitcv" +:+ dquote +:+
      " target=" +:+ dquote +:+ "_blank" +:+ dquote +:+ ">Paul Jolly</a>";
    "<hr>";
    "<a href='https://github.com/myitcv/gopherize.me/tree/master/client'>Source on GitHub</a><br/>";
    "<a href='https://github.com/matryer/gopherize.me'>Original source on GitHub</a>"]) nl +:+
  nl +:+ tab +:+ tab +:+ tab +:+ "</footer>" +:+ nl +:+ tab +:+ tab.

Definition chooser_panel (ch : ChooserDef) (st : ChooserState) (props : ChooserProps)
    (i : nat) (cat : ptr) : CM Element :=
  cg ← deref_gopher (chooser_Current props);
  sel ← mlift (go_index (Parts cg) (Z.of_nat i));
  Panel {| panel_Category := cat;
           panel_Open := bool_decide (open st = Z.of_nat i);
           panel_Part := Z.of_nat i;
           panel_Selected := sel;
           panel_Update := chooser_Update props;
           panel_Expand := ch |}.

Fixpoint chooser_panels (ch : ChooserDef) (st : ChooserState) (props : ChooserProps)
    (i : nat) (cats : list ptr) : CM (list Element) :=
  match cats with
  | [] => mret []
  | cat :: cats =>
      e ← chooser_panel ch st props i cat;
      es ← chooser_panels ch st props (S i) cats;
      mret (e :: es)
  end.

Definition btn (id class : string) (h : click) : El.ButtonProps :=
  El.Button_on_html (λ p, El.with_ID id (El.with_ClassName class (El.with_OnClick (Some h) p)))
    El.Button_zero.
Definition icon (class : string) : Element :=
  El.I (Some (El.with_ClassName class El.html_zero)) [].

(** The element [ChooserDef.Render] returns around its panels. *)
Definition chooser_view (ch : ChooserDef) (catDivs : list Element) (footer : Element) : Element :=
  El.Div (Some (El.with_ClassName "col-xs-4" El.html_zero)) [
    El.Button (Some (btn "shuffle-button" "btn btn-default" (shuffleClick ch)))
      [icon "glyphicon glyphicon-refresh"; ES " Shuffle"];
    El.Button (Some (btn "reset-button" "btn btn-default" (resetClick ch))) [ES "Reset"];
    El.Br None [];
    El.Br None [];
    El.Div (Some (El.with_ClassName "panel-group" (El.with_ID "options"
                   (El.with_Role "tablist" El.html_zero)))) catDivs;
    El.Div (Some (El.with_ClassName "panel panel-default" El.html_zero)) [
      El.Div (Some (El.with_ClassName "panel-body text-right"
                     (El.with_Style (Some (css_OverflowY "hidden" css_zero)) El.html_zero))) [
        El.Button (Some (btn "next-button" "btn btn-primary btn-lg" (saveClick ch)))
          [ES "Save & continue…"; icon "glyphicon glyphicon glyphicon-chevron-right"]
      ]
    ];
    footer
  ].

Definition ChooserDef_Render (ch : ChooserDef) : CM Element :=
  st ← ChooserDef_State ch;
  props ← ChooserDef_Props ch;
  cfg ← deref_config (chooser_Config props);
  catDivs ← chooser_panels ch st props 0 (Categories cfg);
  footer ← mlift (HTMLElem footer_html);
  mret (chooser_view ch catDivs footer).

Definition ChooserDef_Expand (ch : ChooserDef) (i : Z) : CM unit :=
  _ ← ChooserDef_State ch;
  ChooserDef_SetState ch (MkChooserState i).

Definition buildChooser (cd : ComponentDef) : Component mem := {|
  cmp_type := chooser_type;
  RendersElement := ChooserDef_Render {| chooser_def := cd |};
  ComponentWillMount := None;
  ComponentDidMount := None;
  ComponentWillReceivePropsIntf := None;
  GetInitialStateIntf := Some (mret (SChooser ChooserState_zero));
  ComponentWillUnmount := None;
|}.

Definition Chooser (p : ChooserProps) : CM Element :=
  CreateElement buildChooser (Some (PChooser p)) [].

(** ** Outer *)
Definition OuterDef_Render (o : OuterDef) : CM Element :=
  s1 ← OuterDef_State o;
  preview ← Preview {| preview_Current := current s1 |};
  s2 ← OuterDef_State o;
  s3 ← OuterDef_State o;
  chooser ← Chooser {| chooser_Current := current s2; chooser_Config := config s3;
                       chooser_Update := o |};
  mret (El.Div None [preview; chooser]).

Definition buildOuter (cd : ComponentDef) : Component mem := {|
  cmp_type := outer_type;
  RendersElement := OuterDef_Render {| outer_def := cd |};
  ComponentWillMount := Some (OuterDef_ComponentWillMount {| outer_def := cd |});
  ComponentDidMount := None;
  ComponentWillReceivePropsIntf := None;
  GetInitialStateIntf := Some (mret (SOuter OuterState_zero));
  ComponentWillUnmount := None;
|}.

Definition Outer : CM Element := CreateElement buildOuter None [].

(** ** Clicks *)

(** The [UpdateGopher] interface, implemented by [OuterDef]. *)
Definition call_UpdateGopher (U : OuterDef) (c : UpdateGopher_call) : CM unit :=
  match c with
  | ResetGopher => OuterDef_ResetGopher U
  | UpdateGopher part val => OuterDef_UpdateGopher U part val
  | RandomGopher => OuterDef_RandomGopher U
  end.

(** The [OnClick] methods; each ends with [e.PreventDefault()]. *)
Definition shuffleClick_OnClick (sh : ChooserDef) : CM unit :=
  props ← ChooserDef_Props sh;
  _ ← call_UpdateGopher (chooser_Update props) RandomGopher;
  PreventDefault.
Definition resetClick_OnClick (rc : ChooserDef) : CM unit :=
  props ← ChooserDef_Props rc;
  _ ← call_UpdateGopher (chooser_Update props) ResetGopher;
  PreventDefault.
Definition saveClick_OnClick (sc : ChooserDef) : CM unit :=
  _ ← alert "Frontend only for now...";
  PreventDefault.
Definition expandClick_OnClick (ex : ChooserDef) (i : Z) : CM unit :=
  _ ← ChooserDef_Expand ex i;
  PreventDefault.
Definition chooseItemClick_OnClick (U : OuterDef) (ci : Z) (v : string) : CM unit :=
  _ ← call_UpdateGopher U (UpdateGopher ci v);
  PreventDefault.

(** The method value installed on an element, run by a click on it. *)
Definition OnClick (c : click) : CM unit :=
  match c with
  | shuffleClick ch => shuffleClick_OnClick ch
  | resetClick ch => resetClick_OnClick ch
  | saveClick ch => saveClick_OnClick ch
  | expandClick ex i => expandClick_OnClick ex i
  | chooseItemClick U ci v => chooseItemClick_OnClick U ci v
  end.

(** The link [main] puts in a corner of the page. *)
Definition github_ribbon : Element :=
  El.A (Some (El.A_with_Target "_blank"
          (El.A_with_Href "https://github.com/myitcv/gopherize.me/tree/master/client"
            (El.A_with_Title "Source on GitHub"
              (El.A_on_html (El.with_ClassName "github-fork-ribbon right-top") El.A_zero)))))
    [ES "Source on GitHub"].

(** ** main

    [query] is the getter of the query of the parsed document URL, [None] the
    error of [url.Parse].  The result is the element handed to
    [ReactDOM.render]. *)
Definition main (query : option (string → string)) : CM Element :=
  match query with
  | None => mpanic (PanicMsg "url.Parse")
  | Some get =>
      let elems := if bool_decide (get "hideGithubRibbon" ≠ "true") then [github_ribbon] else [] in
      o ← Outer;
      mret (El.Div None (elems ++ [o]))
  end.

End Client.
