(* ===== verification/ClientState.v ===== *)
(** * What the operations of Outer and Chooser do to the state

    [App] describes a running application: where the state of [Outer] and
    [Chooser] is kept, the gopher on show, and that it fits the configuration.
    The abstract specification of the client is a pair of a gopher and the
    number of the open panel, with one transition per click ([spec_click]); the
    theorems say that every operation of the sources implements it, keeps [App],
    and never writes to a gopher that was handed out before. *)

From S2P Require Import Prelude GoLib React Elements Gopher Rand Client.

(** ** Memory *)

(** [m'] has every gopher of [m], and the same configuration. *)
Record mem_le (m m' : mem) : Prop := {
  le_gophers : store_extends (gophers m) (gophers m');
  le_configs : configs m' = configs m;
  le_categories : categories m' = categories m;
}.

#[export] Instance mem_le_preorder : PreOrder mem_le.
Proof.
  split.
  - intros m. split; [unfold store_extends; reflexivity|done..].
  - intros m1 m2 m3 [H1 H2 H3] [H4 H5 H6]. split; try congruence.
    unfold store_extends in *. by etrans.
Qed.

Definition add_gopher (m : mem) (g : Gopher) : mem :=
  Mem (gophers m ++ [g]) (configs m) (categories m) (rands m) (alerts m) (prevented m).

Lemma add_gopher_le m g : mem_le m (add_gopher m g).
Proof. split; [by eexists|done..]. Qed.

Lemma new_Gopher_run (w : cworld) parts :
  new_Gopher parts w = Ok (Some (length (gophers (w_ext w))),
                           World (w_js w) (add_gopher (w_ext w) {| Parts := parts |})).
Proof. done. Qed.

Lemma add_gopher_deref m g :
  store_deref (gophers (add_gopher m g)) (Some (length (gophers m))) = Ok g.
Proof. apply (store_alloc_deref (gophers m) g). Qed.

Lemma deref_gopher_run (w : cworld) p g :
  store_deref (gophers (w_ext w)) p = Ok g → deref_gopher p w = Ok (g, w).
Proof. intros H. unfold deref_gopher, get_mem. res_simpl. by rewrite H. Qed.
Lemma deref_config_run (w : cworld) p c :
  store_deref (configs (w_ext w)) p = Ok c → deref_config p w = Ok (c, w).
Proof. intros H. unfold deref_config, get_mem. res_simpl. by rewrite H. Qed.
Lemma deref_category_run (w : cworld) p c :
  store_deref (categories (w_ext w)) p = Ok c → deref_category p w = Ok (c, w).
Proof. intros H. unfold deref_category, get_mem. res_simpl. by rewrite H. Qed.
Lemma deref_rand_run (w : cworld) p r :
  store_deref (rands (w_ext w)) p = Ok r → deref_rand p w = Ok (r, w).
Proof. intros H. unfold deref_rand, get_mem. res_simpl. by rewrite H. Qed.

(** ** State of the two stateful components *)
Definition outer_at (o : loc) : OuterDef := {| outer_def := mk_def o |}.
Definition chooser_at (ch : loc) : ChooserDef := {| chooser_def := mk_def ch |}.

Lemma Outer_State_run (w : cworld) o i s :
  inst (w_js w) o i (SOuter s) → OuterDef_State (outer_at o) w = Ok (s, w).
Proof. intros H. unfold OuterDef_State. by mstep (State_inst _ _ _ _ H). Qed.

Lemma Chooser_State_run (w : cworld) ch i s :
  inst (w_js w) ch i (SChooser s) → ChooserDef_State (chooser_at ch) w = Ok (s, w).
Proof. intros H. unfold ChooserDef_State. by mstep (State_inst _ _ _ _ H). Qed.

Lemma Outer_SetState_run (w : cworld) o i s new :
  inst (w_js w) o i (SOuter s) → new ≠ s →
  ∃ j', OuterDef_SetState (outer_at o) new w = Ok (tt, World j' (w_ext w)) ∧
        state_changed (w_js w) j' o i (SOuter new).
Proof.
  intros H Hne. apply (SetState_differs w o i (SOuter s) (SOuter new)); [done|].
  simpl. unfold OuterState_EqualsIntf. simpl. by rewrite bool_decide_eq_false_2.
Qed.

Lemma Chooser_SetState_run (w : cworld) ch i s new :
  inst (w_js w) ch i (SChooser s) → new ≠ s →
  ∃ j', ChooserDef_SetState (chooser_at ch) new w = Ok (tt, World j' (w_ext w)) ∧
        state_changed (w_js w) j' ch i (SChooser new).
Proof.
  intros H Hne. apply (SetState_differs w ch i (SChooser s) (SChooser new)); [done|].
  simpl. unfold ChooserState_EqualsIntf. simpl. by rewrite bool_decide_eq_false_2.
Qed.

Section Spec.
Context (cats : list Category) (cfg : Config).

(** The memory holds the configuration [cfg] at [c]. *)
Definition env_ok (m : mem) (c : ptr) : Prop :=
  store_deref (configs m) c = Ok cfg ∧ categories m = cats.

Lemma env_ok_le m m' c : mem_le m m' → env_ok m c → env_ok m' c.
Proof. intros [_ Hc Hk] [H1 H2]. split; congruence. Qed.

(** The gopher [defaultGopher] builds: the first option of the first two
    categories and nothing from the others. *)
Definition is_default (g : Gopher) : Prop :=
  length (Parts g) = length (Categories cfg) ∧
  ∀ i p cat, Categories cfg !! i = Some p → cat_at cats p cat →
    Parts g !! i = if i <? 2 then head (Options cat) else Some "".

Lemma is_default_unique g g' :
  config_ok cats cfg → is_default g → is_default g' → g = g'.
Proof.
  intros [_ Hcfg] [Hl H] [Hl' H']. destruct g as [ps], g' as [ps']. f_equal. simpl in *.
  apply list_eq. intros i.
  destruct (Categories cfg !! i) as [p|] eqn:Hp.
  - destruct (Hcfg i p Hp) as (cat & Hcat & _). by rewrite (H i p cat), (H' i p cat).
  - apply lookup_ge_None in Hp. rewrite !lookup_ge_None_2 by lia. done.
Qed.

Lemma is_default_ok g : config_ok cats cfg → is_default g → gopher_ok cats cfg g.
Proof.
  intros [_ Hcfg] [Hl H]. unfold gopher_ok. apply Forall2_same_length_lookup_2; [done|].
  intros i p part Hp Hpart. destruct (Hcfg i p Hp) as (cat & Hcat & Hne & Hemp).
  exists cat. split; [done|]. rewrite (H i p cat Hp Hcat) in Hpart.
  destruct (Nat.ltb_spec i 2).
  - destruct (Options cat); simplify_eq/=. by left.
  - simplify_eq. by apply Hemp.
Qed.

Hypothesis Hcfg : config_ok cats cfg.

Lemma first_option p cat :
  cat_at cats p cat → Options cat ≠ [] →
  ∃ o, head (Options cat) = Some o ∧ go_index (Options cat) 0 = Ok o.
Proof. intros _ H. destruct (Options cat) as [|o os]; [done|]. by exists o. Qed.

Lemma defaultGopher_run (w : cworld) c :
  env_ok (w_ext w) c →
  ∃ g, is_default g ∧
    defaultGopher c w = Ok (Some (length (gophers (w_ext w))),
                            World (w_js w) (add_gopher (w_ext w) g)).
Proof.
  intros [Hc Hk]. destruct Hcfg as [Hlen Hcats].
  unfold defaultGopher. mstep (deref_config_run _ _ _ Hc).
  destruct (Categories cfg) as [|p0 [|p1 ps]] eqn:Hps; simpl in Hlen; [lia..|].
  destruct (Hcats 0 p0 eq_refl) as (c0 & Hc0 & Hne0 & _).
  destruct (Hcats 1 p1 eq_refl) as (c1 & Hc1 & Hne1 & _).
  destruct (first_option _ _ Hc0 Hne0) as (o0 & Hh0 & Hi0).
  destruct (first_option _ _ Hc1 Hne1) as (o1 & Hh1 & Hi1).
  unfold cat_at in Hc0, Hc1. rewrite <-Hk in Hc0, Hc1.
  mstep (mlift_run (go_index (p0 :: p1 :: ps) 0) w p0 eq_refl).
  mstep (deref_category_run _ _ _ Hc0). mstep (mlift_run _ w _ Hi0).
  mstep (mlift_run (go_update (replicate (length (p0 :: p1 :: ps)) "") 0 o0) w
           (o0 :: "" :: replicate (length ps) "") eq_refl).
  mstep (mlift_run (go_index (p0 :: p1 :: ps) 1) w p1 eq_refl).
  mstep (deref_category_run _ _ _ Hc1). mstep (mlift_run _ w _ Hi1).
  assert (Hup : go_update (o0 :: "" :: replicate (length ps) "") 1 o1 =
                Ok (o0 :: o1 :: replicate (length ps) ""))
    by (apply go_update_Ok; simpl; split; [lia|done]).
  mstep (mlift_run _ w _ Hup).
  eexists. split; [|apply new_Gopher_run]. unfold is_default. rewrite Hps. split; simpl.
  - by rewrite length_replicate.
  - rewrite Hk in Hc0, Hc1.
    intros [|[|i]] p cat; simpl.
    + intros [= <-] Hcat. unfold cat_at in Hcat. congruence.
    + intros [= <-] Hcat. unfold cat_at in Hcat. congruence.
    + intros Hp _. apply lookup_replicate. split; [done|]. by eapply lookup_lt_Some.
Qed.


(** ** A running application *)
Record locs := Locs { l_outer : loc; l_outer_st : loc; l_chooser : loc; l_chooser_st : loc }.

(** [App w L os g n]: in the world [w] the instances at [L] are mounted, [Outer]
    is in state [os], shows the gopher [g], and panel [n] of [Chooser] is open. *)
Record App (w : cworld) (L : locs) (os : OuterState) (g : Gopher) (n : Z) : Prop := {
  app_outer : inst (w_js w) (l_outer L) (l_outer_st L) (SOuter os);
  app_chooser : inst (w_js w) (l_chooser L) (l_chooser_st L) (SChooser (MkChooserState n));
  app_sep : l_outer_st L ≠ l_chooser_st L;
  app_update : ∃ p, has_props (w_js w) (l_chooser L) (PChooser p) ∧
                    chooser_Update p = outer_at (l_outer L);
  app_env : env_ok (w_ext w) (config os);
  app_gopher : store_deref (gophers (w_ext w)) (current os) = Ok g;
  app_rand : ∃ r, store_deref (rands (w_ext w)) (rand os) = Ok r;
  app_ok : gopher_ok cats cfg g;
}.

(** ** The abstract specification *)

(** The clicks the page offers when panel [n] is open: the three buttons, the
    title of each panel, and the options of the open one. *)
Inductive offered (L : locs) (n : Z) : click → Prop :=
  | offered_shuffle : offered L n (shuffleClick (chooser_at (l_chooser L)))
  | offered_reset : offered L n (resetClick (chooser_at (l_chooser L)))
  | offered_save : offered L n (saveClick (chooser_at (l_chooser L)))
  | offered_expand i :
      i < length (Categories cfg) →
      offered L n (expandClick (chooser_at (l_chooser L)) (Z.of_nat i))
  | offered_item i p cat v :
      n = Z.of_nat i → Categories cfg !! i = Some p → cat_at cats p cat →
      v ∈ Options cat →
      offered L n (chooseItemClick (outer_at (l_outer L)) n v).

(** What a click is meant to do to the gopher and to the open panel. *)
Inductive spec_click : click → Gopher * Z → Gopher * Z → Prop :=
  | spec_choose U ci v g n :
      spec_click (chooseItemClick U ci v) (g, n)
        ({| Parts := <[Z.to_nat ci := v]> (Parts g) |}, n)
  | spec_reset ch g g' n : is_default g' → spec_click (resetClick ch) (g, n) (g', n)
  | spec_shuffle ch g g' n : gopher_ok cats cfg g' → spec_click (shuffleClick ch) (g, n) (g', n)
  | spec_expand ex i g n : spec_click (expandClick ex i) (g, n) (g, i)
  | spec_save ch g n : spec_click (saveClick ch) (g, n) (g, n).

Lemma gopher_ok_update g i p cat v :
  gopher_ok cats cfg g → Categories cfg !! i = Some p → cat_at cats p cat →
  v ∈ Options cat → gopher_ok cats cfg {| Parts := <[i := v]> (Parts g) |}.
Proof.
  intros Hg Hp Hcat Hv. unfold gopher_ok in *; simpl.
  rewrite <-(list_insert_id (Categories cfg) i p) by done.
  apply Forall2_insert; [done|]. eauto.
Qed.

Lemma gopher_ok_length g : gopher_ok cats cfg g → length (Parts g) = length (Categories cfg).
Proof. intros H. symmetry. by eapply Forall2_length. Qed.

(** [Outer] changed to a state with a new gopher: the rest of [App] stays. *)
Lemma App_new_gopher w L os g n g' m' j' :
  App w L os g n → gopher_ok cats cfg g' → mem_le (w_ext w) m' →
  store_deref (gophers m') (current os) = Ok g →
  (∃ r, store_deref (rands m') (rand os) = Ok r) →
  let os' := MkOuterState (Some (length (gophers m'))) (config os) (rand os) in
  state_changed (w_js w) j' (l_outer L) (l_outer_st L) (SOuter os') →
  App (World j' (add_gopher m' g')) L os' g' n.
Proof.
  intros [Ho Hch Hsep (p & Hp & Hup) Henv Hg Hr Hok] Hok' Hle Hg' Hr' os' [Hi _ Hothers Hprops _ _ _ _].
  constructor; simpl; try done.
  - eapply Hothers; [|done]. done.
  - exists p. split; [by apply Hprops|done].
  - eapply env_ok_le; [|eapply env_ok_le; [exact Hle|exact Henv]]. apply add_gopher_le.
  - apply add_gopher_deref.
Qed.

End Spec.

(** The fields of the memory other than the random generators. *)
Record same_but_rands (m m' : mem) : Prop := {
  sbr_gophers : gophers m' = gophers m;
  sbr_configs : configs m' = configs m;
  sbr_categories : categories m' = categories m;
  sbr_alerts : alerts m' = alerts m;
  sbr_prevented : prevented m' = prevented m;
}.

Lemma same_but_rands_le m m' : same_but_rands m m' → mem_le m m'.
Proof. intros [H1 H2 H3 _ _]. split; try done. rewrite H1. unfold store_extends. reflexivity. Qed.

Section Ops.
Context (NewSource : Z → nat → Z) (fuel : nat).
Context (cats : list Category) (cfg : Config).
Hypothesis Hcfg : config_ok cats cfg.
Hypothesis Hsource : source_ok NewSource.

(** The redraw loop of [Intn] has enough fuel for every category. *)
Definition fuel_enough : Prop :=
  ∀ r p cat, cat_at cats p cat → accepts NewSource fuel (Z.of_nat (length (Options cat))) r.

(** *** UpdateGopher *)
Lemma UpdateGopher_run (w : cworld) o i s g part val :
  inst (w_js w) o i (SOuter s) →
  store_deref (gophers (w_ext w)) (current s) = Ok g →
  (0 ≤ part < Z.of_nat (length (Parts g)))%Z →
  let os' := MkOuterState (Some (length (gophers (w_ext w)))) (config s) (rand s) in
  ∃ j', OuterDef_UpdateGopher (outer_at o) part val w =
        Ok (tt, World j' (add_gopher (w_ext w) {| Parts := <[Z.to_nat part := val]> (Parts g) |})) ∧
    state_changed (w_js w) j' o i (SOuter os').
Proof.
  intros Hi Hg Hpart os'. unfold OuterDef_UpdateGopher.
  mstep (Outer_State_run _ _ _ _ Hi). mstep (deref_gopher_run _ _ _ Hg).
  assert (Hup : go_update (Parts g) part val = Ok (<[Z.to_nat part := val]> (Parts g)))
    by by apply go_update_Ok.
  mstep (mlift_run _ w _ Hup). mstep (new_Gopher_run w (<[Z.to_nat part := val]> (Parts g))).
  apply (Outer_SetState_run (World (w_js w) _) o i s); [done|].
  intros Heq. apply (store_alloc_fresh _ {| Parts := <[Z.to_nat part := val]> (Parts g) |}) in Hg.
  apply Hg. by rewrite <-Heq.
Qed.

(** *** ResetGopher *)
Lemma ResetGopher_run (w : cworld) o i s g :
  inst (w_js w) o i (SOuter s) → env_ok cats cfg (w_ext w) (config s) →
  store_deref (gophers (w_ext w)) (current s) = Ok g →
  let os' := MkOuterState (Some (length (gophers (w_ext w)))) (config s) (rand s) in
  ∃ g' j', is_default cats cfg g' ∧
    OuterDef_ResetGopher (outer_at o) w = Ok (tt, World j' (add_gopher (w_ext w) g')) ∧
    state_changed (w_js w) j' o i (SOuter os').
Proof.
  intros Hi Henv Hg os'. unfold OuterDef_ResetGopher.
  mstep (Outer_State_run _ _ _ _ Hi).
  destruct (defaultGopher_run cats cfg Hcfg w (config s) Henv) as (g' & Hdef & Hrun).
  mstep Hrun.
  destruct (Outer_SetState_run (World (w_js w) (add_gopher (w_ext w) g')) o i s os')
    as (j' & Hset & Hch); [done| |by exists g', j'].
  intros Heq. apply (store_alloc_fresh _ g') in Hg. apply Hg. by rewrite <-Heq.
Qed.

(** *** RandomGopher *)
Lemma rand_Intn_run (w : cworld) k r n v r' :
  rands (w_ext w) !! k = Some r → Intn NewSource fuel n r = Ok (v, r') →
  ∃ m', rand_Intn NewSource fuel (Some k) n w = Ok (v, World (w_js w) m') ∧
    same_but_rands (w_ext w) m' ∧ rands m' !! k = Some r'.
Proof.
  intros Hk Hn. unfold rand_Intn.
  assert (Hd : store_deref (rands (w_ext w)) (Some k) = Ok r) by (simpl; by rewrite Hk).
  mstep (deref_rand_run _ _ _ Hd). mstep (mlift_run _ w _ Hn).
  eexists. split; [done|]. split; [done|]. simpl.
  rewrite list_lookup_insert_eq; [done|]. by eapply lookup_lt_Some.
Qed.

Hypothesis Hfuel : fuel_enough.

Lemma random_part_run (w : cworld) k r p cat :
  rands (w_ext w) !! k = Some r → categories (w_ext w) = cats →
  cat_at cats p cat → Options cat ≠ [] →
  ∃ part m' r', random_part NewSource fuel (Some k) p w = Ok (part, World (w_js w) m') ∧
    part ∈ Options cat ∧ same_but_rands (w_ext w) m' ∧ rands m' !! k = Some r'.
Proof.
  intros Hk Hc Hcat Hne. unfold random_part.
  assert (Hd : store_deref (categories (w_ext w)) p = Ok cat) by by rewrite Hc.
  mstep (deref_category_run _ _ _ Hd).
  destruct (Intn_total NewSource Hsource fuel (Z.of_nat (length (Options cat))) r) as (v & r' & Hn).
  { destruct (Options cat); simpl; [done|lia]. }
  { intros _. by eapply Hfuel. }
  destruct (rand_Intn_run w k r _ v r' Hk Hn) as (m' & Hrun & Hsbr & Hk').
  mstep Hrun.
  destruct (Intn_bounds NewSource Hsource _ _ _ _ _ Hn) as [[Hv1 Hv2] _].
  destruct (lookup_lt_is_Some_2 (Options cat) (Z.to_nat v)) as [part Hpart]; [lia|].
  exists part, m', r'. split_and!; try done.
  - apply mlift_run. by apply go_index_Ok.
  - apply list_elem_of_lookup; eauto.
Qed.

Lemma random_parts_run ps (w : cworld) k r :
  rands (w_ext w) !! k = Some r → categories (w_ext w) = cats →
  Forall (λ p, ∃ cat, cat_at cats p cat ∧ Options cat ≠ []) ps →
  ∃ parts m' r', mmap (random_part NewSource fuel (Some k)) ps w = Ok (parts, World (w_js w) m') ∧
    Forall2 (λ p part, ∃ cat, cat_at cats p cat ∧ part ∈ Options cat) ps parts ∧
    same_but_rands (w_ext w) m' ∧ rands m' !! k = Some r'.
Proof.
  revert w r. induction ps as [|p ps IH]; intros w r Hk Hc Hps.
  - exists [], (w_ext w), r. split_and!; try done. by destruct w.
  - apply Forall_cons_1 in Hps as [(cat & Hcat & Hne) Hps].
    destruct (random_part_run w k r p cat Hk Hc Hcat Hne)
      as (part & m1 & r1 & Hrun & Hin & [S1 S2 S3 S4 S5] & Hk1).
    destruct (IH (World (w_js w) m1) r1 Hk1) as (parts & m2 & r2 & Hrun2 & Hall & [T1 T2 T3 T4 T5] & Hk2).
    { simpl. congruence. }
    { done. }
    simpl in *. exists (part :: parts), m2, r2. split_and!; [|eauto| |done].
    + mstep Hrun. by mstep Hrun2.
    + split; congruence.
Qed.

Lemma RandomGopher_run (w : cworld) o i s g r :
  inst (w_js w) o i (SOuter s) → env_ok cats cfg (w_ext w) (config s) →
  store_deref (gophers (w_ext w)) (current s) = Ok g →
  store_deref (rands (w_ext w)) (rand s) = Ok r →
  let os' := MkOuterState (Some (length (gophers (w_ext w)))) (config s) (rand s) in
  ∃ g' m' j' r', gopher_ok cats cfg g' ∧ same_but_rands (w_ext w) m' ∧
    store_deref (rands m') (rand s) = Ok r' ∧
    OuterDef_RandomGopher NewSource fuel (outer_at o) w = Ok (tt, World j' (add_gopher m' g')) ∧
    state_changed (w_js w) j' o i (SOuter os').
Proof.
  intros Hi [Hc Hk] Hg Hr os'. unfold OuterDef_RandomGopher.
  mstep (Outer_State_run _ _ _ _ Hi). mstep (deref_config_run _ _ _ Hc).
  destruct (rand s) as [k|] eqn:Hrand; [|done]. simpl in Hr.
  destruct (rands (w_ext w) !! k) as [r0|] eqn:Hlk; [|done].
  destruct (random_parts_run (Categories cfg) w k r0 Hlk Hk)
    as (parts & m' & r' & Hrun & Hall & Hsbr & Hk').
  { apply Forall_lookup. intros n p Hp. destruct Hcfg as [_ H].
    destruct (H n p Hp) as (cat & ? & ? & _). eauto. }
  mstep Hrun. mstep (new_Gopher_run (World (w_js w) m') parts). simpl.
  rewrite (sbr_gophers _ _ Hsbr).
  destruct (Outer_SetState_run (World (w_js w) (add_gopher m' {| Parts := parts |})) o i s os')
    as (j' & Hset & Hch); [done| |].
  - intros Heq. apply (store_alloc_fresh _ {| Parts := parts |}) in Hg. apply Hg.
    by rewrite <-Heq.
  - exists {| Parts := parts |}, m', j', r'. split_and!; try done. simpl. by rewrite Hk'.
Qed.

(** *** Clicks *)
Definition prevent (m : mem) : mem :=
  Mem (gophers m) (configs m) (categories m) (rands m) (alerts m) (S (prevented m)).

Lemma prevent_le m : mem_le m (prevent m).
Proof. split; [unfold store_extends; reflexivity|done..]. Qed.

Lemma App_mem w L os g n m' :
  App cats cfg w L os g n → mem_le (w_ext w) m' → rands m' = rands (w_ext w) →
  App cats cfg (World (w_js w) m') L os g n.
Proof.
  intros [? ? ? ? ? Hg Hr ?] Hle Hrands. constructor; simpl; try done.
  - by eapply env_ok_le.
  - eapply store_deref_extends; [|exact Hg]. apply Hle.
  - by rewrite Hrands.
Qed.

(** The part of [OnClick] before [PreventDefault]. *)
Definition click_effect (c : click) : CM unit :=
  match c with
  | shuffleClick ch => props ← ChooserDef_Props ch;
                       OuterDef_RandomGopher NewSource fuel (chooser_Update props)
  | resetClick ch => props ← ChooserDef_Props ch; OuterDef_ResetGopher (chooser_Update props)
  | saveClick _ => alert "Frontend only for now..."
  | expandClick ex i => ChooserDef_Expand ex i
  | chooseItemClick U ci v => OuterDef_UpdateGopher U ci v
  end.

Lemma OnClick_run c w w' :
  click_effect c w = Ok (tt, w') →
  OnClick NewSource fuel c w = Ok (tt, World (w_js w') (prevent (w_ext w'))).
Proof.
  intros H. destruct c as [ch|ch|ch|ex i|U ci v]; simpl in *.
  1-2: apply M_bind_Ok in H as (props & w1 & Hp & Hu).
  1-2: unfold shuffleClick_OnClick, resetClick_OnClick; mstep Hp; by mstep Hu.
  all: unfold saveClick_OnClick, expandClick_OnClick, chooseItemClick_OnClick; by mstep H.
Qed.

Lemma Chooser_Props_run (w : cworld) ch p :
  has_props (w_js w) ch (PChooser p) → ChooserDef_Props (chooser_at ch) w = Ok (p, w).
Proof. intros H. unfold ChooserDef_Props. by mstep (Props_has_props _ _ _ H). Qed.

Lemma Expand_run (w : cworld) ch i s (k : Z) :
  inst (w_js w) ch i (SChooser s) →
  if decide (k = open s) then ChooserDef_Expand (chooser_at ch) k w = Ok (tt, w)
  else ∃ j', ChooserDef_Expand (chooser_at ch) k w = Ok (tt, World j' (w_ext w)) ∧
             state_changed (w_js w) j' ch i (SChooser (MkChooserState k)).
Proof.
  intros Hi. unfold ChooserDef_Expand. case_decide as Hk.
  - mstep (Chooser_State_run _ _ _ _ Hi). apply (SetState_equal w ch i (SChooser s)); [done|].
    simpl. unfold ChooserState_EqualsIntf; simpl. subst k. destruct s; simpl.
    by rewrite bool_decide_eq_true_2.
  - mstep (Chooser_State_run _ _ _ _ Hi). apply (Chooser_SetState_run w ch i s); [done|].
    intros <-. done.
Qed.

Lemma App_expand w L os g n k j' :
  App cats cfg w L os g n →
  state_changed (w_js w) j' (l_chooser L) (l_chooser_st L) (SChooser (MkChooserState k)) →
  App cats cfg (World j' (w_ext w)) L os g k.
Proof.
  intros [Ho Hch Hsep (p & Hp & Hup) Henv Hg Hr Hok] [Hi _ Hothers Hprops _ _ _ _].
  constructor; simpl; try done.
  - eapply Hothers; done.
  - exists p. split; [by apply Hprops|done].
Qed.

(** What a click does on the JavaScript side: props and classes stay, and if
    [Outer] got a new state its re-render was requested. *)
Record click_js (j j' : js) (L : locs) (os os' : OuterState) : Prop := {
  cj_props : ∀ l p, has_props j l p → has_props j' l p;
  cj_compMap : compMap j' = compMap j;
  cj_classes : classes j' = classes j;
  cj_updates : ∃ u, updates j' = updates j ++ u ∧ (l_outer L ∈ u ∨ os' = os);
}.

Lemma click_js_refl j L os : click_js j j L os os.
Proof. constructor; try done. exists []. rewrite app_nil_r. by auto. Qed.

Lemma click_js_outer j j' L os os' i s :
  state_changed j j' (l_outer L) i s → click_js j j' L os os'.
Proof.
  intros [_ Hu _ Hp Hm Hc _ _]. constructor; try done.
  exists [l_outer L]. split; [done|]. left. by apply list_elem_of_singleton.
Qed.

Lemma click_js_other j j' L os l i s : state_changed j j' l i s → click_js j j' L os os.
Proof. intros [_ Hu _ Hp Hm Hc _ _]. constructor; try done. exists [l]. by auto. Qed.

Lemma effect_refines w L os g n c :
  App cats cfg w L os g n → offered cats cfg L n c →
  ∃ w' os' g' n', click_effect c w = Ok (tt, w') ∧
    App cats cfg w' L os' g' n' ∧ spec_click cats cfg c (g, n) (g', n') ∧
    mem_le (w_ext w) (w_ext w') ∧ prevented (w_ext w') = prevented (w_ext w) ∧
    click_js (w_js w) (w_js w') L os os'.
Proof.
  intros HA Hoff. pose proof HA as [Ho Hch Hsep (p & Hp & Hup) Henv Hg [r Hr] Hok].
  destruct Hoff as [| | |i Hi|i q cat v -> Hq Hcat Hv]; unfold click_effect.
  - mstep (Chooser_Props_run _ _ _ Hp). rewrite Hup.
    destruct (RandomGopher_run w _ _ os g r Ho Henv Hg Hr)
      as (g' & m' & j' & r' & Hok' & Hsbr & Hr' & Hrun & Hsc).
    rewrite Hrun. eexists _, _, g', n. split_and!; [done| |by constructor| | |by eapply click_js_outer].
    + eapply App_new_gopher; [exact HA|done|by apply same_but_rands_le| |by eauto|].
      * by rewrite (sbr_gophers _ _ Hsbr).
      * by rewrite (sbr_gophers _ _ Hsbr).
    + etrans; [by apply same_but_rands_le|apply add_gopher_le].
    + apply (sbr_prevented _ _ Hsbr).
  - mstep (Chooser_Props_run _ _ _ Hp). rewrite Hup.
    destruct (ResetGopher_run w _ _ os g Ho Henv Hg) as (g' & j' & Hdef & Hrun & Hsc).
    rewrite Hrun. eexists _, _, g', n. split_and!; [done| |by constructor| |done|by eapply click_js_outer].
    + eapply App_new_gopher; try done; [by apply is_default_ok|by eauto].
    + apply add_gopher_le.
  - eexists _, os, g, n. split_and!; [done| |constructor| |done|apply click_js_refl].
    + apply (App_mem w); [done| |done]. split; [unfold store_extends; reflexivity|done..].
    + split; [unfold store_extends; reflexivity|done..].
  - pose proof (Expand_run w _ _ _ (Z.of_nat i) Hch) as Hex. simpl in Hex. case_decide as Hk.
    + rewrite Hex. exists w, os, g, n. rewrite Hk.
      split_and!; try done; [constructor|apply click_js_refl].
    + destruct Hex as (j' & Hrun & Hsc). rewrite Hrun.
      eexists _, os, g, (Z.of_nat i).
      split_and!; [done| |constructor|done|done|by eapply click_js_other].
      by eapply App_expand.
  - pose proof (gopher_ok_length _ _ _ Hok) as Hlen. apply lookup_lt_Some in Hq as Hlt.
    destruct (UpdateGopher_run w _ _ os g (Z.of_nat i) v Ho Hg) as (j' & Hrun & Hsc); [lia|].
    rewrite Hrun. eexists _, _, _, _.
    split_and!; [done| |constructor| |done|by eapply click_js_outer].
    + eapply App_new_gopher; try done; [|by eauto].
      rewrite Nat2Z.id. by eapply gopher_ok_update.
    + apply add_gopher_le.
Qed.

(** C2: refinement.  In a running application every click the page offers
    succeeds (no panic), takes the gopher and the open panel where the abstract
    specification says, leaves the application running with a gopher that fits
    the configuration, never changes a gopher, a category or a configuration
    that exists already, and prevents the browser's default action once. *)
Theorem click_refines_spec w L os g n c :
  App cats cfg w L os g n → offered cats cfg L n c →
  ∃ w' os' g' n', OnClick NewSource fuel c w = Ok (tt, w') ∧
    App cats cfg w' L os' g' n' ∧ spec_click cats cfg c (g, n) (g', n') ∧
    mem_le (w_ext w) (w_ext w') ∧ prevented (w_ext w') = S (prevented (w_ext w)).
Proof.
  intros HA Hoff.
  destruct (effect_refines w L os g n c HA Hoff) as (w' & os' & g' & n' & Hrun & HA' & Hs & Hle & Hp & _).
  rewrite (OnClick_run _ _ _ Hrun). eexists _, os', g', n'. split_and!; [done| |done| |].
  - apply (App_mem w'); [done|apply prevent_le|done].
  - etrans; [exact Hle|apply prevent_le].
  - simpl. by rewrite Hp.
Qed.

(** [UpdateGopher] checks its index and nothing else: on a running application it
    changes exactly the part asked for when the category exists, in a new gopher that
    [Outer] then shows, and on every other index it panics with an index out of range,
    whatever the value. *)
Theorem UpdateGopher_bounds w L os g n part val :
  App cats cfg w L os g n →
  let run := OuterDef_UpdateGopher (outer_at (l_outer L)) part val w in
  if bool_decide (0 ≤ part < Z.of_nat (length (Categories cfg)))%Z then
    ∃ w' os', run = Ok (tt, w') ∧ inst (w_js w') (l_outer L) (l_outer_st L) (SOuter os') ∧
      store_deref (gophers (w_ext w')) (current os') = Ok {| Parts := <[Z.to_nat part := val]> (Parts g) |} ∧
      config os' = config os ∧ rand os' = rand os ∧ mem_le (w_ext w) (w_ext w')
  else run = Panic IndexOutOfRange.
Proof.
  intros [Hi _ _ _ _ Hg _ Hok] run. apply gopher_ok_length in Hok. case_bool_decide as Hp.
  - rewrite <-Hok in Hp. destruct (UpdateGopher_run w _ _ _ g part val Hi Hg Hp) as (j' & Hrun & [Hi' _ _ _ _ _ _ _]).
    eexists _, _. split; [exact Hrun|]. split; [exact Hi'|].
    split; [apply add_gopher_deref|]. split_and!; [done|done|apply add_gopher_le].
  - rewrite <-Hok in Hp. unfold run, OuterDef_UpdateGopher.
    mstep (Outer_State_run _ _ _ _ Hi). mstep (deref_gopher_run _ _ _ Hg).
    unfold mlift. res_simpl. by rewrite go_update_panic.
Qed.

End Ops.
