(* ===== verification/ClientRender.v ===== *)
(** * What the components draw

    Functional correctness of the four [Render] methods: the images of
    [Preview], the panels [Chooser] passes down, the items of [Panel], the
    click handlers each of them installs, and that a component which React does
    not re-render because its props are equal would have drawn the same. *)

From S2P Require Import Prelude GoLib React Elements Gopher Rand Client ClientState.

(** ** Reading an element *)

(** The handlers installed with [onClick] in an element, outside first. *)
Definition own_handlers (props : jsval) : list click :=
  match props with
  | JObject o => match obj_get o "onClick" with JFunc h => [h] | _ => [] end
  | _ => []
  end.
Fixpoint handlers (e : Element) : list click :=
  match e with
  | ENil | ES _ => []
  | Elem _ props kids =>
      own_handlers props ++ (fix go (es : list Element) : list click :=
                               match es with
                               | [] => []
                               | e :: es => handlers e ++ go es
                               end) kids
  end.

(** A string property of an element. *)
Definition prop_str (k : string) (e : Element) : option string :=
  match e with
  | Elem _ (JObject o) _ => match obj_get o k with JStr s => Some s | _ => None end
  | _ => None
  end.

Definition flat_handlers (es : list Element) : list click := concat (map handlers es).

Lemma handlers_Elem ty props kids :
  handlers (Elem ty props kids) = own_handlers props ++ flat_handlers kids.
Proof.
  simpl. f_equal. unfold flat_handlers. induction kids as [|e es IH]; [done|]. simpl. by rewrite IH.
Qed.

(** The host elements with tag [t] in an element, in document order. *)
Fixpoint find_tag (t : string) (e : Element) : list Element :=
  match e with
  | ENil | ES _ => []
  | Elem ty props kids =>
      (if bool_decide (ty = Tag t) then [e] else []) ++
      (fix go (es : list Element) : list Element :=
         match es with
         | [] => []
         | e :: es => find_tag t e ++ go es
         end) kids
  end.

Lemma find_tag_Elem t ty props kids :
  find_tag t (Elem ty props kids) =
  (if bool_decide (ty = Tag t) then [Elem ty props kids] else []) ++
  concat (map (find_tag t) kids).
Proof.
  simpl. f_equal. induction kids as [|e es IH]; [done|]. simpl. by rewrite IH.
Qed.

(** The props of the component elements in an element, in document order. *)
Fixpoint class_props (e : Element) : list client_props :=
  match e with
  | ENil | ES _ => []
  | Elem ty props kids =>
      match ty, props with
      | ClassT _, JObject o => match obj_get o nestedProps with JProps p => [p] | _ => [] end
      | _, _ => []
      end ++
      (fix go (es : list Element) : list client_props :=
         match es with
         | [] => []
         | e :: es => class_props e ++ go es
         end) kids
  end.

Lemma class_props_Tag t props kids :
  class_props (Elem (Tag t) props kids) = concat (map class_props kids).
Proof. simpl. induction kids as [|e es IH]; [done|]. simpl. by rewrite IH. Qed.

(** The element [CreateElement] makes for props [p]. *)
Definition comp_elem (c : nat) (p : client_props) : Element :=
  Elem (ClassT c) (JObject [(nestedProps, JProps p)]) [].

Section Render.
Context (HTMLElem : string → res Element).

(** ** Panel *)
Definition panel_at (l : loc) : PanelDef := {| panel_def := mk_def l |}.

Lemma Panel_Render_run (w : cworld) l p cat :
  has_props (w_js w) l (PPanel p) →
  store_deref (categories (w_ext w)) (panel_Category p) = Ok cat →
  PanelDef_Render (panel_at l) w = Ok (panel_view p cat, w).
Proof.
  intros Hp Hc. unfold PanelDef_Render.
  assert (Hrun : PanelDef_Props (panel_at l) w = Ok (p, w)).
  { unfold PanelDef_Props. by mstep (Props_has_props _ _ _ Hp). }
  mstep Hrun. by mstep (deref_category_run _ _ _ Hc).
Qed.

Lemma panel_item_handlers p o :
  handlers (panel_item p o) = [chooseItemClick (panel_Update p) (panel_Part p) o].
Proof. done. Qed.

Lemma panel_view_handlers p cat :
  handlers (panel_view p cat) =
  expandClick (panel_Expand p) (panel_Part p) ::
  (if panel_Open p then
     map (chooseItemClick (panel_Update p) (panel_Part p)) (Options cat) else []).
Proof.
  unfold panel_view, El.Div, El.H4, El.A, createElement.
  rewrite !handlers_Elem. unfold flat_handlers.
  cbn [map concat]. rewrite !handlers_Elem. unfold flat_handlers. cbn [map concat].
  rewrite !handlers_Elem. unfold flat_handlers. cbn [map concat].
  rewrite !handlers_Elem. unfold flat_handlers. cbn [map concat app].
  destruct (panel_Open p); simpl; [|done]. rewrite !app_nil_r. f_equal.
  induction (Options cat) as [|o os IH]; simpl; [done|]. by rewrite IH.
Qed.

(** The labels of the items drawn in a panel. *)
Definition panel_items (p : PanelProps) (cat : Category) : list Element :=
  if panel_Open p then map (panel_item p) (Options cat) else [].

Definition item_class (e : Element) : option string := prop_str "className" e.

Lemma panel_item_class p o :
  item_class (panel_item p o) =
  Some (if bool_decide (o = panel_Selected p) then "item selected"
        else if bool_decide (o = "") then "item none" else "item").
Proof. unfold panel_item. by repeat case_bool_decide. Qed.

Lemma find_tag_items t (f : string → Element) os :
  (∀ o, find_tag t (f o) = [f o]) → concat (map (find_tag t) (map f os)) = map f os.
Proof. intros Hf. induction os as [|o os IH]; simpl; [done|]. by rewrite Hf, IH. Qed.

Lemma panel_view_labels p cat : find_tag "label" (panel_view p cat) = panel_items p cat.
Proof.
  unfold panel_view, El.Div, El.H4, El.A, createElement.
  rewrite !find_tag_Elem. cbn [map concat]. rewrite !find_tag_Elem. cbn [map concat].
  rewrite !find_tag_Elem. cbn [map concat]. rewrite !find_tag_Elem. cbn [map concat].
  simpl. rewrite !app_nil_r. unfold panel_items. destruct (panel_Open p); [|done].
  by rewrite find_tag_items.
Qed.

Lemma filter_eq_notin (x : string) (l : list string) :
  x ∉ l → filter (λ y, y = x) l = [].
Proof.
  induction l as [|y l IH]; [done|]. intros [Hne Hl]%not_elem_of_cons.
  rewrite filter_cons, decide_False by done. by apply IH.
Qed.

Lemma filter_eq_NoDup (x : string) (l : list string) :
  NoDup l → x ∈ l → filter (λ y, y = x) l = [x].
Proof.
  induction 1 as [|y l Hy HND IH]; intros Hx; [by apply not_elem_of_nil in Hx|].
  rewrite filter_cons. case_decide as Heq.
  - subst y. f_equal. by apply filter_eq_notin.
  - apply IH. apply elem_of_cons in Hx as [->|]; done.
Qed.

Lemma filter_selected p os :
  filter (λ e, item_class e = Some "item selected") (map (panel_item p) os) =
  map (panel_item p) (filter (λ o, o = panel_Selected p) os).
Proof.
  induction os as [|o os IH]; [done|]. cbn [map]. rewrite !filter_cons.
  rewrite panel_item_class, IH. case_bool_decide as Ho.
  - by rewrite !decide_True.
  - rewrite (decide_False (P:=o = _)) by done. by repeat case_bool_decide.
Qed.

(** A panel draws the title of its category, which opens the panel when
    clicked, and, when open, one item per option of the category, in order, each
    of which chooses that option for the panel's part; a closed panel draws no
    item.  When the selected value is one of the options, exactly one item is
    marked as selected, the one that chooses it. *)
Theorem Panel_Render_items (w : cworld) l p cat :
  has_props (w_js w) l (PPanel p) →
  store_deref (categories (w_ext w)) (panel_Category p) = Ok cat →
  ∃ e, PanelDef_Render (panel_at l) w = Ok (e, w) ∧
    handlers e = expandClick (panel_Expand p) (panel_Part p) ::
      (if panel_Open p then
         map (chooseItemClick (panel_Update p) (panel_Part p)) (Options cat) else []) ∧
    (panel_Open p = false → find_tag "label" e = []) ∧
    (panel_Open p = true → NoDup (Options cat) → panel_Selected p ∈ Options cat →
     ∃ item, filter (λ e, item_class e = Some "item selected") (find_tag "label" e) = [item] ∧
       handlers item = [chooseItemClick (panel_Update p) (panel_Part p) (panel_Selected p)]).
Proof.
  intros Hp Hc. exists (panel_view p cat).
  rewrite panel_view_labels, panel_view_handlers. unfold panel_items.
  split_and!; [by apply Panel_Render_run|done|by intros ->|].
  intros -> HND Hsel. rewrite filter_selected, filter_eq_NoDup by done.
  eexists. split; [done|]. apply panel_item_handlers.
Qed.

(** Skipping is safe for [Panel]: when [EqualsIntf] finds two props equal,
    drawing with either gives the same element, also in a memory that has grown
    since, so not re-rendering a panel with equal props keeps the page right. *)
Theorem Panel_skip_sound (w w' : cworld) l p q e :
  has_props (w_js w) l (PPanel p) → has_props (w_js w') l (PPanel q) →
  PanelProps_EqualsIntf p (Some (PPanel q)) = Ok true → mem_le (w_ext w) (w_ext w') →
  PanelDef_Render (panel_at l) w = Ok (e, w) →
  PanelDef_Render (panel_at l) w' = Ok (e, w').
Proof.
  intros Hp Hq Heq Hle Hrun. unfold PanelProps_EqualsIntf in Heq. simpl in Heq.
  injection Heq as Heq%bool_decide_eq_true. subst q.
  destruct (store_deref (categories (w_ext w)) (panel_Category p)) as [cat|] eqn:Hc.
  - rewrite (Panel_Render_run w l p cat Hp Hc) in Hrun. injection Hrun as <-.
    apply Panel_Render_run; [done|]. by rewrite (le_categories _ _ Hle).
  - exfalso. unfold PanelDef_Render in Hrun.
    assert (Hrp : PanelDef_Props (panel_at l) w = Ok (p, w)).
    { unfold PanelDef_Props. by mstep (Props_has_props _ _ _ Hp). }
    rewrite (M_bind_run _ _ _ _ _ Hrp) in Hrun. apply M_bind_Ok in Hrun as (c & w1 & Hd & _).
    unfold deref_category, get_mem in Hd. res_simpl. by rewrite Hc in Hd.
Qed.

(** ** Preview *)
Definition preview_at (l : loc) : PreviewDef := {| preview_def := mk_def l |}.

Lemma Preview_Render_run (w : cworld) l p g :
  has_props (w_js w) l (PPreview p) →
  store_deref (gophers (w_ext w)) (preview_Current p) = Ok g →
  PreviewDef_Render (preview_at l) w = Ok (preview_view g, w).
Proof.
  intros Hp Hg. unfold PreviewDef_Render.
  assert (Hrun : PreviewDef_Props (preview_at l) w = Ok (p, w)).
  { unfold PreviewDef_Props. by mstep (Props_has_props _ _ _ Hp). }
  mstep Hrun. by mstep (deref_gopher_run _ _ _ Hg).
Qed.

(** [Preview] stacks one image per part the gopher wears, in category order,
    and draws nothing for the parts it does not wear; it installs no handler.
    Later gophers do not change the picture of the one it was given. *)
Theorem Preview_Render_images (w : cworld) l p g :
  has_props (w_js w) l (PPreview p) →
  store_deref (gophers (w_ext w)) (preview_Current p) = Ok g →
  ∃ e, PreviewDef_Render (preview_at l) w = Ok (e, w) ∧
    find_tag "img" e = map preview_img (filter (λ p, p ≠ "") (Parts g)) ∧
    handlers e = [] ∧
    (∀ w' : cworld, has_props (w_js w') l (PPreview p) → mem_le (w_ext w) (w_ext w') →
       PreviewDef_Render (preview_at l) w' = Ok (e, w')).
Proof.
  intros Hp Hg. exists (preview_view g). split_and!.
  - by eapply Preview_Render_run.
  - unfold preview_view, El.Div, createElement.
    rewrite !find_tag_Elem. cbn [map concat]. rewrite !find_tag_Elem. simpl.
    rewrite app_nil_r. by rewrite find_tag_items.
  - unfold preview_view, El.Div, createElement.
    rewrite !handlers_Elem. unfold flat_handlers. cbn [map concat]. rewrite !handlers_Elem. simpl.
    rewrite app_nil_r. unfold flat_handlers.
    induction (filter (λ p, p ≠ "") (Parts g)) as [|x xs IH]; [done|]. simpl. exact IH.
  - intros w' Hp' Hle. eapply Preview_Render_run; [done|].
    eapply store_deref_extends; [|exact Hg]. apply Hle.
Qed.

(** ** Chooser *)

(** The props [Chooser] passes to panel [i]. *)
Definition panel_props (ch : ChooserDef) (props : ChooserProps) (n : Z) (g : Gopher)
    (i : nat) (cat : ptr) : PanelProps := {|
  panel_Category := cat;
  panel_Open := bool_decide (n = Z.of_nat i);
  panel_Part := Z.of_nat i;
  panel_Selected := default "" (Parts g !! i);
  panel_Update := chooser_Update props;
  panel_Expand := ch;
|}.

Definition panel_elems (c : nat) (ch : ChooserDef) (props : ChooserProps) (n : Z) (g : Gopher)
    (i : nat) (cats : list ptr) : list Element :=
  imap (λ k cat, comp_elem c (PPanel (panel_props ch props n g (i + k) cat))) cats.

Lemma chooser_panel_run (w : cworld) ch n props g i cat :
  classes_wf (w_js w) → store_deref (gophers (w_ext w)) (chooser_Current props) = Ok g →
  i < length (Parts g) →
  ∃ c j', chooser_panel ch (MkChooserState n) props i cat w =
      Ok (comp_elem c (PPanel (panel_props ch props n g i cat)), World j' (w_ext w)) ∧
    registered (w_js w) j' panel_type c.
Proof.
  intros Hwf Hg Hi. unfold chooser_panel. mstep (deref_gopher_run _ _ _ Hg).
  destruct (lookup_lt_is_Some_2 (Parts g) i Hi) as [sel Hsel].
  mstep (mlift_run (go_index (Parts g) (Z.of_nat i)) w sel (proj2 (go_index_nat _ _ _) Hsel)).
  unfold panel_props. rewrite Hsel. simpl. unfold Panel.
  destruct (CreateElement_eq buildPanel (Some (PPanel (panel_props ch props n g i cat))) [] w Hwf)
    as (c & j' & Hrun & Hreg).
  exists c, j'. split; [|done]. unfold panel_props in Hrun. rewrite Hsel in Hrun. exact Hrun.
Qed.

Lemma chooser_panels_run ch n props g cats i (w : cworld) :
  classes_wf (w_js w) → store_deref (gophers (w_ext w)) (chooser_Current props) = Ok g →
  i + length cats ≤ length (Parts g) →
  ∃ c j', chooser_panels ch (MkChooserState n) props i cats w =
      Ok (panel_elems c ch props n g i cats, World j' (w_ext w)) ∧
    classes_wf j' ∧ heap j' = heap (w_js w) ∧ updates j' = updates (w_js w) ∧
    compMap (w_js w) ⊆ compMap j' ∧ next_loc j' = next_loc (w_js w) ∧
    (cats ≠ [] → compMap j' !! panel_type = Some c).
Proof.
  revert i w. induction cats as [|cat cats IH]; intros i w Hwf Hg Hi.
  - exists 0, (w_js w). split_and!; try done. by destruct w.
  - simpl in Hi. destruct (chooser_panel_run w ch n props g i cat Hwf Hg) as (c & j1 & Hrun & Hreg);
      [lia|]. destruct Hreg as [Hwf1 Hc1 Hsub1 Hh1 Hu1 Hn1].
    destruct (IH (S i) (World j1 (w_ext w)) Hwf1 Hg) as (c2 & j2 & Hrun2 & Hwf2 & Hh2 & Hu2 & Hs2 & Hn2 & Hc2);
      [simpl; lia|]. simpl in *.
    assert (cats = [] ∨ c2 = c) as Hcc.
    { destruct cats as [|cat' cats]; [by left|right].
      specialize (Hc2 ltac:(done)). eapply lookup_weaken in Hc1; [|exact Hs2]. congruence. }
    exists c, j2. split_and!; try congruence.
    + mstep Hrun. mstep Hrun2.
      assert (panel_elems c ch props n g i (cat :: cats) =
              comp_elem c (PPanel (panel_props ch props n g i cat)) ::
              panel_elems c2 ch props n g (S i) cats) as ->; [|done].
      unfold panel_elems. rewrite imap_cons, Nat.add_0_r. f_equal.
      destruct Hcc as [->| ->]; [done|]. apply imap_ext. intros k x _. simpl.
      by rewrite Nat.add_succ_r.
    + done.
    + by transitivity (compMap j1).
    + intros _. by eapply lookup_weaken.
Qed.

Lemma panel_elems_handlers c ch props n g i cats :
  flat_handlers (panel_elems c ch props n g i cats) = [].
Proof.
  unfold panel_elems. revert i. induction cats as [|cat cats IH]; intros i; [done|].
  rewrite imap_cons. unfold flat_handlers in *. simpl. erewrite imap_ext; [apply (IH (S i))|].
  intros k x _. simpl. by rewrite Nat.add_succ_r.
Qed.

Lemma chooser_view_handlers ch divs footer :
  handlers (chooser_view ch divs footer) =
  [shuffleClick ch; resetClick ch] ++ flat_handlers divs ++ [saveClick ch] ++ handlers footer.
Proof.
  unfold chooser_view. unfold El.Div at 1, createElement at 1. rewrite handlers_Elem.
  unfold flat_handlers at 1. cbn [map concat].
  unfold El.Div at 1, createElement at 1. rewrite handlers_Elem. simpl.
  by rewrite !app_nil_r.
Qed.

(** The world after drawing: only the class registry may have grown. *)
Record drawn (w w' : cworld) : Prop := {
  drawn_wf : classes_wf (w_js w');
  drawn_heap : heap (w_js w') = heap (w_js w);
  drawn_updates : updates (w_js w') = updates (w_js w);
  drawn_sub : compMap (w_js w) ⊆ compMap (w_js w');
  drawn_next : next_loc (w_js w') = next_loc (w_js w);
  drawn_ext : w_ext w' = w_ext w;
}.

Lemma Chooser_Render_class (w : cworld) ch i n props cfg g footer :
  classes_wf (w_js w) → inst (w_js w) ch i (SChooser (MkChooserState n)) →
  has_props (w_js w) ch (PChooser props) →
  store_deref (configs (w_ext w)) (chooser_Config props) = Ok cfg →
  store_deref (gophers (w_ext w)) (chooser_Current props) = Ok g →
  length (Categories cfg) ≤ length (Parts g) → HTMLElem footer_html = Ok footer →
  ∃ c w', ChooserDef_Render HTMLElem (chooser_at ch) w =
      Ok (chooser_view (chooser_at ch)
            (panel_elems c (chooser_at ch) props n g 0 (Categories cfg)) footer, w') ∧
    drawn w w' ∧ (Categories cfg ≠ [] → compMap (w_js w') !! panel_type = Some c).
Proof.
  intros Hwf Hi Hp Hc Hg Hlen Hf. unfold ChooserDef_Render.
  mstep (Chooser_State_run _ _ _ _ Hi). mstep (Chooser_Props_run _ _ _ Hp).
  mstep (deref_config_run _ _ _ Hc).
  destruct (chooser_panels_run (chooser_at ch) n props g (Categories cfg) 0 w Hwf Hg)
    as (c & j' & Hrun & Hwf' & Hh & Hu & Hs & Hn & Hcl); [done|].
  mstep Hrun. mstep (mlift_run _ (World j' (w_ext w)) _ Hf).
  exists c. eexists. split; [done|]. split; [by constructor|done].
Qed.

Lemma Chooser_Render_run (w : cworld) ch i n props cfg g footer :
  classes_wf (w_js w) → inst (w_js w) ch i (SChooser (MkChooserState n)) →
  has_props (w_js w) ch (PChooser props) →
  store_deref (configs (w_ext w)) (chooser_Config props) = Ok cfg →
  store_deref (gophers (w_ext w)) (chooser_Current props) = Ok g →
  length (Categories cfg) ≤ length (Parts g) → HTMLElem footer_html = Ok footer →
  ∃ c w', ChooserDef_Render HTMLElem (chooser_at ch) w =
      Ok (chooser_view (chooser_at ch)
            (panel_elems c (chooser_at ch) props n g 0 (Categories cfg)) footer, w') ∧
    drawn w w'.
Proof.
  intros Hwf Hi Hp Hc Hg Hlen Hf.
  destruct (Chooser_Render_class w ch i n props cfg g footer Hwf Hi Hp Hc Hg Hlen Hf)
    as (c & w' & Hrun & Hd & _). by exists c, w'.
Qed.

Lemma panel_elems_props c ch props n g i cats :
  concat (map class_props (panel_elems c ch props n g i cats)) =
  imap (λ k cat, PPanel (panel_props ch props n g (i + k) cat)) cats.
Proof.
  unfold panel_elems. revert i. induction cats as [|cat cats IH]; intros i; [done|].
  rewrite !imap_cons. simpl. f_equal.
  erewrite imap_ext; [rewrite (IH (S i))|intros k x _; simpl; by rewrite Nat.add_succ_r].
  apply imap_ext. intros k x _. simpl. by rewrite Nat.add_succ_r.
Qed.

Lemma chooser_view_props ch divs footer :
  class_props (chooser_view ch divs footer) =
  concat (map class_props divs) ++ class_props footer.
Proof.
  unfold chooser_view. unfold El.Div at 1, createElement at 1. rewrite class_props_Tag.
  cbn [map concat]. unfold El.Div at 1, createElement at 1. rewrite class_props_Tag. simpl.
  by rewrite app_nil_r.
Qed.

Lemma panel_props_eq ch props props' n n' g g' j cat :
  chooser_Update props' = chooser_Update props → is_Some (Parts g !! j) → is_Some (Parts g' !! j) →
  bool_decide (panel_props ch props n g j cat = panel_props ch props' n' g' j cat) =
  bool_decide (Parts g !! j = Parts g' !! j ∧ (n = Z.of_nat j ↔ n' = Z.of_nat j)).
Proof.
  intros Hup [x Hx] [y Hy]. apply bool_decide_ext. unfold panel_props. rewrite Hup, Hx, Hy. simpl.
  split.
  - intros [= Hopen ->]. split; [done|].
    destruct (decide (n = Z.of_nat j)), (decide (n' = Z.of_nat j)); try done;
      repeat case_bool_decide; done.
  - intros [[= ->] Hiff]. f_equal. by apply bool_decide_ext.
Qed.

(** C33: React is told to re-render panel [j] after a change of the gopher or of
    the open panel exactly when the part [j] of the gopher changed or the panel
    went from open to closed or back. Both renders of [Chooser] succeed, and the
    answer is the one [shouldComponentUpdate] gives on the props the panel has
    and the props the new render passes. *)
Theorem panel_rerender_iff (w w' : cworld) ch i i' n n' props props' cfg g g' footer :
  classes_wf (w_js w) → classes_wf (w_js w') →
  inst (w_js w) ch i (SChooser (MkChooserState n)) →
  inst (w_js w') ch i' (SChooser (MkChooserState n')) →
  has_props (w_js w) ch (PChooser props) → has_props (w_js w') ch (PChooser props') →
  store_deref (configs (w_ext w)) (chooser_Config props) = Ok cfg →
  store_deref (configs (w_ext w')) (chooser_Config props') = Ok cfg →
  store_deref (gophers (w_ext w)) (chooser_Current props) = Ok g →
  store_deref (gophers (w_ext w')) (chooser_Current props') = Ok g' →
  length (Categories cfg) ≤ length (Parts g) → length (Categories cfg) ≤ length (Parts g') →
  chooser_Update props' = chooser_Update props → HTMLElem footer_html = Ok footer →
  ∃ e w1 e' w1', ChooserDef_Render HTMLElem (chooser_at ch) w = Ok (e, w1) ∧
    ChooserDef_Render HTMLElem (chooser_at ch) w' = Ok (e', w1') ∧
    ∀ j p p' l (wp : cworld), j < length (Categories cfg) →
      class_props e !! j = Some p → class_props e' !! j = Some p' →
      has_props (w_js wp) l p →
      class_shouldComponentUpdate l [JObject (wrap_props (Some p') [])] wp =
      Ok (negb (bool_decide (Parts g !! j = Parts g' !! j ∧
                             (n = Z.of_nat j ↔ n' = Z.of_nat j))), wp).
Proof.
  intros Hwf Hwf' Hi Hi' Hp Hp' Hc Hc' Hg Hg' Hl Hl' Hup Hf.
  destruct (Chooser_Render_run w ch i n props cfg g footer) as (c & w1 & -> & _); try done.
  destruct (Chooser_Render_run w' ch i' n' props' cfg g' footer) as (c' & w1' & -> & _); try done.
  eexists _, _, _, _. split; [done|]. split; [done|].
  intros j p p' l wp Hj. rewrite !chooser_view_props, !panel_elems_props.
  destruct (lookup_lt_is_Some_2 (Categories cfg) j Hj) as [cat Hcat].
  rewrite !lookup_app_l by (rewrite length_imap; done). rewrite !list_lookup_imap, Hcat. simpl.
  intros [= <-] [= <-] Hprops.
  erewrite shouldComponentUpdate_run; [|exact Hprops|done|done|].
  - rewrite <-(panel_props_eq (chooser_at ch) props props' n n' g g' j cat); [done|done|..];
      apply lookup_lt_is_Some_2; lia.
  - done.
Qed.

(** The handlers on the elements [Chooser] and its panels draw are exactly the
    clicks [offered] lists for the open panel, when the footer has none. *)
Lemma chooser_offers (w : cworld) cats cfg L os g n footer props :
  App cats cfg w L os g n → config_ok cats cfg → classes_wf (w_js w) →
  has_props (w_js w) (l_chooser L) (PChooser props) →
  props = MkChooserProps (current os) (config os) (outer_at (l_outer L)) →
  HTMLElem footer_html = Ok footer → handlers footer = [] → class_props footer = [] →
  ∃ e w1, ChooserDef_Render HTMLElem (chooser_at (l_chooser L)) w = Ok (e, w1) ∧
    ∀ c, offered cats cfg L n c ↔
      c ∈ handlers e ∨
      ∃ p cat, PPanel p ∈ class_props e ∧ cat_at cats (panel_Category p) cat ∧
               c ∈ handlers (panel_view p cat).
Proof.
  intros [Ho Hch Hsep _ [Hc Hk] Hg _ Hok] [Hlen Hcats] Hwf Hp -> Hf Hfh Hfp.
  pose proof (gopher_ok_length _ _ _ Hok) as Hgl.
  destruct (Chooser_Render_run w (l_chooser L) _ n _ cfg g footer Hwf Hch Hp)
    as (cl & w1 & -> & _); try done; [by rewrite Hgl|].
  eexists _, w1. split; [done|]. intros c.
  rewrite chooser_view_handlers, panel_elems_handlers, Hfh, chooser_view_props,
    panel_elems_props, Hfp, !app_nil_r.
  set (props := MkChooserProps _ _ _). set (ch := chooser_at (l_chooser L)).
  assert (Hpan : ∀ p, PPanel p ∈ imap (λ k cat, PPanel (panel_props ch props n g (0 + k) cat))
      (Categories cfg) ↔
      ∃ k q, Categories cfg !! k = Some q ∧ p = panel_props ch props n g k q).
  { intros p. rewrite elem_of_lookup_imap. naive_solver. }
  cbn [app]. rewrite !elem_of_cons. split.
  - intros Hoff. destruct Hoff as [| | |k Hk'|k q cat v -> Hq Hcat Hv]; [by eauto..| |].
    + right. destruct (lookup_lt_is_Some_2 _ _ Hk') as [q Hq].
      destruct (Hcats k q Hq) as (cat & Hcat & _). exists (panel_props ch props n g k q), cat.
      split; [apply Hpan; by eauto|]. split; [done|]. rewrite panel_view_handlers.
      apply elem_of_cons. by left.
    + right. exists (panel_props ch props (Z.of_nat k) g k q), cat.
      split; [apply Hpan; by eauto|]. split; [done|]. rewrite panel_view_handlers. simpl.
      rewrite bool_decide_eq_true_2 by done. apply elem_of_cons. right.
      apply list_elem_of_fmap. eauto.
  - intros [[->|[->|[->|[]%not_elem_of_nil]]]|(p & cat & (k & q & Hq & ->)%Hpan & Hcat & Hin)];
      [constructor..|].
    rewrite panel_view_handlers in Hin. simpl in *. apply elem_of_cons in Hin as [->|Hin].
    + constructor. by eapply lookup_lt_Some.
    + case_bool_decide as Hn; [|by apply not_elem_of_nil in Hin].
      apply list_elem_of_fmap in Hin as (v & -> & Hv). rewrite <-Hn. by econstructor.
Qed.

(** ** Outer *)
Lemma Outer_Render_class (w : cworld) o i s :
  classes_wf (w_js w) → inst (w_js w) o i (SOuter s) →
  ∃ c1 c2 w', OuterDef_Render HTMLElem (outer_at o) w =
      Ok (El.Div None [comp_elem c1 (PPreview (MkPreviewProps (current s)));
                       comp_elem c2 (PChooser (MkChooserProps (current s) (config s) (outer_at o)))], w') ∧
    drawn w w' ∧
    compMap (w_js w') !! preview_type = Some c1 ∧ compMap (w_js w') !! chooser_type = Some c2.
Proof.
  intros Hwf Hi. unfold OuterDef_Render. mstep (Outer_State_run _ _ _ _ Hi).
  destruct (CreateElement_eq buildPreview (Some (PPreview (MkPreviewProps (current s)))) [] w Hwf)
    as (c1 & j1 & Hrun1 & [Hwf1 Hc1 Hs1 Hh1 Hu1 Hn1]).
  mstep Hrun1.
  assert (Hi1 : inst j1 o i (SOuter s)) by by eapply inst_heap.
  mstep (Outer_State_run (World j1 (w_ext w)) o i s Hi1).
  mstep (Outer_State_run (World j1 (w_ext w)) o i s Hi1).
  destruct (CreateElement_eq (buildChooser HTMLElem)
      (Some (PChooser (MkChooserProps (current s) (config s) (outer_at o)))) [] (World j1 (w_ext w)) Hwf1)
    as (c2 & j2 & Hrun2 & [Hwf2 Hc2 Hs2 Hh2 Hu2 Hn2]).
  mstep Hrun2. simpl in *. exists c1, c2. eexists. split; [done|]. split.
  - constructor; simpl; try congruence; [done|]. by transitivity (compMap j1).
  - split; [by eapply lookup_weaken|done].
Qed.

Lemma Outer_Render_run (w : cworld) o i s :
  classes_wf (w_js w) → inst (w_js w) o i (SOuter s) →
  ∃ c1 c2 w', OuterDef_Render HTMLElem (outer_at o) w =
      Ok (El.Div None [comp_elem c1 (PPreview (MkPreviewProps (current s)));
                       comp_elem c2 (PChooser (MkChooserProps (current s) (config s) (outer_at o)))], w') ∧
    drawn w w'.
Proof.
  intros Hwf Hi. destruct (Outer_Render_class w o i s Hwf Hi) as (c1 & c2 & w' & Hrun & Hd & _).
  by exists c1, c2, w'.
Qed.

End Render.
