(* ===== verification/ClientJsx.v ===== *)
(** * The client with the JSX parser

    [Chooser] draws a footer with [jsx.HTMLElem].  The files on the client take
    that function as a parameter; here it is the model of [Jsx.v], and what the
    client needs of the footer is proved: it adds no click and no component to
    the page. *)

From S2P Require Import Prelude GoLib React Elements CoreGen HtmlNode JsxWalk Jsx JsxGen Gopher Rand Client ClientState ClientRender.

Lemma concat_nils {A} (ls : list (list A)) : Forall (λ l, l = []) ls → concat ls = [].
Proof. induction 1 as [|l ls -> _ IH]; simpl; [done|exact IH]. Qed.

Lemma inert_handlers e : inert e → handlers e = [].
Proof.
  revert e. apply inert_ind; [done|]. intros t o es Ho Hes. rewrite handlers_Elem.
  assert (own_handlers (JObject o) = []) as ->.
  { simpl. specialize (Ho "onClick"). destruct (obj_get o "onClick") as [| | | | | | | | |h]; try done.
    by destruct (Ho h). }
  apply concat_nils. by apply list.Forall_fmap.
Qed.

Lemma inert_class_props e : inert e → class_props e = [].
Proof.
  revert e. apply inert_ind; [done|]. intros t o es Ho Hes. rewrite class_props_Tag.
  apply concat_nils. by apply list.Forall_fmap.
Qed.

(** C22: the page offers what the specification offers.  With the footer parsed by
    [jsx.HTMLElem], the handlers on the elements [Chooser] and its panels draw
    are exactly the clicks [offered] lists for the open panel: every offered
    click is there to be clicked, and nothing else can be clicked. *)
Theorem page_offers (trees : string → string + list itree) (w : cworld) cats cfg L os g n footer props :
  App cats cfg w L os g n → config_ok cats cfg → classes_wf (w_js w) →
  has_props (w_js w) (l_chooser L) (PChooser props) →
  props = MkChooserProps (current os) (config os) (outer_at (l_outer L)) →
  html_elem trees footer_html = Ok footer →
  ∃ e w1, ChooserDef_Render (html_elem trees) (chooser_at (l_chooser L)) w = Ok (e, w1) ∧
    ∀ c, offered cats cfg L n c ↔
      c ∈ handlers e ∨
      ∃ p cat, PPanel p ∈ class_props e ∧ cat_at cats (panel_Category p) cat ∧
               c ∈ handlers (panel_view p cat).
Proof.
  intros HA Hcfg Hwf Hp Hprops Hf.
  assert (inert footer) as Hin.
  { unfold html_elem, html_trimmed in Hf.
    apply bind_Ok in Hf as (es & (ts & _ & Hes)%bind_Ok & Hone).
    destruct es as [|e [|]]; try done. injection Hone as ->.
    apply res_map_Forall2, Forall2_cons_inv_r in Hes as (t & ts' & Ht & _ & _).
    by eapply parse_tree_inert. }
  by eapply chooser_offers; [..|apply inert_handlers|apply inert_class_props].
Qed.
