(* ===== verification/ReactGenClient.v ===== *)
(** * The proxies of the client are the ones reactGen writes

    The declarations of [src/client], as [go/parser] hands them to
    [cmd/reactGen]: the imports, the structs and the signatures of the methods of its
    six files.  The files [gen_*_reactGen.go] of the client are what the generator
    writes for them, and the proxies modelled with the client are what these files
    declare. *)

From S2P Require Import Prelude GoLib React Elements Gopher Rand Client GoGenerate GoAst ReactGen ReactGenOrder.

(** ** The sources *)
Definition import (p : string) : ImportSpec := MkImport None (String Strconv.dq (p +:+ String Strconv.dq "")).
Definition import_as (n p : string) : ImportSpec :=
  MkImport (Some n) (String Strconv.dq (p +:+ String Strconv.dq "")).
Definition interface (text : string) : type_expr := NotStruct (OtherExpr text []).
Definition ptr_to (t : string) : expr := StarExpr (Ident t).
Definition pkg_type (p t : string) : expr := SelectorExpr (Ident p) t.

(** [func (recv) name(params) result], and [func name(params) result]. *)
Definition method (recv name : string) (params : field_list) (result : option expr) : decl :=
  DFunc (MkFunc (Some (Ident recv)) name params (match result with Some r => Some [([], r)] | None => None end)).
Definition func (name : string) (params : field_list) (result : option expr) : decl :=
  DFunc (MkFunc None name params (match result with Some r => Some [([], r)] | None => None end)).
Definition struct (name : string) (fields : field_list) : decl := DType [(name, StructType (Some fields))].
Definition onClick (t : string) : decl :=
  method t "OnClick" [(["e"], StarExpr (pkg_type "r" "SyntheticMouseEvent"))] None.

Definition outer_go : ast_file := MkFile
  [import "math/rand"; import "time"; import_as "r" "myitcv.io/react"]
  [DOther;
   struct "OuterDef" [([], pkg_type "r" "ComponentDef")];
   struct "OuterState" [(["current"], ptr_to "Gopher"); (["config"], ptr_to "Config");
                        (["rand"], StarExpr (pkg_type "rand" "Rand"))];
   func "Outer" [] (Some (ptr_to "OuterElem"));
   method "OuterDef" "ComponentWillMount" [] None;
   method "OuterDef" "Render" [] (Some (pkg_type "r" "Element"));
   method "OuterDef" "ResetGopher" [] None;
   method "OuterDef" "UpdateGopher" [(["part"], Ident "int"); (["val"], Ident "string")] None;
   method "OuterDef" "RandomGopher" [] None;
   func "randElem" [(["ss"], ArrayType None (Ident "string"))] (Some (Ident "string"));
   func "defaultGopher" [(["c"], ptr_to "Config")] (Some (ptr_to "Gopher"))].

Definition preview_go : ast_file := MkFile
  [import "path/filepath"; import_as "r" "myitcv.io/react"]
  [DOther;
   struct "PreviewProps" [(["Current"], ptr_to "Gopher")];
   struct "PreviewDef" [([], pkg_type "r" "ComponentDef")];
   func "Preview" [(["p"], Ident "PreviewProps")] (Some (ptr_to "PreviewElem"));
   method "PreviewDef" "Render" [] (Some (pkg_type "r" "Element"))].

Definition chooser_go : ast_file := MkFile
  [import "github.com/gopherjs/gopherjs/js"; import_as "r" "myitcv.io/react"; import "myitcv.io/react/jsx"]
  [DOther;
   struct "ChooserProps" [(["Current"], ptr_to "Gopher"); (["Config"], ptr_to "Config");
                          (["Update"], Ident "UpdateGopher")];
   struct "ChooserState" [(["open"], Ident "int")];
   struct "ChooserDef" [([], pkg_type "r" "ComponentDef")];
   func "Chooser" [(["p"], Ident "ChooserProps")] (Some (ptr_to "ChooserElem"));
   method "ChooserDef" "Render" [] (Some (pkg_type "r" "Element"));
   method "ChooserDef" "Expand" [(["i"], Ident "int")] None;
   DType [("ExpandPanel", interface "interface { Expand(i int) }")];
   struct "shuffleClick" [([], Ident "ChooserDef")];
   onClick "shuffleClick";
   struct "resetClick" [([], Ident "ChooserDef")];
   onClick "resetClick";
   struct "saveClick" [([], Ident "ChooserDef")];
   onClick "saveClick"].

Definition panel_go : ast_file := MkFile
  [import "path/filepath"; import_as "r" "myitcv.io/react"]
  [DOther;
   DVar [(["blank"], None)];
   struct "PanelProps" [(["Category"], ptr_to "Category"); (["Open"], Ident "bool"); (["Part"], Ident "int");
                        (["Selected"], Ident "string"); (["Update"], Ident "UpdateGopher");
                        (["Expand"], Ident "ExpandPanel")];
   func "Panel" [(["p"], Ident "PanelProps")] (Some (ptr_to "PanelElem"));
   struct "PanelDef" [([], pkg_type "r" "ComponentDef")];
   method "PanelDef" "Render" [] (Some (pkg_type "r" "Element"));
   struct "expandClick" [(["E"], Ident "ExpandPanel"); (["i"], Ident "int")];
   onClick "expandClick";
   struct "chooseItemClick" [(["U"], Ident "UpdateGopher"); (["ci"], Ident "int"); (["v"], Ident "string")];
   onClick "chooseItemClick"].

Definition main_go : ast_file := MkFile
  [import "net/url"; import "honnef.co/go/js/dom"; import "myitcv.io/react"]
  [DOther; DVar [(["document"], None)]; func "main" [] None].

Definition gopher_go : ast_file := MkFile []
  [struct "Gopher" [(["Parts"], ArrayType None (Ident "string"))];
   DType [("UpdateGopher",
     interface "interface { ResetGopher(); UpdateGopher(part int, val string); RandomGopher() }")];
   struct "Config" [(["Categories"], ArrayType None (ptr_to "Category"))];
   struct "Category" [(["Name"], Ident "string"); (["Options"], ArrayType None (Ident "string"))];
   DVar [(["hackConfig"], None)]].

Definition client_sources : list (string * ast_file) :=
  [("chooser.go", chooser_go); ("gopher.go", gopher_go); ("main.go", main_go); ("outer.go", outer_go);
   ("panel.go", panel_go); ("preview.go", preview_go)].

(** The files [parser.ParseDir] finds in the directory [dir]: their names are joined to it. *)
Definition in_dir (dir : string) (f : string * ast_file) : string * ast_file := (Filepath.Join [dir; f.1], f.2).

(** ** The generated files, declaration by declaration *)
Definition gen_Chooser_reactGen : list gen_decl :=
  [ElemStruct; Build; BuildElem true; RendersElement "c" (RenderOne "c");
   SetState "c"; ReactGen.State "c"; IsState "c"; StateVar;
   GetInitialStateIntf "c" false; StateEqualsIntf "c" false;
   IsProps "c"; ReactGen.Props "c"; PropsEqualsIntf "c" false; PropsVar].
Definition gen_Outer_reactGen : list gen_decl :=
  [ElemStruct; Build; BuildElem false; RendersElement "o" (RenderOne "o");
   SetState "o"; ReactGen.State "o"; IsState "o"; StateVar;
   GetInitialStateIntf "o" false; StateEqualsIntf "o" false].
Definition gen_Panel_reactGen : list gen_decl :=
  [ElemStruct; Build; BuildElem true; RendersElement "p" (RenderOne "p");
   IsProps "p"; ReactGen.Props "p"; PropsEqualsIntf "p" false; PropsVar].
Definition gen_Preview_reactGen : list gen_decl :=
  [ElemStruct; Build; BuildElem true; RendersElement "p" (RenderOne "p");
   IsProps "p"; ReactGen.Props "p"; PropsEqualsIntf "p" false; PropsVar].

Definition client_generated_files : list (string * (string * list gen_decl)) :=
  [("gen_Outer_reactGen.go", ("Outer", gen_Outer_reactGen));
   ("gen_Chooser_reactGen.go", ("Chooser", gen_Chooser_reactGen));
   ("gen_Panel_reactGen.go", ("Panel", gen_Panel_reactGen));
   ("gen_Preview_reactGen.go", ("Preview", gen_Preview_reactGen))].

(** ** Files the generator wrote before *)
Lemma collect_generated core files old :
  Forall (λ f, FileGeneratedBy f.1 reactGenCmd = true) old → collect core (files ++ old) = collect core files.
Proof.
  intros H. unfold collect. rewrite foldl_app. generalize (foldl add_file (new_gen core) files).
  induction H as [|f old Hf _ IH]; intros g; [done|]. cbn [foldl].
  unfold add_file at 2. by rewrite Hf.
Qed.

Lemma dogen_collect range_set core files files' :
  collect core files = collect core files' → dogen range_set core files = dogen range_set core files'.
Proof. unfold dogen. by intros ->. Qed.

(** A file is read the same in every directory. *)
Lemma FileGeneratedBy_in_dir dir f cmd :
  plain_file f → FileGeneratedBy (Filepath.Join [dir; f]) cmd = FileGeneratedBy f cmd.
Proof.
  intros Hf. unfold FileGeneratedBy, FileIsGenerated. rewrite Base_Join by done.
  rewrite (Base_file f); [done|apply Hf|apply Hf].
Qed.
Lemma collect_in_dir core dir files :
  Forall (λ f, plain_file f.1) files → collect core (map (in_dir dir) files) = collect core files.
Proof.
  intros H. unfold collect. generalize (new_gen core).
  induction H as [|f files Hf _ IH]; intros g; [done|]. cbn [map foldl]. rewrite IH. f_equal.
  unfold add_file. cbn [in_dir fst snd]. by rewrite FileGeneratedBy_in_dir.
Qed.

Lemma client_plain : Forall (λ f : string * ast_file, plain_file f.1) client_sources.
Proof. repeat constructor; vm_compute; try done. Qed.

Lemma client_orderly : orderly (collect false client_sources).
Proof. apply orderlyb_orderly. vm_compute. reflexivity. Qed.

Lemma client_dogen : dogen elements false client_sources = Ok client_generated_files.
Proof. vm_compute. reflexivity. Qed.

(** C18: run in the directory of the client, in whatever order maps are ranged over
    and with or without the files of an earlier run, reactGen writes the four files
    [gen_Chooser_reactGen.go], [gen_Outer_reactGen.go], [gen_Panel_reactGen.go] and
    [gen_Preview_reactGen.go] with exactly the declarations the repository has in
    them. *)
Theorem client_generated dir old files range_set :
  (∀ X, range_set X ≡ₚ elements X) → Forall (λ f, FileGeneratedBy f.1 reactGenCmd = true) old →
  files ≡ₚ map (in_dir dir) client_sources ++ old →
  ∃ out, dogen range_set false files = Ok out ∧ out ≡ₚ client_generated_files.
Proof.
  intros Hr Hold Hp.
  assert (collect false (map (in_dir dir) client_sources ++ old) = collect false client_sources) as Hc
    by (rewrite collect_generated by done; apply collect_in_dir, client_plain).
  destruct (dogen_perm elements range_set (map (in_dir dir) client_sources ++ old) files
    client_generated_files) as (out & Hout & Ho); [|by symmetry|..].
  - intros X. by rewrite Hr.
  - rewrite Hc. apply client_orderly.
  - rewrite <-client_dogen. by apply dogen_collect.
  - exists out. split; [done|by symmetry].
Qed.

(** ** The model of the client uses the generated proxies *)

(** The component a generated file makes of a definition: [typ] is its type, [render]
    and [mount] the methods of the definition, [get] its own [GetInitialState], [recv]
    its own [ComponentWillReceiveProps] and [zero] the zero value of the state. *)
Definition proxy_component (ds : list gen_decl) (typ : rtype) (render : CM Element)
    (mount : option (CM unit)) (get : CM client_state) (recv : client_props → CM unit)
    (zero : client_state) : Component mem := {|
  cmp_type := typ;
  React.RendersElement := render;
  ComponentWillMount := mount;
  ComponentDidMount := None;
  React.ComponentWillReceivePropsIntf :=
    if existsb (λ d, match d with ComponentWillReceivePropsIntf _ => true | _ => false end) ds
    then Some recv else None;
  React.GetInitialStateIntf :=
    foldr (λ d r, match d with
                  | GetInitialStateIntf _ own => Some (if own : bool then get else mret zero)
                  | _ => r end) None ds;
  ComponentWillUnmount := None
|}.

(** [build]XElem: whether the props are passed on. *)
Definition proxy_elem (ds : list gen_decl) (build : ComponentBuilder mem) (props : client_props) : CM Element :=
  CreateElement build
    (if existsb (λ d, match d with BuildElem true => true | _ => false end) ds then Some props else None) [].

(** The proxies of the state and of the props, and [EqualsIntf]. *)
Definition proxy_State {S} (as_S : client_state → res S) (cd : ComponentDef) : CM S :=
  s ← ComponentDef_State cd; mlift (as_S s).
Definition proxy_Props {P} (as_P : option client_props → res P) (cd : ComponentDef) : CM P :=
  p ← ComponentDef_Props cd; mlift (as_P (Some p)).
Definition proxy_EqualsIntf {V T} `{EqDecision T} (as_T : V → res T) (own : option (T → T → bool)) (x : T)
    (val : V) : res bool :=
  q ← as_T val; Ok (match own with Some e => e x q | None => bool_decide (x = q) end).

(** The components of the client are built from their generated files: whatever
    methods of their own the generator could have proxied, the components have none. *)
Theorem client_built now HTMLElem cd get recv zero props :
  buildOuter now HTMLElem cd = proxy_component gen_Outer_reactGen outer_type
    (OuterDef_Render HTMLElem {| outer_def := cd |})
    (Some (OuterDef_ComponentWillMount now {| outer_def := cd |})) get recv (SOuter OuterState_zero) ∧
  buildChooser HTMLElem cd = proxy_component gen_Chooser_reactGen chooser_type
    (ChooserDef_Render HTMLElem {| chooser_def := cd |}) None get recv (SChooser ChooserState_zero) ∧
  buildPanel cd = proxy_component gen_Panel_reactGen panel_type
    (PanelDef_Render {| panel_def := cd |}) None get recv zero ∧
  buildPreview cd = proxy_component gen_Preview_reactGen preview_type
    (PreviewDef_Render {| preview_def := cd |}) None get recv zero ∧
  Outer now HTMLElem = proxy_elem gen_Outer_reactGen (buildOuter now HTMLElem) props ∧
  (∀ p, Chooser HTMLElem p = proxy_elem gen_Chooser_reactGen (buildChooser HTMLElem) (PChooser p)) ∧
  (∀ p, Panel p = proxy_elem gen_Panel_reactGen buildPanel (PPanel p)) ∧
  (∀ p, Preview p = proxy_elem gen_Preview_reactGen buildPreview (PPreview p)) ∧
  OuterDef_State {| outer_def := cd |} = proxy_State as_OuterState cd ∧
  ChooserDef_State {| chooser_def := cd |} = proxy_State as_ChooserState cd ∧
  ChooserDef_Props {| chooser_def := cd |} = proxy_Props as_ChooserProps cd ∧
  PanelDef_Props {| panel_def := cd |} = proxy_Props as_PanelProps cd ∧
  PreviewDef_Props {| preview_def := cd |} = proxy_Props as_PreviewProps cd ∧
  OuterState_EqualsIntf = proxy_EqualsIntf as_OuterState None ∧
  ChooserState_EqualsIntf = proxy_EqualsIntf as_ChooserState None ∧
  ChooserProps_EqualsIntf = proxy_EqualsIntf as_ChooserProps None ∧
  PanelProps_EqualsIntf = proxy_EqualsIntf as_PanelProps None ∧
  PreviewProps_EqualsIntf = proxy_EqualsIntf as_PreviewProps None.
Proof. split_and!; reflexivity. Qed.

(** ** Witnesses *)
Definition chooser_comp : compGen :=
  MkCompGen "c" "Chooser" true true false false false false false [].

Lemma genComp_flags_witness :
  genComp (collect false client_sources) "ChooserDef" = Ok chooser_comp ∧
  (StateHasEquals chooser_comp = true ↔
     "ChooserState" ∈ types (collect false client_sources) ∧
     ∃ m, m ∈ meths (collect false client_sources) "ChooserState" ∧ sig_equals "ChooserState" m).
Proof.
  assert (genComp (collect false client_sources) "ChooserDef" = Ok chooser_comp) as H
    by (vm_compute; reflexivity).
  split; [exact H|].
  destruct (genComp_flags client_sources "ChooserDef" chooser_comp H) as (_ & _ & _ & _ & He & _).
  exact He.
Defined.

(** A package with a slice, a template of props and an [Equals] without results. *)
Definition table_go : ast_file := MkFile [import "myitcv.io/react"]
  [struct "ListDef" [([], pkg_type "react" "ComponentDef")];
   struct "_ListProps" [(["Name"], Ident "string")];
   method "ListDef" "Render" [] (Some (ArrayType None (StarExpr (pkg_type "react" "LiElem"))));
   struct "RowDef" [([], pkg_type "react" "ComponentDef")];
   struct "RowState" [(["n"], Ident "int")];
   method "RowState" "Equals" [(["o"], Ident "RowState")] None].
Definition table_pkg : list (string * ast_file) := [("table.go", table_go)].
Definition list_comp : compGen := MkCompGen "l" "List" false false false false false false true [].

Lemma list_comp_generated : genComp (collect false table_pkg) "ListDef" = Ok list_comp.
Proof. vm_compute. reflexivity. Qed.

Lemma props_template_ignored_witness :
  "_ListProps" ∈ propsTmpls (collect false table_pkg) ∧ BuildElem true ∉ template list_comp.
Proof.
  assert ("_ListProps" ∈ propsTmpls (collect false table_pkg)) as H
    by (apply (bool_decide_unpack _); vm_compute; exact I).
  split; [exact H|].
  apply (props_template_ignored table_pkg "ListDef" list_comp list_comp_generated H).
  apply (bool_decide_unpack _). vm_compute. exact I.
Defined.

Lemma renders_slice_receiver_witness :
  RendersElement "l" (RenderSlice "t") ∈ template list_comp ∧ Recv list_comp ≠ "t".
Proof.
  destruct (renders_slice_receiver table_pkg "ListDef" list_comp list_comp_generated eq_refl) as [H _].
  split; [exact H|discriminate].
Defined.

Lemma genComp_no_results_witness : genComp (collect false table_pkg) "RowDef" = Panic NilDeref.
Proof.
  destruct (genComp_no_results table_pkg "RowDef") as [_ H].
  apply (H (MkFunc (Some (Ident "RowState")) "Equals" [(["o"], Ident "RowState")] None) ["o"]);
    try reflexivity.
  - apply (bool_decide_unpack _). vm_compute. exact I.
  - assert (meths (collect false table_pkg) (Strings.TrimSuffix "RowDef" compDefSuffix +:+ stateTypeSuffix) =
      [MkFunc (Some (Ident "RowState")) "Equals" [(["o"], Ident "RowState")] None]) as ->
      by (vm_compute; reflexivity). by left.
Defined.

Lemma reactGen_deterministic_witness :
  ∃ out out', dogen elements false client_sources = Ok out ∧
    dogen (λ X, reverse (elements X)) false (reverse client_sources) = Ok out' ∧ out ≡ₚ out'.
Proof.
  apply reactGen_deterministic; [by intros X|intros X; apply reverse_Permutation|..].
  - symmetry. apply reverse_Permutation.
  - apply client_orderly.
Defined.

Lemma client_generated_witness :
  ∃ out, dogen (λ X, reverse (elements X)) false
      (("/client/gen_Outer_reactGen.go", table_go) :: map (in_dir "/client") client_sources) = Ok out ∧
    out ≡ₚ client_generated_files.
Proof.
  apply (client_generated "/client" [("/client/gen_Outer_reactGen.go", table_go)]).
  - intros X. apply reverse_Permutation.
  - repeat constructor.
  - apply Permutation_cons_append.
Defined.
