(* ===== verification/Runtime.v ===== *)
(** * Running the application

    The calls React makes into the program, in the order its documentation
    gives them: [mount_instance] creates a component instance (props, then
    [getInitialState], then [componentWillMount]), [first_render] mounts and renders
    the element of [main] with everything below it, [mount_app] is the part of that
    which makes the instances with state, [Outer] and the [Chooser] it renders, and [user_click] runs the handler of
    a click and, when the handler asked for a re-render of [Outer], renders it
    again and hands [Chooser] the new props.  [reachable] is the set of states of
    the application under any sequence of clicks the page offers. *)

From S2P Require Import Prelude GoLib React Mount Elements Gopher Rand Client ClientState ClientRender.

Section Runtime.
Context (NewSource : Z → nat → Z) (now : Z) (fuel : nat).
Context (HTMLElem : string → res Element).

(** The props object of the [Chooser] element in what [Outer] renders. *)
Definition chooser_element_props (e : Element) : res jsval :=
  match e with
  | Elem _ _ [_; Elem (ClassT _) props _] => Ok props
  | _ => Panic (PanicMsg "unexpected element")
  end.

(** The part of the first render that makes the two instances with state: [Outer], and the
    [Chooser] its rendering asks for.  ([Preview] and the panels hold no state; [first_render]
    below mounts and renders them too.) *)
Definition mount_app (query : option (string → string)) : CM (loc * loc) :=
  _ ← main now HTMLElem query;
  o ← mount_instance (buildOuter now HTMLElem) (JObject []);
  d ← OuterDef_Render HTMLElem (outer_at o);
  props ← mlift (chooser_element_props d);
  ch ← mount_instance (buildChooser HTMLElem) props;
  mret (o, ch).

(** The components of the page, by type. *)
Definition client_builder (t : rtype) : option (ComponentBuilder mem) :=
  if bool_decide (t = outer_type) then Some (buildOuter now HTMLElem)
  else if bool_decide (t = preview_type) then Some buildPreview
  else if bool_decide (t = chooser_type) then Some (buildChooser HTMLElem)
  else if bool_decide (t = panel_type) then Some buildPanel
  else None.

(** [ReactDOM.render] of the element [main] makes, with all that is below it: the result is
    what is on the page.  [depth] bounds the nesting of components. *)
Definition first_render (depth : nat) (query : option (string → string)) : CM Element :=
  e ← main now HTMLElem query;
  mount_tree client_builder depth e.

(** React re-renders [Outer] and updates the props of [Chooser]. *)
Definition rerender_outer (L : locs) : CM unit :=
  d ← OuterDef_Render HTMLElem (outer_at (l_outer L));
  props ← mlift (chooser_element_props d);
  js_Set (l_chooser L) reactCompProps props.

Definition user_click (L : locs) (c : click) : CM unit :=
  before ← get_js;
  _ ← OnClick NewSource fuel c;
  after ← get_js;
  if bool_decide (l_outer L ∈ drop (length (updates before)) (updates after))
  then rerender_outer L else mret tt.

Definition init_world : cworld := World empty_js init_mem.

(** [mount_instance] allocates the instance, its [state] and its [_state] one
    after the other. *)
Definition locs_of (p : loc * loc) : locs := Locs p.1 (S (S p.1)) p.2 (S (S p.2)).

(** The worlds of the application: mounted, then clicked on. *)
Inductive reachable : locs → cworld → Prop :=
  | reach_mount query p w :
      mount_app query init_world = Ok (p, w) → reachable (locs_of p) w
  | reach_click L w n c w' :
      reachable L w →
      inst (w_js w) (l_chooser L) (l_chooser_st L) (SChooser (MkChooserState n)) →
      offered hackCategories hackConfig L n c →
      user_click L c w = Ok (tt, w') →
      reachable L w'.

(** ** The invariant *)

(** [App], and [Chooser] has the props of the last render of [Outer]. *)
Record Running (cats : list Category) (cfg : Config) (w : cworld) (L : locs)
    (os : OuterState) (g : Gopher) (n : Z) : Prop := {
  run_app : App cats cfg w L os g n;
  run_props : has_props (w_js w) (l_chooser L)
                (PChooser (MkChooserProps (current os) (config os) (outer_at (l_outer L))));
  run_classes : classes_wf (w_js w);
}.

Section Inv.
Context (cats : list Category) (cfg : Config).
Hypothesis Hcfg : config_ok cats cfg.
Hypothesis Hsource : source_ok NewSource.
Hypothesis Hfuel : fuel_enough NewSource fuel cats.

(** Re-rendering [Outer] brings the props of [Chooser] up to date. *)
Lemma rerender_running w L os g n :
  App cats cfg w L os g n → classes_wf (w_js w) →
  ∃ w', rerender_outer L w = Ok (tt, w') ∧ Running cats cfg w' L os g n ∧ w_ext w' = w_ext w.
Proof.
  intros [Ho Hch Hsep (p & Hp & Hup) Henv Hg Hr Hok] Hwf. unfold rerender_outer.
  destruct (Outer_Render_run HTMLElem w _ _ _ Hwf Ho)
    as (c1 & c2 & w1 & Hrun & [Hwf1 Hh1 Hu1 Hs1 Hn1 He1]).
  mstep Hrun.
  set (props := MkChooserProps (current os) (config os) (outer_at (l_outer L))).
  mstep (mlift_run (chooser_element_props (El.Div None
    [comp_elem c1 (PPreview (MkPreviewProps (current os))); comp_elem c2 (PChooser props)]))
    w1 (JObject [(nestedProps, JProps (PChooser props))]) eq_refl).
  pose proof Hch as (o & rs & ro & io & Hobj & _). rewrite <-Hh1 in Hobj.
  erewrite js_Set_ref by exact Hobj. eexists. split; [done|]. simpl. split; [|by rewrite He1].
  apply (inst_heap _ (w_js w1)) in Ho, Hch; [|done..].
  constructor; simpl.
  - constructor; simpl; rewrite ?He1; try done.
    + by apply set_props_inst.
    + by apply set_props_inst.
    + exists props. split; [|done]. by apply set_props_has_props.
  - by apply set_props_has_props.
  - by eapply classes_wf_eq; [..|exact Hwf1].
Qed.

Lemma user_click_running w L os g n c :
  Running cats cfg w L os g n → offered cats cfg L n c →
  ∃ w' os' g' n', user_click L c w = Ok (tt, w') ∧
    Running cats cfg w' L os' g' n' ∧ spec_click cats cfg c (g, n) (g', n').
Proof.
  intros [HA Hprops Hwf] Hoff.
  destruct (effect_refines NewSource fuel cats cfg Hcfg Hsource Hfuel w L os g n c HA Hoff)
    as (w1 & os' & g' & n' & Hrun & HA' & Hs & Hle & _ & [Hcp Hcm Hcc (u & Hu & Hos)]).
  assert (HA'' : App cats cfg (World (w_js w1) (prevent (w_ext w1))) L os' g' n')
    by (apply (App_mem cats cfg w1); [done|apply prevent_le|done]).
  assert (Hwf1 : classes_wf (w_js w1)) by by eapply classes_wf_eq.
  unfold user_click.
  mstep (eq_refl : get_js w = Ok (w_js w, w)).
  mstep (OnClick_run NewSource fuel _ _ _ Hrun).
  set (w2 := World (w_js w1) (prevent (w_ext w1))) in *.
  mstep (eq_refl : get_js w2 = Ok (w_js w1, w2)).
  rewrite Hu, drop_app_length. case_bool_decide as Hin.
  - destruct (rerender_running w2 L os' g' n' HA'' Hwf1) as (w3 & -> & HR & _).
    by exists w3, os', g', n'.
  - destruct Hos as [Hos| ->]; [done|]. exists w2, os, g', n'. split; [done|].
    split; [|done]. constructor; [done| |done]. by apply Hcp.
Qed.
End Inv.

(** ** Mounting the application *)

Definition default_hack : Gopher :=
  {| Parts := ["010-Body/blue_gopher"; "020-Eyes/crazy_eyes"; ""; ""; ""; ""; ""; ""] |}.

Lemma default_hack_ok : is_default hackCategories hackConfig default_hack.
Proof.
  split; [done|]. intros i p cat Hp Hc.
  do 8 (destruct i as [|i]; [simpl in Hp; injection Hp as <-; vm_compute in Hc;
    injection Hc as <-; reflexivity|]).
  done.
Qed.

Definition mounted_outer : OuterState := MkOuterState (Some 0) hackConfig_ptr (Some 0).

Lemma ComponentWillMount_run (w : cworld) o i :
  inst (w_js w) o i (SOuter OuterState_zero) → w_ext w = init_mem →
  ∃ j', OuterDef_ComponentWillMount now (outer_at o) w =
      Ok (tt, World j' (Mem [default_hack] [hackConfig] hackCategories [rand_New now] [] 0)) ∧
    state_changed (w_js w) j' o i (SOuter mounted_outer).
Proof.
  intros Hi He. unfold OuterDef_ComponentWillMount.
  destruct (defaultGopher_run hackCategories hackConfig hackConfig_ok w hackConfig_ptr)
    as (g & Hg & Hrun); [by rewrite He|].
  rewrite (is_default_unique _ _ g default_hack hackConfig_ok Hg default_hack_ok), He in Hrun.
  mstep Hrun. set (w1 := World _ _).
  mstep (eq_refl : new_Rand (rand_New now) w1 = Ok (Some 0, World (w_js w)
    (Mem [default_hack] [hackConfig] hackCategories [rand_New now] [] 0))).
  by apply (Outer_SetState_run (World (w_js w) _) o i OuterState_zero).
Qed.

Lemma mount_app_run get :
  ∃ w, mount_app (Some get) init_world = Ok ((0, 3), w) ∧
    Running hackCategories hackConfig w (locs_of (0, 3)) mounted_outer default_hack 0.
Proof.
  unfold mount_app. unfold main, Outer.
  destruct (CreateElement_eq (buildOuter now HTMLElem) None [] init_world classes_wf_empty)
    as (c0 & j0 & Hrun0 & [Hwf0 _ _ Hh0 _ Hn0]).
  erewrite M_bind_run by (mstep Hrun0; done).
  assert (Hhwf0 : heap_wf j0) by (intros l; rewrite Hh0; simpl; by intros [? ?]).
  simpl in Hn0.
  destruct (create_instance_run (buildOuter now HTMLElem) (JObject []) (World j0 init_mem)
    (SOuter OuterState_zero) Hhwf0 eq_refl)
    as (j1 & Hrun1 & Hi1 & Hhwf1 & Hn1 & _ & Hm1 & Hc1 & _).
  simpl in *. rewrite Hn0 in *.
  destruct (ComponentWillMount_run (World j1 init_mem) 0 2 Hi1 eq_refl) as (j2 & Hrun2 & Hsc2).
  destruct Hsc2 as [Hi2 _ _ _ Hm2 Hc2 Hn2 Hhwf2]. simpl in *.
  set (m := Mem [default_hack] [hackConfig] hackCategories [rand_New now] [] 0) in *.
  assert (Hwf2 : classes_wf j2) by (eapply classes_wf_eq; [..|exact Hwf0]; congruence).
  erewrite M_bind_run
    by (unfold mount_instance; mstep Hrun1; simpl; mstep Hrun2; done).
  destruct (Outer_Render_run HTMLElem (World j2 m) 0 2 mounted_outer Hwf2 Hi2)
    as (c1 & c2 & w3 & Hrun3 & [Hwf3 Hh3 _ _ Hn3 He3]).
  mstep Hrun3. simpl in *.
  set (props := MkChooserProps (Some 0) hackConfig_ptr (outer_at 0)).
  erewrite M_bind_run by (apply mlift_run; done).
  assert (Hhwf3 : heap_wf (w_js w3)) by (apply (heap_wf_eq j2); auto).
  assert (Hn3' : next_loc (w_js w3) = 3) by congruence.
  set (pj := [(nestedProps, @JProps client_values (PChooser props))]).
  destruct (create_instance_run (buildChooser HTMLElem) (JObject pj) w3
    (SChooser ChooserState_zero) Hhwf3 eq_refl)
    as (j4 & Hrun4 & Hi4 & _ & _ & (o & Ho & Hop) & Hm4 & Hc4 & Hother & _).
  rewrite Hn3' in *.
  erewrite M_bind_run by (unfold mount_instance; mstep Hrun4; done).
  eexists. split; [done|].
  assert (Hp4 : has_props j4 3 (PChooser props)) by by exists o, pj.
  assert (Hi4' : inst j4 0 2 (SOuter mounted_outer)).
  { eapply inst_preserve; [eapply inst_heap; [exact Hh3|exact Hi2]|].
    intros l ob Hl. rewrite Hother; [eauto|]. rewrite <-Hn3'. apply Hhwf3. eauto. }
  constructor; [constructor| |]; simpl; rewrite ?He3; try done.
  - eauto.
  - by exists (rand_New now).
  - apply is_default_ok; [apply hackConfig_ok|apply default_hack_ok].
  - by eapply classes_wf_eq.
Qed.

(** ** The first render *)

(** What the components of the page draw when it is first shown, with the panels [divs]. *)
Definition page_view (get : string → string) (g : Gopher) (ch : ChooserDef) (divs : list Element)
    (footer : Element) : Element :=
  El.Div None ((if bool_decide (get "hideGithubRibbon" ≠ "true") then [github_ribbon] else []) ++
    [El.Div None [preview_view g; chooser_view ch divs footer]]).

(** Mounting something without state: what may have changed. *)
Record quiet (w w' : cworld) : Prop := {
  quiet_js : evolves ∅ ∅ (w_js w) (w_js w');
  quiet_classes : classes (w_js w') = classes (w_js w);
  quiet_ext : w_ext w' = w_ext w;
}.

Lemma quiet_trans w1 w2 w3 : quiet w1 w2 → quiet w2 w3 → quiet w1 w3.
Proof.
  intros [H1 Hc1 He1] [H2 Hc2 He2]. constructor; [|congruence..].
  by eapply evolves_mono; [..|exact (evolves_trans _ _ _ _ _ _ _ H1 H2)]; set_solver.
Qed.

Lemma preview_view_host g : class_elems (preview_view g) = [].
Proof.
  unfold preview_view, El.Div, createElement. rewrite !class_elems_Tag. simpl.
  rewrite app_nil_r. by induction (filter _ (Parts g)).
Qed.
Lemma panel_view_host p cat : class_elems (panel_view p cat) = [].
Proof.
  unfold panel_view, El.Div, El.H4, El.A, createElement. rewrite !class_elems_Tag. simpl.
  rewrite !app_nil_r. destruct (panel_Open p); [|done]. by induction (Options cat).
Qed.

(** Drawing a preview and a panel. *)
Lemma mount_preview depth w c p g :
  heap_wf (w_js w) → classes (w_js w) !! c = Some preview_type →
  store_deref (gophers (w_ext w)) (preview_Current p) = Ok g →
  ∃ w', mount_tree client_builder (S depth) (comp_elem c (PPreview p)) w = Ok (preview_view g, w') ∧
    quiet w w'.
Proof.
  intros Hwf Hc Hg.
  destruct (mount_stateless buildPreview (JObject [(nestedProps, @JProps client_values (PPreview p))])
    w Hwf eq_refl eq_refl)
    as (j' & Hm & Hev & Hcl & o & Ho & Hp).
  exists (World j' (w_ext w)). split; [|by split].
  eapply mount_tree_class; [exact Hc|reflexivity|exact Hm| |by apply mount_tree_host, preview_view_host|done].
  apply Preview_Render_run with p; [|done]. by eapply elem_props.
Qed.
Lemma mount_panel depth w c p cat :
  heap_wf (w_js w) → classes (w_js w) !! c = Some panel_type →
  store_deref (categories (w_ext w)) (panel_Category p) = Ok cat →
  ∃ w', mount_tree client_builder (S depth) (comp_elem c (PPanel p)) w = Ok (panel_view p cat, w') ∧
    quiet w w'.
Proof.
  intros Hwf Hc Hg.
  destruct (mount_stateless buildPanel (JObject [(nestedProps, @JProps client_values (PPanel p))])
    w Hwf eq_refl eq_refl)
    as (j' & Hm & Hev & Hcl & o & Ho & Hp).
  exists (World j' (w_ext w)). split; [|by split].
  eapply mount_tree_class; [exact Hc|reflexivity|exact Hm| |by apply mount_tree_host, panel_view_host|done].
  apply Panel_Render_run; [|done]. by eapply elem_props.
Qed.

(** Drawing the panels of a chooser, one after the other. *)
Lemma mount_panels depth c ch props n g cats i w :
  heap_wf (w_js w) → (cats ≠ [] → classes (w_js w) !! c = Some panel_type) →
  Forall (λ p, ∃ cat, cat_at (categories (w_ext w)) p cat) cats →
  ∃ divs w', mmap (mount_tree client_builder (S depth)) (panel_elems c ch props n g i cats) w =
      Ok (divs, w') ∧ quiet w w' ∧ length divs = length cats ∧
    ∀ k p cat, cats !! k = Some p → cat_at (categories (w_ext w)) p cat →
      divs !! k = Some (panel_view (panel_props ch props n g (i + k) p) cat).
Proof.
  intros Hwf Hc Hcats. revert i w Hwf Hc Hcats. induction cats as [|p cats IH]; intros i w Hwf Hc Hcats.
  { exists [], w. split; [done|]. split; [by split; [apply evolves_refl|..]|done]. }
  apply list.Forall_cons in Hcats as [[cat Hcat] Hcats].
  destruct (mount_panel depth w c (panel_props ch props n g i p) cat Hwf (Hc ltac:(done)) Hcat)
    as (w1 & Hr1 & Hq1).
  pose proof Hq1 as [Hev1 Hcl1 He1].
  destruct (IH (S i) w1) as (divs & w2 & Hr2 & Hq2 & Hlen & Hall).
  { by apply (ev_wf _ _ _ _ Hev1). }
  { intros _. rewrite Hcl1. by apply Hc. }
  { by rewrite He1. }
  rewrite He1 in Hall. exists (panel_view (panel_props ch props n g i p) cat :: divs), w2.
  split_and!; [|by eapply quiet_trans|by simpl; rewrite Hlen|].
  - assert (panel_elems c ch props n g i (p :: cats) =
      comp_elem c (PPanel (panel_props ch props n g i p)) :: panel_elems c ch props n g (S i) cats) as ->.
    { unfold panel_elems. rewrite imap_cons, Nat.add_0_r. f_equal. apply imap_ext.
      intros k x _. simpl. by rewrite Nat.add_succ_r. }
    cbn [mmap]. mstep Hr1. by mstep Hr2.
  - intros [|k] q cat' Hq Hcat'; simpl in Hq |- *.
    + injection Hq as <-. unfold cat_at in *. rewrite Nat.add_0_r. congruence.
    + rewrite Nat.add_succ_r. by apply Hall.
Qed.

Lemma drawn_evolves w w' : drawn w w' → evolves ∅ ∅ (w_js w) (w_js w').
Proof.
  intros [Hwf Hh Hu _ Hn _]. split; try done.
  - intros. by eapply inst_heap.
  - intros. by eapply has_props_heap.
  - by apply heap_wf_eq.
  - lia.
  - by apply no_updates.
Qed.

(** Around its panels, what [Chooser] renders has no components. *)
Lemma mount_chooser_view depth ch elems divs footer w w' :
  mmap (mount_tree client_builder depth) elems w = Ok (divs, w') → class_elems footer = [] →
  mount_tree client_builder depth (chooser_view ch elems footer) w =
  Ok (chooser_view ch divs footer, w').
Proof.
  intros Hr Hf. etransitivity; [apply mount_tree_Tag|].
  erewrite M_bind_run; [reflexivity|].
  do 4 (eapply mmap_cons_run; [by apply mount_tree_host|]).
  eapply mmap_cons_run; [etransitivity; [apply mount_tree_Tag|]; by mstep Hr|].
  do 2 (eapply mmap_cons_run; [by apply mount_tree_host|]). done.
Qed.

(** The views of the panels: for each category, in order, the panel of that category. *)
Definition panel_views (cats : list Category) (cfg : Config) (ch : ChooserDef) (props : ChooserProps)
    (n : Z) (g : Gopher) (divs : list Element) : Prop :=
  length divs = length (Categories cfg) ∧
  ∀ k p cat, Categories cfg !! k = Some p → cat_at cats p cat →
    divs !! k = Some (panel_view (panel_props ch props n g k p) cat).

(** Drawing a chooser. *)
Lemma mount_chooser depth w c props cfg g footer :
  heap_wf (w_js w) → classes_wf (w_js w) → classes (w_js w) !! c = Some chooser_type →
  store_deref (configs (w_ext w)) (chooser_Config props) = Ok cfg →
  store_deref (gophers (w_ext w)) (chooser_Current props) = Ok g →
  config_ok (categories (w_ext w)) cfg → length (Categories cfg) ≤ length (Parts g) →
  HTMLElem footer_html = Ok footer → class_elems footer = [] →
  let ch := next_loc (w_js w) in
  ∃ divs w', mount_tree client_builder (S (S depth)) (comp_elem c (PChooser props)) w =
      Ok (chooser_view (chooser_at ch) divs footer, w') ∧
    panel_views (categories (w_ext w)) cfg (chooser_at ch) props 0 g divs ∧
    evolves ∅ ∅ (w_js w) (w_js w') ∧ w_ext w' = w_ext w ∧
    inst (w_js w') ch (S (S ch)) (SChooser ChooserState_zero) ∧ has_props (w_js w') ch (PChooser props).
Proof.
  intros Hwf Hcw Hc Hcfg Hg [_ Hok] Hlen Hf Hhost ch.
  destruct (create_evolves (buildChooser HTMLElem) (JObject [(nestedProps, @JProps client_values (PChooser props))])
    w (SChooser ChooserState_zero) Hwf eq_refl) as (j1 & Hm & Hi1 & Hev1 & o & Ho & Hop).
  fold ch in Hm, Hi1, Ho. assert (has_props j1 ch (PChooser props)) as Hp1 by by eapply elem_props.
  set (w1 := World j1 (w_ext w)).
  destruct (Chooser_Render_class HTMLElem w1 ch (S (S ch)) 0 props cfg g footer) as (k & w2 & Hr2 & Hd2 & Hk);
    [by apply Hev1|exact Hi1|done..|].
  pose proof (drawn_evolves _ _ Hd2) as Hev2. destruct Hd2 as [Hcw2 _ _ _ _ He2]. simpl in He2.
  destruct (mount_panels depth k (chooser_at ch) props 0 g (Categories cfg) 0 w2)
    as (divs & w3 & Hr3 & [Hev3 _ He3] & Hlen3 & Hdivs).
  { by apply Hev2, Hev1. }
  { intros Hne. by apply Hcw2, Hk. }
  { apply list.Forall_forall. intros p [i Hp]%list_elem_of_lookup.
    destruct (Hok i p Hp) as (cat & Hcat & _). exists cat. by rewrite He2. }
  exists divs, w3. rewrite He2 in Hdivs. split_and!; [|done..| |congruence| |].
  - eapply mount_tree_class; [exact Hc|reflexivity| |exact Hr2|by apply mount_chooser_view|done].
    unfold mount_instance. by mstep Hm.
  - eapply evolves_mono; [..|eapply evolves_trans; [exact Hev1|]; by eapply evolves_trans]; set_solver.
  - apply Hev3, Hev2; [set_solver..|exact Hi1].
  - apply Hev3, Hev2; [set_solver..|exact Hp1].
Qed.

(** What [Outer] draws when it is mounted first. *)
Lemma mount_outer depth footer c w :
  heap_wf (w_js w) → classes_wf (w_js w) → next_loc (w_js w) = 0 → w_ext w = init_mem →
  classes (w_js w) !! c = Some outer_type →
  HTMLElem footer_html = Ok footer → class_elems footer = [] →
  ∃ L divs w', mount_tree client_builder (S (S (S depth))) (Elem (ClassT c) (JObject []) []) w =
      Ok (El.Div None [preview_view default_hack; chooser_view (chooser_at (l_chooser L)) divs footer], w') ∧
    panel_views hackCategories hackConfig (chooser_at (l_chooser L))
      (MkChooserProps (Some 0) hackConfig_ptr (outer_at (l_outer L))) 0 default_hack divs ∧
    Running hackCategories hackConfig w' L mounted_outer default_hack 0.
Proof.
  intros Hwf Hcw Hn He Hc Hf Hhost.
  destruct (create_evolves (buildOuter now HTMLElem) (JObject []) w (SOuter OuterState_zero) Hwf eq_refl)
    as (j1 & Hm & Hi1 & Hev1 & _). rewrite Hn, He in *.
  destruct (ComponentWillMount_run (World j1 init_mem) 0 2 Hi1 eq_refl) as (j2 & Hrun2 & Hsc2).
  pose proof (sc_inst _ _ _ _ _ Hsc2) as Hi2. apply changed_evolves in Hsc2 as Hev2.
  set (m := Mem [default_hack] [hackConfig] hackCategories [rand_New now] [] 0) in *.
  assert (classes_wf j2) as Hcw2 by by apply Hev2, Hev1.
  assert (heap_wf j2) as Hwf2 by by apply Hev2, Hev1.
  destruct (Outer_Render_class HTMLElem (World j2 m) 0 2 mounted_outer Hcw2 Hi2)
    as (c1 & c2 & w3 & Hr3 & Hd3 & Hc1 & Hc2).
  pose proof (drawn_evolves _ _ Hd3) as Hev3. destruct Hd3 as [Hcw3 _ _ _ _ He3]. simpl in He3.
  assert (heap_wf (w_js w3)) as Hwf3 by by apply Hev3.
  destruct (mount_preview (S depth) w3 c1 (MkPreviewProps (Some 0)) default_hack Hwf3)
    as (w4 & Hr4 & [Hev4 Hcl4 He4]); [by apply Hcw3|by rewrite He3|].
  destruct (mount_chooser depth w4 c2 (MkChooserProps (Some 0) hackConfig_ptr (outer_at 0))
    hackConfig default_hack footer) as (divs & w5 & Hr5 & Hdivs & Hev5 & He5 & Hi5 & Hp5);
    rewrite ?He4, ?He3 in *; try done.
  { by apply Hev4. }
  { by apply Hev4. }
  { rewrite Hcl4. by apply Hcw3. }
  { apply hackConfig_ok. }
  set (ch := next_loc (w_js w4)) in *. exists (Locs 0 2 ch (S (S ch))), divs, w5.
  assert (2 < ch) as Hch.
  { apply inst_bound in Hi2 as [_ Hi2]; [|done]. apply ev_next in Hev3, Hev4. simpl in Hev3. subst ch. lia. }
  split_and!; [|done|].
  - eapply mount_tree_class; [exact Hc|reflexivity| |exact Hr3| |done].
    { unfold mount_instance. mstep Hm. simpl. by mstep Hrun2. }
    etransitivity; [apply mount_tree_Tag|]. erewrite M_bind_run; [reflexivity|].
    eapply mmap_cons_run; [exact Hr4|]. by eapply mmap_cons_run.
  - constructor; [constructor|exact Hp5|]; simpl; rewrite ?He5; try done.
    + apply Hev5, Hev4, Hev3; [set_solver..|exact Hi2].
    + lia.
    + eauto.
    + by exists (rand_New now).
    + apply is_default_ok; [apply hackConfig_ok|apply default_hack_ok].
    + by apply Hev5, Hev4, Hev3.
Qed.

(** ** Every run of the application *)

(** C7: the first render.  With a document URL that parses and a footer [jsx.HTMLElem]
    makes without components, [main] and React's render of its element, down through
    [Outer], [Preview], [Chooser] and every panel, succeed.  The page is then the link to
    the sources unless the query hides it, the picture of the default gopher (the first
    body, the first eyes, nothing else), and the chooser with one panel per category in
    order, the first of them open; and the application is running, with that gopher on show
    in [Outer] and handed to [Chooser], as it is in the worlds [reachable] starts from. *)
Theorem mount_shows_default get depth footer :
  3 ≤ depth → HTMLElem footer_html = Ok footer → class_elems footer = [] →
  is_default hackCategories hackConfig default_hack ∧
  (∃ w, mount_app (Some get) init_world = Ok ((0, 3), w) ∧
    Running hackCategories hackConfig w (locs_of (0, 3)) mounted_outer default_hack 0) ∧
  ∃ L divs w, first_render depth (Some get) init_world =
      Ok (page_view get default_hack (chooser_at (l_chooser L)) divs footer, w) ∧
    panel_views hackCategories hackConfig (chooser_at (l_chooser L))
      (MkChooserProps (Some 0) hackConfig_ptr (outer_at (l_outer L))) 0 default_hack divs ∧
    Running hackCategories hackConfig w L mounted_outer default_hack 0.
Proof.
  intros Hdepth Hf Hhost. split; [apply default_hack_ok|]. split; [apply mount_app_run|].
  destruct depth as [|[|[|depth]]]; [lia..|]. unfold first_render, main, Outer.
  destruct (CreateElement_eq (buildOuter now HTMLElem) None [] init_world classes_wf_empty)
    as (c0 & j0 & Hrun0 & [Hcw0 Hc0 _ Hh0 _ Hn0]).
  destruct (mount_outer depth footer c0 (World j0 init_mem)) as (L & divs & w & Hr & Hdivs & HR);
    [intros l; simpl; rewrite Hh0; simpl; by intros [? ?]|done|done|done|by apply Hcw0|done|done|].
  exists L, divs, w. split; [|done]. erewrite M_bind_run by (mstep Hrun0; done).
  etransitivity; [apply mount_tree_Tag|]. erewrite M_bind_run; [reflexivity|].
  case_bool_decide; simpl app.
  - eapply mmap_cons_run; [by apply mount_tree_host|]. by eapply mmap_cons_run.
  - by eapply mmap_cons_run.
Qed.

Section Runs.
Hypothesis Hsource : source_ok NewSource.
Hypothesis Hfuel : fuel_enough NewSource fuel hackCategories.

Lemma reachable_running L w :
  reachable L w → ∃ os g n, Running hackCategories hackConfig w L os g n.
Proof.
  induction 1 as [[get|] p w Hm|L w n c w' Hr (os & g & n' & HR) Hi Hoff Hrun].
  - destruct (mount_app_run get) as (w' & Hrun & HR). rewrite Hm in Hrun.
    injection Hrun as -> ->. by eauto.
  - done.
  - destruct (inst_fun _ _ _ _ _ _ (app_chooser _ _ _ _ _ _ _ (run_app _ _ _ _ _ _ _ HR)) Hi)
      as [_ [= ->]].
    destruct (user_click_running _ _ hackConfig_ok Hsource Hfuel _ _ _ _ _ _ HR Hoff)
      as (w1 & os1 & g1 & n1 & Hrun1 & HR1 & _).
    rewrite Hrun in Hrun1. injection Hrun1 as ->. by eauto.
Qed.

Lemma reachable_step L w os g n c :
  reachable L w → Running hackCategories hackConfig w L os g n →
  offered hackCategories hackConfig L n c →
  ∃ w' os' g' n', user_click L c w = Ok (tt, w') ∧ reachable L w' ∧
    Running hackCategories hackConfig w' L os' g' n' ∧
    spec_click hackCategories hackConfig c (g, n) (g', n').
Proof.
  intros Hr HR Hoff.
  destruct (user_click_running _ _ hackConfig_ok Hsource Hfuel _ _ _ _ _ _ HR Hoff)
    as (w' & os' & g' & n' & Hrun & HR' & Hs).
  exists w', os', g', n'. split_and!; try done.
  eapply reach_click; [done| |done..]. apply (run_app _ _ _ _ _ _ _ HR).
Qed.

(** C1: safety of every run.  Whatever sequence of offered clicks led to a world,
    a gopher with one part of each category is on show, [Chooser] displays it,
    and every click offered there succeeds, does what the specification says and
    leads to a world of the same kind: no run of the page panics. *)
Theorem reachable_safe L w :
  reachable L w →
  ∃ os g n, Running hackCategories hackConfig w L os g n ∧
    gopher_ok hackCategories hackConfig g ∧
    ∀ c, offered hackCategories hackConfig L n c →
      ∃ w' os' g' n', user_click L c w = Ok (tt, w') ∧ reachable L w' ∧
        Running hackCategories hackConfig w' L os' g' n' ∧
        spec_click hackCategories hackConfig c (g, n) (g', n').
Proof.
  intros Hr. destruct (reachable_running L w Hr) as (os & g & n & HR).
  exists os, g, n. split_and!; [done| |].
  - apply (run_app _ _ _ _ _ _ _ HR).
  - intros c. by apply (reachable_step L w os).
Qed.

(** Opening panel [i] and choosing [v] there. *)
Lemma reachable_choose L w os g n i p cat v :
  reachable L w → Running hackCategories hackConfig w L os g n →
  Categories hackConfig !! i = Some p → cat_at hackCategories p cat → v ∈ Options cat →
  ∃ w' os', reachable L w' ∧
    Running hackCategories hackConfig w' L os' {| Parts := <[i := v]> (Parts g) |} (Z.of_nat i).
Proof.
  intros Hr HR Hp Hcat Hv.
  destruct (reachable_step L w os g n (expandClick (chooser_at (l_chooser L)) (Z.of_nat i)) Hr HR)
    as (w1 & os1 & g1 & n1 & _ & Hr1 & HR1 & Hs1).
  { constructor. by eapply lookup_lt_Some. }
  inversion Hs1; subst.
  destruct (reachable_step L w1 os1 g1 (Z.of_nat i)
              (chooseItemClick (outer_at (l_outer L)) (Z.of_nat i) v) Hr1 HR1)
    as (w2 & os2 & g2 & n2 & _ & Hr2 & HR2 & Hs2); [by econstructor|].
  inversion Hs2; subst. rewrite Nat2Z.id in HR2. by eauto.
Qed.

(** C6: completeness.  Every gopher the configuration allows can be put together
    by clicking: from the freshly mounted page there is a run that shows it. *)
Theorem every_gopher_reachable get w0 target :
  mount_app (Some get) init_world = Ok ((0, 3), w0) →
  gopher_ok hackCategories hackConfig target →
  ∃ w os n, reachable (locs_of (0, 3)) w ∧
    Running hackCategories hackConfig w (locs_of (0, 3)) os target n.
Proof.
  intros Hm Hok. pose proof (gopher_ok_length _ _ _ Hok) as Hlen.
  assert (∀ k, k ≤ length (Parts target) → ∃ w os g n, reachable (locs_of (0, 3)) w ∧
    Running hackCategories hackConfig w (locs_of (0, 3)) os g n ∧
    take k (Parts g) = take k (Parts target)) as Hall.
  { induction k as [|k IH]; intros Hk.
    - destruct (mount_app_run get) as (w & Hrun & HR). eexists _, _, _, _.
      split_and!; [by eapply (reach_mount (Some get))|exact HR|done].
    - destruct IH as (w & os & g & n & Hr & HR & Htake); [lia|].
      destruct (lookup_lt_is_Some_2 (Parts target) k) as [v Hv]; [lia|].
      destruct (Forall2_lookup_r _ _ _ _ _ Hok Hv) as (p & Hp & cat & Hcat & Hin).
      destruct (reachable_choose _ _ _ _ _ k p cat v Hr HR Hp Hcat Hin) as (w' & os' & Hr' & HR').
      eexists _, _, _, _. split_and!; [exact Hr'|exact HR'|]. simpl.
      pose proof (gopher_ok_length _ _ _ (app_ok _ _ _ _ _ _ _ (run_app _ _ _ _ _ _ _ HR))).
      rewrite (take_S_r _ _ v), (take_S_r (Parts target) _ v) by
        (done || (apply list_lookup_insert_eq; lia)).
      by rewrite take_insert_ge, Htake by lia. }
  destruct (Hall (length (Parts target))) as (w & os & g & n & Hr & HR & Htake); [done|].
  pose proof (gopher_ok_length _ _ _ (app_ok _ _ _ _ _ _ _ (run_app _ _ _ _ _ _ _ HR))).
  rewrite !take_ge in Htake by lia. exists w, os, n. destruct g, target. simpl in *. by subst.
Qed.
End Runs.
End Runtime.
