(* ===== verification/ClientTypes.v ===== *)
(** * The elements of a running page are well typed

    React passes the props of an element on as untyped objects, and each component's
    generated [Props] asserts the type of what it gets; an element whose class and props do
    not fit would panic when it is rendered.  [well_typed] says that the component elements
    in an element fit; what [Outer] and [Chooser] render is well typed in every run. *)

From S2P Require Import Prelude GoLib React Mount Elements Gopher Rand Client ClientState ClientRender Runtime.

(** The [Props] method of the component of type [t], at instance [l]. *)
Definition component_Props (t : rtype) (l : loc) : CM client_props :=
  if bool_decide (t = preview_type) then p ← PreviewDef_Props (preview_at l); mret (PPreview p)
  else if bool_decide (t = chooser_type) then p ← ChooserDef_Props (chooser_at l); mret (PChooser p)
  else if bool_decide (t = panel_type) then p ← PanelDef_Props (panel_at l); mret (PPanel p)
  else mpanic (PanicMsg "no props").

(** An instance of [t] with the props object [v] gets its props. *)
Definition takes (t : rtype) (v : jsval) : Prop :=
  ∀ (w : cworld) l o, heap (w_js w) !! l = Some o → obj_get o reactCompProps = v →
  ∃ p, component_Props t l w = Ok (p, w).

(** The class of every component element is that of a component which takes its props. *)
Definition well_typed (j : js) (e : Element) : Prop :=
  Forall (λ '(c, v), ∃ t, classes j !! c = Some t ∧ takes t v) (class_elems e).

Lemma has_props_comp (j : js) l p o :
  heap j !! l = Some o → obj_get o reactCompProps = JObject [(nestedProps, JProps p)] → has_props j l p.
Proof. intros Ho Hp. exists o, [(nestedProps, JProps p)]. done. Qed.

(** The type of component whose props these are. *)
Definition props_type (p : client_props) : rtype :=
  match p with PPreview _ => preview_type | PChooser _ => chooser_type | PPanel _ => panel_type end.

Lemma accepts_props_type p : takes (props_type p) (JObject [(nestedProps, JProps p)]).
Proof.
  intros w l o Ho Hp. exists p. pose proof (has_props_comp _ _ _ _ Ho Hp) as H.
  destruct p as [p|p|p]; unfold component_Props; simpl.
  - assert (PreviewDef_Props (preview_at l) w = Ok (p, w)) as Hr
      by (unfold PreviewDef_Props; by mstep (Props_has_props _ _ _ H)). by mstep Hr.
  - by mstep (Chooser_Props_run _ _ _ H).
  - assert (PanelDef_Props (panel_at l) w = Ok (p, w)) as Hr
      by (unfold PanelDef_Props; by mstep (Props_has_props _ _ _ H)). by mstep Hr.
Qed.

Lemma comp_elem_fits j c p :
  classes_wf j → compMap j !! props_type p = Some c →
  well_typed j (comp_elem c p).
Proof.
  intros Hwf Hc. constructor; [|constructor]. exists (props_type p).
  split; [by apply Hwf|apply accepts_props_type].
Qed.

Lemma well_typed_Tag j t props kids :
  well_typed j (Elem (Tag t) props kids) ↔ Forall (well_typed j) kids.
Proof.
  unfold well_typed. rewrite class_elems_Tag. induction kids as [|e es IH]; simpl.
  - by split.
  - rewrite list.Forall_app, IH. by rewrite list.Forall_cons.
Qed.

Lemma panel_elems_typed j c ch props n g i cats :
  classes_wf j → (cats ≠ [] → compMap j !! panel_type = Some c) →
  Forall (well_typed j) (panel_elems c ch props n g i cats).
Proof.
  intros Hwf Hc. apply list.Forall_forall. intros e He.
  apply list_elem_of_lookup in He as [k Hk]. unfold panel_elems in Hk. rewrite list_lookup_imap in Hk.
  destruct (cats !! k) as [cat|] eqn:Hcat; [|done]. injection Hk as <-.
  apply comp_elem_fits; [done|]. apply Hc. by intros ->.
Qed.

(** The props object of an element for the props [p]. *)
Definition props_obj (p : client_props) : jsval := JObject [(nestedProps, JProps p)].

Lemma panel_elems_classes c ch props n g cats i :
  concat (map class_elems (panel_elems c ch props n g i cats)) =
  imap (λ k p, (c, props_obj (PPanel (panel_props ch props n g (i + k) p)))) cats.
Proof.
  unfold panel_elems. revert i. induction cats as [|cat cats IH]; intros i; [done|].
  rewrite !imap_cons. simpl. f_equal. erewrite imap_ext; [rewrite (IH (S i))|].
  - apply imap_ext. intros k x _. simpl. by rewrite Nat.add_succ_r.
  - intros k x _. simpl. by rewrite Nat.add_succ_r.
Qed.

Lemma chooser_view_typed j ch divs footer :
  Forall (well_typed j) divs → well_typed j footer → well_typed j (chooser_view ch divs footer).
Proof.
  intros Hd Hf. unfold chooser_view, El.Div, El.Button, El.Br, createElement, icon.
  rewrite well_typed_Tag. repeat constructor; try exact Hf.
  by rewrite well_typed_Tag.
Qed.

Lemma chooser_view_elems ch divs footer :
  class_elems (chooser_view ch divs footer) = concat (map class_elems divs) ++ class_elems footer.
Proof.
  unfold chooser_view. unfold El.Div at 1, createElement at 1. rewrite class_elems_Tag.
  cbn [map concat]. unfold El.Div at 1, createElement at 1. rewrite class_elems_Tag.
  simpl. by rewrite !app_nil_r.
Qed.

Section Typed.
Context (NewSource : Z → nat → Z) (now : Z) (fuel : nat).
Context (HTMLElem : string → res Element).
Hypothesis Hsource : source_ok NewSource.
Hypothesis Hfuel : fuel_enough NewSource fuel hackCategories.

(** C8: typing.  In every run, what [Outer] and then [Chooser] render is well typed, where
    the footer of the page has no components of its own: each component element has the
    class of a component whose [Props] takes the props of the element, so no type
    assertion of the generated code fails on them.  The component elements are exactly a
    preview of the gopher on show and a chooser for it, and, in the chooser, for each
    category in order one panel with that category, its index, the part of the gopher that
    it chooses and whether it is the open one. *)
Theorem client_well_typed L w footer :
  reachable NewSource now fuel HTMLElem L w →
  HTMLElem footer_html = Ok footer → class_elems footer = [] →
  ∃ os g n, Running hackCategories hackConfig w L os g n ∧
  let props := MkChooserProps (current os) (config os) (outer_at (l_outer L)) in
  ∃ e1 w1 e2 w2 c1 c2 c,
    OuterDef_Render HTMLElem (outer_at (l_outer L)) w = Ok (e1, w1) ∧
    ChooserDef_Render HTMLElem (chooser_at (l_chooser L)) w1 = Ok (e2, w2) ∧
    well_typed (w_js w1) e1 ∧ well_typed (w_js w2) e2 ∧
    class_elems e1 =
      [(c1, props_obj (PPreview (MkPreviewProps (current os)))); (c2, props_obj (PChooser props))] ∧
    classes (w_js w1) !! c1 = Some preview_type ∧ classes (w_js w1) !! c2 = Some chooser_type ∧
    class_elems e2 =
      imap (λ i p, (c, props_obj (PPanel (panel_props (chooser_at (l_chooser L)) props n g i p))))
        (Categories hackConfig) ∧
    classes (w_js w2) !! c = Some panel_type.
Proof.
  intros Hr Hf Hcf. destruct (reachable_running NewSource now fuel HTMLElem Hsource Hfuel L w Hr)
    as (os & g & n & HR). exists os, g, n. split; [exact HR|].
  destruct HR as [[Ho Hch _ _ [Hcfg _] Hg _ Hok] Hprops Hwf]. intros props.
  destruct (Outer_Render_class HTMLElem w _ _ os Hwf Ho)
    as (c1 & c2 & w1 & Hr1 & [Hwf1 Hh1 _ _ _ He1] & Hc1 & Hc2).
  destruct (Chooser_Render_class HTMLElem w1 (l_chooser L) (l_chooser_st L) n props hackConfig g footer)
    as (c & w2 & Hr2 & [Hwf2 _ _ _ _ _] & Hc); rewrite ?He1; try done.
  - by eapply inst_heap.
  - by eapply has_props_heap.
  - by rewrite (gopher_ok_length _ _ _ Hok).
  - do 4 eexists. exists c1, c2, c. split; [exact Hr1|]. split; [exact Hr2|]. split_and!.
    + apply well_typed_Tag. constructor; [by apply comp_elem_fits|].
      constructor; [by apply comp_elem_fits|constructor].
    + apply chooser_view_typed; [by apply panel_elems_typed|].
      unfold well_typed. rewrite Hcf. constructor.
    + done.
    + by apply Hwf1.
    + by apply Hwf1.
    + rewrite chooser_view_elems, Hcf, app_nil_r. apply panel_elems_classes.
    + by apply Hwf2, Hc.
Qed.
End Typed.
