(* ===== verification/Todo.v ===== *)
(** * The two todo lists

    Models [examples/todoapp/todo_app.go] and [examples/immtodoapp] (with [entry.go]) of
    [src/_vendor/src/myitcv.io/react], and their generated proxies: the same
    application once with a slice of strings in its state and an [Equals] of its own,
    once with the immutable slices of [immutableGen].

    [append(ns.items, x)] can write into the array of the slice it is given, but only
    behind its end, and the state it is read from is replaced at once: a slice in a
    state is its content, and [TodoAppState] of the first application holds a list. *)

From stdpp Require Import pretty.
From S2P Require Import Prelude GoLib React Mount Elements Immutable.

(** ** What both are meant to do *)
Record todo := MkTodo { t_items : list string; t_curr : string }.

(** What the user does: the text of the input changes, the button is clicked. *)
Inductive event := Input_ (value : string) | Click_add.

Definition todo_step (t : todo) (e : event) : todo :=
  match e with
  | Input_ v => MkTodo (t_items t) v
  | Click_add => MkTodo (t_items t ++ [t_curr t]) ""
  end.

(** The form under the list, the same in both. *)
Section Form.
Context `{ReactValues}.
Definition todo_form (curr : string) (n : Z) (change add : Handler) : Element :=
  El.Form (Some (El.with_ClassName "form-inline" El.html_zero)) [
    El.Div (Some (El.with_ClassName "form-group" El.html_zero)) [
      El.Label (Some (El.Label_with_For "todoText"
                  (El.Label_on_html (El.with_ClassName "sr-only") El.Label_zero))) [ES "Todo Item"];
      El.Input (Some (El.Input_with_Type "text" (El.Input_with_Placeholder "Todo Item" (El.Input_with_Value curr
                  (El.Input_on_html (λ h, El.with_ClassName "form-control" (El.with_ID "todoText"
                     (El.with_OnChange (Some change) h))) El.Input_zero))))) [];
      El.Button (Some (El.Button_with_Type "submit" (El.Button_on_html (λ h,
                  El.with_ClassName "btn btn-default" (El.with_OnClick (Some add) h)) El.Button_zero)))
        [ES ("Add #" +:+ pretty (n + 1)%Z)]
    ]
  ].
End Form.

(** ** todoapp *)
Module TodoApp.
Record TodoAppDef := { todo_def : ComponentDef }.
Record TodoAppState := MkState { items : list string; currItem : string }.

#[export] Instance TodoAppState_eq_dec : EqDecision TodoAppState.
Proof. solve_decision. Defined.

Inductive handler := inputChange (t : TodoAppDef) | add (t : TodoAppDef).

(** The loop of [Equals] over the indices of [v.items]. *)
Fixpoint equal_items (vs cs : list string) : bool :=
  match vs, cs with
  | v :: vs, c :: cs => if str_eqb v c then equal_items vs cs else false
  | _, _ => true
  end.
Definition Equals (c v : TodoAppState) : bool :=
  if negb (str_eqb (currItem c) (currItem v)) then false
  else if negb (length (items v) =? length (items c))%nat then false
  else equal_items (items v) (items c).

(** Its only state type is [TodoAppState]; it has no props. *)
#[export] Instance values : ReactValues := {|
  Props := Empty_set;
  State := TodoAppState;
  Handler := handler;
  Props_EqualsIntf p := match p with end;
  State_EqualsIntf s v := Ok (Equals s v);
|}.

(** The world outside: how often [PreventDefault] was called. *)
Abbreviation TM := (M (world nat)).
Definition PreventDefault : TM unit := mmodify (λ w, World (w_js w) (S (w_ext w))).

Definition State_ (t : TodoAppDef) : TM TodoAppState := ComponentDef_State (todo_def t).
Definition SetState (t : TodoAppDef) (s : TodoAppState) : TM unit := ComponentDef_SetState (todo_def t) s.

Definition todo_view (t : TodoAppDef) (s : TodoAppState) : Element :=
  Fragment [
    El.H3 None [ES "TODO"];
    El.Ul None (map (λ v, El.Li None [ES v]) (items s));
    todo_form (currItem s) (Z.of_nat (length (items s))) (inputChange t) (add t)
  ].
Definition Render (t : TodoAppDef) : TM Element :=
  s ← State_ t;
  let entries := map (λ v, El.Li None [ES v]) (items s) in
  s1 ← State_ t;
  s2 ← State_ t;
  mret (Fragment [El.H3 None [ES "TODO"]; El.Ul None entries;
                  todo_form (currItem s1) (Z.of_nat (length (items s2))) (inputChange t) (add t)]).

(** [value] is the value of the input the event happened on. *)
Definition inputChange_OnChange (t : TodoAppDef) (value : string) : TM unit :=
  ns ← State_ t;
  SetState t (MkState (items ns) value).
Definition add_OnClick (t : TodoAppDef) : TM unit :=
  ns ← State_ t;
  let ns := MkState (items ns ++ [currItem ns]) (currItem ns) in
  let ns := MkState (items ns) "" in
  _ ← SetState t ns;
  PreventDefault.

Definition buildTodoApp (cd : ComponentDef) : Component nat := {|
  cmp_type := RType "TodoAppDef" "myitcv.io/react/examples/todoapp";
  RendersElement := Render {| todo_def := cd |};
  ComponentWillMount := None;
  ComponentDidMount := None;
  ComponentWillReceivePropsIntf := None;
  GetInitialStateIntf := Some (mret (MkState [] ""));
  ComponentWillUnmount := None;
|}.
Definition TodoApp : TM Element := CreateElement buildTodoApp None [].

Definition handle (t : TodoAppDef) (e : event) : TM unit :=
  match e with Input_ v => inputChange_OnChange t v | Click_add => add_OnClick t end.
Fixpoint run (t : TodoAppDef) (es : list event) : TM unit :=
  match es with [] => mret tt | e :: es => _ ← handle t e; run t es end.
End TodoApp.

(** ** immtodoapp *)
Module ImmTodoApp.
Record TodoAppDef := { todo_def : ComponentDef }.
Record EntryDef := { entry_def : ComponentDef }.

(** The templates [_Imm_item] and [_Imm_itemS]. *)
Record item := MkItem { _name : string }.
Abbreviation itemS := (list ptr).

Record TodoAppState := MkState { items : ptr; currItem : string }.
Record EntryProps := MkEntryProps { Text : string }.

#[export] Instance TodoAppState_eq_dec : EqDecision TodoAppState.
Proof. solve_decision. Defined.
#[export] Instance EntryProps_eq_dec : EqDecision EntryProps.
Proof. solve_decision. Defined.

Inductive handler := inputChange (t : TodoAppDef) | add (t : TodoAppDef).

#[export] Instance values : ReactValues := {|
  Props := EntryProps;
  State := TodoAppState;
  Handler := handler;
  Props_EqualsIntf p v := match v with Some q => Ok (bool_decide (p = q)) | None => Panic TypeAssertion end;
  State_EqualsIntf s v := Ok (bool_decide (s = v));
|}.

Record mem := Mem { m_itemS : list (icell itemS); m_item : list (icell item); prevented : nat }.
Definition init_mem : mem := Mem [] [] 0.
Abbreviation TM := (M (world mem)).

#[export] Instance itemS_cells : HasCells itemS mem.
Proof.
  refine {| cells := m_itemS; put_cells l m := Mem l (m_item m) (prevented m) |}; by repeat intros [].
Defined.
#[export] Instance item_cells : HasCells item mem.
Proof.
  refine {| cells := m_item; put_cells l m := Mem (m_itemS m) l (prevented m) |}; by repeat intros [].
Defined.

Definition PreventDefault : TM unit :=
  mmodify (λ w, World (w_js w) (Mem (m_itemS (w_ext w)) (m_item (w_ext w)) (S (prevented (w_ext w))))).

(** The generated proxies. *)
Definition State_ (t : TodoAppDef) : TM TodoAppState := ComponentDef_State (todo_def t).
Definition SetState (t : TodoAppDef) (s : TodoAppState) : TM unit := ComponentDef_SetState (todo_def t) s.
Definition Props_ (e : EntryDef) : TM EntryProps := ComponentDef_Props (entry_def e).

(** [name] and [setName] of an [item]. *)
Definition name (s : ptr) : TM string := c ← imm_deref s; mret (_name (payload c)).
Definition setName (s : ptr) (n : string) : TM ptr := imm_update s (λ _, Ok (MkItem n)).

(** [entry.go] *)
Definition Entry_Render (e : EntryDef) : TM Element :=
  p ← Props_ e;
  mret (El.Li None [ES (Text p)]).
Definition buildEntry (cd : ComponentDef) : Component mem := {|
  cmp_type := RType "EntryDef" "myitcv.io/react/examples/immtodoapp";
  RendersElement := Entry_Render {| entry_def := cd |};
  ComponentWillMount := None;
  ComponentDidMount := None;
  ComponentWillReceivePropsIntf := None;
  GetInitialStateIntf := None;
  ComponentWillUnmount := None;
|}.
Definition Entry (s : string) : TM Element := CreateElement buildEntry (Some (MkEntryProps s)) [].

(** [new(itemS)]: no items, and not mutable. *)
Definition GetInitialState : TM TodoAppState :=
  p ← imm_new (ICell ([] : itemS) false);
  mret (MkState p "").

Definition Render (t : TodoAppDef) : TM Element :=
  s ← State_ t;
  r ← slice_Range (A := ptr) (items s);
  vs ← slice_elems (A := ptr) r;
  entries ← mmap (λ v, n ← name v; Entry n) vs;
  s1 ← State_ t;
  s2 ← State_ t;
  n ← slice_Len (A := ptr) (items s2);
  mret (El.Div None [El.H3 None [ES "TODO"]; El.Ul None entries;
                     todo_form (currItem s1) n (inputChange t) (add t)]).

Definition inputChange_OnChange (t : TodoAppDef) (value : string) : TM unit :=
  ns ← State_ t;
  SetState t (MkState (items ns) value).
Definition add_OnClick (t : TodoAppDef) : TM unit :=
  ns ← State_ t;
  i ← imm_new (ICell (MkItem "") false);
  i ← setName i (currItem ns);
  l ← slice_Append (items ns) [i];
  let ns := MkState l (currItem ns) in
  let ns := MkState (items ns) "" in
  _ ← SetState t ns;
  PreventDefault.

Definition buildTodoApp (cd : ComponentDef) : Component mem := {|
  cmp_type := RType "TodoAppDef" "myitcv.io/react/examples/immtodoapp";
  RendersElement := Render {| todo_def := cd |};
  ComponentWillMount := None;
  ComponentDidMount := None;
  ComponentWillReceivePropsIntf := None;
  GetInitialStateIntf := Some GetInitialState;
  ComponentWillUnmount := None;
|}.
Definition TodoApp : TM Element := CreateElement buildTodoApp None [].

Definition handle (t : TodoAppDef) (e : event) : TM unit :=
  match e with Input_ v => inputChange_OnChange t v | Click_add => add_OnClick t end.
Fixpoint run (t : TodoAppDef) (es : list event) : TM unit :=
  match es with [] => mret tt | e :: es => _ ← handle t e; run t es end.
End ImmTodoApp.

(** Whether the application has to draw itself again after an event: whether anything
    changed. *)
#[export] Instance todo_eq_dec : EqDecision todo.
Proof. solve_decision. Defined.
Definition redraw (t : todo) (e : event) : nat := if bool_decide (todo_step t e = t) then 0 else 1.
Fixpoint redraws (t : todo) (es : list event) : nat :=
  match es with [] => 0 | e :: es => redraw t e + redraws (todo_step t e) es end.
Definition todo_run : todo → list event → todo := foldl todo_step.

Lemma redraw_input t v : redraw t (Input_ v) = if str_eqb v (t_curr t) then 0 else 1.
Proof.
  unfold redraw, str_eqb. destruct t as [its c]; cbn. repeat case_bool_decide; try done; congruence.
Qed.
Lemma redraw_click t : redraw t Click_add = 1.
Proof.
  unfold redraw. rewrite bool_decide_eq_false_2; [done|]. destruct t as [its c]; cbn. intros [= Hl _].
  apply (f_equal length) in Hl. rewrite length_app in Hl. cbn in Hl. lia.
Qed.

(** ** todoapp implements it *)
Module TodoAppProofs.
Import TodoApp.

Lemma equal_items_spec vs cs : length vs = length cs → equal_items vs cs = bool_decide (vs = cs).
Proof.
  revert cs. induction vs as [|v vs IH]; intros [|c cs]; cbn; try done. intros [= Hl].
  rewrite IH by done. unfold str_eqb. repeat case_bool_decide; try done; congruence.
Qed.

(** [Equals] is equality of states. *)
Lemma Equals_spec c v : Equals c v = bool_decide (c = v).
Proof.
  unfold Equals, str_eqb. destruct c as [ci cc], v as [vi vc]; cbn.
  case_bool_decide; cbn; [|rewrite bool_decide_eq_false_2; [done|congruence]].
  destruct (Nat.eqb_spec (length vi) (length ci)) as [Hl|Hl]; cbn.
  - rewrite equal_items_spec by done. apply bool_decide_ext. split; congruence.
  - rewrite bool_decide_eq_false_2; [done|]. congruence.
Qed.

Definition state_of (t : todo) : TodoAppState := MkState (t_items t) (t_curr t).
(** The instance [this] shows [t]. *)
Definition shows (w : world nat) (this i : loc) (t : todo) : Prop := inst (w_js w) this i (state_of t).

Lemma TodoApp_handle_run w this i t e :
  shows w this i t →
  ∃ w', handle {| todo_def := mk_def this |} e w = Ok (tt, w') ∧ shows w' this i (todo_step t e) ∧
    updates (w_js w') = updates (w_js w) ++ replicate (redraw t e) this.
Proof.
  intros Hi. destruct e as [v|]; cbn [handle].
  - unfold inputChange_OnChange, State_, SetState. cbn [todo_def]. mstep (State_inst _ _ _ _ Hi).
    cbn [items state_of].
    assert (State_EqualsIntf (MkState (t_items t) v : State) (state_of t) = Ok (str_eqb v (t_curr t))) as Heq.
    { cbn. rewrite Equals_spec. unfold state_of, str_eqb. f_equal. apply bool_decide_ext. split; congruence. }
    destruct (SetState_evolves w this i (state_of t) (MkState (t_items t) v) _ Hi Heq) as (j' & Hr & Hi' & _ & Hu & _).
    { unfold str_eqb. case_bool_decide; [|done]. by subst. }
    exists (World j' (w_ext w)). split; [exact Hr|]. split; [exact Hi'|]. rewrite redraw_input. cbn [w_js].
    by destruct (str_eqb v (t_curr t)).
  - unfold add_OnClick, State_, SetState. cbn [todo_def]. mstep (State_inst _ _ _ _ Hi).
    cbn [items currItem state_of].
    assert (State_EqualsIntf (state_of (todo_step t Click_add) : State) (state_of t) = Ok false) as Heq.
    { cbn. rewrite Equals_spec, bool_decide_eq_false_2; [done|].
      unfold state_of; cbn. intros [= Hl%(f_equal length) _]. rewrite length_app in Hl. cbn in Hl. lia. }
    destruct (SetState_evolves w this i (state_of t) (state_of (todo_step t Click_add)) _ Hi Heq ltac:(done))
      as (j' & Hr & Hi' & _ & Hu & _).
    mstep Hr. eexists. split; [done|]. split; [exact Hi'|]. by rewrite redraw_click.
Qed.

Lemma TodoApp_run_run w this i t es :
  shows w this i t →
  ∃ w', run {| todo_def := mk_def this |} es w = Ok (tt, w') ∧ shows w' this i (todo_run t es) ∧
    updates (w_js w') = updates (w_js w) ++ replicate (redraws t es) this.
Proof.
  revert w t. induction es as [|e es IH]; intros w t Hi; cbn [run redraws todo_run foldl].
  - exists w. by rewrite app_nil_r.
  - destruct (TodoApp_handle_run w this i t e Hi) as (w1 & H1 & Hi1 & Hu1). mstep H1.
    destruct (IH w1 _ Hi1) as (w2 & H2 & Hi2 & Hu2). exists w2. split; [done|]. split; [done|].
    by rewrite Hu2, Hu1, <-app_assoc, replicate_add.
Qed.

Lemma TodoApp_Render_run w this i t :
  shows w this i t →
  Render {| todo_def := mk_def this |} w = Ok (todo_view {| todo_def := mk_def this |} (state_of t), w).
Proof.
  intros Hi. unfold Render, State_. cbn [todo_def]. do 3 mstep (State_inst _ _ _ _ Hi). done.
Qed.
End TodoAppProofs.

(** ** immtodoapp implements it *)
Module ImmTodoAppProofs.
Import ImmTodoApp.

(** [vs] are the items named [ns], none of them mutable. *)
Definition named (m : list (icell item)) (vs : list ptr) (ns : list string) : Prop :=
  Forall2 (λ v n, ∃ b, v = Some b ∧ m !! b = Some (ICell (MkItem n) false)) vs ns.
Definition repr (m : mem) (s : TodoAppState) (t : todo) : Prop :=
  ∃ a vs, items s = Some a ∧ m_itemS m !! a = Some (ICell vs false) ∧
    named (m_item m) vs (t_items t) ∧ currItem s = t_curr t.
Definition shows (w : world mem) (this i : loc) (t : todo) : Prop :=
  ∃ s, inst (w_js w) this i s ∧ repr (w_ext w) s t.

Lemma named_mono m m' vs ns : m `prefix_of` m' → named m vs ns → named m' vs ns.
Proof.
  intros Hm. apply Forall2_impl. intros v n (b & -> & Hb). exists b. split; [done|].
  by eapply prefix_lookup_Some.
Qed.

(** [append(items, new(item).setName(n))]: two structs for the item, one for the slice. *)
Lemma append_run w a vs n :
  frozen w a vs →
  let m := w_ext w in
  let b := S (length (m_item m)) in
  (i ← imm_new (ICell (MkItem "") false); i ← setName i n; slice_Append (Some a) [i]) w =
  Ok (Some (length (m_itemS m)),
      World (w_js w) (Mem (m_itemS m ++ [ICell (vs ++ [Some b]) false])
        ((m_item m ++ [ICell (MkItem "") false]) ++ [ICell (MkItem n) false]) (prevented m))).
Proof.
  intros Ha m b. unfold setName, slice_Append.
  set (w1 := put_cells (P := item) (m_item m ++ [ICell (MkItem "") false]) w).
  mstep (eq_refl : imm_new (ICell (MkItem "") false) w = Ok (Some (length (m_item m)), w1)).
  assert (cells (P := item) w1 !! length (m_item m) = Some (ICell (MkItem "") false)) as H1
    by (cbn; by apply list_lookup_middle).
  unfold mbind at 1, M_bind. rewrite (update_run w1 _ _ (λ _, Ok (MkItem n)) H1). cbn -[imm_update].
  rewrite (update_run _ a (ICell vs false)) by exact Ha. cbn. rewrite length_app, Nat.add_comm. done.
Qed.

Lemma ImmTodoApp_handle_run w this i t e :
  shows w this i t →
  ∃ w', handle {| todo_def := mk_def this |} e w = Ok (tt, w') ∧ shows w' this i (todo_step t e) ∧
    updates (w_js w') = updates (w_js w) ++ replicate (redraw t e) this ∧
    compMap (w_js w') = compMap (w_js w) ∧ classes (w_js w') = classes (w_js w).
Proof.
  intros (s & Hi & a & vs & Hs & Ha & Hn & Hc). destruct e as [v|]; cbn [handle].
  - unfold inputChange_OnChange, State_, SetState. cbn [todo_def]. mstep (State_inst _ _ _ _ Hi).
    assert (State_EqualsIntf (MkState (items s) v : State) s = Ok (str_eqb v (t_curr t))) as Heq.
    { cbn. rewrite <-Hc. destruct s as [its c]. unfold str_eqb. cbn. f_equal. apply bool_decide_ext. split; congruence. }
    destruct (SetState_evolves w this i s (MkState (items s) v) _ Hi Heq) as (j' & Hr & Hi' & _ & Hu & Hcl).
    { unfold str_eqb. case_bool_decide; [|done]. destruct s. cbn in *. by subst. }
    exists (World j' (w_ext w)). split; [exact Hr|]. split.
    + eexists. split; [exact Hi'|]. by exists a, vs.
    + rewrite redraw_input. cbn [w_js]. by destruct (str_eqb v (t_curr t)).
  - unfold add_OnClick, State_, SetState. cbn [todo_def]. mstep (State_inst _ _ _ _ Hi). rewrite Hs.
    pose proof (append_run w a vs (currItem s) Ha) as Hap. cbn zeta in Hap.
    set (w1 := World _ _) in Hap. set (l := Some (length (m_itemS (w_ext w))) : ptr) in Hap.
    assert (Hne : MkState l "" ≠ s).
    { intros <-. assert (a = length (m_itemS (w_ext w))) as -> by (cbn in Hs; by injection Hs).
      unfold frozen in Ha. cbn in Ha. by rewrite lookup_ge_None_2 in Ha. }
    assert (State_EqualsIntf (MkState l "" : State) s = Ok false) as Heq
      by (cbn; by rewrite bool_decide_eq_false_2).
    destruct (SetState_evolves w1 this i s (MkState l "") _ Hi Heq ltac:(done)) as (j' & Hr & Hi' & _ & Hu & Hcl).
    apply M_bind_Ok in Hap as (i0 & w01 & H01 & (i1 & w02 & H02 & H03)%M_bind_Ok).
    mstep H01. mstep H02. mstep H03. mstep Hr. eexists. split; [done|]. rewrite redraw_click.
    split; [|done]. exists (MkState l ""). split; [exact Hi'|]. unfold repr. cbn [w_ext w1 items currItem m_itemS m_item].
    eexists _, _. split; [done|]. split; [by apply list_lookup_middle|]. split; [|done]. cbn [todo_step t_items].
    apply Forall2_app.
    + eapply named_mono, Hn. eexists. by rewrite <-app_assoc.
    + repeat constructor. eexists. split; [done|]. rewrite <-Hc. apply list_lookup_middle.
      rewrite length_app. cbn. lia.
Qed.

Lemma ImmTodoApp_run_run w this i t es :
  shows w this i t →
  ∃ w', run {| todo_def := mk_def this |} es w = Ok (tt, w') ∧ shows w' this i (todo_run t es) ∧
    updates (w_js w') = updates (w_js w) ++ replicate (redraws t es) this ∧
    compMap (w_js w') = compMap (w_js w) ∧ classes (w_js w') = classes (w_js w).
Proof.
  revert w t. induction es as [|e es IH]; intros w t Hi; cbn [run redraws todo_run foldl].
  - exists w. by rewrite app_nil_r.
  - destruct (ImmTodoApp_handle_run w this i t e Hi) as (w1 & H1 & Hi1 & Hu1 & Hm1 & Hc1). mstep H1.
    destruct (IH w1 _ Hi1) as (w2 & H2 & Hi2 & Hu2 & Hm2 & Hc2). exists w2. split; [done|]. split; [done|].
    by rewrite Hu2, Hu1, <-app_assoc, replicate_add, Hm2, Hc2.
Qed.

(** The element [Entry] makes for a text. *)
Definition entry_elem (c : nat) (n : string) : Element :=
  Elem (ClassT c) (JObject (wrap_props (Some (MkEntryProps n)) [])) [].

Lemma name_run (w : world mem) b n :
  m_item (w_ext w) !! b = Some (ICell (MkItem n) false) → name (Some b) w = Ok (n, w).
Proof. intros Hb. unfold name. by mstep (deref_run w b _ Hb). Qed.

(** Once the class of [Entry] is known, drawing entries changes nothing. *)
Lemma entries_known w vs ns c :
  named (m_item (w_ext w)) vs ns →
  compMap (w_js w) !! cmp_type (buildEntry {| cd_elem := None |}) = Some c →
  mmap (λ v, n ← name v; Entry n) vs w = Ok (entry_elem c <$> ns, w).
Proof.
  intros Hn Hc. induction Hn as [|v n vs ns (b & -> & Hb) Hn IH]; [done|]. cbn [mmap fmap list_fmap].
  assert ((n ← name (Some b); Entry n) w = Ok (entry_elem c n, w)) as Hone.
  { mstep (name_run w b n Hb). unfold Entry, CreateElement, mbind, M_bind. cbn -[buildEntry].
    rewrite Hc. by destruct w. }
  mstep Hone. by mstep IH.
Qed.
Lemma entries_run w vs ns :
  classes_wf (w_js w) → named (m_item (w_ext w)) vs ns →
  ∃ c j', mmap (λ v, n ← name v; Entry n) vs w = Ok (entry_elem c <$> ns, World j' (w_ext w)) ∧
    heap j' = heap (w_js w) ∧ updates j' = updates (w_js w) ∧ classes_wf j'.
Proof.
  intros Hwf Hn. destruct Hn as [|v n vs ns (b & -> & Hb) Hn].
  - exists 0, (w_js w). by destruct w.
  - destruct (CreateElement_eq buildEntry (Some (MkEntryProps n)) [] w Hwf) as (c & j' & He & [Hj1 Hj2 Hj3 Hj4 Hj5 Hj6]).
    exists c, j'. split; [|done]. cbn [mmap fmap list_fmap].
    assert ((n ← name (Some b); Entry n) w = Ok (entry_elem c n, World j' (w_ext w))) as Hone
      by (by mstep (name_run w b n Hb)).
    mstep Hone. by mstep (entries_known (World j' (w_ext w)) vs ns c Hn Hj2).
Qed.

(** What the application looks like; [c] is the class of the entries. *)
Definition imm_view (t : TodoAppDef) (c : nat) (s : todo) : Element :=
  El.Div None [
    El.H3 None [ES "TODO"];
    El.Ul None (map (entry_elem c) (t_items s));
    todo_form (t_curr s) (Z.of_nat (length (t_items s))) (inputChange t) (add t)
  ].

Lemma ImmTodoApp_Render_run w this i t :
  classes_wf (w_js w) → shows w this i t →
  ∃ c j', Render {| todo_def := mk_def this |} w =
      Ok (imm_view {| todo_def := mk_def this |} c t, World j' (w_ext w)) ∧
    heap j' = heap (w_js w) ∧ updates j' = updates (w_js w) ∧ classes_wf j'.
Proof.
  intros Hwf (s & Hi & a & vs & Hs & Ha & Hn & Hc). unfold Render, State_. cbn [todo_def].
  mstep (State_inst _ _ _ _ Hi). rewrite Hs.
  mstep (slice_Range_run (A := ptr) w a _ Ha). mstep (slice_elems_run (A := ptr) w a _ Ha). destruct (entries_run w vs _ Hwf Hn) as (c & j' & He & Hh & Hrest). mstep He.
  assert (inst j' this i s) as Hi' by (by eapply inst_heap).
  do 2 mstep (State_inst (World j' (w_ext w)) _ _ _ Hi'). rewrite Hs. exists c, j'. split; [|done].
  assert (slice_Len (A := ptr) (Some a) (World j' (w_ext w)) =
          Ok (Z.of_nat (length (t_items t)), World j' (w_ext w))) as Hl.
  { unfold slice_Len. mstep (deref_run (P := itemS) (World j' (w_ext w)) a (ICell vs false) Ha).
    cbn. by rewrite (Forall2_length Hn). }
  mstep Hl. by rewrite Hc.
Qed.

(** An entry draws its text as the other application does. *)
Lemma Entry_Render_run w this n :
  has_props (w_js w) this (MkEntryProps n) →
  Entry_Render {| entry_def := mk_def this |} w = Ok (El.Li None [ES n], w).
Proof. intros Hp. unfold Entry_Render, Props_. cbn [entry_def]. by mstep (Props_has_props _ _ _ Hp). Qed.
End ImmTodoAppProofs.

(** C14: the two todo applications do the same: whatever the user types and clicks, both
    hold the items and the text of the specification, ask to be drawn again exactly for
    the events that changed something, and draw their state: the list of the one with
    an [Li] for each item, of the other with an [Entry] for each. *)
Theorem todo_apps_agree es t w1 this1 i1 w2 this2 i2 :
  TodoAppProofs.shows w1 this1 i1 t →
  ImmTodoAppProofs.shows w2 this2 i2 t → classes_wf (w_js w2) →
  let t' := todo_run t es in
  let d1 := TodoApp.Build_TodoAppDef (mk_def this1) in
  let d2 := ImmTodoApp.Build_TodoAppDef (mk_def this2) in
  ∃ w1' w2' c w2'',
    TodoApp.run d1 es w1 = Ok (tt, w1') ∧ ImmTodoApp.run d2 es w2 = Ok (tt, w2') ∧
    TodoAppProofs.shows w1' this1 i1 t' ∧ ImmTodoAppProofs.shows w2' this2 i2 t' ∧
    updates (w_js w1') = updates (w_js w1) ++ replicate (redraws t es) this1 ∧
    updates (w_js w2') = updates (w_js w2) ++ replicate (redraws t es) this2 ∧
    TodoApp.Render d1 w1' = Ok (TodoApp.todo_view d1 (TodoAppProofs.state_of t'), w1') ∧
    ImmTodoApp.Render d2 w2' = Ok (ImmTodoAppProofs.imm_view d2 c t', w2'') ∧
    ImmTodoAppProofs.shows w2'' this2 i2 t'.
Proof.
  intros H1 H2 Hwf t' d1 d2.
  destruct (TodoAppProofs.TodoApp_run_run w1 this1 i1 t es H1) as (w1' & Hr1 & Hs1 & Hu1).
  destruct (ImmTodoAppProofs.ImmTodoApp_run_run w2 this2 i2 t es H2) as (w2' & Hr2 & Hs2 & Hu2 & Hm & Hc).
  assert (classes_wf (w_js w2')) as Hwf' by (unfold classes_wf; by rewrite Hm, Hc).
  destruct (ImmTodoAppProofs.ImmTodoApp_Render_run w2' this2 i2 _ Hwf' Hs2) as (c & j' & Hr & Hh & _).
  exists w1', w2', c, (World j' (w_ext w2')). split_and!; try done.
  - by apply TodoAppProofs.TodoApp_Render_run with i1.
  - destruct Hs2 as (s & Hi & Hs). exists s. split; [by eapply inst_heap|done].
Qed.

(** ** Witnesses *)

(** Both applications, empty; something is typed and added. *)
Lemma todo_apps_agree_witness :
  ∃ w1 w2, TodoApp.run (TodoApp.Build_TodoAppDef (mk_def 0)) [Input_ "milk"; Click_add]
      (World (one_instance (RV := TodoApp.values) None (TodoApp.MkState [] "")) 0) = Ok (tt, w1) ∧
    ImmTodoApp.run (ImmTodoApp.Build_TodoAppDef (mk_def 0)) [Input_ "milk"; Click_add]
      (World (one_instance (RV := ImmTodoApp.values) None (ImmTodoApp.MkState (Some 0) "")) (ImmTodoApp.Mem [ICell [] false] [] 0)) = Ok (tt, w2) ∧
    TodoAppProofs.shows w1 0 2 (MkTodo ["milk"] "") ∧ ImmTodoAppProofs.shows w2 0 2 (MkTodo ["milk"] "").
Proof.
  destruct (todo_apps_agree [Input_ "milk"; Click_add] (MkTodo [] "")
    (World (one_instance (RV := TodoApp.values) None (TodoApp.MkState [] "")) 0) 0 2
    (World (one_instance (RV := ImmTodoApp.values) None (ImmTodoApp.MkState (Some 0) "")) (ImmTodoApp.Mem [ICell [] false] [] 0)) 0 2)
    as (w1 & w2 & c & w3 & H1 & H2 & H3 & H4 & _).
  - apply one_instance_inst.
  - exists (ImmTodoApp.MkState (Some 0) ""). split; [apply one_instance_inst|]. exists 0, [].
    split; [reflexivity|]. split; [reflexivity|]. split; [constructor|reflexivity].
  - apply one_instance_classes.
  - exists w1, w2. split; [exact H1|]. split; [exact H2|]. split; [exact H3|exact H4].
Defined.

(** A slice with an item that is mutable. *)
Module Items.
Import ImmTodoApp.
Lemma IsDeeplyNonMutable_spec_witness :
  let w := ImmTodoApp.Mem [ICell [Some 0; None] false] [ICell (ImmTodoApp.MkItem "milk") true] 0 in
  ∃ b, IsDeeplyNonMutable (S := ImmTodoApp.item) (Some 0) w = Ok (b, w) ∧
    (b = true ↔ deeply_frozen (S := ImmTodoApp.item) w (Some 0)).
Proof.
  apply IsDeeplyNonMutable_spec. intros a [= <-]. eexists. split; [reflexivity|].
  intros v [[= ->]|[[=]|[]%elem_of_nil]%elem_of_cons]%elem_of_cons. eexists. reflexivity.
Defined.
End Items.
