(* ===== verification/ImmSelect.v ===== *)
(** * The Select component

    Models [components/imm/select.go] of [src/_vendor/src/myitcv.io/react], a select box
    for values of any type with a label, and its generated proxies.

    The component belongs to a library: its props are interfaces that the program using
    it implements.  [SelectProgram] is what it gets from the program: the dynamic values
    of the interfaces [Label], [ImmSelectEntry] and [OnSelect] with their methods, and
    how its props, its state and its handler are among those of the program, with the
    type assertions of the proxies.  [SelectLaws] is what the theorems need of it. *)

From stdpp Require Import pretty.
From S2P Require Import Prelude GoLib React Mount Elements Immutable.

(** [strconv.Itoa] *)
Definition Itoa (i : Z) : string := pretty i.

Record SelectDef := { select_def : ComponentDef }.
Record SelectProps (L En O : Type) := MkSelectProps {
  Entry : option L;
  Entries : option En;
  OnSelect_ : option O
}.
Arguments MkSelectProps {L En O} Entry Entries OnSelect_.
Arguments Entry {L En O} s.
Arguments Entries {L En O} s.
Arguments OnSelect_ {L En O} s.
Record SelectState := MkSelectState { currEntry : string; entries : ptr; entriesMap : ptr }.
Record entryKey (L : Type) := EntryKey { ek_key : string; ek_p : option L }.
Arguments EntryKey {L} ek_key ek_p.
Arguments ek_key {L} e.
Arguments ek_p {L} e.

#[export] Instance SelectState_eq_dec : EqDecision SelectState.
Proof. solve_decision. Defined.
#[export] Instance SelectProps_eq_dec L En O `{EqDecision L, EqDecision En, EqDecision O} :
  EqDecision (SelectProps L En O).
Proof. solve_decision. Defined.

Definition noEntry := "-1".

Class SelectProgram (RV : ReactValues) (E L En O : Type) := {
  select_props : SelectProps L En O → Props;
  as_select_props : Props → option (SelectProps L En O);
  select_state : SelectState → State;
  as_select_state : State → option SelectState;
  changeEntry : SelectDef → Handler;
  Label : L → M (world E) string;
  Range : En → M (world E) (list (option L));
  OnSelect : O → option L → M (world E) unit;
}.

Section Select.
Context {RV : ReactValues} {E L En O : Type} {SP : SelectProgram RV E L En O}.
Context `{HasCells (list (entryKey L)) E, HasCells (gmap string (option L)) E}.
Abbreviation SM := (M (world E)).

(** ** The proxies *)
Definition State_ (p : SelectDef) : SM SelectState :=
  s ← ComponentDef_State (select_def p);
  mlift (of_option TypeAssertion (as_select_state s)).
Definition SetState (p : SelectDef) (s : SelectState) : SM unit :=
  ComponentDef_SetState (select_def p) (select_state s).
Definition Props_ (p : SelectDef) : SM (SelectProps L En O) :=
  ps ← ComponentDef_Props (select_def p);
  mlift (of_option TypeAssertion (as_select_props ps)).

(** ** The methods *)

(** The loop of [updateMap]. *)
Fixpoint fill (kem eks : ptr) (i : Z) (ps : list (option L)) : SM unit :=
  match ps with
  | [] => mret tt
  | p :: ps =>
      let k := Itoa i in
      _ ← map_Set kem k p;
      _ ← slice_Append eks [EntryKey k p];
      fill kem eks (i + 1) ps
  end.

(** A method of a nil interface value. *)
Definition on_intf {I A} (v : option I) (f : I → SM A) : SM A :=
  match v with Some v => f v | None => mpanic NilDeref end.

(** The two deferred calls of [AsImmutable] come last, in reverse. *)
Definition updateMap (p : SelectDef) (es : option En) : SM unit :=
  eks ← slice_New (A := entryKey L) [];
  eks ← AsMutable (P := list (entryKey L)) eks;
  kem ← map_New (K := string) (V := option L) [];
  kem ← AsMutable (P := gmap string (option L)) kem;
  ps ← on_intf es Range;
  _ ← fill kem eks 0 ps;
  _ ← map_Set kem noEntry None;
  st ← State_ p;
  let st := MkSelectState (currEntry st) eks (entriesMap st) in
  let st := MkSelectState (currEntry st) (entries st) kem in
  _ ← SetState p st;
  _ ← AsImmutable (P := gmap string (option L)) kem None;
  _ ← AsImmutable (P := list (entryKey L)) eks None;
  mret tt.

Definition Select_ComponentWillMount (p : SelectDef) : SM unit :=
  props ← Props_ p;
  updateMap p (Entries props).
Definition Select_ComponentWillReceiveProps (p : SelectDef) (props : SelectProps L En O) : SM unit :=
  updateMap p (Entries props).

Definition option_elem (key label : string) : Element :=
  El.Option (Some (El.Option_with_Value key El.Option_zero)) [ES label].
Definition select_elem (curr : string) (p : SelectDef) (ps : list Element) : Element :=
  El.Select (Some (El.Select_with_Value curr
    (El.Select_on_html (El.with_OnChange (Some (changeEntry p))) El.Select_zero))) ps.

Definition Select_Render (p : SelectDef) : SM Element :=
  s ← State_ p;
  r ← slice_Range (A := entryKey L) (entries s);
  vs ← slice_elems (A := entryKey L) r;
  ps ← mmap (λ v, t ← on_intf (ek_p v) Label; mret (option_elem (ek_key v) t)) vs;
  s ← State_ p;
  mret (select_elem (currEntry s) p ps).

(** [v] is the value of the select box. *)
Definition changeEntry_OnChange (p : SelectDef) (v : string) : SM unit :=
  s ← State_ p;
  s2 ← State_ p;
  l ← map_Get (V := option L) (entriesMap s2) v;
  match l with
  | None => mpanic (PanicMsg ("Select component selected value " +:+ Strconv.Quote v +:+ " that we don't know about"))
  | Some l =>
      _ ← SetState p (MkSelectState v (entries s) (entriesMap s));
      props ← Props_ p;
      on_intf (OnSelect_ props) (λ o, OnSelect o l)
  end.

Definition buildSelect (cd : ComponentDef) : Component E :=
  let p := {| select_def := cd |} in {|
  cmp_type := RType "SelectDef" "myitcv.io/react/components/imm";
  RendersElement := Select_Render p;
  ComponentWillMount := Some (Select_ComponentWillMount p);
  ComponentDidMount := None;
  ComponentWillReceivePropsIntf := Some (λ ps,
    ps ← mlift (of_option TypeAssertion (as_select_props ps)); Select_ComponentWillReceiveProps p ps);
  GetInitialStateIntf := Some (mret (select_state (MkSelectState "" None None)));
  ComponentWillUnmount := None;
|}.
Definition Select (props : SelectProps L En O) : SM Element :=
  CreateElement buildSelect (Some (select_props props)) [].
End Select.

(** ** What the component shows *)

(** The entries and the map for the labels [ls]. *)
Fixpoint keys_from {L} (i : Z) (ls : list (option L)) : list (entryKey L) :=
  match ls with [] => [] | l :: ls => EntryKey (Itoa i) l :: keys_from (i + 1) ls end.
Fixpoint map_from {L} (i : Z) (ls : list (option L)) (m : gmap string (option L)) : gmap string (option L) :=
  match ls with [] => m | l :: ls => map_from (i + 1) ls (<[Itoa i := l]> m) end.
Definition label_map {L} (ls : list (option L)) : gmap string (option L) :=
  <[noEntry := None]> (map_from 0 ls ∅).

Section Maps.
Context {L : Type}.
Implicit Types (ls : list (option L)).

Lemma Itoa_inj i j : Itoa i = Itoa j → i = j.
Proof. apply (inj pretty). Qed.
Lemma Itoa_noEntry i : (0 ≤ i)%Z → Itoa i ≠ noEntry.
Proof. intros Hi. change noEntry with (Itoa (-1)). intros ?%Itoa_inj. lia. Qed.

Lemma map_from_other i ls m k :
  (∀ j, (i ≤ j)%Z → k ≠ Itoa j) → map_from i ls m !! k = m !! k.
Proof.
  revert i m. induction ls as [|l ls IH]; intros i m Hk; [done|]. cbn [map_from]. rewrite IH.
  - apply lookup_insert_ne. intros <-. by apply (Hk i).
  - intros j Hj. apply Hk. lia.
Qed.
Lemma map_from_at i ls m (n : nat) :
  n < length ls → map_from i ls m !! Itoa (i + Z.of_nat n) = ls !! n.
Proof.
  revert i m n. induction ls as [|l ls IH]; intros i m [|n] Hn; cbn [length] in Hn; try lia; cbn [map_from lookup list_lookup].
  - rewrite Z.add_0_r, map_from_other; [apply lookup_insert_eq|]. intros j Hj ?%Itoa_inj. lia.
  - replace (i + Z.of_nat (S n))%Z with (i + 1 + Z.of_nat n)%Z by lia. rewrite IH by lia. done.
Qed.

(** A key is known exactly if it is the number of a label, or the key for none. *)
Lemma label_map_at ls (n : nat) : n < length ls → label_map ls !! Itoa (Z.of_nat n) = ls !! n.
Proof.
  intros Hn. unfold label_map. rewrite lookup_insert_ne by (intros Hk; symmetry in Hk; revert Hk; apply Itoa_noEntry; lia).
  by apply (map_from_at 0).
Qed.
Lemma label_map_none ls k :
  label_map ls !! k = None ↔ k ≠ noEntry ∧ ∀ n, n < length ls → k ≠ Itoa (Z.of_nat n).
Proof.
  split.
  - intros Hk. split.
    + intros ->. unfold label_map in Hk. by rewrite lookup_insert_eq in Hk.
    + intros n Hn ->. rewrite label_map_at in Hk by done. apply lookup_ge_None in Hk. lia.
  - intros [Hne Hk]. unfold label_map. rewrite lookup_insert_ne by done.
    rewrite <-(lookup_empty (M := gmap string) (A := option L) k). generalize (∅ : gmap string (option L)). intros m.
    assert (∀ n, n < length ls → k ≠ Itoa (0 + Z.of_nat n)) as Hk' by done. clear Hk Hne. revert Hk'. generalize 0%Z. revert m.
    induction ls as [|l ls IH]; intros m i Hk; [done|]. cbn [map_from]. rewrite IH.
    + apply lookup_insert_ne. intros <-. apply (Hk 0); cbn; [lia|f_equal; lia].
    + intros n Hn. replace (i + 1 + Z.of_nat n)%Z with (i + Z.of_nat (S n))%Z by lia. apply Hk. cbn. lia.
Qed.
End Maps.

Class SelectLaws (RV : ReactValues) (E L En O : Type) {SP : SelectProgram RV E L En O}
    `{HasCells (list (entryKey L)) E, HasCells (gmap string (option L)) E} := {
  as_props : ∀ p, as_select_props (select_props p) = Some p;
  as_state : ∀ s, as_select_state (select_state s) = Some s;
  state_equals : ∀ s t, State_EqualsIntf (select_state s) (select_state t) = Ok (bool_decide (s = t));
  select_sep :: SepCells (list (entryKey L)) (gmap string (option L)) E;
}.

(** ** What the methods do *)
Section Runs.
Context {RV : ReactValues} {E L En O : Type} {SP : SelectProgram RV E L En O}.
Context `{HK : HasCells (list (entryKey L)) E, HM : HasCells (gmap string (option L)) E}.
Context `{!SelectLaws RV E L En O}.
Implicit Types (w : world E) (s : SelectState) (ls : list (option L)).

Abbreviation keyS := (list (icell (list (entryKey L)))).
Abbreviation mapS := (list (icell (gmap string (option L)))).

(** [w] with the two stores of the component replaced. *)
Definition put2 (lk : keyS) (lm : mapS) w : world E := put_cells lk (put_cells lm w).

Lemma keys_put2 lk lm w : cells (put2 lk lm w) = lk.
Proof. apply cells_put. Qed.
Lemma maps_put2 lk lm w : cells (put2 lk lm w) = lm.
Proof. unfold put2. rewrite sep_cells. apply cells_put. Qed.
Lemma put_keys_put2 lk lk' lm w : put_cells lk' (put2 lk lm w) = put2 lk' lm w.
Proof. apply put_put. Qed.
Lemma put_maps_put2 lk lm lm' w : put_cells lm' (put2 lk lm w) = put2 lk lm' w.
Proof. unfold put2. by rewrite <-sep_put, put_put. Qed.
Lemma put2_id w : put2 (cells w) (cells w) w = w.
Proof. unfold put2. by rewrite (put_cells_id (P := gmap string (option L))), put_cells_id. Qed.
Lemma put2_js lk lm w : w_js (put2 lk lm w) = w_js w.
Proof. done. Qed.
Lemma put2_put2 lk lm lk' lm' w : put2 lk lm (put2 lk' lm' w) = put2 lk lm w.
Proof. unfold put2 at 1. by rewrite put_maps_put2, put_keys_put2. Qed.
Lemma put2_World lk lm j w : put2 lk lm (World j (w_ext w)) = World j (w_ext (put2 lk lm w)).
Proof. done. Qed.

Lemma State_run w this i s :
  inst (w_js w) this i (select_state s) → State_ {| select_def := mk_def this |} w = Ok (s, w).
Proof. intros Hi. unfold State_. cbn [select_def]. mstep (State_inst _ _ _ _ Hi). by rewrite as_state. Qed.
Lemma Props_run w this p :
  has_props (w_js w) this (select_props p) → Props_ {| select_def := mk_def this |} w = Ok (p, w).
Proof. intros Hp. unfold Props_. cbn [select_def]. mstep (Props_has_props _ _ _ Hp). by rewrite as_props. Qed.

Lemma fill_run lk lm w a b i ps ks m :
  lk !! a = Some (ICell ks true) → lm !! b = Some (ICell m true) →
  fill (Some b) (Some a) i ps (put2 lk lm w) =
  Ok (tt, put2 (<[a := ICell (ks ++ keys_from i ps) true]> lk) (<[b := ICell (map_from i ps m) true]> lm) w).
Proof.
  revert lk lm i ks m. induction ps as [|p ps IH]; intros lk lm i ks m Ha Hb; cbn [fill keys_from map_from].
  { by rewrite app_nil_r, !list_insert_id. }
  assert (map_Set (Some b) (Itoa i) p (put2 lk lm w) =
    Ok (Some b, put2 lk (<[b := ICell (<[Itoa i := p]> m) true]> lm) w)) as H1.
  { unfold map_Set. rewrite (update_run _ b (ICell m true)) by by rewrite maps_put2.
    cbn [mbind res_bind payload mutable]. by rewrite maps_put2, put_maps_put2. }
  mstep H1. set (lm1 := <[b := _]> lm) in *.
  assert (slice_Append (Some a) [EntryKey (Itoa i) p] (put2 lk lm1 w) =
    Ok (Some a, put2 (<[a := ICell (ks ++ [EntryKey (Itoa i) p]) true]> lk) lm1 w)) as H2.
  { unfold slice_Append. rewrite (update_run _ a (ICell ks true)) by by rewrite keys_put2.
    cbn [mbind res_bind payload mutable]. by rewrite keys_put2, put_keys_put2. }
  mstep H2. rewrite (IH _ _ _ (ks ++ [EntryKey (Itoa i) p]) (<[Itoa i := p]> m)).
  - unfold lm1. by rewrite !list_insert_insert_eq, <-app_assoc.
  - apply list_lookup_insert_eq. by eapply lookup_lt_Some.
  - apply list_lookup_insert_eq. by eapply lookup_lt_Some.
Qed.

Lemma lookup_second {A} (l : list A) x y : ((l ++ [x]) ++ [y]) !! S (length l) = Some y.
Proof. apply list_lookup_middle. rewrite length_app. cbn. lia. Qed.
Lemma insert_second {A} (l : list A) x y z : <[S (length l) := z]> ((l ++ [x]) ++ [y]) = (l ++ [x]) ++ [z].
Proof. rewrite <-(insert_last (l ++ [x]) y z), length_app, Nat.add_comm. done. Qed.

(** What [Range] of the entries gives, whatever the component allocates first. *)
Definition ranges (es : option En) ls w : Prop :=
  ∀ lk lm, on_intf es Range (put2 lk lm w) = Ok (ls, put2 lk lm w).
(** The pointers in [s] are of [w]. *)
Definition valid w s : Prop := ∀ a, entries s = Some a → a < length (cells (P := list (entryKey L)) w).
(** The component shows [ls]: its entries and its map are those of [ls], and neither is
    mutable. *)
Definition tracks w s ls : Prop :=
  ∃ a b, entries s = Some a ∧ entriesMap s = Some b ∧
    frozen w a (keys_from 0 ls) ∧ frozen w b (label_map ls).

Lemma tracks_valid w s ls : tracks w s ls → valid w s.
Proof. intros (a & b & Ha & _ & Hf & _) a' Ha'. simplify_eq. by eapply lookup_lt_Some. Qed.

Lemma new_keys_run w :
  (eks ← slice_New (A := entryKey L) []; AsMutable (P := list (entryKey L)) eks) w =
  Ok (Some (S (length (cells (P := list (entryKey L)) w))), put_cells ((cells w ++ [ICell [] false]) ++ [ICell [] true]) w).
Proof.
  unfold mbind, M_bind, slice_New, imm_new. erewrite AsMutable_run by (rewrite cells_put; apply lookup_last).
  cbn [payload mutable]. rewrite cells_put, put_put, length_app, Nat.add_comm. done.
Qed.
Lemma new_map_run w :
  (kem ← map_New (K := string) (V := option L) []; AsMutable (P := gmap string (option L)) kem) w =
  Ok (Some (S (length (cells (P := gmap string (option L)) w))), put_cells ((cells w ++ [ICell ∅ false]) ++ [ICell ∅ true]) w).
Proof.
  unfold mbind, M_bind, map_New, map_NewCap, imm_new. cbn [mret M_ret mbind M_bind].
  unfold mbind, M_bind, mret, M_ret. erewrite AsMutable_run by (rewrite cells_put; apply lookup_last).
  cbn [payload mutable]. rewrite cells_put, put_put, length_app, Nat.add_comm. done.
Qed.

Abbreviation fresh_keys w ks mut := ((cells w ++ [ICell [] false]) ++ [ICell ks mut]) (only parsing).
Abbreviation fresh_maps w m mut := ((cells w ++ [ICell ∅ false]) ++ [ICell m mut]) (only parsing).

(** Building the two collections, up to the call of [SetState]. *)
Lemma build_run w es ls :
  ranges es ls w →
  (eks ← slice_New (A := entryKey L) [];
   eks ← AsMutable (P := list (entryKey L)) eks;
   kem ← map_New (K := string) (V := option L) [];
   kem ← AsMutable (P := gmap string (option L)) kem;
   ps ← on_intf es Range;
   _ ← fill kem eks 0 ps;
   _ ← map_Set kem noEntry None;
   mret (eks, kem)) w =
  Ok ((Some (S (length (cells (P := list (entryKey L)) w))), Some (S (length (cells (P := gmap string (option L)) w)))),
      put2 (fresh_keys w (keys_from 0 ls) true) (fresh_maps w (label_map ls) true) w).
Proof.
  intros Hr.
  pose proof (new_keys_run w) as (e0 & w0 & H0 & H1)%M_bind_Ok. mstep H0. mstep H1. clear H0 H1 w0 e0.
  set (lk := fresh_keys w [] true). set (w1 := put_cells lk w).
  pose proof (new_map_run w1) as (e0 & w0 & H0 & H1)%M_bind_Ok. mstep H0. mstep H1. clear H0 H1 w0 e0.
  assert (cells (P := gmap string (option L)) w1 = cells w) as -> by apply sep_cells.
  set (lm := fresh_maps w ∅ true).
  assert (put_cells lm w1 = put2 lk lm w) as -> by (symmetry; apply sep_put).
  mstep (Hr lk lm).
  mstep (fill_run lk lm w (S (length (cells w))) (S (length (cells w))) 0 ls [] ∅ (lookup_second _ _ _) (lookup_second _ _ _)).
  unfold lk, lm. rewrite !insert_second. cbn [app].
  unfold map_Set, mbind, M_bind. rewrite (update_run _ (S (length (cells w))) (ICell (map_from 0 ls ∅) true)).
  - cbn [mbind res_bind payload mutable]. by rewrite maps_put2, put_maps_put2, insert_second.
  - rewrite maps_put2. apply lookup_second.
Qed.

(** [updateMap] gives the component the entries and the map of the labels, both new and
    not mutable in the end, keeps the selected entry, and asks for one re-render. *)
Lemma updateMap_run w this i s es ls :
  inst (w_js w) this i (select_state s) → valid w s → ranges es ls w →
  ∃ j' s', updateMap {| select_def := mk_def this |} es w =
      Ok (tt, World j' (w_ext (put2 (fresh_keys w (keys_from 0 ls) false) (fresh_maps w (label_map ls) false) w))) ∧
    state_changed (w_js w) j' this i (select_state s') ∧
    currEntry s' = currEntry s ∧
    entries s' = Some (S (length (cells (P := list (entryKey L)) w))) ∧
    entriesMap s' = Some (S (length (cells (P := gmap string (option L)) w))).
Proof.
  intros Hi Hv Hr. pose proof (build_run w es ls Hr) as Hb. unfold updateMap.
  set (a := S (length (cells (P := list (entryKey L)) w))) in *.
  set (b := S (length (cells (P := gmap string (option L)) w))) in *.
  set (w1 := put2 _ _ w) in Hb.
  do 7 (let x := fresh "x" in let w' := fresh "w" in let H1 := fresh "H" in
        apply M_bind_Ok in Hb as (x & w' & H1 & Hb); mstep H1; clear H1).
  injection Hb as -> -> ->.
  mstep (State_run w1 this i s Hi). cbn [currEntry entries entriesMap].
  set (s' := MkSelectState (currEntry s) (Some a) (Some b)).
  assert (State_EqualsIntf (select_state s') (select_state s) = Ok false) as Heq.
  { rewrite state_equals, bool_decide_eq_false_2; [done|]. intros Hs.
    specialize (Hv a). rewrite <-Hs in Hv. specialize (Hv eq_refl). unfold a in Hv. lia. }
  destruct (SetState_differs w1 this i _ (select_state s') Hi Heq) as (j' & Hset & Hch).
  unfold SetState. cbn [select_def]. mstep Hset. exists j', s'. split; [|done].
  set (lk := fresh_keys w (keys_from 0 ls) true) in w1. set (lm := fresh_maps w (label_map ls) true) in w1.
  change (World j' (w_ext w1)) with (put2 lk lm (World j' (w_ext w))).
  assert (AsImmutable (P := gmap string (option L)) (Some b) None (put2 lk lm (World j' (w_ext w))) =
    Ok (Some b, put2 lk (fresh_maps w (label_map ls) false) (World j' (w_ext w)))) as Hm.
  { rewrite (AsImmutable_run _ b (ICell (label_map ls) true)) by (rewrite maps_put2; apply lookup_second).
    rewrite bool_decide_eq_false_2 by done. cbn [payload]. rewrite maps_put2, put_maps_put2. unfold lm, b.
    by rewrite insert_second. }
  mstep Hm. unfold mbind, M_bind.
  rewrite (AsImmutable_run _ a (ICell (keys_from 0 ls) true)) by (rewrite keys_put2; apply lookup_second).
  rewrite bool_decide_eq_false_2 by done. cbn [payload]. rewrite keys_put2, put_keys_put2. unfold lk, a.
  by rewrite insert_second.
Qed.

(** The two collections made by [updateMap] are those of the labels. *)
Lemma tracks_fresh w j s ls :
  entries s = Some (S (length (cells (P := list (entryKey L)) w))) →
  entriesMap s = Some (S (length (cells (P := gmap string (option L)) w))) →
  tracks (World j (w_ext (put2 (fresh_keys w (keys_from 0 ls) false) (fresh_maps w (label_map ls) false) w))) s ls.
Proof.
  intros He Hm. eexists _, _. split; [exact He|]. split; [exact Hm|]. rewrite <-put2_World. unfold frozen.
  rewrite keys_put2, maps_put2. split; apply lookup_second.
Qed.

(** From [w] to [w'], the instance got the labels [ls]: it holds their entries and their
    map, the entry that was selected is still the selected one, one re-render was asked
    for, and no other collection has changed. *)
Definition retracked w w' this i s ls : Prop :=
  ∃ s', inst (w_js w') this i (select_state s') ∧ currEntry s' = currEntry s ∧ tracks w' s' ls ∧
    updates (w_js w') = updates (w_js w) ++ [this] ∧
    cells (P := list (entryKey L)) w `prefix_of` cells w' ∧
    cells (P := gmap string (option L)) w `prefix_of` cells w'.

Lemma updateMap_retracks w this i s es ls :
  inst (w_js w) this i (select_state s) → valid w s → ranges es ls w →
  ∃ w', updateMap {| select_def := mk_def this |} es w = Ok (tt, w') ∧ retracked w w' this i s ls ∧
    evolves {[i]} ∅ (w_js w) (w_js w').
Proof.
  intros Hi Hv Hr. destruct (updateMap_run w this i s es ls Hi Hv Hr) as (j' & s' & Hrun & Hch & Hc & He & Hm).
  eexists. split; [exact Hrun|]. split; [|by eapply changed_evolves]. exists s'. split; [apply Hch|]. split; [exact Hc|].
  split; [by apply tracks_fresh|]. split; [apply Hch|].
  rewrite <-put2_World, keys_put2, maps_put2. rewrite <-!app_assoc. split; by apply prefix_app_r.
Qed.

(** Mounted with the props [ps]. *)
Lemma Select_mount_run w ps ls :
  heap_wf (w_js w) → (∀ j, ranges (Entries ps) ls (World j (w_ext w))) →
  let this := next_loc (w_js w) in
  ∃ w0 w', create_instance buildSelect (JObject (wrap_props (Some (select_props ps)) [])) w = Ok (this, w0) ∧
    w_ext w0 = w_ext w ∧
    mount_instance buildSelect (JObject (wrap_props (Some (select_props ps)) [])) w = Ok (this, w') ∧
    retracked w0 w' this (S (S this)) (MkSelectState "" None None) ls ∧ has_props (w_js w') this (select_props ps).
Proof.
  intros Hwf Hr this.
  destruct (create_evolves buildSelect (JObject (wrap_props (Some (select_props ps)) [])) w
    (select_state (MkSelectState "" None None)) Hwf eq_refl) as (j0 & Hc & Hi & _ & (o & Ho & Hop)).
  assert (has_props j0 this (select_props ps)) as Hp by by eapply elem_props.
  set (w0 := World j0 (w_ext w)) in Hc. assert (valid w0 (MkSelectState "" None None)) as Hv by done.
  destruct (updateMap_retracks w0 this _ _ (Entries ps) ls Hi Hv (Hr j0)) as (w' & Hrun & Hre & Hev).
  exists w0, w'. split; [exact Hc|]. split; [done|]. split; [|split; [exact Hre|]].
  - unfold mount_instance. mstep Hc. cbn [buildSelect ComponentWillMount opt_call].
    assert (Select_ComponentWillMount {| select_def := mk_def this |} w0 = Ok (tt, w')) as Hm
      by (unfold Select_ComponentWillMount; by mstep (Props_run w0 this ps Hp)).
    by mstep Hm.
  - by eapply ev_props; [exact Hev|apply not_elem_of_empty|].
Qed.

(** Handed the props [next]. *)
Lemma Select_update_run w this i s ps next cs ls b :
  inst (w_js w) this i (select_state s) → valid w s → has_props (w_js w) this (select_props ps) →
  ranges (Entries next) ls w → Props_EqualsIntf (select_props ps) (Some (select_props next)) = Ok b →
  ∃ w', update_instance buildSelect this (JObject (wrap_props (Some (select_props next)) cs)) w = Ok (negb b, w') ∧
    retracked w w' this i s ls ∧
    ∃ o, heap (w_js w') !! this = Some o ∧ obj_get o reactCompProps = JObject (wrap_props (Some (select_props next)) cs).
Proof.
  intros Hi Hv Hp Hr Hb. destruct (updateMap_retracks w this i s (Entries next) ls Hi Hv Hr) as (w1 & Hrun & (s' & Hi1 & Hre) & Hev).
  assert (has_props (w_js w1) this (select_props ps)) as Hp1 by (by eapply ev_props; [exact Hev|apply not_elem_of_empty|]).
  destruct (wrap_props_get (Some (select_props next)) cs) as [Hget Hhas].
  assert (class_componentWillReceiveProps buildSelect this [JObject (wrap_props (Some (select_props next)) cs)] w = Ok (tt, w1)) as Hrecv.
  { unfold class_componentWillReceiveProps. cbn [buildSelect ComponentWillReceivePropsIntf].
    mstep (mlift_run (go_index [JObject (wrap_props (Some (select_props next)) cs)] 0) w _ eq_refl).
    mstep (eq_refl : js_Get (JObject (wrap_props (Some (select_props next)) cs)) nestedProps w = Ok (obj_get _ nestedProps, w)).
    rewrite Hget. mstep (mlift_run (unwrapProps (JProps (select_props next))) w _ eq_refl).
    mstep (mlift_run _ w _ (f_equal (of_option TypeAssertion) (as_props next))). exact Hrun. }
  unfold update_instance. mstep Hrecv.
  mstep (shouldComponentUpdate_run w1 this (select_props ps) (wrap_props (Some (select_props next)) cs) (select_props next) b Hp1 Hhas Hget Hb).
  pose proof Hi1 as (o & _ & _ & _ & Ho & _).
  destruct (set_props_evolves w1 this o (JObject (wrap_props (Some (select_props next)) cs)) Ho) as (j2 & H2 & Hev2 & Ho2).
  mstep H2. eexists. split; [done|]. split.
  - exists s'. destruct Hre as (Hc & Ht & Hu & Hk & Hm).
    split; [by eapply ev_inst; [exact Hev2|apply not_elem_of_empty|]|]. split; [done|]. split; [exact Ht|].
    split; [|by split]. rewrite (js_Set_ref _ _ _ _ _ Ho) in H2. injection H2 as <-. exact Hu.
  - exists (obj_set o reactCompProps (JObject (wrap_props (Some (select_props next)) cs))). split; [exact Ho2|apply obj_get_set_eq].
Qed.

(** C29: the labels [Select] holds.  Mounted with props, it holds the entries and the map of
    the labels these have, one for each in order, and neither is mutable any more; nothing
    is selected.  Whenever its parent hands it other props it holds those of the labels the
    new props have; the entry that was selected stays selected, one re-render is asked
    for, and no other collection changes. *)
Theorem Select_tracks w ps ls :
  heap_wf (w_js w) → (∀ j, ranges (Entries ps) ls (World j (w_ext w))) →
  let this := next_loc (w_js w) in
  (∃ w0 w', create_instance buildSelect (JObject (wrap_props (Some (select_props ps)) [])) w = Ok (this, w0) ∧
    w_ext w0 = w_ext w ∧
    mount_instance buildSelect (JObject (wrap_props (Some (select_props ps)) [])) w = Ok (this, w') ∧
    retracked w0 w' this (S (S this)) (MkSelectState "" None None) ls ∧ has_props (w_js w') this (select_props ps)) ∧
  ∀ w1 l i s curr next cs ls' b,
    inst (w_js w1) l i (select_state s) → valid w1 s → has_props (w_js w1) l (select_props curr) →
    ranges (Entries next) ls' w1 → Props_EqualsIntf (select_props curr) (Some (select_props next)) = Ok b →
    ∃ w2, update_instance buildSelect l (JObject (wrap_props (Some (select_props next)) cs)) w1 = Ok (negb b, w2) ∧
      retracked w1 w2 l i s ls' ∧
      ∃ o, heap (w_js w2) !! l = Some o ∧ obj_get o reactCompProps = JObject (wrap_props (Some (select_props next)) cs).
Proof.
  intros Hwf Hr this. split; [by apply Select_mount_run|]. intros. by eapply Select_update_run.
Qed.

(** [ts] are the texts of the labels [ls]. *)
Definition labelled w ls (ts : list string) : Prop :=
  Forall2 (λ l t, on_intf l Label w = Ok (t, w)) ls ts.
Fixpoint options_from (i : Z) (ts : list string) : list Element :=
  match ts with [] => [] | t :: ts => option_elem (Itoa i) t :: options_from (i + 1) ts end.

Lemma options_from_lookup i ts (n : nat) t :
  ts !! n = Some t → options_from i ts !! n = Some (option_elem (Itoa (i + Z.of_nat n)) t).
Proof.
  revert i n. induction ts as [|t' ts IH]; intros i [|n]; try done.
  - intros [= ->]. by rewrite Z.add_0_r.
  - intros Hn. etrans; [exact (IH (i + 1)%Z n Hn)|]. do 3 f_equal. lia.
Qed.

Lemma options_run w i ls ts :
  labelled w ls ts →
  mmap (λ v : entryKey L, t ← on_intf (ek_p v) Label; mret (option_elem (ek_key v) t)) (keys_from i ls) w =
  Ok (options_from i ts, w).
Proof.
  intros Hl. revert i. induction Hl as [|l t ls ts Ht Hl IH]; intros i; [done|].
  cbn [keys_from options_from mmap ek_p ek_key].
  rewrite (M_bind_run _ _ _ (option_elem (Itoa i) t) w) by by mstep Ht. by mstep (IH (i + 1)%Z).
Qed.

Lemma Select_Render_run w this i s ls ts :
  inst (w_js w) this i (select_state s) → tracks w s ls → labelled w ls ts →
  Select_Render {| select_def := mk_def this |} w =
  Ok (select_elem (currEntry s) {| select_def := mk_def this |} (options_from 0 ts), w).
Proof.
  intros Hi (a & b & Ha & _ & Hf & _) Hl. unfold Select_Render. mstep (State_run w this i s Hi). rewrite Ha.
  mstep (slice_Range_run w a _ Hf). mstep (slice_elems_run w a _ Hf). mstep (options_run w 0 ls ts Hl). by mstep (State_run w this i s Hi).
Qed.

Lemma OnChange_known w this i s ls ps o v l :
  inst (w_js w) this i (select_state s) → has_props (w_js w) this (select_props ps) → OnSelect_ ps = Some o →
  tracks w s ls → label_map ls !! v = Some l →
  ∃ j', inst j' this i (select_state (MkSelectState v (entries s) (entriesMap s))) ∧
    (j' = w_js w ∧ currEntry s = v ∨
     state_changed (w_js w) j' this i (select_state (MkSelectState v (entries s) (entriesMap s)))) ∧
    changeEntry_OnChange {| select_def := mk_def this |} v w = OnSelect o l (World j' (w_ext w)).
Proof.
  intros Hi Hp Ho (a & b & _ & Hb & _ & Hf) Hl. set (s' := MkSelectState v (entries s) (entriesMap s)).
  assert (∃ j', ComponentDef_SetState (mk_def this) (select_state s') w = Ok (tt, World j' (w_ext w)) ∧
    inst j' this i (select_state s') ∧ has_props j' this (select_props ps) ∧
    (j' = w_js w ∧ currEntry s = v ∨ state_changed (w_js w) j' this i (select_state s'))) as (j' & Hset & Hi' & Hp' & Hj).
  { pose proof (state_equals s' s) as Heq. case_bool_decide as Hs.
    - exists (w_js w). split; [rewrite (SetState_equal _ _ _ _ _ Hi Heq); by destruct w|].
      assert (currEntry s = v) as Hc by by rewrite <-Hs. rewrite Hs. auto.
    - destruct (SetState_differs _ _ _ _ _ Hi Heq) as (j' & Hset & Hch). exists j'. split; [done|].
      split; [apply Hch|]. split; [by apply Hch|by right]. }
  exists j'. split; [done|]. split; [done|]. unfold changeEntry_OnChange.
  do 2 mstep (State_run w this i s Hi). rewrite Hb.
  assert (map_Get (V := option L) (Some b) v w = Ok (Some l, w)) as Hg.
  { unfold map_Get. mstep (deref_run w b _ Hf). cbn [payload]. by rewrite Hl. }
  mstep Hg. rewrite <-Hb. fold s'. unfold SetState. cbn [select_def]. mstep Hset.
  mstep (Props_run (World j' (w_ext w)) this ps Hp'). by rewrite Ho.
Qed.
Lemma OnChange_unknown w this i s ls v :
  inst (w_js w) this i (select_state s) → tracks w s ls → label_map ls !! v = None →
  changeEntry_OnChange {| select_def := mk_def this |} v w =
  Panic (PanicMsg ("Select component selected value " +:+ Strconv.Quote v +:+ " that we don't know about")).
Proof.
  intros Hi (a & b & _ & Hb & _ & Hf) Hl. unfold changeEntry_OnChange. do 2 mstep (State_run w this i s Hi). rewrite Hb.
  assert (map_Get (V := option L) (Some b) v w = Ok (None, w)) as Hg.
  { unfold map_Get. mstep (deref_run w b _ Hf). cbn [payload]. by rewrite Hl. }
  by mstep Hg.
Qed.

(** C17: what [Select] draws can be selected: it draws one option for each label, in order,
    with the label's text, and choosing an option makes it the current one and calls
    [OnSelect] with the label whose text it shows; the only other value that is not
    refused with an error is the one for no entry. *)
Theorem Select_selects_what_it_shows w this i s ls ts ps o :
  inst (w_js w) this i (select_state s) → has_props (w_js w) this (select_props ps) → OnSelect_ ps = Some o →
  tracks w s ls → labelled w ls ts →
  let p := {| select_def := mk_def this |} in
  Select_Render p w = Ok (select_elem (currEntry s) p (options_from 0 ts), w) ∧
  (∀ n l t, ls !! n = Some l → ts !! n = Some t →
     options_from 0 ts !! n = Some (option_elem (Itoa (Z.of_nat n)) t) ∧
     ∃ j', inst j' this i (select_state (MkSelectState (Itoa (Z.of_nat n)) (entries s) (entriesMap s))) ∧
       changeEntry_OnChange p (Itoa (Z.of_nat n)) w = OnSelect o l (World j' (w_ext w))) ∧
  (∀ v, v ≠ noEntry → (∀ n, n < length ls → v ≠ Itoa (Z.of_nat n)) →
     changeEntry_OnChange p v w =
     Panic (PanicMsg ("Select component selected value " +:+ Strconv.Quote v +:+ " that we don't know about"))).
Proof.
  intros Hi Hp Ho Ht Hl p. split; [by eapply Select_Render_run|]. split.
  - intros n l t Hn Htn. split.
    + by apply (options_from_lookup 0).
    + edestruct (OnChange_known w this i s ls ps o (Itoa (Z.of_nat n)) l) as (j' & Hi' & _ & Hr); try done.
      { rewrite label_map_at; [done|by eapply lookup_lt_Some]. }
      by exists j'.
  - intros v Hv Hn. eapply OnChange_unknown; try done. by apply label_map_none.
Qed.
End Runs.
