(* ===== verification/GlobalState.v ===== *)
(** * The globalstate site

    Models [examples/sites/globalstate] of [src/_vendor/src/myitcv.io/react]: its
    components [App] ([app.go]), [PersonChooser] ([person_chooser.go]) and
    [PersonViewer] ([person_viewer.go]), the values of [model], the tree of [state],
    [main], and the generated proxies and [sortPeopleKeysByName].  It puts together the
    bindings ([React]), a state tree ([StateTree]), immutable values ([Immutable]) and
    the [Select] component ([ImmSelect]).

    [sort.Sort] is a parameter with its documented behaviour ([sort_ok]); so is the order
    of [range] over a set of subscriptions. *)

From stdpp Require Import pretty.
From S2P Require Import Prelude GoLib GoGenerate StateTree React Elements Immutable Mount ImmSelect.

(** ** Data *)

(** [model/person.go]: the templates. *)
Record Person := MkPerson { _Name : string; _Age : Z }.
Abbreviation People := (list ptr).

Record AppDef := { app_def : ComponentDef }.
Record PersonChooserDef := { chooser_def : ComponentDef }.
Record PersonViewerDef := { viewer_def : ComponentDef }.

(** The dynamic values of the interfaces in use: a [PersonState] is a leaf of the tree,
    given by its path; labels are people. *)
Record PersonChooserProps := MkChooserProps { PersonState : option string }.
Record PersonChooserState := MkChooserState { currPerson : ptr; currPersonSub : option nat }.
Record PersonViewerState := MkViewerState { viewer_p : ptr; curPersSub : option nat }.
Record personLabel := MkLabel { label_Person : ptr }.
Inductive selected := personSelected (p : PersonChooserDef).

Abbreviation select_props_of := (SelectProps personLabel ptr selected).
Inductive gprops := PChooser (p : PersonChooserProps) | PSelect (p : select_props_of).
Inductive gstate :=
  | SApp (hideViewer : bool)
  | SChooser (s : PersonChooserState)
  | SViewer (s : PersonViewerState)
  | SSelect (s : SelectState).
Inductive ghandler := hideClick (a : AppDef) (showHide : bool) | selectChange (p : SelectDef).

(** Values of leaves, and the callbacks of subscriptions. *)
Inductive gvalue := VPerson (p : ptr) | VPeople (p : ptr).
Inductive callback := personStateChanged_cb (p : PersonChooserDef) | currPersonUpdated_cb (p : PersonViewerDef).

#[export] Instance ComponentDef_eq_dec : EqDecision ComponentDef.
Proof. solve_decision. Defined.
#[export] Instance PersonChooserDef_eq_dec : EqDecision PersonChooserDef.
Proof. solve_decision. Defined.
#[export] Instance selected_eq_dec : EqDecision selected.
Proof. solve_decision. Defined.
#[export] Instance personLabel_eq_dec : EqDecision personLabel.
Proof. solve_decision. Defined.
#[export] Instance PersonChooserProps_eq_dec : EqDecision PersonChooserProps.
Proof. solve_decision. Defined.
#[export] Instance PersonChooserState_eq_dec : EqDecision PersonChooserState.
Proof. solve_decision. Defined.
#[export] Instance PersonViewerState_eq_dec : EqDecision PersonViewerState.
Proof. solve_decision. Defined.
#[export] Instance gvalue_eq_dec : EqDecision gvalue.
Proof. solve_decision. Defined.

(** The generated [EqualsIntf] methods assert the type of their argument. *)
Definition props_EqualsIntf (p : gprops) (v : option gprops) : res bool :=
  match p, v with
  | PChooser p, Some (PChooser q) => Ok (bool_decide (p = q))
  | PSelect p, Some (PSelect q) => Ok (bool_decide (p = q))
  | _, _ => Panic TypeAssertion
  end.
Definition state_EqualsIntf (s v : gstate) : res bool :=
  match s, v with
  | SApp s, SApp v => Ok (bool_decide (s = v))
  | SChooser s, SChooser v => Ok (bool_decide (s = v))
  | SViewer s, SViewer v => Ok (bool_decide (s = v))
  | SSelect s, SSelect v => Ok (bool_decide (s = v))
  | _, _ => Panic TypeAssertion
  end.
#[export] Instance gvalues : ReactValues := {|
  Props := gprops; State := gstate; Handler := ghandler;
  Props_EqualsIntf := props_EqualsIntf; State_EqualsIntf := state_EqualsIntf;
|}.

(** The memory: a store for each immutable type, and the tree. *)
Record gmem := GMem {
  g_person : list (icell Person);
  g_people : list (icell People);
  g_labels : list (icell (list (option personLabel)));
  g_keys : list (icell (list (entryKey personLabel)));
  g_maps : list (icell (gmap string (option personLabel)));
  g_tree : rootNode gvalue callback
}.
Abbreviation GM := (M (world gmem)).

#[export] Instance person_cells : HasCells Person gmem.
Proof.
  refine {| cells := g_person; put_cells l m := GMem l (g_people m) (g_labels m) (g_keys m) (g_maps m) (g_tree m) |};
    by repeat intros [].
Defined.
#[export] Instance people_cells : HasCells People gmem.
Proof.
  refine {| cells := g_people; put_cells l m := GMem (g_person m) l (g_labels m) (g_keys m) (g_maps m) (g_tree m) |};
    by repeat intros [].
Defined.
#[export] Instance label_cells : HasCells (list (option personLabel)) gmem.
Proof.
  refine {| cells := g_labels; put_cells l m := GMem (g_person m) (g_people m) l (g_keys m) (g_maps m) (g_tree m) |};
    by repeat intros [].
Defined.
#[export] Instance key_cells : HasCells (list (entryKey personLabel)) gmem.
Proof.
  refine {| cells := g_keys; put_cells l m := GMem (g_person m) (g_people m) (g_labels m) l (g_maps m) (g_tree m) |};
    by repeat intros [].
Defined.
#[export] Instance map_cells : HasCells (gmap string (option personLabel)) gmem.
Proof.
  refine {| cells := g_maps; put_cells l m := GMem (g_person m) (g_people m) (g_labels m) (g_keys m) l (g_tree m) |};
    by repeat intros [].
Defined.
#[export] Instance tree_root : HasRoot gvalue callback (world gmem).
Proof.
  refine {| root w := g_tree (w_ext w);
            put_root r w := let m := w_ext w in
              World (w_js w) (GMem (g_person m) (g_people m) (g_labels m) (g_keys m) (g_maps m) r) |};
    by repeat intros [? []] || intros.
Defined.

(** ** model *)
Definition Name (p : ptr) : GM string := c ← imm_deref p; mret (_Name (payload c)).
Definition Age (p : ptr) : GM Z := c ← imm_deref p; mret (_Age (payload c)).
Definition SetName (p : ptr) (n : string) : GM ptr := imm_update p (λ s, Ok (MkPerson n (_Age s))).
Definition SetAge (p : ptr) (n : Z) : GM ptr := imm_update p (λ s, Ok (MkPerson (_Name s) n)).
Definition NewPerson (name : string) (age : Z) : GM ptr :=
  s ← imm_new (ICell (MkPerson "" 0) false);
  struct_WithMutable (P := Person) s (λ p, _ ← SetName p name; _ ← SetAge p age; mret tt).
Definition NewPeople (s : list ptr) : GM ptr := slice_New s.

(** ** state: the leaves of [NewRoot], by their paths *)
Definition newApp_prefix : string := Filepath.Join [""; "App"].
Definition newData_prefix : string := Filepath.Join [newApp_prefix; "Data"].
Definition CurrentPerson : string := Filepath.Join [newApp_prefix; "ModelPersonPLeaf"].
Definition Root_People : string := Filepath.Join [newData_prefix; "ModelPeoplePLeaf"].

Definition value_eqb (a b : gvalue) : res bool := Ok (bool_decide (a = b)).
Definition as_person (v : gvalue) : res ptr := match v with VPerson p => Ok p | _ => Panic TypeAssertion end.
Definition as_people (v : gvalue) : res ptr := match v with VPeople p => Ok p | _ => Panic TypeAssertion end.
Definition PersonLeaf_Get (k : string) : GM ptr := v ← leaf_Get (VPerson None) k; mlift (as_person v).
Definition PeopleLeaf_Get (k : string) : GM ptr := v ← leaf_Get (VPeople None) k; mlift (as_people v).
Definition Subscribe (k : string) (cb : callback) : GM nat := on_root (subscribe k cb).
Definition Sub_Clear (s : option nat) : GM unit :=
  match s with Some s => on_root (Clear s) | None => mpanic NilDeref end.

(** ** Generated proxies *)
Definition as_SApp (s : gstate) : res bool := match s with SApp b => Ok b | _ => Panic TypeAssertion end.
Definition as_SChooser (s : gstate) : res PersonChooserState :=
  match s with SChooser s => Ok s | _ => Panic TypeAssertion end.
Definition as_SViewer (s : gstate) : res PersonViewerState :=
  match s with SViewer s => Ok s | _ => Panic TypeAssertion end.
Definition as_PChooser (p : gprops) : res PersonChooserProps :=
  match p with PChooser p => Ok p | _ => Panic TypeAssertion end.

Definition App_State (a : AppDef) : GM bool := s ← ComponentDef_State (app_def a); mlift (as_SApp s).
Definition App_SetState (a : AppDef) (b : bool) : GM unit := ComponentDef_SetState (app_def a) (SApp b).
Definition Chooser_State (p : PersonChooserDef) : GM PersonChooserState :=
  s ← ComponentDef_State (chooser_def p); mlift (as_SChooser s).
Definition Chooser_SetState (p : PersonChooserDef) (s : PersonChooserState) : GM unit :=
  ComponentDef_SetState (chooser_def p) (SChooser s).
Definition Chooser_Props (p : PersonChooserDef) : GM PersonChooserProps :=
  ps ← ComponentDef_Props (chooser_def p); mlift (as_PChooser ps).
Definition Viewer_State (p : PersonViewerDef) : GM PersonViewerState :=
  s ← ComponentDef_State (viewer_def p); mlift (as_SViewer s).
Definition Viewer_SetState (p : PersonViewerDef) (s : PersonViewerState) : GM unit :=
  ComponentDef_SetState (viewer_def p) (SViewer s).

(** A method of the [PersonState] of the props. *)
Definition on_state {A} (k : option string) (f : string → GM A) : GM A :=
  match k with Some k => f k | None => mpanic NilDeref end.

(** ** Callbacks *)
Definition personStateChanged (p : PersonChooserDef) : GM unit :=
  s ← Chooser_State p;
  props ← Chooser_Props p;
  c ← on_state (PersonState props) PersonLeaf_Get;
  Chooser_SetState p (MkChooserState c (currPersonSub s)).
Definition currPersonUpdated (p : PersonViewerDef) : GM unit :=
  st ← Viewer_State p;
  c ← PersonLeaf_Get CurrentPerson;
  Viewer_SetState p (MkViewerState c (curPersSub st)).
Definition run_callback (c : callback) : GM unit :=
  match c with
  | personStateChanged_cb p => personStateChanged p
  | currPersonUpdated_cb p => currPersonUpdated p
  end.

(** ** The components *)
Section Site.
Context (range_set : gset nat → list nat).
(** [sort.Sort], called with [Len], [Less] and [Swap]. *)
Context (sort_Sort : GM Z → (Z → Z → GM bool) → (Z → Z → GM unit) → GM unit).

Definition PersonLeaf_Set (k : string) (v : ptr) : GM unit :=
  leaf_Set value_eqb range_set run_callback k (VPerson v).
Definition PeopleLeaf_Set (k : string) (v : ptr) : GM unit :=
  leaf_Set value_eqb range_set run_callback k (VPeople v).

(** [personLabel] and [personSelected], as [Select] uses them. *)
Definition personLabel_Label (l : personLabel) : GM string :=
  match label_Person l with
  | None => mret ""
  | p => Name p
  end.
Definition personSelected_OnSelect (o : selected) (l : option personLabel) : GM unit :=
  let '(personSelected p) := o in
  pl ← mlift (of_option TypeAssertion l);
  s ← Chooser_State p;
  _ ← Chooser_SetState p (MkChooserState (label_Person pl) (currPersonSub s));
  props ← Chooser_Props p;
  on_state (PersonState props) (λ k, PersonLeaf_Set k (label_Person pl)).

#[export] Instance site_select : SelectProgram gvalues gmem personLabel ptr selected := {|
  select_props := PSelect;
  as_select_props p := match p with PSelect p => Some p | _ => None end;
  select_state := SSelect;
  as_select_state s := match s with SSelect s => Some s | _ => None end;
  changeEntry := selectChange;
  Label := personLabel_Label;
  Range es := r ← slice_Range (A := option personLabel) es; slice_elems (A := option personLabel) r;
  OnSelect := personSelected_OnSelect;
|}.

(** [person_viewer.go] *)
Definition Viewer_ComponentWillMount (p : PersonViewerDef) : GM unit :=
  sub ← Subscribe CurrentPerson (currPersonUpdated_cb p);
  c ← PersonLeaf_Get CurrentPerson;
  Viewer_SetState p (MkViewerState c (Some sub)).
Definition Viewer_ComponentWillUnmount (p : PersonViewerDef) : GM unit :=
  s ← Viewer_State p;
  Sub_Clear (curPersSub s).
Definition Viewer_Render (p : PersonViewerDef) : GM Element :=
  st ← Viewer_State p;
  match viewer_p st with
  | Some _ =>
      n ← Name (viewer_p st);
      a ← Age (viewer_p st);
      mret (El.P None [ES ("You have selected " +:+ n +:+ ", age " +:+ pretty a)])
  | None => mret (El.P None [ES "(no person selected)"])
  end.
Definition buildPersonViewer (cd : ComponentDef) : Component gmem :=
  let p := {| viewer_def := cd |} in {|
  cmp_type := RType "PersonViewerDef" "main";
  RendersElement := Viewer_Render p;
  ComponentWillMount := Some (Viewer_ComponentWillMount p);
  ComponentDidMount := None;
  ComponentWillReceivePropsIntf := None;
  GetInitialStateIntf := Some (mret (SViewer (MkViewerState None None)));
  ComponentWillUnmount := Some (Viewer_ComponentWillUnmount p);
|}.
Definition PersonViewer : GM Element := CreateElement buildPersonViewer None [].

(** [gen_person_chooser_sortGen.go] *)
Definition orderPeopleKeysByName (ppl : ptr) (i j : Z) : GM bool :=
  lhs ← slice_Get ppl i;
  rhs ← slice_Get ppl j;
  a ← Name lhs;
  b ← Name rhs;
  mret (String.ltb a b).
Definition swap_people (theVs : ptr) (i j : Z) : GM unit :=
  jPrev ← slice_Get (A := ptr) theVs j;
  iPrev ← slice_Get (A := ptr) theVs i;
  _ ← slice_Set theVs j iPrev;
  _ ← slice_Set theVs i jPrev;
  mret tt.
Definition sortPeopleKeysByName (vs : ptr) : GM ptr :=
  theVs ← AsMutable (P := People) vs;
  _ ← sort_Sort (slice_Len (A := ptr) theVs) (orderPeopleKeysByName theVs) (swap_people theVs);
  AsImmutable (P := People) theVs vs.

(** The other generated function, over [sort.Stable]; nothing calls it. *)
Definition stableSortPeopleKeysByName
    (sort_Stable : GM Z → (Z → Z → GM bool) → (Z → Z → GM unit) → GM unit) (vs : ptr) : GM ptr :=
  theVs ← AsMutable (P := People) vs;
  _ ← sort_Stable (slice_Len (A := ptr) theVs) (orderPeopleKeysByName theVs) (swap_people theVs);
  AsImmutable (P := People) theVs vs.

(** [person_chooser.go] *)
Definition Chooser_ComponentWillMount (p : PersonChooserDef) : GM unit :=
  props ← Chooser_Props p;
  sub ← on_state (PersonState props) (λ k, Subscribe k (personStateChanged_cb p));
  st ← Chooser_State p;
  let st := MkChooserState (currPerson st) (Some sub) in
  props ← Chooser_Props p;
  c ← on_state (PersonState props) PersonLeaf_Get;
  Chooser_SetState p (MkChooserState c (currPersonSub st)).
Definition Chooser_ComponentWillUnmount (p : PersonChooserDef) : GM unit :=
  s ← Chooser_State p;
  Sub_Clear (currPersonSub s).
Definition Chooser_Render (p : PersonChooserDef) : GM Element :=
  people ← PeopleLeaf_Get Root_People;
  ppl ← sortPeopleKeysByName people;
  r ← slice_Range (A := ptr) ppl;
  vs ← slice_elems (A := ptr) r;
  let ps := Some (MkLabel None) :: map (λ v, Some (MkLabel v)) vs in
  s ← Chooser_State p;
  es ← slice_New ps;
  Select (MkSelectProps (Some (MkLabel (currPerson s))) (Some es) (Some (personSelected p))).
Definition buildPersonChooser (cd : ComponentDef) : Component gmem :=
  let p := {| chooser_def := cd |} in {|
  cmp_type := RType "PersonChooserDef" "main";
  RendersElement := Chooser_Render p;
  ComponentWillMount := Some (Chooser_ComponentWillMount p);
  ComponentDidMount := None;
  ComponentWillReceivePropsIntf := None;
  GetInitialStateIntf := Some (mret (SChooser (MkChooserState None None)));
  ComponentWillUnmount := Some (Chooser_ComponentWillUnmount p);
|}.
Definition PersonChooser (props : PersonChooserProps) : GM Element :=
  CreateElement buildPersonChooser (Some (PChooser props)) [].

(** [app.go].  [showHide] and [viewer] are the last children of the [Div]; a nil
    [viewer] is [null] to React, which draws nothing for it, and is left out. *)
Definition hide_button (a : AppDef) (b : bool) (text : string) : Element :=
  El.Button (Some (El.Button_on_html (El.with_OnClick (Some (hideClick a b))) El.Button_zero)) [ES text].
Definition App_Render (a : AppDef) : GM Element :=
  hideViewer ← App_State a;
  '(viewer, showHide) ← (
    if hideViewer : bool then mret ([], hide_button a false "Show viewer")
    else v ← PersonViewer;
         mret ([El.Div None [El.H3 None [ES "Person Viewer"]; v]], hide_button a true "Hide viewer"));
  c ← PersonChooser (MkChooserProps (Some CurrentPerson));
  mret (El.Div (Some (El.with_ClassName "container" El.html_zero))
    ([El.H3 None [ES "Person Chooser"]; c; El.Hr None; showHide] ++ viewer)).
Definition hideClick_OnClick (a : AppDef) (showHide : bool) : GM unit := App_SetState a showHide.
Definition buildApp (cd : ComponentDef) : Component gmem :=
  let a := {| app_def := cd |} in {|
  cmp_type := RType "AppDef" "main";
  RendersElement := App_Render a;
  ComponentWillMount := None;
  ComponentDidMount := None;
  ComponentWillReceivePropsIntf := None;
  GetInitialStateIntf := Some (mret (SApp false));
  ComponentWillUnmount := None;
|}.
Definition App : GM Element := CreateElement buildApp None [].

(** [main.go]; [query] as in the client. *)
Definition main (query : option (string → string)) : GM Element :=
  match query with
  | None => mpanic (PanicMsg "url.Parse")
  | Some get =>
      let elems := if bool_decide (get "hideGithubRibbon" ≠ "true") then
          [El.A (Some (El.A_with_Target "_blank"
                  (El.A_with_Href "https://github.com/myitcv/react/blob/master/examples/sites/globalstate/main.go"
                    (El.A_with_Title "Source on GitHub"
                      (El.A_on_html (El.with_ClassName "github-fork-ribbon right-top") El.A_zero)))))
             [ES "Source on GitHub"]]
        else [] in
      a ← App;
      p1 ← NewPerson "Peter" 50;
      p2 ← NewPerson "Paul" 51;
      p3 ← NewPerson "Mary" 52;
      ppl ← NewPeople [p1; p2; p3];
      _ ← PeopleLeaf_Set Root_People ppl;
      mret (El.Div None (elems ++ [a]))
  end.
End Site.
