(* ===== verification/GlobalRun.v ===== *)
(** * Calling the components of the globalstate site

    React's calls into the components of [GlobalState], in the order its documentation
    gives them: mounting, what the user does, and the re-renders it asked for.  Then what
    the callbacks and the proxies do to the state objects, the stores and the tree. *)

From stdpp Require Import pretty sorting.
From S2P Require Import Prelude GoLib GoGenerate StateTree React Elements Immutable Mount ImmSelect GlobalState.

#[local] Opaque CurrentPerson Root_People.

(** What the user does: choose an option of the select box, click the button. *)
Inductive site_event := Choose (value : string) | Toggle (showHide : bool).

(** The instances on the page. *)
Record site := Site { l_app : loc; l_chooser : loc; l_select : loc; l_viewer : option loc }.

(** The props of the component elements in what [App] renders: of the chooser, and of the
    viewer if it is there. *)
Definition app_children (e : Element) : res (jsval * option jsval) :=
  match e with
  | Elem _ _ [_; Elem (ClassT _) cp _; _; _] => Ok (cp, None)
  | Elem _ _ [_; Elem (ClassT _) cp _; _; _; Elem _ _ [_; Elem (ClassT _) vp _]] => Ok (cp, Some vp)
  | _ => Panic (PanicMsg "unexpected element")
  end.
Definition component_props (e : Element) : res jsval :=
  match e with
  | Elem (ClassT _) props _ => Ok props
  | _ => Panic (PanicMsg "unexpected element")
  end.

Abbreviation app_at l := {| app_def := mk_def l |}.
Abbreviation chooser_at l := {| chooser_def := mk_def l |}.
Abbreviation viewer_at l := {| viewer_def := mk_def l |}.
Abbreviation select_at l := {| select_def := mk_def l |}.

Section Run.
Context (range_set : gset nat → list nat).
Context (sort_Sort : GM Z → (Z → Z → GM bool) → (Z → Z → GM unit) → GM unit).
Let SP := site_select range_set.
#[local] Existing Instance SP.

#[local] Abbreviation app_render := (App_Render range_set sort_Sort).
#[local] Abbreviation chooser_render := (Chooser_Render range_set sort_Sort).
#[local] Abbreviation build_app := (buildApp range_set sort_Sort).
#[local] Abbreviation build_chooser := (buildPersonChooser range_set sort_Sort).

Definition mount_site (query : option (string → string)) : GM site :=
  _ ← main range_set sort_Sort query;
  a ← mount_instance build_app (JObject []);
  e ← app_render (app_at a);
  '(cp, vp) ← mlift (app_children e);
  c ← mount_instance build_chooser cp;
  ce ← chooser_render (chooser_at c);
  sp ← mlift (component_props ce);
  s ← mount_instance buildSelect sp;
  v ← match vp with
      | Some vp => v ← mount_instance buildPersonViewer vp; mret (Some v)
      | None => mret None
      end;
  mret (Site a c s v).

Definition rerender_chooser (L : site) : GM unit :=
  ce ← chooser_render (chooser_at (l_chooser L));
  sp ← mlift (component_props ce);
  _ ← update_instance buildSelect (l_select L) sp;
  mret tt.

(** [App] rendered again: the chooser gets its props, the viewer appears or goes. *)
Definition rerender_app (L : site) : GM site :=
  e ← app_render (app_at (l_app L));
  '(cp, vp) ← mlift (app_children e);
  b ← update_instance build_chooser (l_chooser L) cp;
  _ ← (if b : bool then rerender_chooser L else mret tt);
  match vp, l_viewer L with
  | Some vp, None =>
      v ← mount_instance buildPersonViewer vp;
      mret (Site (l_app L) (l_chooser L) (l_select L) (Some v))
  | None, Some v =>
      _ ← unmount_instance buildPersonViewer v;
      mret (Site (l_app L) (l_chooser L) (l_select L) None)
  | Some vp, Some v => _ ← update_instance buildPersonViewer v vp; mret L
  | None, None => mret L
  end.

Definition handle_event (L : site) (ev : site_event) : GM unit :=
  match ev with
  | Choose v => changeEntry_OnChange (select_at (l_select L)) v
  | Toggle b => hideClick_OnClick (app_at (l_app L)) b
  end.

(** An event, and then the re-renders it asked for, from the top. *)
Definition site_step (L : site) (ev : site_event) : GM site :=
  before ← get_js;
  _ ← handle_event L ev;
  after ← get_js;
  let upd := drop (length (updates before)) (updates after) in
  L ← (if bool_decide (l_app L ∈ upd) then rerender_app L else mret L);
  _ ← (if bool_decide (l_chooser L ∈ upd) then rerender_chooser L else mret tt);
  mret L.

(** What is on the page: the select box and, if it is there, the viewer. *)
Definition draw (L : site) : GM (Element * option Element) :=
  s ← Select_Render (select_at (l_select L));
  v ← match l_viewer L with
      | Some v => e ← Viewer_Render (viewer_at v); mret (Some e)
      | None => mret None
      end;
  mret (s, v).
End Run.

(** ** Assumptions *)

(** [sort.Sort] leaves the elements sorted.  The world is given as a function of what is
    sorted; [Len], [Less] and [Swap] work on it as they are meant to as long as it is a
    permutation of what there was, and [lt] is a strict weak order. *)
Definition sort_ok (sort_Sort : GM Z → (Z → Z → GM bool) → (Z → Z → GM unit) → GM unit) : Prop :=
  ∀ (R : list ptr → world gmem) (lt : ptr → ptr → bool) Len Less Swap l,
  (∀ x y, lt x y = true → lt y x = false) →
  (∀ x y z, lt y x = false → lt z y = false → lt z x = false) →
  (∀ l', l' ≡ₚ l → Len (R l') = Ok (Z.of_nat (length l'), R l')) →
  (∀ l' i j x y, l' ≡ₚ l → l' !! i = Some x → l' !! j = Some y →
     Less (Z.of_nat i) (Z.of_nat j) (R l') = Ok (lt x y, R l')) →
  (∀ l' i j x y, l' ≡ₚ l → l' !! i = Some x → l' !! j = Some y →
     Swap (Z.of_nat i) (Z.of_nat j) (R l') = Ok (tt, R (<[i := y]> (<[j := x]> l')))) →
  ∃ l', sort_Sort Len Less Swap (R l) = Ok (tt, R l') ∧ l' ≡ₚ l ∧ Sorted (λ x y, lt y x = false) l'.

(** ** People *)
Implicit Types (w : world gmem) (m : gmem) (L : site).

Definition name_of m (p : ptr) : string :=
  match p with
  | Some b => match g_person m !! b with Some c => _Name (payload c) | None => "" end
  | None => ""
  end.
(** [v] is a person that will not change. *)
Definition is_person m (v : ptr) : Prop := ∃ b p, v = Some b ∧ g_person m !! b = Some (ICell p false).

Definition by_name m (x y : ptr) : bool := String.ltb (name_of m x) (name_of m y).
Definition sorted_people m (us : list ptr) : Prop := Sorted (λ x y, by_name m y x = false) us.

Lemma str_ltb_le a b : String.ltb b a = false ↔ Sort.le a b.
Proof.
  unfold String.ltb, Sort.le, String.leb. rewrite (String.compare_antisym b a).
  by destruct (String.compare a b).
Qed.
Lemma by_name_total m x y : by_name m x y = true → by_name m y x = false.
Proof.
  unfold by_name, String.ltb. rewrite (String.compare_antisym (name_of m x) (name_of m y)).
  by destruct (String.compare _ _).
Qed.
Lemma by_name_trans m x y z : by_name m y x = false → by_name m z y = false → by_name m z x = false.
Proof. unfold by_name. rewrite !str_ltb_le. apply Sort.le_trans. Qed.

Lemma sorted_names m us : sorted_people m us → Sorted Sort.le (map (name_of m) us).
Proof.
  intros Hs. induction Hs as [|u us _ IH Hh]; [constructor|]. cbn. constructor; [done|].
  destruct Hh as [|u' us Hu]; cbn; constructor. by apply str_ltb_le.
Qed.
(** The names in order do not depend on how people of one name are put. *)
Lemma sorted_names_unique m us us' :
  us ≡ₚ us' → sorted_people m us → sorted_people m us' → map (name_of m) us = map (name_of m) us'.
Proof.
  intros Hp Hs Hs'. pose proof Sort.le_trans. pose proof Sort.le_antisym.
  apply (Sorted_unique Sort.le); [by apply sorted_names..|]. by apply Permutation_map.
Qed.

Lemma Name_run w v : is_person (w_ext w) v → Name v w = Ok (name_of (w_ext w) v, w).
Proof.
  intros (b & p & -> & Hb). unfold Name. mstep (deref_run (P := Person) w b _ Hb). cbn. by rewrite Hb.
Qed.

(** Sorting copies the people and leaves them as they are. *)
Section Sorting.
Context (sort_Sort : GM Z → (Z → Z → GM bool) → (Z → Z → GM unit) → GM unit).
Hypothesis Hsort : sort_ok sort_Sort.

(** [w] with another slice of people at the end of the store. *)
Definition with_people w (c : icell People) : world gmem := put_cells (g_people (w_ext w) ++ [c]) w.

Lemma get_people w l mut i x :
  l !! i = Some x →
  slice_Get (A := ptr) (Some (length (g_people (w_ext w)))) (Z.of_nat i) (with_people w (ICell l mut)) =
  Ok (x, with_people w (ICell l mut)).
Proof.
  intros Hx. unfold slice_Get. erewrite M_bind_run by (apply deref_run, lookup_last). cbn [payload].
  apply mlift_run. by apply go_index_nat.
Qed.
Lemma set_people w l i x :
  i < length l →
  slice_Set (Some (length (g_people (w_ext w)))) (Z.of_nat i) x (with_people w (ICell l true)) =
  Ok (Some (length (g_people (w_ext w))), with_people w (ICell (<[i := x]> l) true)).
Proof.
  intros Hi. unfold slice_Set. rewrite (update_run _ _ (ICell l true)) by apply lookup_last.
  assert (go_update l (Z.of_nat i) x = Ok (<[i := x]> l)) as Hu.
  { apply go_update_Ok. rewrite Nat2Z.id. split; [lia|done]. }
  cbn [payload mutable]. rewrite Hu. cbn. unfold with_people. cbn. by rewrite insert_last.
Qed.

Lemma sort_run w a vs :
  frozen w a vs → Forall (is_person (w_ext w)) vs →
  ∃ us, sortPeopleKeysByName sort_Sort (Some a) w =
      Ok (Some (length (g_people (w_ext w))), with_people w (ICell us false)) ∧
    us ≡ₚ vs ∧ sorted_people (w_ext w) us.
Proof.
  intros Ha Hvs. unfold sortPeopleKeysByName. set (n := length (g_people (w_ext w))).
  rewrite (M_bind_run _ _ _ (Some n) (with_people w (ICell vs true)))
    by (by rewrite (AsMutable_run (P := People) w a (ICell vs false) Ha)).
  destruct (Hsort (λ l, with_people w (ICell l true)) (by_name (w_ext w))
    (slice_Len (A := ptr) (Some n)) (orderPeopleKeysByName (Some n)) (swap_people (Some n)) vs)
    as (us & Hrun & Hp & Hs).
  - apply by_name_total.
  - apply by_name_trans.
  - intros l' _. unfold slice_Len. by erewrite M_bind_run by (apply deref_run, lookup_last).
  - intros l' i j x y Hl Hx Hy. unfold orderPeopleKeysByName. mstep (get_people w l' true i x Hx).
    mstep (get_people w l' true j y Hy).
    assert (∀ v, v ∈ l' → is_person (w_ext w) v) as Hin.
    { intros v Hv. eapply list.Forall_forall; [exact Hvs|]. by rewrite <-Hl. }
    mstep (Name_run (with_people w (ICell l' true)) x ltac:(apply Hin; by eapply list_elem_of_lookup_2)).
    by mstep (Name_run (with_people w (ICell l' true)) y ltac:(apply Hin; by eapply list_elem_of_lookup_2)).
  - intros l' i j x y Hl Hx Hy. unfold swap_people. mstep (get_people w l' true j y Hy).
    mstep (get_people w l' true i x Hx).
    mstep (set_people w l' j x ltac:(by eapply lookup_lt_Some)).
    by mstep (set_people w (<[j := x]> l') i y ltac:(rewrite length_insert; by eapply lookup_lt_Some)).
  - exists us. split; [|done]. mstep Hrun.
    rewrite (AsImmutable_run (P := People) _ n (ICell us true)) by apply lookup_last.
    rewrite bool_decide_eq_false_2.
    + unfold with_people. cbn. unfold n. by rewrite insert_last.
    + intros [= ->]. apply lookup_lt_Some in Ha. cbn in Ha. unfold n in Ha. lia.
Qed.
End Sorting.

(** ** A running page *)
Definition labels_of (us : list ptr) : list (option personLabel) :=
  Some (MkLabel None) :: map (λ v, Some (MkLabel v)) us.

(** The state objects of the instances, and the two subscriptions. *)
Record ids := Ids { i_app : loc; i_chooser : loc; i_select : loc; i_viewer : loc; s_chooser : nat; s_viewer : nat }.

Definition chooser_sub (c : loc) : Sub callback := MkSub CurrentPerson (personStateChanged_cb (chooser_at c)).
Definition viewer_sub (v : loc) : Sub callback := MkSub CurrentPerson (currPersonUpdated_cb (viewer_at v)).
Definition live_subs L (I : ids) : gmap nat (Sub callback) :=
  match l_viewer L with
  | Some v => <[s_viewer I := viewer_sub v]> {[s_chooser I := chooser_sub (l_chooser L)]}
  | None => {[s_chooser I := chooser_sub (l_chooser L)]}
  end.

(** The tree holds the current person and the people, and has the live subscriptions. *)
Record tree_ok w L (I : ids) (a : nat) (cur : ptr) (t : tree) : Prop := {
  tr_impl : implements (root w) t;
  tr_live : live t = live_subs L I;
  tr_sep : is_Some (l_viewer L) → s_chooser I ≠ s_viewer I;
  tr_cur : default (VPerson None) (values t !! CurrentPerson) = VPerson cur;
  tr_people : values t !! Root_People = Some (VPeople (Some a));
}.

(** The chooser and the viewer hold [cur] and [vcur]. *)
Record people_shown w L (I : ids) (cur vcur : ptr) : Prop := {
  sh_chooser : inst (w_js w) (l_chooser L) (i_chooser I) (SChooser (MkChooserState cur (Some (s_chooser I))));
  sh_props : has_props (w_js w) (l_chooser L) (PChooser (MkChooserProps (Some CurrentPerson)));
  sh_viewer : ∀ v, l_viewer L = Some v →
    inst (w_js w) v (i_viewer I) (SViewer (MkViewerState vcur (Some (s_viewer I))));
}.

(** The state object of the viewer, if it is on the page. *)
Definition viewer_state L (I : ids) : gset loc :=
  match l_viewer L with Some _ => {[i_viewer I]} | None => ∅ end.

(** ** The tree *)
Lemma leaf_get_run w t k zero :
  implements (root w) t → leaf_Get zero k w = Ok (default zero (values t !! k), w).
Proof.
  intros Ht. unfold leaf_Get, on_root, get, mget, mbind, M_bind. cbn [mbind res_bind].
  rewrite (imp_values _ _ Ht). unfold mret, M_ret. cbn. destruct w as [j []]. done.
Qed.
Lemma PersonLeaf_Get_run w t p :
  implements (root w) t → default (VPerson None) (values t !! CurrentPerson) = VPerson p →
  PersonLeaf_Get CurrentPerson w = Ok (p, w).
Proof. intros Ht Hp. unfold PersonLeaf_Get. mstep (leaf_get_run w t CurrentPerson (VPerson None) Ht). by rewrite Hp. Qed.
Lemma PeopleLeaf_Get_run w t a :
  implements (root w) t → values t !! Root_People = Some (VPeople (Some a)) →
  PeopleLeaf_Get Root_People w = Ok (Some a, w).
Proof. intros Ht Hp. unfold PeopleLeaf_Get. mstep (leaf_get_run w t Root_People (VPeople None) Ht). by rewrite Hp. Qed.

(** ** Proxies *)
Lemma PersonChooser_State_run w c i s :
  inst (w_js w) c i (SChooser s) → Chooser_State (chooser_at c) w = Ok (s, w).
Proof. intros Hi. unfold Chooser_State. cbn [chooser_def]. by mstep (State_inst _ _ _ _ Hi). Qed.
Lemma Viewer_State_run w v i s :
  inst (w_js w) v i (SViewer s) → Viewer_State (viewer_at v) w = Ok (s, w).
Proof. intros Hi. unfold Viewer_State. cbn [viewer_def]. by mstep (State_inst _ _ _ _ Hi). Qed.
Lemma PersonChooser_Props_run w c p :
  has_props (w_js w) c (PChooser p) → Chooser_Props (chooser_at c) w = Ok (p, w).
Proof. intros Hp. unfold Chooser_Props. cbn [chooser_def]. by mstep (Props_has_props _ _ _ Hp). Qed.

Lemma state_eq_sound (s s' : gstate) b : state_EqualsIntf s s' = Ok b → b = true → s = s'.
Proof. destruct s, s'; cbn; try done; intros [= <-]; intros ?%bool_decide_eq_true; by subst. Qed.

(** Storing a state of the same component. *)
Lemma set_state_run w this i (s new : gstate) b :
  inst (w_js w) this i s → state_EqualsIntf new s = Ok b →
  ∃ j', ComponentDef_SetState (mk_def this) new w = Ok (tt, World j' (w_ext w)) ∧
    inst j' this i new ∧ evolves {[i]} ∅ (w_js w) j' ∧
    updates j' = updates (w_js w) ++ (if b then [] else [this]).
Proof.
  intros Hi Heq. destruct (SetState_evolves w this i s new b Hi Heq (state_eq_sound _ _ _ Heq))
    as (j' & Hr & Hi' & Hev & Hu & _). by exists j'.
Qed.

(** ** Callbacks *)
Lemma chooser_callback_run w L I a cur vcur t :
  people_shown w L I cur vcur → tree_ok w L I a cur t →
  personStateChanged (chooser_at (l_chooser L)) w = Ok (tt, w).
Proof.
  intros [Hc Hp _] [Ht _ _ Hcur _]. unfold personStateChanged.
  mstep (PersonChooser_State_run _ _ _ _ Hc). mstep (PersonChooser_Props_run _ _ _ Hp). cbn [PersonState on_state].
  mstep (PersonLeaf_Get_run _ _ _ Ht Hcur). unfold Chooser_SetState. cbn [chooser_def currPersonSub].
  apply (SetState_equal _ _ _ _ _ Hc). cbn. by rewrite bool_decide_eq_true_2.
Qed.
Lemma viewer_callback_run w L I a cur vcur t v :
  l_viewer L = Some v → people_shown w L I cur vcur → tree_ok w L I a cur t →
  ∃ j', currPersonUpdated (viewer_at v) w = Ok (tt, World j' (w_ext w)) ∧
    people_shown (World j' (w_ext w)) L I cur cur ∧ evolves {[i_viewer I]} ∅ (w_js w) j'.
Proof.
  intros Hv [Hc Hp Hvw] [Ht _ _ Hcur _]. specialize (Hvw v Hv). unfold currPersonUpdated.
  mstep (Viewer_State_run _ _ _ _ Hvw). mstep (PersonLeaf_Get_run _ _ _ Ht Hcur).
  unfold Viewer_SetState. cbn [viewer_def curPersSub].
  destruct (set_state_run w v (i_viewer I) _ (SViewer (MkViewerState cur (Some (s_viewer I)))) _ Hvw eq_refl)
    as (j' & Hr & Hi' & Hev & _).
  exists j'. split; [exact Hr|]. split; [|exact Hev]. split; cbn [w_js].
  - eapply ev_inst; [exact Hev| |exact Hc]. apply not_elem_of_singleton. intros Hi.
    rewrite Hi in Hc. by pose proof (inst_state_fun _ _ _ _ _ _ Hc Hvw).
  - eapply ev_props; [exact Hev|apply not_elem_of_empty|exact Hp].
  - intros v' Hv'. assert (v' = v) as -> by congruence. exact Hi'.
Qed.

Lemma run_subs_run w L I a cur vcur t l :
  (∀ s, s ∈ l → is_Some (live_subs L I !! s)) →
  people_shown w L I cur vcur → tree_ok w L I a cur t →
  ∃ j', run_subs run_callback l w = Ok (tt, World j' (w_ext w)) ∧
    people_shown (World j' (w_ext w)) L I cur (if decide (s_viewer I ∈ l) then cur else vcur) ∧
    evolves (viewer_state L I) ∅ (w_js w) j'.
Proof.
  revert w vcur. induction l as [|s l IH]; intros w vcur Hl Hsh Htr; cbn [run_subs].
  { exists (w_js w). destruct w. rewrite decide_False by (by intros ?%elem_of_nil).
    split; [done|]. split; [done|apply evolves_refl]. }
  destruct (Hl s ltac:(by left)) as [o Ho].
  assert (all_subs (root w) !! s = Some o) as Hall.
  { apply (imp_subs _ _ (tr_impl _ _ _ _ _ _ Htr)). by rewrite (tr_live _ _ _ _ _ _ Htr). }
  rewrite (M_bind_run _ _ _ o w) by (by rewrite Hall).
  assert (∃ j1, run_callback (sub_cb o) w = Ok (tt, World j1 (w_ext w)) ∧
    people_shown (World j1 (w_ext w)) L I cur (if decide (s_viewer I = s) then cur else vcur) ∧
    evolves (viewer_state L I) ∅ (w_js w) j1) as (j1 & H1 & Hsh1 & Hev1).
  { unfold live_subs in Ho. pose proof (tr_sep _ _ _ _ _ _ Htr) as Hsep.
    assert (o = chooser_sub (l_chooser L) → s_chooser I = s →
      ∃ j1, run_callback (sub_cb o) w = Ok (tt, World j1 (w_ext w)) ∧
        people_shown (World j1 (w_ext w)) L I cur (if decide (s_viewer I = s) then cur else vcur) ∧
        evolves (viewer_state L I) ∅ (w_js w) j1) as Hchooser.
    { intros -> Hs. exists (w_js w). split; [cbn [run_callback chooser_sub sub_cb]; rewrite (chooser_callback_run w L I a cur vcur t Hsh Htr); by destruct w|].
      split; [|apply evolves_refl]. destruct Hsh as [Hc Hp Hvw]. split; [done|done|]. intros v Hlv.
      rewrite decide_False; [by apply Hvw|]. intros Hs'. apply Hsep; [eauto|congruence]. }
    destruct (l_viewer L) as [v|] eqn:Hv.
    - apply lookup_insert_Some in Ho as [[Hs <-]|[_ [Hs <-]%lookup_singleton_Some]]; [|by apply Hchooser; eauto].
      destruct (viewer_callback_run w L I a cur vcur t v Hv Hsh Htr) as (j1 & H1 & Hsh1 & Hev1).
      exists j1. unfold viewer_state. by rewrite decide_True, Hv.
    - apply lookup_singleton_Some in Ho as [Hs <-]. apply Hchooser; eauto. }
  mstep H1.
  destruct (IH (World j1 (w_ext w)) (if decide (s_viewer I = s) then cur else vcur)) as (j2 & H2 & Hsh2 & Hev2).
  - intros s' Hs'. apply Hl. by right.
  - done.
  - by destruct Htr.
  - exists j2. split; [done|]. split.
    + revert Hsh2. cbn [w_ext]. repeat case_decide; try done; set_solver.
    + eapply evolves_mono; [..|exact (evolves_trans _ _ _ _ _ _ _ Hev1 Hev2)]; [set_solver +|set_solver +].
Qed.

(** ** Setting the current person *)
Definition with_tree (r : rootNode gvalue callback) m : gmem :=
  GMem (g_person m) (g_people m) (g_labels m) (g_keys m) (g_maps m) r.

Lemma CurrentPerson_key : CurrentPerson = key ["App"; "ModelPersonPLeaf"].
Proof. vm_compute. reflexivity. Qed.
Lemma Root_People_key : Root_People = key ["App"; "Data"; "ModelPeoplePLeaf"].
Proof. vm_compute. reflexivity. Qed.
Lemma leaves_apart : CurrentPerson ≠ Root_People.
Proof. vm_compute. discriminate. Qed.
Lemma live_subs_prefix L I s o : live_subs L I !! s = Some o → sub_prefix o = CurrentPerson.
Proof.
  unfold live_subs. destruct (l_viewer L).
  - by intros [[_ <-]|[_ [_ <-]%lookup_singleton_Some]]%lookup_insert_Some.
  - by intros [_ <-]%lookup_singleton_Some.
Qed.
Lemma live_subs_viewer L I v : l_viewer L = Some v → live_subs L I !! s_viewer I = Some (viewer_sub v).
Proof. intros Hv. unfold live_subs. by rewrite Hv, lookup_insert_eq. Qed.

(** A world with other JavaScript objects has the same tree. *)
Lemma tree_ok_ext w w' L I a cur t :
  g_tree (w_ext w') = g_tree (w_ext w) → tree_ok w L I a cur t → tree_ok w' L I a cur t.
Proof. intros Hg []. split; try done. cbn. by rewrite Hg. Qed.
Lemma tree_ok_js w j L I a cur t : tree_ok w L I a cur t → tree_ok (World j (w_ext w)) L I a cur t.
Proof. by apply tree_ok_ext. Qed.
Lemma people_shown_viewer w L I cur vcur vcur' :
  (∀ v, l_viewer L = Some v → vcur = vcur') → people_shown w L I cur vcur → people_shown w L I cur vcur'.
Proof. intros Hv [Hc Hp Hvw]. split; [done|done|]. intros v Hlv. rewrite <-(Hv v Hlv). by apply Hvw. Qed.
(** The chooser and the viewer are as before when others change. *)
Lemma people_shown_evolves X Y w w' L I cur vcur :
  evolves X Y (w_js w) (w_js w') → (i_chooser I ∉ X) → (l_chooser L ∉ Y) → viewer_state L I ## X →
  people_shown w L I cur vcur → people_shown w' L I cur vcur.
Proof.
  intros Hev HX HY Hd [Hc Hp Hvw]. split; [by eapply ev_inst|by eapply ev_props|].
  intros v Hv. eapply ev_inst; [exact Hev| |by apply Hvw]. unfold viewer_state in Hd. rewrite Hv in Hd. set_solver.
Qed.
Lemma people_shown_js w e L I cur vcur : people_shown w L I cur vcur → people_shown (World (w_js w) e) L I cur vcur.
Proof. by intros []. Qed.

Section SetPerson.
Context (range_set : gset nat → list nat).
Hypothesis range_set_ok : ∀ l, range_set l ≡ₚ elements l.

Lemma set_person_run w L I a cur p t :
  people_shown w L I p cur → tree_ok w L I a cur t →
  ∃ j' r' t', PersonLeaf_Set range_set CurrentPerson p w = Ok (tt, World j' (with_tree r' (w_ext w))) ∧
    people_shown (World j' (with_tree r' (w_ext w))) L I p p ∧
    tree_ok (World j' (with_tree r' (w_ext w))) L I a p t' ∧
    evolves (viewer_state L I) ∅ (w_js w) j'.
Proof.
  intros Hsh [Ht Hlive Hsep Hcur Hppl]. unfold PersonLeaf_Set, leaf_Set.
  pose proof (set_run range_set range_set_ok value_eqb run_callback w t ["App"; "ModelPersonPLeaf"] (VPerson p) Ht) as Hset.
  rewrite <-CurrentPerson_key in Hset. specialize (Hset ltac:(done) ltac:(repeat constructor; done)).
  assert (same_value value_eqb (values t) CurrentPerson (VPerson p) = Ok true ∧ cur = p ∨
          same_value value_eqb (values t) CurrentPerson (VPerson p) = Ok false) as [[Hsame ->]|Hsame].
  { unfold same_value, value_eqb. destruct (values t !! CurrentPerson) as [c|]; [|by right].
    case_bool_decide; [left|by right]. subst c. cbn in Hcur. by injection Hcur as ->. }
  all: rewrite Hsame in Hset.
  { exists (w_js w), (root w), t.
    assert (World (w_js w) (with_tree (root w) (w_ext w)) = w) as -> by by destruct w as [? []].
    split; [exact Hset|]. split; [done|]. by split; [|apply evolves_refl]. }
  destruct Hset as (l & Hrun & Himp & _ & Hl). set (w1 := with_value CurrentPerson (VPerson p) w) in *.
  assert (∀ s, s ∈ l ↔ is_Some (live_subs L I !! s)) as Hl'.
  { intros s. rewrite Hl, Hlive. split; [intros (o & Ho & _); eauto|]. intros [o Ho]. exists o. split; [done|].
    rewrite (live_subs_prefix L I s o Ho). exists ["App"; "ModelPersonPLeaf"].
    split; [done|]. split; [done|apply CurrentPerson_key]. }
  assert (tree_ok w1 L I a p (spec_set CurrentPerson (VPerson p) t)) as Htr.
  { split; [exact Himp|exact Hlive|exact Hsep|cbn; by rewrite lookup_insert_eq|].
    cbn. by rewrite lookup_insert_ne by apply leaves_apart. }
  destruct (run_subs_run w1 L I a p cur _ l ltac:(intros s; apply Hl') (people_shown_js w (w_ext w1) _ _ _ _ Hsh) Htr)
    as (j' & H2 & Hsh2 & Hev).
  eexists j', (root w1), (spec_set CurrentPerson (VPerson p) t). rewrite Hrun.
  split; [exact H2|]. split; [|split; [by apply (tree_ok_js w1)|exact Hev]].
  eapply people_shown_viewer; [|exact Hsh2]. intros v Hv. rewrite decide_True; [done|].
  apply Hl'. rewrite (live_subs_viewer L I v Hv). eauto.
Qed.
End SetPerson.
