(* ===== verification/GlobalPage.v ===== *)
(** * The invariant of the globalstate site

    [page] says what the chooser, the viewer, the select box and the tree of a running page
    hold, and which subscriptions are live; every event and every re-render keeps it. *)

From stdpp Require Import pretty sorting.
From S2P Require Import Prelude GoLib GoGenerate StateTree React Elements Immutable Mount ImmSelect GlobalState GlobalRun.

#[local] Opaque CurrentPerson Root_People.

(** The value of the select box: that of an option with the name of the current person, or
    nothing yet. *)
Definition entry_ok m (ss : SelectState) (us : list ptr) (cur : ptr) : Prop :=
  (currEntry ss = "" ∧ cur = None) ∨
  ∃ (n : nat) v, currEntry ss = Itoa (Z.of_nat n) ∧ (None :: us) !! n = Some v ∧ name_of m v = name_of m cur.

Section Page.
(** The people there are, which never change. *)
Context (ppl : list (icell Person)).

Record page w L I (a : nat) (vs us : list ptr) (cur : ptr) (hide : bool) (ss : SelectState) (t : tree) : Prop := {
  pg_wf : heap_wf (w_js w);
  pg_classes : classes_wf (w_js w);
  pg_app : inst (w_js w) (l_app L) (i_app I) (SApp hide);
  pg_shown : people_shown w L I cur cur;
  pg_tree : tree_ok w L I a cur t;
  pg_people : frozen w a vs;
  pg_persons : Forall (is_person (w_ext w)) vs;
  pg_cur : cur = None ∨ cur ∈ vs;
  pg_select : inst (w_js w) (l_select L) (i_select I) (SSelect ss);
  pg_props : ∃ ps, has_props (w_js w) (l_select L) (PSelect ps) ∧
    OnSelect_ ps = Some (personSelected (chooser_at (l_chooser L)));
  pg_tracks : tracks w ss (labels_of us);
  pg_perm : us ≡ₚ vs;
  pg_sorted : sorted_people (w_ext w) us;
  pg_entry : entry_ok (w_ext w) ss us cur;
  pg_store : g_person (w_ext w) = ppl;
}.

(** Components have state objects of their own, since their states have different types. *)
Lemma page_apart w L I a vs us cur hide ss t :
  page w L I a vs us cur hide ss t →
  i_app I ≠ i_chooser I ∧ i_app I ≠ i_select I ∧ i_chooser I ≠ i_select I ∧
  (i_app I ∉ viewer_state L I) ∧ (i_select I ∉ viewer_state L I) ∧ (i_chooser I ∉ viewer_state L I).
Proof.
  intros [_ _ Ha [Hc _ Hv] _ _ _ _ Hs _ _ _ _ _ _].
  assert (∀ t1 t2 i1 i2 s1 s2, inst (w_js w) t1 i1 s1 → inst (w_js w) t2 i2 s2 → s1 ≠ s2 → i1 ≠ i2) as Hne.
  { intros t1 t2 i1 i2 s1 s2 H1 H2 Hs12 ->. by apply Hs12, (inst_state_fun _ _ _ _ _ _ H1 H2). }
  unfold viewer_state. destruct (l_viewer L) as [v|].
  - specialize (Hv v eq_refl). rewrite !not_elem_of_singleton. split_and!; eapply Hne; done.
  - split_and!; try (by eapply Hne); apply not_elem_of_empty.
Qed.

#[export] Instance site_laws range_set :
  SelectLaws gvalues gmem personLabel ptr selected (SP := site_select range_set).
Proof. by repeat split. Qed.

Lemma labels_lookup us n v : (None :: us) !! n = Some v → labels_of us !! n = Some (Some (MkLabel v)).
Proof.
  destruct n as [|n].
  - by intros [= <-].
  - intros Hn. change (us !! n = Some v) in Hn.
    change (((λ v, Some (MkLabel v)) <$> us) !! n = Some (Some (MkLabel v))). by rewrite list_lookup_fmap, Hn.
Qed.

(** Stores of people and of entries, and the names, do not depend on the JavaScript side
    or on the tree. *)
Lemma tracks_ext w w' ss ls :
  g_keys (w_ext w') = g_keys (w_ext w) → g_maps (w_ext w') = g_maps (w_ext w) →
  tracks w ss ls → tracks w' ss ls.
Proof. intros Hk Hm. unfold tracks, frozen. cbn. by rewrite Hk, Hm. Qed.
Lemma name_of_ext m m' p : g_person m' = g_person m → name_of m' p = name_of m p.
Proof. intros H. unfold name_of. by rewrite H. Qed.
Lemma is_person_ext m m' v : g_person m' = g_person m → is_person m v → is_person m' v.
Proof. intros H. unfold is_person. by rewrite H. Qed.
Lemma sorted_people_ext m m' us : g_person m' = g_person m → sorted_people m us → sorted_people m' us.
Proof. intros H. unfold sorted_people, by_name, name_of. by rewrite H. Qed.

Lemma entry_ok_ext m m' ss us cur : g_person m' = g_person m → entry_ok m ss us cur → entry_ok m' ss us cur.
Proof.
  intros H [He|(n & v & Hc & Hn & Hv)]; [by left|]. right. exists n, v. by rewrite !(name_of_ext m m') by done.
Qed.

Section Steps.
Context (range_set : gset nat → list nat).
Hypothesis range_set_ok : ∀ l, range_set l ≡ₚ elements l.
Context (sort_Sort : GM Z → (Z → Z → GM bool) → (Z → Z → GM unit) → GM unit).
Hypothesis Hsort : sort_ok sort_Sort.
Let SP := site_select range_set.
#[local] Existing Instance SP.

(** What [OnSelect] does once the chooser is told. *)
Lemma OnSelect_run w L I a cur v t :
  people_shown w L I cur cur → tree_ok w L I a cur t → (i_chooser I ∉ viewer_state L I) →
  ∃ j' r' t', personSelected_OnSelect range_set (personSelected (chooser_at (l_chooser L))) (Some (MkLabel v)) w =
      Ok (tt, World j' (with_tree r' (w_ext w))) ∧
    people_shown (World j' (with_tree r' (w_ext w))) L I v v ∧
    tree_ok (World j' (with_tree r' (w_ext w))) L I a v t' ∧
    evolves ({[i_chooser I]} ∪ viewer_state L I) ∅ (w_js w) j'.
Proof.
  intros [Hc Hp Hvw] Htr Hap. unfold personSelected_OnSelect. cbn [label_Person].
  mstep (mlift_run (of_option TypeAssertion (Some (MkLabel v))) w (MkLabel v) eq_refl).
  mstep (PersonChooser_State_run _ _ _ _ Hc). unfold Chooser_SetState. cbn [chooser_def currPersonSub label_Person].
  destruct (set_state_run w (l_chooser L) (i_chooser I) _ (SChooser (MkChooserState v (Some (s_chooser I)))) _ Hc eq_refl)
    as (j1 & H1 & Hi1 & Hev1 & _). mstep H1.
  assert (people_shown (World j1 (w_ext w)) L I v cur) as Hsh1.
  { split; [exact Hi1|by eapply ev_props, Hp; [exact Hev1|apply not_elem_of_empty]|].
    intros v' Hv'. eapply ev_inst; [exact Hev1| |by apply Hvw]. unfold viewer_state in Hap. rewrite Hv' in Hap.
    set_solver. }
  mstep (PersonChooser_Props_run (World j1 (w_ext w)) _ _ (sh_props _ _ _ _ _ Hsh1)). cbn [PersonState on_state].
  destruct (set_person_run range_set range_set_ok (World j1 (w_ext w)) L I a cur v t Hsh1 (tree_ok_js _ _ _ _ _ _ _ Htr))
    as (j2 & r2 & t2 & H2 & Hsh2 & Htr2 & Hev2).
  exists j2, r2, t2. split; [exact H2|]. split; [exact Hsh2|]. split; [exact Htr2|].
  eapply evolves_mono; [..|exact (evolves_trans _ _ _ _ _ _ _ Hev1 Hev2)]; [done|set_solver +].
Qed.

(** Choosing the option of a person. *)
Lemma choose_run w L I a vs us cur hide ss t n v :
  page w L I a vs us cur hide ss t → (None :: us) !! n = Some v →
  ∃ w' ss' t', handle_event range_set L (Choose (Itoa (Z.of_nat n))) w = Ok (tt, w') ∧
    page w' L I a vs us v hide ss' t' ∧
    ∃ l, updates (w_js w') = updates (w_js w) ++ l ∧ (l_app L ∉ l).
Proof.
  intros Hpg Hn. pose proof (page_apart _ _ _ _ _ _ _ _ _ _ Hpg) as (H1 & H2 & H3 & H4 & H5 & H6).
  destruct Hpg as [Hwf Hcl Happ Hsh Htr Hvs Hper Hcur Hsel (ps & Hps & Hon) Htrk Hperm Hsrt _ Hst].
  set (k := Itoa (Z.of_nat n)). cbn [handle_event].
  destruct (OnChange_known (SP := SP) w (l_select L) (i_select I) ss (labels_of us) ps (personSelected (chooser_at (l_chooser L)))
    k (Some (MkLabel v)) Hsel Hps Hon Htrk) as (j1 & Hi1 & Hj1 & Hrun).
  { unfold k. rewrite label_map_at; [by apply labels_lookup|]. by eapply lookup_lt_Some, labels_lookup. }
  set (ss' := MkSelectState k (entries ss) (entriesMap ss)) in *.
  assert (evolves {[i_select I]} ∅ (w_js w) j1) as Hev1.
  { destruct Hj1 as [[-> _]|Hch]; [apply evolves_refl|by eapply changed_evolves]. }
  assert (people_shown (World j1 (w_ext w)) L I cur cur) as Hsh1.
  { eapply people_shown_evolves; [exact Hev1|..|exact Hsh]; set_solver. }
  destruct (OnSelect_run (World j1 (w_ext w)) L I a cur v t Hsh1 (tree_ok_js _ _ _ _ _ _ _ Htr) H6)
    as (j2 & r2 & t2 & Hrun2 & Hsh2 & Htr2 & Hev2).
  eexists _, ss', t2. split; [etrans; [exact Hrun|exact Hrun2]|].
  pose proof (evolves_trans _ _ _ _ _ _ _ Hev1 Hev2) as Hev. cbn [w_js] in Hev.
  assert (i_app I ∉ {[i_select I]} ∪ ({[i_chooser I]} ∪ viewer_state L I)) as Hia by set_solver.
  split; [|destruct (ev_updates _ _ _ _ Hev) as (l & Hu & Hl); exists l; split; [exact Hu|by eapply Hl]].
  split; cbn [w_js]; try done.
  - by apply Hev.
  - by apply Hev.
  - eapply ev_inst; [exact Hev| |done]. rewrite !not_elem_of_union, !not_elem_of_singleton. done.
  - destruct n as [|n]; [left; by injection Hn|right]. rewrite <-Hperm. by eapply list_elem_of_lookup_2.
  - eapply ev_inst; [exact Hev2| |exact Hi1]. rewrite not_elem_of_union, not_elem_of_singleton. done.
  - exists ps. split; [|done]. eapply ev_props; [exact Hev| |exact Hps].
    rewrite not_elem_of_union. split; apply not_elem_of_empty.
  - right. exists n, v. done.
Qed.

(** ** Rendering the chooser *)
Definition select_props_at L (cur : ptr) (n : nat) : select_props_of :=
  MkSelectProps (Some (MkLabel cur)) (Some (Some n)) (Some (personSelected (chooser_at (l_chooser L)))).

(** [w] after the chooser rendered: a sorted copy of the people, and the labels for it. *)
Definition rendered m (us : list ptr) : gmem :=
  GMem (g_person m) (g_people m ++ [ICell us false]) (g_labels m ++ [ICell (labels_of us) false])
    (g_keys m) (g_maps m) (g_tree m).

Lemma PersonChooser_Render_run w L I a vs cur vcur t :
  classes_wf (w_js w) → people_shown w L I cur vcur → tree_ok w L I a cur t →
  frozen w a vs → Forall (is_person (w_ext w)) vs →
  ∃ us c j', Chooser_Render range_set sort_Sort (chooser_at (l_chooser L)) w =
      Ok (Elem (ClassT c) (JObject (wrap_props (Some (PSelect (select_props_at L cur (length (g_labels (w_ext w)))))) [])) [],
          World j' (rendered (w_ext w) us)) ∧
    us ≡ₚ vs ∧ sorted_people (w_ext w) us ∧ evolves ∅ ∅ (w_js w) j'.
Proof.
  intros Hcl [Hc _ _] [Ht _ _ _ Hp] Hvs Hper. unfold Chooser_Render.
  mstep (PeopleLeaf_Get_run w t a Ht Hp).
  destruct (sort_run sort_Sort Hsort w a vs Hvs Hper) as (us & Hs & Hperm & Hsrt). mstep Hs.
  set (w1 := with_people w (ICell us false)).
  assert (cells (P := list ptr) w1 !! length (g_people (w_ext w)) = Some (ICell us false)) as Hus by apply lookup_last.
  mstep (slice_Range_run (A := ptr) w1 _ _ Hus). mstep (slice_elems_run (A := ptr) w1 _ _ Hus). mstep (PersonChooser_State_run w1 (l_chooser L) (i_chooser I) _ Hc). fold (labels_of us).
  set (w2 := World (w_js w) (rendered (w_ext w) us)).
  rewrite (M_bind_run (slice_New (labels_of us)) _ w1 (Some (length (g_labels (w_ext w)))) w2) by done.
  destruct (CreateElement_eq (buildSelect (SP := SP)) (Some (PSelect (select_props_at L cur (length (g_labels (w_ext w))))))
    [] w2 Hcl) as (c & j' & Hrun & Hreg).
  exists us, c, j'. split; [exact Hrun|]. split; [done|]. split; [done|]. by eapply registered_evolves.
Qed.

(** The names under the options are the same however people of one name are put. *)
Lemma entry_ok_resort m ss ss' us us' cur :
  us ≡ₚ us' → sorted_people m us → sorted_people m us' → currEntry ss' = currEntry ss →
  entry_ok m ss us cur → entry_ok m ss' us' cur.
Proof.
  intros Hp Hs Hs' He [[Hc ->]|(n & v & Hc & Hn & Hv)]; [left; by rewrite He|]. right.
  pose proof (sorted_names_unique m us us' Hp Hs Hs') as Hnames.
  assert ((name_of m <$> (None :: us')) !! n = Some (name_of m cur)) as Hn'.
  { rewrite <-Hv. transitivity ((name_of m <$> (None :: us)) !! n).
    - cbn. change (name_of m <$> us') with (map (name_of m) us'). by rewrite <-Hnames.
    - by rewrite list_lookup_fmap, Hn. }
  apply list_lookup_fmap_Some in Hn' as (v' & Hv' & Hn'). exists n, v'. by rewrite He.
Qed.

(** What a page keeps when the stores grow and the tree stays. *)
Lemma ranges_labels w us n :
  g_labels (w_ext w) !! n = Some (ICell (labels_of us) false) →
  ranges (SP := SP) (Some (Some n)) (labels_of us) w.
Proof.
  intros Hn lk lm. cbn [on_intf Range SP site_select].
  set (w' := put2 lk lm w). assert (cells (P := list (option personLabel)) w' !! n = Some (ICell (labels_of us) false)) as Hn' by exact Hn.
  erewrite M_bind_run; [|eapply slice_Range_run; exact Hn']. exact (slice_elems_run w' n _ Hn').
Qed.

(** Only the stores of the select box differ. *)
Definition same_but_select m m' : Prop :=
  g_person m' = g_person m ∧ g_people m' = g_people m ∧ g_labels m' = g_labels m ∧ g_tree m' = g_tree m.

(** [updateMap] with the labels of a rendered chooser. *)
Lemma update_labels_run w this i ss us n :
  inst (w_js w) this i (SSelect ss) → valid w ss →
  g_labels (w_ext w) !! n = Some (ICell (labels_of us) false) →
  ∃ j' m' ss', updateMap (SP := SP) (select_at this) (Some (Some n)) w = Ok (tt, World j' m') ∧
    inst j' this i (SSelect ss') ∧ tracks (World j' m') ss' (labels_of us) ∧ currEntry ss' = currEntry ss ∧
    same_but_select (w_ext w) m' ∧ evolves {[i]} ∅ (w_js w) j'.
Proof.
  intros Hi Hv Hn.
  destruct (updateMap_run (SP := SP) w this i ss (Some (Some n)) (labels_of us) Hi Hv (ranges_labels w us n Hn))
    as (j' & ss' & Hrun & Hch & Hce & Hke & Hme).
  eexists j', _, ss'. split; [exact Hrun|]. split; [apply Hch|]. split; [by apply tracks_fresh|].
  split; [done|]. split; [done|]. by eapply changed_evolves.
Qed.

Lemma update_select_run w L I ss ps cur us n :
  inst (w_js w) (l_select L) (i_select I) (SSelect ss) → valid w ss →
  has_props (w_js w) (l_select L) (PSelect ps) →
  g_labels (w_ext w) !! n = Some (ICell (labels_of us) false) →
  ∃ b j' m' ss', update_instance (buildSelect (SP := SP)) (l_select L)
      (JObject (wrap_props (Some (PSelect (select_props_at L cur n))) [])) w = Ok (b, World j' m') ∧
    inst j' (l_select L) (i_select I) (SSelect ss') ∧ has_props j' (l_select L) (PSelect (select_props_at L cur n)) ∧
    tracks (World j' m') ss' (labels_of us) ∧ currEntry ss' = currEntry ss ∧
    same_but_select (w_ext w) m' ∧ evolves {[i_select I]} {[l_select L]} (w_js w) j'.
Proof.
  intros Hi Hv Hp Hn. set (sp := select_props_at L cur n).
  destruct (update_labels_run w (l_select L) (i_select I) ss us n Hi Hv Hn)
    as (j1 & m1 & ss' & H1 & Hi1 & Ht1 & Hc1 & Hm1 & Hev1).
  assert (has_props j1 (l_select L) (PSelect ps)) as Hp1
    by (eapply ev_props; [exact Hev1|apply not_elem_of_empty|exact Hp]).
  unfold update_instance.
  assert (class_componentWillReceiveProps (buildSelect (SP := SP)) (l_select L)
    [JObject (wrap_props (Some (PSelect sp)) [])] w = Ok (tt, World j1 m1)) as Hrecv by exact H1.
  mstep Hrecv. destruct (wrap_props_get (RV := gvalues) (Some (PSelect sp)) []) as [Hg Hh].
  mstep (shouldComponentUpdate_run (World j1 m1) (l_select L) (PSelect ps) (wrap_props (Some (PSelect sp)) []) (PSelect sp)
    _ Hp1 Hh Hg eq_refl).
  pose proof Hi1 as (o & _ & _ & _ & Ho & _).
  destruct (set_props_evolves (RV := gvalues) (World j1 m1) (l_select L) o (JObject (wrap_props (RV := gvalues) (Some (PSelect sp)) [])) Ho)
    as (j2 & H2 & Hev2 & Ho2).
  mstep H2. eexists _, j2, m1, ss'. split; [done|]. cbn [w_js w_ext] in *.
  split; [eapply ev_inst; [exact Hev2|apply not_elem_of_empty|exact Hi1]|].
  split; [eapply elem_props; [exact Ho2|apply obj_get_set_eq]|].
  split; [by eapply tracks_ext, Ht1|]. split; [done|]. split; [done|].
  eapply evolves_mono; [..|exact (evolves_trans _ _ _ _ _ _ _ Hev1 Hev2)]; set_solver +.
Qed.

(** The chooser rendered again: the page is as before, with the people sorted again. *)
Lemma rerender_chooser_run w L I a vs us cur hide ss t :
  page w L I a vs us cur hide ss t →
  ∃ w' us' ss', rerender_chooser range_set sort_Sort L w = Ok (tt, w') ∧ page w' L I a vs us' cur hide ss' t.
Proof.
  intros Hpg. pose proof (page_apart _ _ _ _ _ _ _ _ _ _ Hpg) as (H1 & H2 & H3 & H4 & H5 & H6).
  destruct Hpg as [Hwf Hcl Happ Hsh Htr Hvs Hper Hcur Hsel (ps & Hps & Hon) Htrk Hperm Hsrt Hent Hst].
  unfold rerender_chooser.
  destruct (PersonChooser_Render_run w L I a vs cur cur t Hcl Hsh Htr Hvs Hper) as (us' & c & j1 & Hr & Hperm' & Hsrt' & Hev1).
  mstep Hr. set (n := length (g_labels (w_ext w))) in *. set (w1 := World j1 (rendered (w_ext w) us')).
  erewrite M_bind_run by (apply mlift_run; done).
  assert (g_labels (w_ext w1) !! n = Some (ICell (labels_of us') false)) as Hn by apply lookup_last.
  destruct (update_select_run w1 L I ss ps cur us' n) as (b & j2 & m2 & ss' & Hu & Hi2 & Hp2 & Ht2 & Hc2 & Hm2 & Hev2).
  { eapply ev_inst; [exact Hev1|apply not_elem_of_empty|exact Hsel]. }
  { by eapply tracks_valid, Htrk. }
  { eapply ev_props; [exact Hev1|apply not_elem_of_empty|exact Hps]. }
  { exact Hn. }
  mstep Hu. eexists _, us', ss'. split; [done|].
  pose proof (evolves_trans _ _ _ _ _ _ _ Hev1 Hev2) as Hev. cbn [w_js w_ext] in *.
  destruct Hm2 as (Hg1 & Hg2 & Hg3 & Hg4). cbn [w1 w_ext rendered g_person g_people g_labels g_tree] in *.
  assert (l_chooser L ≠ l_select L) as Hne.
  { intros E. pose proof (sh_props _ _ _ _ _ Hsh) as Hcp. rewrite E in Hcp.
    by pose proof (has_props_fun _ _ _ _ Hcp Hps). }
  split; cbn [w_js w_ext]; try done.
  - by apply Hev.
  - by apply Hev.
  - eapply ev_inst; [exact Hev|set_solver|done].
  - eapply people_shown_evolves; [exact Hev|set_solver..|exact Hsh].
  - eapply tree_ok_ext; [|exact Htr]. done.
  - unfold frozen in *. cbn in *. rewrite Hg2. by apply lookup_app_l_Some.
  - eapply list.Forall_impl; [exact Hper|]. intros v. by apply is_person_ext.
  - exists (select_props_at L cur n). done.
  - by eapply sorted_people_ext.
  - eapply entry_ok_ext; [exact Hg1|]. eapply entry_ok_resort; [|exact Hsrt|exact Hsrt'|exact Hc2|exact Hent].
    by rewrite Hperm, Hperm'.
  - by rewrite Hg1.
Qed.

(** ** Rendering the application *)
Definition chooser_props_obj : jsval :=
  JObject (wrap_props (RV := gvalues) (Some (PChooser (MkChooserProps (Some CurrentPerson)))) []).

(** What [App] looks like; [c] and [v] are the classes of the chooser and of the viewer. *)
Definition app_view (a : AppDef) (hide : bool) (c v : nat) : Element :=
  El.Div (Some (El.with_ClassName "container" El.html_zero))
    ([El.H3 None [ES "Person Chooser"]; Elem (ClassT c) chooser_props_obj []; El.Hr None;
      hide_button a (negb hide) (if hide then "Show viewer" else "Hide viewer")] ++
     (if hide then [] else [El.Div None [El.H3 None [ES "Person Viewer"]; Elem (ClassT v) (JObject []) []]])).

Lemma app_children_view a hide c v :
  app_children (app_view a hide c v) = Ok (chooser_props_obj, if hide then None else Some (JObject [])).
Proof. by destruct hide. Qed.

Lemma App_Render_run w l i hide :
  classes_wf (w_js w) → inst (w_js w) l i (SApp hide) →
  ∃ c v j', App_Render range_set sort_Sort (app_at l) w = Ok (app_view (app_at l) hide c v, World j' (w_ext w)) ∧
    evolves ∅ ∅ (w_js w) j'.
Proof.
  intros Hcl Hi. unfold App_Render.
  assert (App_State (app_at l) w = Ok (hide, w)) as Hst
    by (unfold App_State; cbn [app_def]; by mstep (State_inst _ _ _ _ Hi)).
  mstep Hst. destruct hide.
  - rewrite (M_bind_run _ _ w _ w eq_refl).
    destruct (CreateElement_eq (buildPersonChooser range_set sort_Sort) (Some (PChooser (MkChooserProps (Some CurrentPerson)))) [] w Hcl)
      as (c & j' & Hrun & Hreg).
    unfold PersonChooser. mstep Hrun. exists c, 0, j'. split; [done|by eapply registered_evolves].
  - destruct (CreateElement_eq buildPersonViewer None [] w Hcl) as (v & j1 & Hrun1 & Hreg1).
    rewrite (M_bind_run _ _ w ([El.Div None [El.H3 None [ES "Person Viewer"]; Elem (ClassT v) (JObject []) []]],
      hide_button (app_at l) true "Hide viewer") (World j1 (w_ext w))) by (unfold PersonViewer; by mstep Hrun1).
    destruct (CreateElement_eq (buildPersonChooser range_set sort_Sort) (Some (PChooser (MkChooserProps (Some CurrentPerson)))) []
      (World j1 (w_ext w)) (reg_wf _ _ _ _ Hreg1)) as (c & j' & Hrun & Hreg).
    unfold PersonChooser. mstep Hrun. exists c, v, j'. split; [done|].
    eapply evolves_mono; [..|exact (evolves_trans _ _ _ _ _ _ _ (registered_evolves _ _ _ _ Hreg1) (registered_evolves _ _ _ _ Hreg))];
      set_solver +.
Qed.

(** The chooser is handed the props it has: it does not render. *)
Lemma update_chooser_run w c i s :
  inst (w_js w) c i s → has_props (w_js w) c (PChooser (MkChooserProps (Some CurrentPerson))) →
  ∃ j', update_instance (buildPersonChooser range_set sort_Sort) c chooser_props_obj w = Ok (false, World j' (w_ext w)) ∧
    has_props j' c (PChooser (MkChooserProps (Some CurrentPerson))) ∧ evolves ∅ {[c]} (w_js w) j'.
Proof.
  intros Hi Hp. unfold update_instance. set (p := PChooser (MkChooserProps (Some CurrentPerson))) in *.
  rewrite (M_bind_run _ _ w tt w eq_refl). destruct (wrap_props_get (RV := gvalues) (Some p) []) as [Hg Hh].
  assert (Props_EqualsIntf p (Some p) = Ok true) as Heq by (cbn; by rewrite bool_decide_eq_true_2).
  mstep (shouldComponentUpdate_run w c p (wrap_props (RV := gvalues) (Some p) []) p _ Hp Hh Hg Heq).
  pose proof Hi as (o & _ & _ & _ & Ho & _).
  destruct (set_props_evolves w c o chooser_props_obj Ho) as (j' & Hrun & Hev & Ho').
  mstep Hrun. exists j'. split; [done|]. split; [|exact Hev]. eapply elem_props; [exact Ho'|apply obj_get_set_eq].
Qed.

(** ** The viewer comes and goes *)
Lemma mount_viewer_run w t cur :
  heap_wf (w_js w) → implements (root w) t → default (VPerson None) (values t !! CurrentPerson) = VPerson cur →
  let n := next_loc (w_js w) in
  ∃ j' r', mount_instance buildPersonViewer (JObject []) w = Ok (n, World j' (with_tree r' (w_ext w))) ∧
    implements r' (spec_subscribe CurrentPerson (currPersonUpdated_cb (viewer_at n)) t) ∧
    inst j' n (S (S n)) (SViewer (MkViewerState cur (Some (next t)))) ∧ evolves {[S (S n)]} ∅ (w_js w) j'.
Proof.
  intros Hwf Ht Hcur n. unfold mount_instance.
  destruct (create_evolves buildPersonViewer (JObject []) w (SViewer (MkViewerState None None)) Hwf eq_refl)
    as (j1 & H1 & Hi1 & Hev1 & _). fold n in H1, Hi1. mstep H1. cbn [buildPersonViewer ComponentWillMount opt_call].
  destruct (subscribe_run (root w) t CurrentPerson (currPersonUpdated_cb (viewer_at n)) Ht) as (r' & Hsub & Himp).
  set (w2 := World j1 (with_tree r' (w_ext w))).
  assert (Subscribe CurrentPerson (currPersonUpdated_cb (viewer_at n)) (World j1 (w_ext w)) = Ok (next t, w2)) as H2.
  { unfold Subscribe, on_root. change (root (World j1 (w_ext w))) with (root w). by rewrite Hsub. }
  assert (PersonLeaf_Get CurrentPerson w2 = Ok (cur, w2)) as H3 by (by eapply PersonLeaf_Get_run).
  destruct (set_state_run w2 n (S (S n)) _ (SViewer (MkViewerState cur (Some (next t)))) _ Hi1 eq_refl)
    as (j3 & H4 & Hi3 & Hev3 & _).
  assert (Viewer_ComponentWillMount (viewer_at n) (World j1 (w_ext w)) = Ok (tt, World j3 (with_tree r' (w_ext w)))) as H5.
  { unfold Viewer_ComponentWillMount. mstep H2. mstep H3. exact H4. }
  change (Viewer_ComponentWillMount {| viewer_def := mk_def n |}) with (Viewer_ComponentWillMount (viewer_at n)).
  mstep H5. exists j3, r'. split; [done|]. split; [done|]. split; [done|].
  eapply evolves_mono; [..|exact (evolves_trans _ _ _ _ _ _ _ Hev1 Hev3)]; set_solver +.
Qed.
Lemma unmount_viewer_run w v i vcur s t o :
  implements (root w) t → inst (w_js w) v i (SViewer (MkViewerState vcur (Some s))) → live t !! s = Some o →
  ∃ r', unmount_instance buildPersonViewer v w = Ok (tt, World (w_js w) (with_tree r' (w_ext w))) ∧
    implements r' (spec_clear s t).
Proof.
  intros Ht Hi Hs. pose proof (unsubscribe_run (root w) t s Ht) as Hun. rewrite Hs in Hun.
  destruct Hun as (r' & Hr & Himp). exists r'. split; [|done].
  unfold unmount_instance. cbn [buildPersonViewer ComponentWillUnmount opt_call].
  unfold Viewer_ComponentWillUnmount. mstep (Viewer_State_run w v i _ Hi). cbn [curPersSub Sub_Clear].
  unfold on_root, Clear. by rewrite Hr.
Qed.

Definition with_viewer L (v : option loc) : site := Site (l_app L) (l_chooser L) (l_select L) v.
Definition with_viewer_ids (I : ids) (i s : nat) : ids :=
  Ids (i_app I) (i_chooser I) (i_select I) i (s_chooser I) s.

(** A page whose state of [App] changes, or on which the viewer comes or goes. *)
Lemma page_viewer w w' L I a vs us cur hide hide' ss t X Y v i s t' :
  page w L I a vs us cur hide ss t →
  evolves X Y (w_js w) (w_js w') → inst (w_js w') (l_app L) (i_app I) (SApp hide') →
  (i_select I ∉ X) → (l_select L ∉ Y) →
  w_ext w' = with_tree (root w') (w_ext w) →
  people_shown w' (with_viewer L v) (with_viewer_ids I i s) cur cur →
  tree_ok w' (with_viewer L v) (with_viewer_ids I i s) a cur t' →
  page w' (with_viewer L v) (with_viewer_ids I i s) a vs us cur hide' ss t'.
Proof.
  intros [Hwf Hcl Happ Hsh Htr Hvs Hper Hcur Hsel (ps & Hps & Hon) Htrk Hperm Hsrt Hent Hst] Hev Ha Hs HY Hext Hsh' Htr'.
  split; try done.
  - by apply Hev.
  - by apply Hev.
  - unfold frozen in *. cbn in *. by rewrite Hext.
  - rewrite Hext. exact Hper.
  - by eapply ev_inst.
  - exists ps. split; [|done]. by eapply ev_props.
  - eapply tracks_ext; [..|exact Htrk]; by rewrite Hext.
  - rewrite Hext. exact Hsrt.
  - rewrite Hext. exact Hent.
  - by rewrite Hext.
Qed.

Lemma live_subs_mount L I i s :
  l_viewer L = None → s ≠ s_chooser I → ∀ n,
  live_subs (with_viewer L (Some n)) (with_viewer_ids I i s) =
  <[s := MkSub CurrentPerson (currPersonUpdated_cb (viewer_at n))]> (live_subs L I).
Proof. intros Hv Hs n. unfold live_subs. by rewrite Hv. Qed.
Lemma live_subs_unmount L I i s v :
  l_viewer L = Some v → s_chooser I ≠ s_viewer I →
  live_subs (with_viewer L None) (with_viewer_ids I i s) = delete (s_viewer I) (live_subs L I).
Proof.
  intros Hv Hs. unfold live_subs. rewrite Hv. cbn. rewrite delete_insert_id; [done|].
  by rewrite lookup_singleton_ne.
Qed.

(** Once [App] has drawn itself, the viewer goes, or a new one is mounted. *)
Lemma viewer_goes w L I a vs us cur hide ss t v :
  page w L I a vs us cur hide ss t → l_viewer L = Some v →
  ∃ w' I' t', unmount_instance buildPersonViewer v w = Ok (tt, w') ∧
    page w' (with_viewer L None) I' a vs us cur hide ss t'.
Proof.
  intros Hpg Hv. pose proof Hpg as [_ _ Happ Hsh Htr _ _ _ Hsel _ _ _ _ _ _].
  pose proof (tr_sep _ _ _ _ _ _ Htr ltac:(rewrite Hv; eauto)) as Hsep.
  destruct (unmount_viewer_run w v (i_viewer I) cur (s_viewer I) t (viewer_sub v)
    (tr_impl _ _ _ _ _ _ Htr) (sh_viewer _ _ _ _ _ Hsh v Hv)) as (r' & Hr & Himp).
  { rewrite (tr_live _ _ _ _ _ _ Htr). by apply live_subs_viewer. }
  eexists _, (with_viewer_ids I (i_viewer I) (s_viewer I)), _. split; [exact Hr|].
  eapply (page_viewer w _ L I); [exact Hpg|apply (evolves_refl ∅ ∅)|exact Happ|apply not_elem_of_empty..|done| |].
  - by destruct Hsh.
  - split; [exact Himp| |by intros []|exact (tr_cur _ _ _ _ _ _ Htr)|exact (tr_people _ _ _ _ _ _ Htr)].
    rewrite (live_subs_unmount L I _ _ v Hv Hsep). cbn. by rewrite (tr_live _ _ _ _ _ _ Htr).
Qed.
Lemma viewer_comes w L I a vs us cur hide ss t :
  page w L I a vs us cur hide ss t → l_viewer L = None →
  ∃ v w' I' t', mount_instance buildPersonViewer (JObject []) w = Ok (v, w') ∧
    page w' (with_viewer L (Some v)) I' a vs us cur hide ss t'.
Proof.
  intros Hpg Hv. pose proof Hpg as [Hwf _ Happ Hsh Htr _ _ _ Hsel _ _ _ _ _ _].
  destruct (mount_viewer_run w t cur Hwf (tr_impl _ _ _ _ _ _ Htr) (tr_cur _ _ _ _ _ _ Htr))
    as (j' & r' & Hr & Himp & Hi & Hev). set (n := next_loc (w_js w)) in *.
  eexists n, _, (with_viewer_ids I (S (S n)) (next t)), _. split; [exact Hr|].
  assert (∀ this i s, inst (w_js w) this i s → i ∉ ({[S (S n)]} : gset loc)) as Hfresh.
  { intros this i s Hin. apply (inst_bound _ _ _ _ Hwf) in Hin. apply not_elem_of_singleton. unfold n. lia. }
  assert (next t ≠ s_chooser I) as Hns.
  { intros E. pose proof (imp_fresh _ _ (next t) (tr_impl _ _ _ _ _ _ Htr) (le_n _)) as Hf.
    rewrite (tr_live _ _ _ _ _ _ Htr), E in Hf. unfold live_subs in Hf. by rewrite Hv, lookup_singleton_eq in Hf. }
  eapply (page_viewer w _ L I); [exact Hpg|exact Hev| |by eapply Hfresh|apply not_elem_of_empty|done| |].
  - eapply ev_inst; [exact Hev|by eapply Hfresh|done].
  - destruct Hsh as [Hc Hp _]. split; cbn [w_js].
    + eapply ev_inst; [exact Hev|by eapply Hfresh|exact Hc].
    + eapply ev_props; [exact Hev|apply not_elem_of_empty|exact Hp].
    + intros v' [= <-]. exact Hi.
  - split; [exact Himp| |by intros _; apply not_eq_sym|exact (tr_cur _ _ _ _ _ _ Htr)|exact (tr_people _ _ _ _ _ _ Htr)].
    rewrite (live_subs_mount L I _ _ Hv Hns). cbn. by rewrite (tr_live _ _ _ _ _ _ Htr).
Qed.

Lemma with_viewer_same L : with_viewer L (l_viewer L) = L.
Proof. by destruct L. Qed.
Lemma with_viewer_ids_same (I : ids) : with_viewer_ids I (i_viewer I) (s_viewer I) = I.
Proof. by destruct I. Qed.

(** A page whose instances stay as they are. *)
Lemma page_evolves w j' L I a vs us cur hide hide' ss t X Y :
  page w L I a vs us cur hide ss t →
  evolves X Y (w_js w) j' → inst j' (l_app L) (i_app I) (SApp hide') →
  (i_select I ∉ X) → (l_select L ∉ Y) → people_shown (World j' (w_ext w)) L I cur cur →
  page (World j' (w_ext w)) L I a vs us cur hide' ss t.
Proof.
  intros Hpg Hev Happ Hs Hl Hsh. pose proof (tree_ok_js _ j' _ _ _ _ _ (pg_tree _ _ _ _ _ _ _ _ _ _ Hpg)) as Htr.
  assert (w_ext (World j' (w_ext w)) = with_tree (root (World j' (w_ext w))) (w_ext w)) as Hext
    by by destruct w as [? []].
  pose proof (page_viewer w (World j' (w_ext w)) L I a vs us cur hide hide' ss t X Y (l_viewer L) (i_viewer I) (s_viewer I) t
    Hpg Hev Happ Hs Hl Hext) as Hnew.
  rewrite with_viewer_same, with_viewer_ids_same in Hnew. by apply Hnew.
Qed.

(** [App] rendered again after the button was clicked: the viewer is there exactly if it is
    not to be hidden. *)
Lemma rerender_app_run w L I a vs us cur hide ss t :
  page w L I a vs us cur hide ss t → hide = bool_decide (is_Some (l_viewer L)) →
  ∃ w' L' I' t', rerender_app range_set sort_Sort L w = Ok (L', w') ∧
    page w' L' I' a vs us cur hide ss t' ∧
    l_app L' = l_app L ∧ l_chooser L' = l_chooser L ∧ hide = bool_decide (l_viewer L' = None).
Proof.
  intros Hpg Hhide. pose proof Hpg as [Hwf Hcl Happ Hsh Htr _ _ _ Hsel (ps & Hps & _) _ _ _ _ _]. unfold rerender_app.
  destruct (App_Render_run w (l_app L) (i_app I) _ Hcl Happ) as (c & vc & j1 & Hr1 & Hev1). mstep Hr1.
  mstep (mlift_run _ (World j1 (w_ext w)) _ (app_children_view (app_at (l_app L)) hide c vc)).
  assert (people_shown (World j1 (w_ext w)) L I cur cur) as Hsh1
    by (eapply people_shown_evolves; [exact Hev1|set_solver +..|exact Hsh]).
  destruct (update_chooser_run (World j1 (w_ext w)) (l_chooser L) (i_chooser I) _ (sh_chooser _ _ _ _ _ Hsh1)
    (sh_props _ _ _ _ _ Hsh1)) as (j2 & Hr2 & Hp2 & Hev2).
  mstep Hr2. rewrite (M_bind_run _ _ _ tt _ eq_refl). cbn [w_js w_ext] in *.
  pose proof (evolves_trans _ _ _ _ _ _ _ Hev1 Hev2) as Hev.
  assert (page (World j2 (w_ext w)) L I a vs us cur hide ss t) as Hpg2.
  { eapply page_evolves; [exact Hpg|exact Hev|eapply ev_inst; [exact Hev|set_solver +|exact Happ]|set_solver +|..].
    - rewrite not_elem_of_union, not_elem_of_singleton. split; [apply not_elem_of_empty|]. intros E.
      rewrite E in Hps. by pose proof (has_props_fun _ _ _ _ (sh_props _ _ _ _ _ Hsh) Hps).
    - destruct Hsh1 as [Hc _ Hv]. split; [eapply ev_inst; [exact Hev2|apply not_elem_of_empty|done]|done|].
      intros v' Hv'. eapply ev_inst; [exact Hev2|apply not_elem_of_empty|by apply Hv]. }
  destruct (l_viewer L) as [v|] eqn:Hv.
  - destruct (viewer_goes _ _ _ _ _ _ _ _ _ _ v Hpg2 Hv) as (w' & I' & t' & Hr3 & Hpg3).
    rewrite bool_decide_eq_true_2 in Hhide by eauto. subst hide. mstep Hr3. by eexists _, _, I', t'.
  - destruct (viewer_comes _ _ _ _ _ _ _ _ _ _ Hpg2 Hv) as (v & w' & I' & t' & Hr3 & Hpg3).
    rewrite bool_decide_eq_false_2 in Hhide by by intros []. subst hide. mstep Hr3. by eexists _, _, I', t'.
Qed.

(** Clicking the button. *)
Lemma toggle_run w L I a vs us cur hide ss t :
  page w L I a vs us cur hide ss t →
  ∃ j', handle_event range_set L (Toggle (negb hide)) w = Ok (tt, World j' (w_ext w)) ∧
    page (World j' (w_ext w)) L I a vs us cur (negb hide) ss t ∧
    updates j' = updates (w_js w) ++ [l_app L].
Proof.
  intros Hpg. pose proof (page_apart _ _ _ _ _ _ _ _ _ _ Hpg) as (H1 & H2 & H3 & H4 & H5 & H6).
  pose proof (pg_app _ _ _ _ _ _ _ _ _ _ Hpg) as Happ.
  assert (state_EqualsIntf (SApp (negb hide)) (SApp hide) = Ok false) as Heq.
  { cbn. rewrite bool_decide_eq_false_2; [done|]. by destruct hide. }
  destruct (set_state_run w (l_app L) (i_app I) _ (SApp (negb hide)) _ Happ Heq) as (j' & Hr & Hi & Hev & Hu).
  exists j'. split; [exact Hr|]. split; [|exact Hu].
  eapply page_evolves; [exact Hpg|exact Hev|exact Hi|set_solver|set_solver +|].
  eapply people_shown_evolves; [exact Hev|set_solver..|apply Hpg].
Qed.

(** ** A step of the page *)

(** The page runs: [vs] are the people, [cur] the current person; the viewer is there unless
    it is hidden. *)
Definition running w L (vs : list ptr) (cur : ptr) (hide : bool) : Prop :=
  ∃ I a us ss t, page w L I a vs us cur hide ss t ∧ hide = bool_decide (l_viewer L = None).

Lemma site_Choose_run w L I a vs us cur hide ss t n v :
  page w L I a vs us cur hide ss t → (None :: us) !! n = Some v →
  ∃ w' us' ss' t', site_step range_set sort_Sort L (Choose (Itoa (Z.of_nat n))) w = Ok (L, w') ∧
    page w' L I a vs us' v hide ss' t'.
Proof.
  intros Hpg Hn. unfold site_step. rewrite (M_bind_run _ _ w (w_js w) w eq_refl).
  destruct (choose_run w L I a vs us cur hide ss t n v Hpg Hn) as (w1 & ss1 & t1 & H1 & Hpg1 & l & Hu & Hl).
  mstep H1. rewrite (M_bind_run _ _ w1 (w_js w1) w1 eq_refl). rewrite Hu, drop_app_length.
  rewrite bool_decide_eq_false_2 by done. rewrite (M_bind_run _ _ w1 L w1 eq_refl).
  case_bool_decide.
  - destruct (rerender_chooser_run w1 L I a vs us v hide ss1 t1 Hpg1) as (w2 & us2 & ss2 & H2 & Hpg2).
    mstep H2. by exists w2, us2, ss2, t1.
  - by exists w1, us, ss1, t1.
Qed.
Lemma site_Toggle_run w L I a vs us cur hide ss t :
  page w L I a vs us cur hide ss t → hide = bool_decide (l_viewer L = None) →
  ∃ w' L' I' t', site_step range_set sort_Sort L (Toggle (negb hide)) w = Ok (L', w') ∧
    page w' L' I' a vs us cur (negb hide) ss t' ∧ negb hide = bool_decide (l_viewer L' = None).
Proof.
  intros Hpg Hh. unfold site_step. rewrite (M_bind_run _ _ w (w_js w) w eq_refl).
  destruct (toggle_run w L I a vs us cur hide ss t Hpg) as (j1 & H1 & Hpg1 & Hu). mstep H1.
  rewrite (M_bind_run get_js _ (World j1 (w_ext w)) j1 (World j1 (w_ext w)) eq_refl). rewrite Hu, drop_app_length.
  rewrite bool_decide_eq_true_2 by by left.
  destruct (rerender_app_run _ L I a vs us cur (negb hide) ss t Hpg1) as (w2 & L2 & I2 & t2 & H2 & Hpg2 & Ha2 & Hc2 & Hh2).
  { subst hide. by destruct (l_viewer L). }
  mstep H2. rewrite bool_decide_eq_false_2; [by exists w2, L2, I2, t2|].
  intros Hin%list_elem_of_singleton. rewrite <-Ha2 in Hin.
  pose proof (sh_chooser _ _ _ _ _ (pg_shown _ _ _ _ _ _ _ _ _ _ Hpg2)) as Hi. rewrite Hin in Hi.
  by destruct (inst_fun _ _ _ _ _ _ Hi (pg_app _ _ _ _ _ _ _ _ _ _ Hpg2)).
Qed.

(** ** What is drawn *)
Definition viewer_text m (cur : ptr) : string :=
  match cur with
  | Some b => match g_person m !! b with
              | Some c => "You have selected " +:+ _Name (payload c) +:+ ", age " +:+ pretty (_Age (payload c))
              | None => ""
              end
  | None => "(no person selected)"
  end.

Lemma Viewer_Render_run w v i cur s :
  inst (w_js w) v i (SViewer (MkViewerState cur s)) → cur = None ∨ is_person (w_ext w) cur →
  Viewer_Render (viewer_at v) w = Ok (El.P None [ES (viewer_text (w_ext w) cur)], w).
Proof.
  intros Hi Hc. unfold Viewer_Render. mstep (Viewer_State_run w v i _ Hi). cbn [viewer_p].
  destruct Hc as [->|(b & p & -> & Hb)]; [done|].
  assert (imm_deref (P := Person) (Some b) w = Ok (ICell p false, w)) as Hd by (apply deref_run; exact Hb).
  assert (Name (Some b) w = Ok (_Name p, w)) as Hn by (unfold Name; by mstep Hd).
  assert (Age (Some b) w = Ok (_Age p, w)) as Ha by (unfold Age; by mstep Hd).
  mstep Hn. mstep Ha. cbn [viewer_text]. by rewrite Hb.
Qed.

Lemma draw_run w L I a vs us cur hide ss t :
  page w L I a vs us cur hide ss t → hide = bool_decide (l_viewer L = None) →
  draw range_set L w = Ok ((select_elem (SP := SP) (currEntry ss) (select_at (l_select L))
      (options_from 0 ("" :: map (name_of (w_ext w)) us)),
    if hide then None else Some (El.P None [ES (viewer_text (w_ext w) cur)])), w).
Proof.
  intros [Hwf Hcl Happ Hsh Htr Hvs Hper Hcur Hsel _ Htrk Hperm Hsrt Hent Hst] Hh. unfold draw.
  assert (labelled (SP := SP) w (labels_of us) ("" :: map (name_of (w_ext w)) us)) as Hlab.
  { constructor; [done|]. assert (Forall (is_person (w_ext w)) us) as Hus by by rewrite Hperm.
    clear -Hus. induction Hus as [|v us Hp _ IH]; [constructor|]. constructor; [|exact IH].
    pose proof (Name_run w v Hp) as Hname. destruct Hp as (b & p & -> & _). exact Hname. }
  mstep (Select_Render_run (SP := SP) w (l_select L) (i_select I) ss (labels_of us) _ Hsel Htrk Hlab).
  destruct (l_viewer L) as [v|] eqn:Hv; subst hide.
  - rewrite bool_decide_eq_false_2 by done.
    rewrite (M_bind_run _ _ w (Some (El.P None [ES (viewer_text (w_ext w) cur)])) w); [done|].
    erewrite M_bind_run; [done|]. eapply Viewer_Render_run; [by apply (sh_viewer _ _ _ _ _ Hsh)|].
    destruct Hcur as [->|Hin]; [by left|right]. by eapply list.Forall_forall.
  - by rewrite bool_decide_eq_true_2.
Qed.

End Steps.
End Page.
