(* ===== verification/GlobalSite.v ===== *)
(** * The globalstate site

    The site from [main] on: it mounts, and whatever the user then does it draws what its
    specification says. *)

From stdpp Require Import pretty sorting.
From S2P Require Import Prelude GoLib GoGenerate StateTree React Elements Immutable Mount ImmSelect GlobalState GlobalRun GlobalPage.

#[local] Opaque CurrentPerson Root_People.

(** ** Mounting the page *)

(** The people [main] makes, and the pointers to them. *)
Definition main_persons : list (icell Person) :=
  [ICell (MkPerson "" 0) false; ICell (MkPerson "Peter" 50) false;
   ICell (MkPerson "" 0) false; ICell (MkPerson "Paul" 51) false;
   ICell (MkPerson "" 0) false; ICell (MkPerson "Mary" 52) false].
Definition main_people : list ptr := [Some 1; Some 3; Some 5].

Definition init_gmem : gmem := GMem [] [] [] [] [] newRootNode.
Definition init_site : world gmem := World empty_js init_gmem.
Definition main_mem (r : rootNode gvalue callback) : gmem := GMem main_persons [ICell main_people false] [] [] [] r.
Definition main_tree : tree (V := gvalue) (CB := callback) := spec_set Root_People (VPeople (Some 0)) (MkTree ∅ ∅ 0).

Section Mounting.
Context (range_set : gset nat → list nat).
Hypothesis range_set_ok : ∀ l, range_set l ≡ₚ elements l.
Context (sort_Sort : GM Z → (Z → Z → GM bool) → (Z → Z → GM unit) → GM unit).
Hypothesis Hsort : sort_ok sort_Sort.
Let SP := site_select range_set.
#[local] Existing Instance SP.

Lemma main_run get :
  ∃ e j r, main range_set sort_Sort (Some get) init_site = Ok (e, World j (main_mem r)) ∧
    implements r main_tree ∧ evolves ∅ ∅ empty_js j ∧ classes_wf j.
Proof.
  unfold main.
  destruct (CreateElement_eq (buildApp range_set sort_Sort) None [] init_site classes_wf_empty)
    as (c & j & Hrun & Hreg). unfold App. mstep Hrun.
  set (wp n := World j (GMem (take n main_persons) [] [] [] [] newRootNode)).
  mstep (eq_refl : NewPerson "Peter" 50 (World j init_gmem) = Ok (Some 1, wp 2)).
  mstep (eq_refl : NewPerson "Paul" 51 (wp 2) = Ok (Some 3, wp 4)).
  mstep (eq_refl : NewPerson "Mary" 52 (wp 4) = Ok (Some 5, wp 6)).
  mstep (eq_refl : NewPeople main_people (wp 6) = Ok (Some 0, World j (main_mem newRootNode))).
  set (w := World j (main_mem newRootNode)).
  pose proof (set_run range_set range_set_ok value_eqb run_callback w (MkTree ∅ ∅ 0) ["App"; "Data"; "ModelPeoplePLeaf"]
    (VPeople (Some 0)) newRootNode_implements ltac:(done) ltac:(repeat constructor; done)) as Hset.
  rewrite <-Root_People_key in Hset. unfold same_value in Hset. cbn [values] in Hset. rewrite lookup_empty in Hset.
  destruct Hset as (l & Hr & Himp & _ & Hl).
  assert (l = []) as ->.
  { apply elem_of_nil_inv. intros s (o & Ho & _)%Hl. cbn in Ho. by rewrite lookup_empty in Ho. }
  unfold PeopleLeaf_Set, leaf_Set. mstep Hr. eexists _, j, _. split; [done|]. split; [exact Himp|].
  split; [by eapply registered_evolves|by destruct Hreg].
Qed.

(** The chooser is mounted. *)
Lemma mount_chooser_run w t cur :
  heap_wf (w_js w) → implements (root w) t → default (VPerson None) (values t !! CurrentPerson) = VPerson cur →
  let n := next_loc (w_js w) in
  ∃ j' r', mount_instance (buildPersonChooser range_set sort_Sort) chooser_props_obj w =
      Ok (n, World j' (with_tree r' (w_ext w))) ∧
    implements r' (spec_subscribe CurrentPerson (personStateChanged_cb (chooser_at n)) t) ∧
    inst j' n (S (S n)) (SChooser (MkChooserState cur (Some (next t)))) ∧
    has_props j' n (PChooser (MkChooserProps (Some CurrentPerson))) ∧ evolves {[S (S n)]} ∅ (w_js w) j'.
Proof.
  intros Hwf Ht Hcur n. unfold mount_instance.
  destruct (create_evolves (buildPersonChooser range_set sort_Sort) chooser_props_obj w
    (SChooser (MkChooserState None None)) Hwf eq_refl) as (j1 & H1 & Hi1 & Hev1 & o & Ho & Hop).
  fold n in H1, Hi1, Ho. mstep H1. cbn [buildPersonChooser ComponentWillMount opt_call].
  assert (has_props j1 n (PChooser (MkChooserProps (Some CurrentPerson)))) as Hp by by eapply elem_props.
  destruct (subscribe_run (root w) t CurrentPerson (personStateChanged_cb (chooser_at n)) Ht) as (r' & Hsub & Himp).
  set (w2 := World j1 (with_tree r' (w_ext w))).
  assert (Subscribe CurrentPerson (personStateChanged_cb (chooser_at n)) (World j1 (w_ext w)) = Ok (next t, w2)) as H2.
  { unfold Subscribe, on_root. change (root (World j1 (w_ext w))) with (root w). by rewrite Hsub. }
  assert (PersonLeaf_Get CurrentPerson w2 = Ok (cur, w2)) as H3 by (by eapply PersonLeaf_Get_run).
  destruct (set_state_run w2 n (S (S n)) _ (SChooser (MkChooserState cur (Some (next t)))) _ Hi1 eq_refl)
    as (j3 & H4 & Hi3 & Hev3 & _).
  assert (Chooser_ComponentWillMount (chooser_at n) (World j1 (w_ext w)) = Ok (tt, World j3 (with_tree r' (w_ext w)))) as H5.
  { unfold Chooser_ComponentWillMount. mstep (PersonChooser_Props_run (World j1 (w_ext w)) n _ Hp). cbn [PersonState on_state].
    mstep H2. mstep (PersonChooser_State_run w2 n _ _ Hi1). mstep (PersonChooser_Props_run w2 n _ Hp). mstep H3. exact H4. }
  change (Chooser_ComponentWillMount {| chooser_def := mk_def n |}) with (Chooser_ComponentWillMount (chooser_at n)).
  mstep H5. exists j3, r'. split; [done|]. split; [done|]. split; [done|].
  split; [eapply ev_props; [exact Hev3|apply not_elem_of_empty|exact Hp]|].
  eapply evolves_mono; [..|exact (evolves_trans _ _ _ _ _ _ _ Hev1 Hev3)]; set_solver +.
Qed.

(** The select box is mounted with what the chooser rendered. *)
Lemma mount_select_run w L cur us k :
  heap_wf (w_js w) → g_labels (w_ext w) !! k = Some (ICell (labels_of us) false) →
  let n := next_loc (w_js w) in
  let sp := PSelect (select_props_at L cur k) in
  ∃ j' m' ss, mount_instance (buildSelect (SP := SP)) (JObject (wrap_props (RV := gvalues) (Some sp) [])) w = Ok (n, World j' m') ∧
    inst j' n (S (S n)) (SSelect ss) ∧ has_props j' n sp ∧ tracks (World j' m') ss (labels_of us) ∧
    currEntry ss = "" ∧ same_but_select (w_ext w) m' ∧ evolves {[S (S n)]} ∅ (w_js w) j'.
Proof.
  intros Hwf Hk n sp. unfold mount_instance.
  destruct (create_evolves (buildSelect (SP := SP)) (JObject (wrap_props (RV := gvalues) (Some sp) [])) w
    (SSelect (MkSelectState "" None None)) Hwf eq_refl) as (j1 & H1 & Hi1 & Hev1 & o & Ho & Hop).
  fold n in H1, Hi1, Ho. mstep H1. cbn [buildSelect ComponentWillMount opt_call].
  assert (has_props j1 n sp) as Hp by by eapply elem_props.
  destruct (update_labels_run range_set (World j1 (w_ext w)) n (S (S n)) (MkSelectState "" None None) us k Hi1 ltac:(by intros a [=]) Hk)
    as (j2 & m2 & ss & H2 & Hi2 & Ht2 & Hc2 & Hm2 & Hev2).
  assert (Select_ComponentWillMount (SP := SP) (select_at n) (World j1 (w_ext w)) = Ok (tt, World j2 m2)) as H3.
  { unfold Select_ComponentWillMount.
    mstep (Props_run (SP := SP) (World j1 (w_ext w)) n (select_props_at L cur k) Hp). exact H2. }
  change (Select_ComponentWillMount {| select_def := mk_def n |}) with (Select_ComponentWillMount (SP := SP) (select_at n)).
  mstep H3. exists j2, m2, ss. split; [done|]. split; [done|].
  split; [eapply ev_props; [exact Hev2|apply not_elem_of_empty|exact Hp]|]. split; [done|]. split; [done|]. split; [done|].
  eapply evolves_mono; [..|exact (evolves_trans _ _ _ _ _ _ _ Hev1 Hev2)]; set_solver +.
Qed.

Lemma main_persons_ok r : Forall (is_person (main_mem r)) main_people.
Proof. repeat constructor; eexists _, _; split; done. Qed.

Lemma main_tree_cur : default (VPerson None) (values main_tree !! CurrentPerson) = VPerson None.
Proof. cbn. rewrite lookup_insert_ne by apply not_eq_sym, leaves_apart. by rewrite lookup_empty. Qed.
Lemma main_tree_people : values main_tree !! Root_People = Some (VPeople (Some 0)).
Proof. cbn. by rewrite lookup_insert_eq. Qed.

(** The application and the chooser, before the select box. *)
Lemma mount_chooser_page get :
  ∃ e j r na nc, (_ ← main range_set sort_Sort (Some get);
     a ← mount_instance (buildApp range_set sort_Sort) (JObject []);
     e ← App_Render range_set sort_Sort (app_at a);
     '(cp, vp) ← mlift (app_children e);
     c ← mount_instance (buildPersonChooser range_set sort_Sort) cp;
     mret (a, e, c)) init_site = Ok ((na, e, nc), World j (main_mem r)) ∧
    app_children e = Ok (chooser_props_obj, Some (JObject [])) ∧
    heap_wf j ∧ classes_wf j ∧ inst j na (S (S na)) (SApp false) ∧
    implements r (spec_subscribe CurrentPerson (personStateChanged_cb (chooser_at nc)) main_tree) ∧
    inst j nc (S (S nc)) (SChooser (MkChooserState None (Some 0))) ∧
    has_props j nc (PChooser (MkChooserProps (Some CurrentPerson))).
Proof.
  destruct (main_run get) as (e & j0 & r0 & H0 & Hr0 & Hev0 & Hcl0). mstep H0.
  assert (heap_wf j0) as Hwf0 by (apply Hev0; intros l [? Hl]; cbn in Hl; by rewrite lookup_empty in Hl).
  destruct (create_evolves (buildApp range_set sort_Sort) (JObject []) (World j0 (main_mem r0)) (SApp false) Hwf0 eq_refl)
    as (j1 & H1 & Hi1 & Hev1 & _). cbn [w_js w_ext] in *. set (na := next_loc j0) in *.
  rewrite (M_bind_run (mount_instance (buildApp range_set sort_Sort) (JObject [])) _ _ na (World j1 (main_mem r0)))
    by (unfold mount_instance; by mstep H1).
  destruct (App_Render_run range_set sort_Sort (World j1 (main_mem r0)) na (S (S na)) false) as (c & vc & j2 & H2 & Hev2);
    [by apply Hev1|exact Hi1|]. mstep H2. cbn [w_js w_ext] in *.
  mstep (mlift_run _ (World j2 (main_mem r0)) _ (app_children_view (app_at na) false c vc)).
  pose proof (evolves_trans _ _ _ _ _ _ _ Hev1 Hev2) as Hev12. assert (heap_wf j2) as Hwf2 by by apply Hev12.
  destruct (mount_chooser_run (World j2 (main_mem r0)) main_tree None) as (j3 & r3 & H3 & Hr3 & Hi3 & Hp3 & Hev3);
    [exact Hwf2|exact Hr0|exact main_tree_cur|]. mstep H3. cbn [w_js w_ext] in *. set (nc := next_loc j2) in *.
  eexists _, j3, r3, na, nc. split; [done|]. split; [apply app_children_view|].
  split; [by apply Hev3|]. split; [by apply Hev3, Hev12|]. split; [|exact (conj Hr3 (conj Hi3 Hp3))].
  assert (inst j2 na (S (S na)) (SApp false)) as Hi2 by (eapply ev_inst; [exact Hev2|apply not_elem_of_empty|exact Hi1]).
  eapply ev_inst; [exact Hev3| |exact Hi2]. apply not_elem_of_singleton.
  apply (inst_bound _ _ _ _ Hwf2) in Hi2. unfold nc. lia.
Qed.

(** The whole page. *)
Lemma mount_site_run get :
  ∃ L w, mount_site range_set sort_Sort (Some get) init_site = Ok (L, w) ∧ running main_persons w L main_people None false.
Proof.
  destruct (mount_chooser_page get) as (e & j3 & r & na & nc & H0 & Hch & Hwf & Hcl & Happ & Hr & Hi & Hp).
  unfold mount_site. set (L0 := Site na nc 0 None). set (I0 := Ids (S (S na)) (S (S nc)) 0 0 0 0).
  apply M_bind_Ok in H0 as (e0 & w0 & Hm0 & (a1 & w1 & Hm1 & (e2 & w2 & Hm2 & H0)%M_bind_Ok)%M_bind_Ok).
  mstep Hm0. mstep Hm1. mstep Hm2.
  apply M_bind_Ok in H0 as ([cp vp] & w2' & Hm3 & (c4 & w4 & Hm4 & [= -> -> -> ->])%M_bind_Ok).
  rewrite Hch in Hm3. cbn in Hm3. injection Hm3 as <- <- <-.
  rewrite (M_bind_run _ _ w2 (chooser_props_obj, Some (JObject [])) w2) by (by rewrite Hch). mstep Hm4.
  set (w := World j3 (main_mem r)). set (t := spec_subscribe _ _ _) in Hr.
  assert (people_shown w L0 I0 None None) as Hsh by by split.
  assert (tree_ok w L0 I0 0 None t) as Htr
    by (split; [exact Hr|done|by intros []|exact main_tree_cur|exact main_tree_people]).
  destruct (PersonChooser_Render_run range_set sort_Sort Hsort w L0 I0 0 main_people None None t Hcl Hsh Htr eq_refl (main_persons_ok r))
    as (us & c & j4 & H4 & Hperm & Hsrt & Hev4).
  mstep H4. erewrite M_bind_run by (apply mlift_run; done).
  destruct (mount_select_run (World j4 (rendered (w_ext w) us)) L0 None us 0) as
    (j5 & m5 & ss & H5 & Hi5 & Hp5 & Ht5 & Hc5 & (Hg1 & Hg2 & Hg3 & Hg4) & Hev5); [by apply Hev4|done|].
  mstep H5. cbn [w_js w_ext] in *. set (ns := next_loc j4) in *.
  pose proof (evolves_trans _ _ _ _ _ _ _ Hev4 Hev5) as Hev.
  assert (∀ this i s, inst j3 this i s → inst j5 this i s) as Hkeep.
  { intros this i s Hin. assert (inst j4 this i s) as Hin4 by (eapply ev_inst; [exact Hev4|apply not_elem_of_empty|done]).
    eapply ev_inst; [exact Hev5| |exact Hin4]. apply not_elem_of_singleton.
    apply (inst_bound j4) in Hin4; [unfold ns; lia|by apply Hev4]. }
  assert (page main_persons (World j5 m5) (Site na nc ns None) (Ids (S (S na)) (S (S nc)) (S (S ns)) 0 0 0) 0 main_people us None false ss t)
    as Hpg.
  { split; cbn [w_js w_ext].
    - by apply Hev.
    - by apply Hev.
    - by apply Hkeep.
    - split; [by apply Hkeep| |by intros v [=]]. eapply ev_props; [exact Hev|set_solver +|exact Hp].
    - apply (tree_ok_ext w); [exact Hg4|]. destruct Htr as [Ht1 Ht2 Ht3 Ht4 Ht6].
      exact (Build_tree_ok w (Site na nc ns None) (Ids (S (S na)) (S (S nc)) (S (S ns)) 0 0 0) 0 None t Ht1 Ht2 Ht3 Ht4 Ht6).
    - unfold frozen. cbn. by rewrite Hg2.
    - eapply list.Forall_impl; [apply (main_persons_ok r)|]. intros v. by apply is_person_ext.
    - by left.
    - exact Hi5.
    - exists (select_props_at L0 None 0). split; [exact Hp5|done].
    - exact Ht5.
    - exact Hperm.
    - by eapply sorted_people_ext.
    - left. exact (conj Hc5 eq_refl).
    - exact Hg1. }
  destruct (viewer_comes _ _ _ _ _ _ _ _ _ _ _ Hpg eq_refl) as (v & w6 & I6 & t6 & H6 & Hpg6).
  rewrite (M_bind_run _ _ (World j5 m5) (Some v) w6) by (by mstep H6).
  eexists _, w6. split; [done|]. exists I6, 0, us, ss, t6. split; [exact Hpg6|reflexivity].
Qed.

(** ** The specification of the site

    The name of the current person and its text in the viewer, and whether the viewer is
    hidden; the user picks one of the options or clicks the button. *)
Inductive action := Pick (n : nat) | Flip.
Record site_spec := MkSpec { sp_name : string; sp_hide : bool }.

(** The options, in order. *)
Definition site_names : list string := [""; "Mary"; "Paul"; "Peter"].
Definition spec_action (s : site_spec) (a : action) : site_spec :=
  match a with
  | Pick n => MkSpec (default "" (site_names !! n)) (sp_hide s)
  | Flip => MkSpec (sp_name s) (negb (sp_hide s))
  end.
Definition spec_text (s : site_spec) : string :=
  if str_eqb (sp_name s) "Mary" then "You have selected Mary, age 52"
  else if str_eqb (sp_name s) "Paul" then "You have selected Paul, age 51"
  else if str_eqb (sp_name s) "Peter" then "You have selected Peter, age 50"
  else "(no person selected)".

(** The event of an action: an option has its number as value, and the button is for the
    other value of [hideViewer]. *)
Definition event_of (s : site_spec) (a : action) : site_event :=
  match a with
  | Pick n => Choose (Itoa (Z.of_nat n))
  | Flip => Toggle (negb (sp_hide s))
  end.
Fixpoint run_actions (s : site_spec) (L : site) (acts : list action) : GM site :=
  match acts with
  | [] => mret L
  | a :: acts => L ← site_step range_set sort_Sort L (event_of s a); run_actions (spec_action s a) L acts
  end.

(** [w] is a page in the state [s]. *)
Definition at_spec w L (s : site_spec) : Prop :=
  ∃ cur, running main_persons w L main_people cur (sp_hide s) ∧ name_of (w_ext w) cur = sp_name s.

(** The names of the people, sorted. *)
Lemma page_names w L I a us cur hide ss t :
  page main_persons w L I a main_people us cur hide ss t →
  "" :: map (name_of (w_ext w)) us = site_names.
Proof.
  intros [_ _ _ _ _ _ _ _ _ _ _ Hperm Hsrt _ Hst]. pose proof Sort.le_trans. pose proof Sort.le_antisym.
  unfold site_names. f_equal. apply (Sorted_unique Sort.le); [by apply sorted_names|repeat constructor|].
  rewrite (Permutation_map (name_of (w_ext w)) Hperm). unfold main_people, name_of. cbn. rewrite Hst. cbn.
  exact (Permutation_rev ["Peter"; "Paul"; "Mary"]).
Qed.

Lemma action_run w L s a :
  at_spec w L s → (match a with Pick n => n < length site_names | Flip => True end) →
  ∃ w' L', site_step range_set sort_Sort L (event_of s a) w = Ok (L', w') ∧ at_spec w' L' (spec_action s a).
Proof.
  intros (cur & (I & p & us & ss & t & Hpg & Hh) & Hcur) Ha.
  pose proof (page_names _ _ _ _ _ _ _ _ _ Hpg) as Hnames. destruct a as [n|]; cbn [event_of spec_action].
  - assert (∃ v, (None :: us) !! n = Some v) as [v Hv].
    { apply lookup_lt_is_Some_2. rewrite <-Hnames in Ha. cbn in Ha |- *. by rewrite length_map in Ha. }
    destruct (site_Choose_run _ range_set range_set_ok sort_Sort Hsort w L I p main_people us cur _ ss t n v Hpg Hv)
      as (w' & us' & ss' & t' & Hrun & Hpg').
    exists w', L. split; [exact Hrun|]. exists v. split; [by exists I, p, us', ss', t'|]. cbn [sp_name].
    rewrite (name_of_ext (w_ext w)) by (by rewrite (pg_store _ _ _ _ _ _ _ _ _ _ _ Hpg), (pg_store _ _ _ _ _ _ _ _ _ _ _ Hpg')).
    rewrite <-Hnames. change ("" :: map (name_of (w_ext w)) us) with (name_of (w_ext w) <$> (None :: us)).
    by rewrite list_lookup_fmap, Hv.
  - destruct (site_Toggle_run _ range_set range_set_ok sort_Sort Hsort w L I p main_people us cur _ ss t Hpg Hh)
      as (w' & L' & I' & t' & Hrun & Hpg' & Hh').
    exists w', L'. split; [exact Hrun|]. exists cur. split; [by exists I', p, us, ss, t'|]. cbn [sp_name].
    by rewrite (name_of_ext (w_ext w)) by (by rewrite (pg_store _ _ _ _ _ _ _ _ _ _ _ Hpg), (pg_store _ _ _ _ _ _ _ _ _ _ _ Hpg')).
Qed.

Lemma run_actions_run acts w L s :
  at_spec w L s → Forall (λ a, match a with Pick n => n < length site_names | Flip => True end) acts →
  ∃ w' L', run_actions s L acts w = Ok (L', w') ∧ at_spec w' L' (foldl spec_action s acts).
Proof.
  intros Hs Hacts. revert w L s Hs. induction Hacts as [|a acts Ha _ IH]; intros w L s Hs; cbn [run_actions foldl].
  - by exists w, L.
  - destruct (action_run w L s a Hs Ha) as (w1 & L1 & H1 & Hs1). destruct (IH w1 L1 _ Hs1) as (w2 & L2 & H2 & Hs2).
    exists w2, L2. split; [by mstep H1|done].
Qed.

(** What a page in a state draws. *)
Lemma at_spec_draw w L s :
  at_spec w L s →
  ∃ e, draw range_set L w =
    Ok ((select_elem (SP := SP) e (select_at (l_select L)) (options_from 0 site_names),
         if sp_hide s then None else Some (El.P None [ES (spec_text s)])), w) ∧
    ((e = "" ∧ sp_name s = "") ∨ ∃ n, e = Itoa (Z.of_nat n) ∧ site_names !! n = Some (sp_name s)) ∧
    size (subs (root w)) = if sp_hide s then 1 else 2.
Proof.
  intros (cur & (I & p & us & ss & t & Hpg & Hh) & Hcur). pose proof (page_names _ _ _ _ _ _ _ _ _ Hpg) as Hnames.
  exists (currEntry ss). split_and!.
  - rewrite (draw_run _ range_set w L I p main_people us cur _ ss t Hpg Hh), Hnames. do 3 f_equal.
    destruct (sp_hide s); [done|]. do 4 f_equal. unfold spec_text. rewrite <-Hcur.
    pose proof (pg_store _ _ _ _ _ _ _ _ _ _ _ Hpg) as Hst. unfold viewer_text, name_of. rewrite Hst.
    destruct (pg_cur _ _ _ _ _ _ _ _ _ _ _ Hpg) as [->|Hin]; [done|].
    unfold main_people in Hin. rewrite !elem_of_cons in Hin. by destruct Hin as [->|[->|[->|?%elem_of_nil]]].
  - destruct (pg_entry _ _ _ _ _ _ _ _ _ _ _ Hpg) as [[He ->]|(n & v & He & Hn & Hv)]; [left; by rewrite <-Hcur|].
    right. exists n. split; [done|]. rewrite <-Hcur, <-Hv, <-Hnames.
    change ("" :: map (name_of (w_ext w)) us) with (name_of (w_ext w) <$> (None :: us)). by rewrite list_lookup_fmap, Hn.
  - pose proof (pg_tree _ _ _ _ _ _ _ _ _ _ _ Hpg) as [Himp Hlive Hsep _ _].
    assert (subs (root w) = dom (live_subs L I)) as ->.
    { apply set_eq. intros x. by rewrite (imp_live _ _ Himp), Hlive, elem_of_dom. }
    rewrite size_dom, Hh. unfold live_subs. destruct (l_viewer L) as [v|].
    + rewrite map_size_insert_None, map_size_singleton; [done|]. apply lookup_singleton_ne. by apply Hsep.
    + by rewrite map_size_singleton.
Qed.

(** C4: the globalstate site does what it is meant to.  With a document URL that parses it
    is mounted with nobody selected; and after whatever the user picks and clicks, the
    select box has an option for nobody and one for each person, sorted by name, with the
    current person selected, and the viewer, unless it is hidden, shows the current person
    and the age; the chooser and the viewer have the only live subscriptions, so hiding
    the viewer leaves none behind. *)
Theorem globalstate_refines get acts :
  Forall (λ a, match a with Pick n => n < length site_names | Flip => True end) acts →
  ∃ L0 w0, mount_site range_set sort_Sort (Some get) init_site = Ok (L0, w0) ∧
  ∃ L w e, run_actions (MkSpec "" false) L0 acts w0 = Ok (L, w) ∧
    let s := foldl spec_action (MkSpec "" false) acts in
    draw range_set L w =
      Ok ((select_elem (SP := site_select range_set) e (select_at (l_select L)) (options_from 0 site_names),
           if sp_hide s then None else Some (El.P None [ES (spec_text s)])), w) ∧
    ((e = "" ∧ sp_name s = "") ∨ ∃ n, e = Itoa (Z.of_nat n) ∧ site_names !! n = Some (sp_name s)) ∧
    size (subs (root w)) = if sp_hide s then 1 else 2.
Proof.
  intros Hacts. destruct (mount_site_run get) as (L0 & w0 & H0 & Hrun0). exists L0, w0. split; [exact H0|].
  assert (at_spec w0 L0 (MkSpec "" false)) as Hs0 by (exists None; split; [exact Hrun0|reflexivity]).
  destruct (run_actions_run acts w0 L0 _ Hs0 Hacts) as (w & L & Hrun & Hs).
  destruct (at_spec_draw w L _ Hs) as (e & Hdraw). exists L, w, e. exact (conj Hrun Hdraw).
Qed.
End Mounting.

(** ** A sort with the documented behaviour

    The loops of [insertionSort], with which [sort.Sort] sorts short slices. *)
Section InsertionSort.
Context (Len : GM Z) (Less : Z → Z → GM bool) (Swap : Z → Z → GM unit).

Fixpoint insert_down (j : nat) : GM unit :=
  match j with
  | O => mret tt
  | S j' =>
      b ← Less (Z.of_nat j) (Z.of_nat j');
      if b : bool then _ ← Swap (Z.of_nat j) (Z.of_nat j'); insert_down j' else mret tt
  end.
Fixpoint insert_all (i k : nat) : GM unit :=
  match k with
  | O => mret tt
  | S k => _ ← insert_down i; insert_all (S i) k
  end.
Definition insertionSort : GM unit := n ← Len; insert_all 1 (Z.to_nat n - 1).
End InsertionSort.

Section InsertionSorts.
Context (R : list ptr → world gmem) (lt : ptr → ptr → bool) (Less : Z → Z → GM bool) (Swap : Z → Z → GM unit) (l : list ptr).
Hypothesis Htot : ∀ x y, lt x y = true → lt y x = false.
Hypothesis Htrans : ∀ x y z, lt y x = false → lt z y = false → lt z x = false.
Hypothesis HLess : ∀ l' i j x y, l' ≡ₚ l → l' !! i = Some x → l' !! j = Some y →
  Less (Z.of_nat i) (Z.of_nat j) (R l') = Ok (lt x y, R l').
Hypothesis HSwap : ∀ l' i j x y, l' ≡ₚ l → l' !! i = Some x → l' !! j = Some y →
  Swap (Z.of_nat i) (Z.of_nat j) (R l') = Ok (tt, R (<[i := y]> (<[j := x]> l'))).
Let le x y := lt y x = false.

Lemma sorted_snoc p x : StronglySorted le p → (∀ y, y ∈ p → le y x) → StronglySorted le (p ++ [x]).
Proof.
  intros Hp Hx. apply StronglySorted_app. split_and!; [|done|repeat constructor].
  intros y z Hy ->%list_elem_of_singleton. by apply Hx.
Qed.
Lemma swap_middle (p : list ptr) x y suf :
  <[S (length p) := y]> (<[length p := x]> ((p ++ [y]) ++ x :: suf)) = p ++ x :: y :: suf.
Proof.
  rewrite <-app_assoc. cbn [app]. rewrite (insert_app_r_alt p) by lia. rewrite Nat.sub_diag. cbn [insert list_insert].
  rewrite (insert_app_r_alt p) by lia. by replace (S (length p) - length p) with 1 by lia.
Qed.

Lemma insert_down_run p x suf :
  p ++ x :: suf ≡ₚ l → StronglySorted le p →
  ∃ p', insert_down Less Swap (length p) (R (p ++ x :: suf)) = Ok (tt, R (p' ++ suf)) ∧
    p' ≡ₚ p ++ [x] ∧ StronglySorted le p'.
Proof.
  revert x suf. induction p as [|y p IH] using rev_ind; intros x suf Hl Hs.
  { exists [x]. split; [done|]. split; [done|repeat constructor]. }
  rewrite length_app, Nat.add_comm. cbn [length Nat.add insert_down]. set (c := (p ++ [y]) ++ x :: suf) in *.
  assert (c !! S (length p) = Some x) as Hx by (apply list_lookup_middle; rewrite length_app; cbn; lia).
  assert (c !! length p = Some y) as Hy by (unfold c; rewrite <-app_assoc; by apply list_lookup_middle).
  mstep (HLess c (S (length p)) (length p) x y Hl Hx Hy).
  apply StronglySorted_app in Hs as (Hy' & Hp & _).
  assert (∀ z, z ∈ p → le z y) as Hzy by (intros z Hz; apply Hy'; [done|by left]).
  destruct (lt x y) eqn:Hlt.
  - mstep (HSwap c (S (length p)) (length p) x y Hl Hx Hy). unfold c. rewrite swap_middle.
    destruct (IH x (y :: suf)) as (p' & Hr & Hperm & Hs'); [|done|].
    { rewrite <-Hl. unfold c. rewrite <-app_assoc. cbn. by rewrite (Permutation_swap x y). }
    exists (p' ++ [y]). rewrite <-app_assoc. split; [exact Hr|]. split.
    + rewrite Hperm, <-!app_assoc. cbn. by rewrite (Permutation_swap x y).
    + apply sorted_snoc; [done|]. intros z. rewrite Hperm, elem_of_app.
      intros [Hz| ->%list_elem_of_singleton]; [by apply Hzy|by apply Htot].
  - exists ((p ++ [y]) ++ [x]). rewrite <-(app_assoc (p ++ [y])). split; [done|]. split; [done|].
    apply sorted_snoc; [by apply sorted_snoc|]. intros z. rewrite elem_of_app.
    intros [Hz| ->%list_elem_of_singleton]; [|done]. by apply (Htrans z y x); [apply Hzy|].
Qed.
Lemma insert_all_run k p suf :
  p ++ suf ≡ₚ l → StronglySorted le p → length suf = k →
  ∃ l', insert_all Less Swap (length p) k (R (p ++ suf)) = Ok (tt, R l') ∧ l' ≡ₚ l ∧ StronglySorted le l'.
Proof.
  revert p suf. induction k as [|k IH]; intros p [|x suf] Hl Hs [=]; cbn [insert_all].
  - exists p. rewrite app_nil_r in *. done.
  - destruct (insert_down_run p x suf Hl Hs) as (p' & Hr & Hperm & Hs'). mstep Hr.
    assert (length p' = S (length p)) as <- by (rewrite Hperm, length_app; cbn; lia).
    apply IH; [|done|done]. by rewrite Hperm, <-app_assoc.
Qed.
End InsertionSorts.

Lemma insertionSort_ok : sort_ok insertionSort.
Proof.
  intros R lt Len Less Swap l Htot Htrans HLen HLess HSwap.
  unfold insertionSort. mstep (HLen l ltac:(done)). destruct l as [|x l].
  - exists []. split; [done|]. split; [done|constructor].
  - destruct (insert_all_run R lt Less Swap (x :: l) Htot Htrans HLess HSwap (length l) [x] l) as (l' & Hr & Hperm & Hs);
      [done|repeat constructor|done|].
    exists l'. split; [|split; [done|by apply StronglySorted_Sorted]].
    rewrite Nat2Z.id. cbn [length]. rewrite Nat.sub_1_r. exact Hr.
Qed.

(** The site with that sort, three clicks later. *)
Lemma globalstate_refines_witness :
  let acts := [Pick 2; Flip; Flip] in
  ∃ L0 w0, mount_site elements insertionSort (Some (λ _, "")) init_site = Ok (L0, w0) ∧
  ∃ L w e, run_actions elements insertionSort (MkSpec "" false) L0 acts w0 = Ok (L, w) ∧
    draw elements L w =
      Ok ((select_elem (SP := site_select elements) e (select_at (l_select L)) (options_from 0 site_names),
           Some (El.P None [ES "You have selected Paul, age 51"])), w).
Proof.
  destruct (globalstate_refines elements (λ l, reflexivity _) insertionSort insertionSort_ok (λ _, "") [Pick 2; Flip; Flip])
    as (L0 & w0 & H0 & L & w & e & Hrun & Hdraw & _).
  - repeat constructor.
  - exists L0, w0. split; [exact H0|]. exists L, w, e. split; [exact Hrun|exact Hdraw].
Defined.

(** A select box with the labels of nobody and one person, and one that shows nobody. *)
Lemma Select_tracks_witness :
  let ps := MkSelectProps None (Some (Some 0)) None : select_props_of in
  let w := World empty_js (GMem [] [] [ICell (labels_of [Some 1]) false] [] [] newRootNode) in
  ∃ w0 w', mount_instance (buildSelect (SP := site_select elements)) (JObject (wrap_props (RV := gvalues) (Some (PSelect ps)) [])) w = Ok (0, w') ∧
    retracked (SP := site_select elements) w0 w' 0 2 (MkSelectState "" None None) (labels_of [Some 1]).
Proof.
  intros ps w.
  destruct (Select_tracks (SP := site_select elements) w ps (labels_of [Some 1])) as [(w0 & w' & _ & _ & Hm & Hr & _) _].
  - intros l. cbn. rewrite lookup_empty. by intros [].
  - intros j. apply ranges_labels. reflexivity.
  - exists w0, w'. split; [exact Hm|exact Hr].
Defined.
Lemma Select_selects_what_it_shows_witness :
  let ls := labels_of [] in
  let ps := MkSelectProps None None (Some (personSelected (chooser_at 0))) : select_props_of in
  let w := World (one_instance (RV := gvalues) (Some (PSelect ps)) (SSelect (MkSelectState "" (Some 0) (Some 0))))
             (GMem [] [] [] [ICell (keys_from 0 ls) false] [ICell (label_map ls) false] newRootNode) in
  Select_Render (SP := site_select elements) (select_at 0) w =
    Ok (select_elem (SP := site_select elements) "" (select_at 0) [option_elem "0" ""], w) ∧
  changeEntry_OnChange (SP := site_select elements) (select_at 0) "7" w =
    Panic (PanicMsg ("Select component selected value " +:+ Strconv.Quote "7" +:+ " that we don't know about")).
Proof.
  intros ls ps w.
  destruct (Select_selects_what_it_shows (SP := site_select elements) w 0 2 (MkSelectState "" (Some 0) (Some 0)) ls [""] ps
    (personSelected (chooser_at 0))) as (H1 & _ & H3).
  - apply one_instance_inst.
  - apply one_instance_props.
  - reflexivity.
  - exists 0, 0. repeat split.
  - constructor; [reflexivity|constructor].
  - split; [exact H1|]. apply H3; [discriminate|]. intros [|n] Hn; [discriminate|cbn in Hn; lia].
Defined.

