(* ===== verification/Timer.v ===== *)
(** * The timer

    Models [examples/timer/timer.go] of [src/_vendor/src/myitcv.io/react] with its generated
    proxies: a component whose goroutine counts the ticks of a [time.Ticker].

    GopherJS runs a goroutine until it blocks, so what happens is a sequence of events: a
    second passes and the ticker sends, the goroutine takes a tick from the channel, the
    component is unmounted.  A ticker has a channel with room for one tick and drops what
    does not fit; [Stop] ends the sending and does not close the channel.

    [secondsElapsed] is a [float32] that starts at 0 and is only ever incremented, so it is
    an integer; [round32] is the rounding of its addition, to 24 significant bits with
    halves to even. *)

From stdpp Require Import pretty.
From S2P Require Import Prelude GoLib React Mount Elements.

(** ** float32, for integers *)
Definition round32 (x : Z) : Z :=
  let e := (Z.log2 x - 23)%Z in
  if (e <=? 0)%Z then x
  else
    let q := (x / 2 ^ e)%Z in
    let r := (x mod 2 ^ e)%Z in
    let half := (2 ^ (e - 1))%Z in
    let up := (half <? r)%Z || ((r =? half)%Z && Z.odd q) in
    ((if up then q + 1 else q) * 2 ^ e)%Z.

(** ** The runtime *)
Record ticker := Ticker { waiting : bool; running : bool }.

Record TimerDef := { timer_def : ComponentDef }.
Record TimerState := MkState { ticker_ : ptr; secondsElapsed : Z }.

#[export] Instance TimerState_eq_dec : EqDecision TimerState.
Proof. solve_decision. Defined.

#[export] Instance timer_values : ReactValues := {|
  Props := Empty_set;
  State := TimerState;
  Handler := Empty_set;
  Props_EqualsIntf p := match p with end;
  State_EqualsIntf s v := Ok (bool_decide (s = v));
|}.

(** The tickers there are, and the goroutines: the component and the ticker of each. *)
Record rt := Rt { tickers : list ticker; goroutines : list (TimerDef * nat) }.
Abbreviation TM := (M (world rt)).
Definition on_rt (f : rt → rt) : TM unit := mmodify (λ w, World (w_js w) (f (w_ext w))).
Definition set_ticker (a : nat) (t : ticker) (m : rt) : rt := Rt (<[a := t]> (tickers m)) (goroutines m).

Definition NewTicker : TM nat := λ w,
  Ok (length (tickers (w_ext w)),
      World (w_js w) (Rt (tickers (w_ext w) ++ [Ticker false true]) (goroutines (w_ext w)))).
Definition get_ticker (a : nat) : TM ticker := λ w,
  t ← of_option NilDeref (tickers (w_ext w) !! a); Ok (t, w).
Definition Stop (p : ptr) : TM unit :=
  a ← mlift (of_option NilDeref p);
  t ← get_ticker a;
  on_rt (set_ticker a (Ticker (waiting t) false)).
Definition go_ (t : TimerDef) (a : nat) : TM unit :=
  on_rt (λ m, Rt (tickers m) (goroutines m ++ [(t, a)])).

(** ** The component *)
Definition State_ (t : TimerDef) : TM TimerState := ComponentDef_State (timer_def t).
Definition SetState (t : TimerDef) (s : TimerState) : TM unit := ComponentDef_SetState (timer_def t) s.

Definition Timer_ComponentWillMount (t : TimerDef) : TM unit :=
  tick ← NewTicker;
  s ← State_ t;
  _ ← SetState t (MkState (Some tick) (secondsElapsed s));
  go_ t tick.

(** One round of the goroutine's loop: it is blocked while no tick is waiting. *)
Definition timer_round (t : TimerDef) (tick : nat) : TM unit :=
  c ← get_ticker tick;
  if waiting c then
    _ ← on_rt (set_ticker tick (Ticker false (running c)));
    c ← State_ t;
    SetState t (MkState (ticker_ c) (round32 (secondsElapsed c + 1)))
  else mret tt.

Definition Timer_ComponentWillUnmount (t : TimerDef) : TM unit :=
  s ← State_ t;
  Stop (ticker_ s).

Definition timer_view (n : Z) : Element :=
  El.Div None [El.Div None [ES ("Seconds elapsed " +:+ pretty n)]].
Definition Timer_Render (t : TimerDef) : TM Element :=
  s ← State_ t;
  mret (timer_view (secondsElapsed s)).

Definition buildTimer (cd : ComponentDef) : Component rt :=
  let t := {| timer_def := cd |} in {|
  cmp_type := RType "TimerDef" "myitcv.io/react/examples/timer";
  RendersElement := Timer_Render t;
  ComponentWillMount := Some (Timer_ComponentWillMount t);
  ComponentDidMount := None;
  ComponentWillReceivePropsIntf := None;
  GetInitialStateIntf := Some (mret (MkState None 0));
  ComponentWillUnmount := Some (Timer_ComponentWillUnmount t);
|}.
Definition Timer : TM Element := CreateElement buildTimer None [].

(** ** What happens *)
Inductive event := Second | Wake | Unmount.

(** [a] is the ticker of the timer and [g] its goroutine. *)
Definition timer_event (this : loc) (a g : nat) (e : event) : TM unit :=
  match e with
  | Second =>
      t ← get_ticker a;
      if running t then on_rt (set_ticker a (Ticker true true)) else mret tt
  | Wake =>
      w ← mget id;
      '(t, tick) ← mlift (of_option NilDeref (goroutines (w_ext w) !! g));
      timer_round t tick
  | Unmount => unmount_instance buildTimer this
  end.
Fixpoint timer_run (this : loc) (a g : nat) (es : list event) : TM unit :=
  match es with [] => mret tt | e :: es => _ ← timer_event this a g e; timer_run this a g es end.

(** ** What it is to do: count the ticks it received *)
Record clock := Clock { ticks : Z; pending : bool; going : bool }.
Definition clock_step (c : clock) (e : event) : clock :=
  match e with
  | Second => if going c then Clock (ticks c) true true else c
  | Wake => if pending c then Clock (ticks c + 1) false (going c) else c
  | Unmount => Clock (ticks c) (pending c) false
  end.
Definition clock_run : clock → list event → clock := foldl clock_step.
Definition clock_start : clock := Clock 0 false true.

(** The number a [float32] stops at when it is incremented. *)
Definition max_count : Z := 2 ^ 24.
Definition shown (c : clock) : Z := Z.min (ticks c) max_count.

(** ** Proofs *)
Lemma round32_exact x : (0 ≤ x ≤ 2 ^ 24)%Z → round32 x = x.
Proof.
  intros Hx. destruct (decide (x = 2 ^ 24)%Z) as [->|Hne]; [reflexivity|].
  unfold round32. assert (Z.log2 x ≤ 23)%Z.
  { destruct (decide (x = 0)%Z) as [->|]; [done|]. apply Z.lt_succ_r, Z.log2_lt_pow2; lia. }
  by destruct (Z.leb_spec (Z.log2 x - 23) 0); [|lia].
Qed.

(** Incrementing a [float32] that counts. *)
Lemma round32_count n : (0 ≤ n)%Z → round32 (Z.min n max_count + 1) = Z.min (n + 1) max_count.
Proof.
  unfold max_count. intros Hn. destruct (Z.lt_ge_cases n (2 ^ 24)).
  - rewrite !Z.min_l by lia. apply round32_exact. lia.
  - rewrite !Z.min_r by lia. reflexivity.
Qed.

(** [w] holds a timer that shows the clock [c], and the re-renders [us] were asked for. *)
Record timing (w : world rt) (this i : loc) (a g : nat) (c : clock) (us : list loc) : Prop := {
  tm_inst : inst (w_js w) this i (MkState (Some a) (shown c));
  tm_ticker : tickers (w_ext w) !! a = Some (Ticker (pending c) (going c));
  tm_goroutine : goroutines (w_ext w) !! g = Some ({| timer_def := mk_def this |}, a);
  tm_ticks : (0 ≤ ticks c)%Z;
  tm_updates : updates (w_js w) = us ++ replicate (Z.to_nat (shown c)) this;
}.

Lemma get_ticker_run (w : world rt) a t : tickers (w_ext w) !! a = Some t → get_ticker a w = Ok (t, w).
Proof. intros Ht. unfold get_ticker. by rewrite Ht. Qed.

Lemma set_ticker_at a t m : a < length (tickers m) → tickers (set_ticker a t m) !! a = Some t.
Proof. intros Ha. by apply list_lookup_insert_eq. Qed.

(** Only the ticker changes. *)
Lemma timing_ticker (w : world rt) this i a g c us p b :
  timing w this i a g c us →
  timing (World (w_js w) (set_ticker a (Ticker p b) (w_ext w))) this i a g (Clock (ticks c) p b) us.
Proof.
  intros [Hi Ht Hg Hc Hu]. split; try done. cbn. apply list_lookup_insert_eq. by eapply lookup_lt_Some.
Qed.

Lemma timer_round_run (w : world rt) this i a g c us :
  timing w this i a g c us →
  ∃ w', timer_round {| timer_def := mk_def this |} a w = Ok (tt, w') ∧ timing w' this i a g (clock_step c Wake) us.
Proof.
  intros Hw. unfold timer_round. mstep (get_ticker_run _ _ _ (tm_ticker _ _ _ _ _ _ _ Hw)). cbn [waiting running].
  destruct (pending c) eqn:Hp; cbn [clock_step]; rewrite Hp; [|by exists w].
  set (w1 := World (w_js w) (set_ticker a (Ticker false (going c)) (w_ext w))).
  mstep (eq_refl : on_rt (set_ticker a (Ticker false (going c))) w = Ok (tt, w1)).
  destruct (timing_ticker w this i a g c us false (going c) Hw) as [Hi Ht Hg Hc Hu].
  unfold State_, SetState. cbn [timer_def]. mstep (State_inst w1 _ _ _ Hi). cbn [ticker_ secondsElapsed].
  cbn [ticks] in Hc. unfold shown. cbn [ticks]. rewrite round32_count by done.
  destruct (SetState_evolves w1 this i (MkState (Some a) (shown c)) (MkState (Some a) (Z.min (ticks c + 1) max_count)) _ Hi eq_refl)
    as (j' & Hr & Hi' & _ & Hu' & _).
  { intros Heq%bool_decide_eq_true_1. exact Heq. }
  exists (World j' (w_ext w1)). split; [exact Hr|]. split; cbn; try done; [lia|].
  rewrite Hu'. cbn [updates w_js w1]. rewrite (tm_updates _ _ _ _ _ _ _ Hw), <-app_assoc. f_equal.
  unfold shown. cbn [ticks].
  destruct (Z.lt_ge_cases (ticks c) max_count) as [Hlt|Hge].
  - rewrite bool_decide_eq_false_2 by (intros [= Heq]; rewrite !Z.min_l in Heq by lia; lia).
    rewrite !Z.min_l by lia. by rewrite Z2Nat.inj_add, replicate_add by lia.
  - rewrite !Z.min_r by lia. by rewrite bool_decide_eq_true_2, app_nil_r.
Qed.

Lemma timer_event_run (w : world rt) this i a g c us e :
  timing w this i a g c us →
  ∃ w', timer_event this a g e w = Ok (tt, w') ∧ timing w' this i a g (clock_step c e) us.
Proof.
  intros Hw. destruct e; cbn [timer_event].
  - mstep (get_ticker_run _ _ _ (tm_ticker _ _ _ _ _ _ _ Hw)). cbn [running clock_step].
    destruct (going c) eqn:Hg; [|by exists w].
    eexists. split; [reflexivity|]. by apply timing_ticker.
  - mstep (eq_refl : mget id w = Ok (w, w)). rewrite (tm_goroutine _ _ _ _ _ _ _ Hw).
    mstep (eq_refl : mlift (Ok ({| timer_def := mk_def this |}, a)) w = Ok (({| timer_def := mk_def this |}, a), w)).
    by apply timer_round_run.
  - unfold unmount_instance. cbn [buildTimer ComponentWillUnmount opt_call]. unfold Timer_ComponentWillUnmount, State_.
    cbn [timer_def]. mstep (State_inst w _ _ _ (tm_inst _ _ _ _ _ _ _ Hw)). unfold Stop. cbn [ticker_].
    mstep (eq_refl : mlift (of_option NilDeref (Some a)) w = Ok (a, w)).
    mstep (get_ticker_run _ _ _ (tm_ticker _ _ _ _ _ _ _ Hw)). cbn [waiting].
    eexists. split; [reflexivity|]. by apply timing_ticker.
Qed.

Lemma timer_run_run (w : world rt) this i a g c us es :
  timing w this i a g c us →
  ∃ w', timer_run this a g es w = Ok (tt, w') ∧ timing w' this i a g (clock_run c es) us.
Proof.
  revert w c. induction es as [|e es IH]; intros w c Hw; cbn [timer_run].
  - by exists w.
  - destruct (timer_event_run w this i a g c us e Hw) as (w1 & H1 & Hw1). mstep H1. by apply IH.
Qed.

(** Mounting starts the ticker and the goroutine. *)
Lemma WillMount_run (w : world rt) this i :
  inst (w_js w) this i (MkState None 0) →
  ∃ w', Timer_ComponentWillMount {| timer_def := mk_def this |} w = Ok (tt, w') ∧
    timing w' this i (length (tickers (w_ext w))) (length (goroutines (w_ext w))) clock_start (updates (w_js w) ++ [this]).
Proof.
  intros Hi. unfold Timer_ComponentWillMount. set (k := length (tickers (w_ext w))).
  set (m1 := Rt (tickers (w_ext w) ++ [Ticker false true]) (goroutines (w_ext w))).
  mstep (eq_refl : NewTicker w = Ok (k, World (w_js w) m1)).
  unfold State_, SetState. cbn [timer_def]. mstep (State_inst (World (w_js w) m1) _ _ _ Hi). cbn [secondsElapsed].
  destruct (SetState_evolves (World (w_js w) m1) this i (MkState None 0) (MkState (Some k) 0) _ Hi eq_refl)
    as (j2 & Hr2 & Hi2 & _ & Hu2 & _); [done|].
  mstep Hr2. eexists. split; [reflexivity|]. split; cbn; try done.
  - by apply list_lookup_middle.
  - by apply list_lookup_middle.
  - rewrite Hu2. cbn. by rewrite app_nil_r.
Qed.

Lemma mount_timer_run (w : world rt) :
  heap_wf (w_js w) →
  let this := next_loc (w_js w) in
  ∃ w', mount_instance buildTimer (JObject []) w = Ok (this, w') ∧
    timing w' this (S (S this)) (length (tickers (w_ext w))) (length (goroutines (w_ext w))) clock_start
      (updates (w_js w) ++ [this]).
Proof.
  intros Hwf this. unfold mount_instance.
  destruct (create_instance_run buildTimer (JObject []) w (MkState None 0) Hwf eq_refl)
    as (j1 & Hr1 & Hi1 & _ & _ & _ & _ & _ & _ & Hu1).
  mstep Hr1. cbn [buildTimer ComponentWillMount opt_call]. fold this in Hi1 |- *.
  destruct (WillMount_run (World j1 (w_ext w)) this _ Hi1) as (w' & Hr2 & Hw'). mstep Hr2.
  exists w'. split; [reflexivity|]. cbn [w_js w_ext] in Hw'. by rewrite Hu1 in Hw'.
Qed.

(** ** The clock *)
Lemma clock_run_app c es es' : clock_run c (es ++ es') = clock_run (clock_run c es) es'.
Proof. apply foldl_app. Qed.

(** What a clock that is stopped can still count. *)
Lemma clock_stopped c es :
  going c = false → (0 ≤ ticks (clock_run c es) - ticks c ≤ if pending c then 1 else 0)%Z.
Proof.
  unfold clock_run. revert c. induction es as [|e es IH]; intros [n p b]; cbn; intros ->; [destruct p; lia|].
  destruct e; cbn.
  - apply (IH (Clock n p false) eq_refl).
  - destruct p; [pose proof (IH (Clock (n + 1) false false) eq_refl)|pose proof (IH (Clock n false false) eq_refl)];
      cbn in *; lia.
  - apply (IH (Clock n p false) eq_refl).
Qed.

Lemma clock_unmounted c es : (0 ≤ ticks (clock_run c (Unmount :: es)) - ticks c ≤ 1)%Z.
Proof.
  pose proof (clock_stopped (clock_step c Unmount) es eq_refl) as Hs.
  change (clock_run c (Unmount :: es)) with (clock_run (clock_step c Unmount) es).
  change (ticks (clock_step c Unmount)) with (ticks c) in Hs. destruct (pending _); lia.
Qed.

(** It counts at most the seconds there were. *)
Fixpoint seconds (es : list event) : Z :=
  match es with [] => 0 | Second :: es => 1 + seconds es | _ :: es => seconds es end.
Lemma clock_bound c es :
  (ticks (clock_run c es) + (if pending (clock_run c es) then 1 else 0) ≤
   ticks c + (if pending c then 1 else 0) + seconds es)%Z.
Proof.
  unfold clock_run. revert c. induction es as [|e es IH]; intros [n p b]; cbn [foldl]; [cbn; lia|].
  pose proof (IH (clock_step (Clock n p b) e)) as Hb.
  destruct e, p, b; cbn in Hb |- *; lia.
Qed.

(** C15: the timer shows the seconds.  Mounted in any world, and whatever order the ticks of
    its ticker, the rounds of its goroutine and an unmount come in, nothing panics, and
    the timer shows the number of ticks it received and asked for one re-render each,
    until the number is 2^24: there the [float32] stops.  It receives at most one tick
    for each second, and at most one after it was unmounted; its goroutine stays. *)
Theorem timer_counts (w : world rt) es :
  heap_wf (w_js w) →
  let this := next_loc (w_js w) in
  let a := length (tickers (w_ext w)) in
  let g := length (goroutines (w_ext w)) in
  ∃ w0 w', mount_instance buildTimer (JObject []) w = Ok (this, w0) ∧
    timer_run this a g es w0 = Ok (tt, w') ∧
    let c := clock_run clock_start es in
    Timer_Render {| timer_def := mk_def this |} w' = Ok (timer_view (Z.min (ticks c) (2 ^ 24)), w') ∧
    updates (w_js w') = (updates (w_js w) ++ [this]) ++ replicate (Z.to_nat (Z.min (ticks c) (2 ^ 24))) this ∧
    goroutines (w_ext w') !! g = Some ({| timer_def := mk_def this |}, a) ∧
    (0 ≤ ticks c ≤ seconds es)%Z ∧
    (∀ es', 0 ≤ ticks (clock_run clock_start (es ++ Unmount :: es')) - ticks c ≤ 1)%Z.
Proof.
  intros Hwf this a g. destruct (mount_timer_run w Hwf) as (w0 & H0 & Hw0).
  destruct (timer_run_run w0 _ _ _ _ _ _ es Hw0) as (w' & H1 & [Hi Ht Hg Hc Hu]).
  exists w0, w'. split; [exact H0|]. split; [exact H1|]. split.
  - unfold Timer_Render, State_. cbn [timer_def]. by mstep (State_inst w' _ _ _ Hi).
  - split; [exact Hu|]. split; [exact Hg|]. split.
    + pose proof (clock_bound clock_start es). cbn in *. split; [exact Hc|]. destruct (pending _); lia.
    + intros es'. rewrite clock_run_app. apply clock_unmounted.
Qed.

(** On an empty page: two seconds, the second while a tick is waiting, and a tick that
    arrives after the unmount. *)
Lemma timer_counts_witness :
  ∃ w', timer_run 0 0 0 [Second; Wake; Second; Second; Unmount; Wake; Second; Wake]
      (World (JS {[0 := [(reactCompProps, JObject []); (reactCompState, JRef 1)]; 1 := [(nestedState, JRef 2)];
                   2 := [(reactCompLastState, JState (MkState (Some 0) 0))]]} 3 ∅ [] [0])
         (Rt [Ticker false true] [({| timer_def := mk_def 0 |}, 0)])) = Ok (tt, w') ∧
    Timer_Render {| timer_def := mk_def 0 |} w' = Ok (timer_view 2, w').
Proof.
  destruct (timer_counts (World empty_js (Rt [] [])) [Second; Wake; Second; Second; Unmount; Wake; Second; Wake])
    as (w0 & w' & H0 & H1 & H2 & _).
  - intros l. cbn. rewrite lookup_empty. by intros [].
  - exists w'. vm_compute in H0. injection H0 as <-. split; [exact H1|exact H2].
Defined.
