(* ===== verification/GoFmt.v ===== *)
(** * Printing numbers

    [time.Duration.String] and the verb [%.3f] of package [fmt] for a [float64], as in
    Go 1.10.  A [float64] is a value of [SpecFloat] of the Standard Library, with 53 bits
    of precision. *)

From Stdlib Require Import Floats.SpecFloat.
From stdpp Require Import pretty.
From S2P Require Import Prelude GoLib.
#[local] Open Scope Z_scope.

(** ** Durations, in nanoseconds *)
Definition Nanosecond : Z := 1.
Definition Microsecond : Z := 1000 * Nanosecond.
Definition Millisecond : Z := 1000 * Microsecond.
Definition DurSecond : Z := 1000 * Millisecond.

Definition digit (d : Z) : string := String (Ascii.ascii_of_N (Z.to_N (48 + d))) "".

(** [fmtFrac]: the last [prec] digits of [v] as a fraction, without trailing zeros, in
    front of [acc]; and what is left of [v]. *)
Fixpoint fmtFrac_loop (prec : nat) (v : Z) (print : bool) (acc : string) : string * bool * Z :=
  match prec with
  | O => (acc, print, v)
  | S prec =>
      let d := v mod 10 in
      let print := print || negb (d =? 0) in
      fmtFrac_loop prec (v / 10) print (if print then digit d +:+ acc else acc)
  end.
Definition fmtFrac (v : Z) (prec : nat) (acc : string) : string * Z :=
  let '(acc, print, v) := fmtFrac_loop prec v false acc in
  ((if print then "." +:+ acc else acc), v).
(** [fmtInt]: the digits of [v], at least one. *)
Definition fmtInt (v : Z) (acc : string) : string := pretty v +:+ acc.

(** [uint64(d)], negated for a negative [d]. *)
Definition Duration_String (d : Z) : string :=
  let neg := d <? 0 in
  let u := Z.abs d in
  if u =? 0 then "0s"
  else
    let s :=
      if u <? DurSecond then
        let '(prec, unit_) :=
          if u <? Microsecond then (O, "ns")
          else if u <? Millisecond then (3%nat, "µs")
          else (6%nat, "ms") in
        let '(s, u) := fmtFrac u prec unit_ in
        fmtInt u s
      else
        let '(s, u) := fmtFrac u 9 "s" in
        let s := fmtInt (u mod 60) s in
        let u := u / 60 in
        if 0 <? u then
          let s := fmtInt (u mod 60) ("m" +:+ s) in
          let u := u / 60 in
          if 0 <? u then fmtInt u ("h" +:+ s) else s
        else s in
    if neg then "-" +:+ s else s.

Example duration_strings :
  map Duration_String [0; 999; 1500; 2003000; 1500 * Millisecond; 3661 * DurSecond; -1000000]
  = ["0s"; "999ns"; "1.5µs"; "2.003ms"; "1.5s"; "1h1m1s"; "-1ms"].
Proof. reflexivity. Qed.

(** ** float64 *)
Definition float64 := spec_float.
Definition f64_of_int (n : Z) : float64 := binary_normalize 53 1024 n 0 false.
Definition f64_div : float64 → float64 → float64 := SFdiv 53 1024.
Definition f64_mul : float64 → float64 → float64 := SFmul 53 1024.

(** [n / 2^k], rounded to the nearest integer, halves to even. *)
Definition round_shift (n k : Z) : Z :=
  let q := n / 2 ^ k in
  let r := n mod 2 ^ k in
  if (2 ^ k <? 2 * r) || ((2 * r =? 2 ^ k) && Z.odd q) then q + 1 else q.

(** [%.3f] *)
Definition pad3 (n : Z) : string := digit (n / 100) +:+ digit (n / 10 mod 10) +:+ digit (n mod 10).
Definition print3 (s : bool) (thousandths : Z) : string :=
  (if s then "-" else "") +:+ pretty (thousandths / 1000) +:+ "." +:+ pad3 (thousandths mod 1000).
Definition format3 (x : float64) : string :=
  match x with
  | S754_zero s => print3 s 0
  | S754_infinity s => if s then "-Inf" else "+Inf"
  | S754_nan => "NaN"
  | S754_finite s m e =>
      print3 s (if 0 <=? e then Z.pos m * 2 ^ e * 1000 else round_shift (Z.pos m * 1000) (- e))
  end.

Example format3_values :
  format3 (f64_mul (f64_div (f64_of_int 1) (f64_of_int 3)) (f64_of_int 500)) = "166.667" ∧
  format3 (f64_of_int 500) = "500.000" ∧ format3 (f64_div (f64_of_int 0) (f64_of_int 0)) = "NaN".
Proof. vm_compute. done. Qed.
