(* ===== verification/Latency.v ===== *)
(** * The latency site

    Models [examples/sites/latency/latency.go] of [src/_vendor/src/myitcv.io/react] and its
    generated files: a component that starts one goroutine for each of 12 locations; each
    sleeps for a random time and then adds its result to the map in the state.

    GopherJS runs a goroutine until it blocks, so a goroutine that wakes up runs to its end
    before anything else happens.  The goroutines asleep are a list in the world; which of
    them wakes next is an event ([Wake]).  The draws of [math/rand] are those of [Rand]. *)

From stdpp Require Import sorting pretty.
From S2P Require Import Prelude GoLib GoFmt React Mount Elements Rand Immutable.

(** ** Data *)
Definition locations : list string :=
  ["Oregon"; "California"; "Ohio"; "Virginia"; "Ireland"; "Frankfurt"; "London"; "Mumbai";
   "Singapore"; "Seoul"; "Tokyo"; "Sydney"].

Record latency := MkLatency { dns : Z; tcp : Z; tls : Z; wait : Z; download : Z; total : Z }.

Record LatencyDef := { latency_def : ComponentDef }.
Record LatencyState := MkState { reqId : Z; output : bool; url : string; altUrl : string; latencies : ptr }.
#[export] Instance LatencyState_eq_dec : EqDecision LatencyState.
Proof. solve_decision. Defined.

Inductive handler := urlChange (l : LatencyDef) | altUrlChange (l : LatencyDef) | check (l : LatencyDef).

#[export] Instance latency_values : ReactValues := {|
  Props := Empty_set;
  State := LatencyState;
  Handler := handler;
  Props_EqualsIntf p := match p with end;
  State_EqualsIntf s v := Ok (bool_decide (s = v));
|}.

(** A goroutine that sleeps for [j_to] nanoseconds. *)
Record job := Job { j_comp : LatencyDef; j_req : Z; j_loc : string; j_to : Z }.

Abbreviation lat_map := (gmap string latency).
Record lmem := LMem { l_maps : list (icell lat_map); l_rand : Rand; l_jobs : list job; l_prevented : nat }.
Abbreviation LM := (M (world lmem)).

#[export] Instance lat_cells : HasCells lat_map lmem.
Proof.
  refine {| cells := l_maps; put_cells l m := LMem l (l_rand m) (l_jobs m) (l_prevented m) |}; by repeat intros [].
Defined.

Definition on_mem (f : lmem → lmem) : LM unit := mmodify (λ w, World (w_js w) (f (w_ext w))).
Definition PreventDefault : LM unit :=
  on_mem (λ m, LMem (l_maps m) (l_rand m) (l_jobs m) (S (l_prevented m))).
Definition go_ (j : job) : LM unit :=
  on_mem (λ m, LMem (l_maps m) (l_rand m) (l_jobs m ++ [j]) (l_prevented m)).

(** ** The component *)
Definition State_ (l : LatencyDef) : LM LatencyState := ComponentDef_State (latency_def l).
Definition SetState (l : LatencyDef) (s : LatencyState) : LM unit := ComponentDef_SetState (latency_def l) s.

Section Latency.
Context (NewSource : Z → nat → Z) (fuel : nat).
(** The order in which Go ranges over a map, and [jsx.HTMLElem]. *)
Context (range_map : lat_map → list latency).
Context (HTMLElem : string → res Element).

Definition rand_Int63n (n : Z) : LM Z := λ w,
  let m := w_ext w in
  '(v, r) ← Int63n NewSource fuel n (l_rand m);
  Ok (v, World (w_js w) (LMem (l_maps m) r (l_jobs m) (l_prevented m))).

(** *** Input *)
Definition urlChange_OnChange (l : LatencyDef) (value : string) : LM unit :=
  s ← State_ l;
  SetState l (MkState (reqId s) (output s) value (altUrl s) (latencies s)).
Definition altUrlChange_OnChange (l : LatencyDef) (value : string) : LM unit :=
  s ← State_ l;
  SetState l (MkState (reqId s) (output s) (url s) value (latencies s)).

(** *** Results *)

(** [ints[i+1] - ints[i]] for each [i]. *)
Fixpoint gaps (ints : list Z) : list Z :=
  match ints with
  | a :: (b :: _) as rest => (b - a)%Z :: gaps rest
  | _ => []
  end.

(** [sort.Slice] of numbers: there is one sorted list of them. *)
Definition sort_ints : list Z → list Z := merge_sort Z.le.

Fixpoint draw_ints (k : nat) (to : Z) : LM (list Z) :=
  match k with
  | O => mret []
  | S k => v ← rand_Int63n to; vs ← draw_ints k to; mret (v :: vs)
  end.

(** What a goroutine does when it wakes up. *)
Definition job_run (j : job) : LM unit :=
  let l := j_comp j in
  let to := j_to j in
  s ← State_ l;
  if (reqId s =? j_req j)%Z then
    ints ← draw_ints 4 to;
    let ints := [0%Z] ++ ints in
    let ints := ints ++ [to] in
    let ints := sort_ints ints in
    let vs := gaps ints in
    v0 ← mlift (go_index vs 0);
    v1 ← mlift (go_index vs 1);
    v2 ← mlift (go_index vs 2);
    v3 ← mlift (go_index vs 3);
    v4 ← mlift (go_index vs 4);
    let lat := MkLatency v0 v1 v2 v3 v4 to in
    ls ← map_Set (latencies s) (j_loc j) lat;
    SetState l (MkState (reqId s) (output s) (url s) (altUrl s) ls)
  else mret tt.

Fixpoint check_loop (l : LatencyDef) (req : Z) (locs : list string) : LM unit :=
  match locs with
  | [] => mret tt
  | v :: locs =>
      n ← rand_Int63n 3000;
      _ ← go_ (Job l req v (n * Millisecond));
      check_loop l req locs
  end.
Definition check_OnClick (l : LatencyDef) : LM unit :=
  s ← State_ l;
  _ ← check_loop l (reqId s) locations;
  s ← State_ l;
  ls ← map_New (K := string) (V := latency) [];
  _ ← SetState l (MkState (reqId s) true (url s) (altUrl s) ls);
  PreventDefault.

Definition reset (l : LatencyDef) : LM unit :=
  s ← State_ l;
  _ ← SetState l (MkState (wrap32 (reqId s + 1)) false (url s) (altUrl s) (latencies s));
  PreventDefault.

(** *** Drawing *)
Definition renderInput (l : LatencyDef) : LM Element :=
  s1 ← State_ l;
  s2 ← State_ l;
  let input := λ id placeholder value h,
    El.Input (Some (El.Input_with_Type "text" (El.Input_with_Placeholder placeholder (El.Input_with_Value value
      (El.Input_on_html (λ p, El.with_ID id (El.with_OnChange (Some h) p)) El.Input_zero))))) [] in
  mret (El.Form (Some (El.with_ClassName "LatencyForm" El.html_zero)) [
    El.Div (Some (El.with_ClassName "group" El.html_zero)) [
      input "url" "url to test (can be anything)" (url s1) (urlChange l);
      input "altUrl" "comparison url (not used)" (altUrl s2) (altUrlChange l)
    ];
    El.Button (Some (El.Button_on_html (λ p, El.with_ClassName "Button small" (El.with_OnClick (Some (check l)) p))
                 El.Button_zero)) [ES "Start"]
  ]).

Definition resultWidth : float64 := f64_of_int 500.

Definition span_of (cls : string) (text : string) : Element :=
  El.Span (Some (El.with_ClassName cls El.html_zero)) [ES text].

Definition genTiming (maxTot f : Z) (n l : string) : Element :=
  let w := format3 (f64_mul (f64_div (f64_of_int f) (f64_of_int maxTot)) resultWidth) +:+ "px" in
  let rs := l +:+ " (" +:+ Duration_String f +:+ ")" in
  El.Span (Some (El.with_ClassName ("timing " +:+ n) (El.with_Style (Some (css_Width w css_zero)) El.html_zero)))
    [ES rs].

(** The class of a region and its timings. *)
Definition speed (awfulTime okTime t : Z) : string :=
  if (t <? awfulTime)%Z then " with-timings speed-awful"
  else if (t <? okTime)%Z then " with-timings speed-ok"
  else " with-timings speed-fast".
Definition region (maxTot : Z) (v : string) (r : option latency) : Element :=
  let awfulTime := Z.quot maxTot 3 in
  let okTime := Z.quot (maxTot * 2) 3 in
  let '(regClass, timings) :=
    match r with
    | None => ("Region", [span_of "total" "0ms"])
    | Some res =>
        ("Region" +:+ speed awfulTime okTime (total res),
         [genTiming maxTot (dns res) "dns" "DNS"; genTiming maxTot (tcp res) "tcp" "TCP";
          genTiming maxTot (tls res) "tls" "TLS"; genTiming maxTot (wait res) "wait" "Wait";
          genTiming maxTot (download res) "download" "Download";
          span_of "total" (Duration_String (total res))])
    end in
  El.Div (Some (El.with_ClassName regClass El.html_zero)) [
    span_of "name" v;
    El.Div (Some (El.with_ClassName "Results" El.html_zero))
      [El.Div (Some (El.with_ClassName "Timings" El.html_zero)) timings]
  ].

(** The loop over the map. *)
Fixpoint max_total (maxTot : Z) (lats : list latency) : Z :=
  match lats with
  | [] => maxTot
  | lat :: lats => max_total (if (maxTot <? total lat)%Z then total lat else maxTot) lats
  end.

Definition renderOutput (l : LatencyDef) : LM Element :=
  s ← State_ l;
  let ls := latencies s in
  r ← map_Range (K := string) (V := latency) ls;
  m ← map_elems (K := string) (V := latency) r;
  let maxTot := max_total 0 (range_map m) in
  regions ← mmap (λ v, r ← map_Get (V := latency) ls v; mret (region maxTot v r)) locations;
  mret (El.Div (Some (El.with_ClassName "Regions" El.html_zero)) regions).

Definition tab_str : string := String (Ascii.ascii_of_nat 9) "".
Definition quoted (s : string) : string := String Strconv.dq (s +:+ String Strconv.dq "").
Definition tabs (n : nat) (s : string) : string := foldr String.append s (replicate n tab_str).
Definition title_html : string :=
  nl +:+ Strings.Join [
    tabs 3 ("<div class=" +:+ quoted "Title margin center" +:+ ">");
    tabs 4 ("<span class=" +:+ quoted "text" +:+ ">Latency</span>");
    tabs 4 ("<span class=" +:+ quoted "subtext" +:+ ">Global latency testing tool</span>");
    tabs 3 "</div>"; tabs 3 ""] nl.
Definition subtext : string :=
  "<span class=" +:+ quoted "subtext" +:+ " style=" +:+ quoted "font-size:smaller; font-style: italic" +:+ ">".
Definition note_html : string :=
  nl +:+ Strings.Join [
    tabs 3 ("<div class=" +:+ quoted "Title margin center" +:+ ">");
    tabs 4 "<br/>";
    tabs 4 (subtext +:+ "(randomly generated results)</span>");
    tabs 4 subtext;
    tabs 5 ("Real, original version <a href=" +:+ quoted "https://latency.apex.sh/" +:+ " target=" +:+
      quoted "_blank" +:+ ">https://latency.apex.sh/</a>");
    tabs 4 "</span>";
    tabs 3 "</div>"; tabs 3 ""] nl.

Definition Latency_Render (l : LatencyDef) : LM Element :=
  s ← State_ l;
  c ← if output s then renderOutput l else renderInput l;
  title ← mlift (HTMLElem title_html);
  note ← mlift (HTMLElem note_html);
  mret (El.Div (Some (El.with_ClassName "App" El.html_zero))
    [El.Div (Some (El.with_ClassName "Content center full column" El.html_zero)) [title; c; note]]).

Definition buildLatency (cd : ComponentDef) : Component lmem := {|
  cmp_type := RType "LatencyDef" "main";
  RendersElement := Latency_Render {| latency_def := cd |};
  ComponentWillMount := None;
  ComponentDidMount := None;
  ComponentWillReceivePropsIntf := None;
  GetInitialStateIntf := Some (mret (MkState 0 false "" "" None));
  ComponentWillUnmount := None;
|}.
Definition Latency_ : LM Element := CreateElement buildLatency None [].
(** [app.go] *)
Definition LatencyApp_Render : LM Element := Latency_.

(** ** What happens *)

(** The [n]-th of the goroutines that sleep wakes up. *)
Definition wake (n : nat) : LM unit :=
  w ← mget id;
  j ← mlift (of_option NilDeref (l_jobs (w_ext w) !! n));
  _ ← on_mem (λ m, LMem (l_maps m) (l_rand m) (delete n (l_jobs m)) (l_prevented m));
  job_run j.

(** What can happen to a component on the page: the user types an address, clicks Start, or
    a goroutine wakes up.  [CallReset] is the method [reset], which no element of the
    component calls. *)
Inductive event := Start | UrlIs (v : string) | AltUrlIs (v : string) | CallReset | Wake (n : nat).

Definition lat_event (l : LatencyDef) (e : event) : LM unit :=
  match e with
  | Start => check_OnClick l
  | UrlIs v => urlChange_OnChange l v
  | AltUrlIs v => altUrlChange_OnChange l v
  | CallReset => reset l
  | Wake n =>
      w ← mget id;
      if bool_decide (n < length (l_jobs (w_ext w))) then wake n else mret tt
  end.
Fixpoint lat_run (l : LatencyDef) (es : list event) : LM unit :=
  match es with
  | [] => mret tt
  | e :: es => _ ← lat_event l e; lat_run l es
  end.
End Latency.

(** ** Proofs *)

(** The parts of a result add up to its total. *)
Record lat_ok (lat : latency) (to : Z) : Prop := {
  lo_dns : (0 ≤ dns lat)%Z;
  lo_tcp : (0 ≤ tcp lat)%Z;
  lo_tls : (0 ≤ tls lat)%Z;
  lo_wait : (0 ≤ wait lat)%Z;
  lo_download : (0 ≤ download lat)%Z;
  lo_sum : (dns lat + tcp lat + tls lat + wait lat + download lat = to)%Z;
  lo_total : total lat = to;
}.

(** The gaps between 0, four numbers up to [to], and [to], in order. *)
Lemma sorted_gaps ints to :
  length ints = 4 → Forall (λ v, 0 ≤ v < to)%Z ints →
  ∃ a b c d e, gaps (sort_ints (([0%Z] ++ ints) ++ [to])) = [a; b; c; d; e] ∧ lat_ok (MkLatency a b c d e to) to.
Proof.
  intros Hlen Hints. destruct ints as [|x1 [|x2 [|x3 [|x4 [|? ?]]]]]; try done.
  set (l := ([0%Z] ++ [x1; x2; x3; x4]) ++ [to]).
  assert (sort_ints l ≡ₚ l) as Hp by apply merge_sort_Permutation.
  assert (StronglySorted Z.le (sort_ints l)) as Hs by (apply StronglySorted_merge_sort; apply _).
  assert (0 ≤ x1 < to)%Z by by (inversion Hints).
  assert (Forall (λ v, 0 ≤ v ≤ to)%Z (sort_ints l)) as Hb.
  { rewrite Hp. unfold l. decompose_Forall_hyps. repeat constructor; lia. }
  assert (0%Z ∈ sort_ints l) as H0 by (rewrite Hp; left).
  assert (to ∈ sort_ints l) as Ht by (rewrite Hp; unfold l; set_solver).
  apply Permutation_length in Hp. fold l. destruct (sort_ints l) as [|a [|b [|c [|d [|e [|f [|? ?]]]]]]]; try done.
  decompose_Forall_hyps. repeat match goal with H : StronglySorted _ (_ :: _) |- _ => apply StronglySorted_inv in H as [H ?] end.
  decompose_Forall_hyps.
  assert (a = 0%Z) as -> by (rewrite !elem_of_cons, elem_of_nil in H0; lia).
  assert (f = to) as -> by (rewrite !elem_of_cons, elem_of_nil in Ht; lia).
  eexists _, _, _, _, _. split; [reflexivity|]. split; cbn; lia.
Qed.

(** *** Specification

    The component without React and without its map: the number of the request, what is
    typed, the goroutines asleep, and the goroutines of that request that woke since Start was
    clicked last, in order ([None]: it never was). *)
Record spec := Spec {
  sp_req : Z; sp_output : bool; sp_url : string; sp_alt : string;
  sp_asleep : list job; sp_woke : option (list (string * Z));
}.
Definition spec0 : spec := Spec 0 false "" "" [] None.

Inductive spec_step (l : LatencyDef) : event → spec → spec → Prop :=
  | spec_start σ tos :
      length tos = length locations → Forall (λ to, ∃ n, 0 ≤ n < 3000 ∧ to = n * Millisecond)%Z tos →
      spec_step l Start σ (Spec (sp_req σ) true (sp_url σ) (sp_alt σ)
        (sp_asleep σ ++ zip_with (Job l (sp_req σ)) locations tos) (Some []))
  | spec_url v σ :
      spec_step l (UrlIs v) σ (Spec (sp_req σ) (sp_output σ) v (sp_alt σ) (sp_asleep σ) (sp_woke σ))
  | spec_alt v σ :
      spec_step l (AltUrlIs v) σ (Spec (sp_req σ) (sp_output σ) (sp_url σ) v (sp_asleep σ) (sp_woke σ))
  | spec_reset σ :
      spec_step l CallReset σ (Spec (wrap32 (sp_req σ + 1)) false (sp_url σ) (sp_alt σ) (sp_asleep σ) (sp_woke σ))
  | spec_wake n j ws σ :
      sp_asleep σ !! n = Some j → sp_woke σ = Some ws → j_req j = sp_req σ → (0 < j_to j)%Z →
      spec_step l (Wake n) σ (Spec (sp_req σ) (sp_output σ) (sp_url σ) (sp_alt σ)
        (delete n (sp_asleep σ)) (Some (ws ++ [(j_loc j, j_to j)])))
  | spec_stale n j σ :
      sp_asleep σ !! n = Some j → j_req j ≠ sp_req σ →
      spec_step l (Wake n) σ (Spec (sp_req σ) (sp_output σ) (sp_url σ) (sp_alt σ)
        (delete n (sp_asleep σ)) (sp_woke σ))
  | spec_none n σ : sp_asleep σ !! n = None → spec_step l (Wake n) σ σ.

Inductive spec_run (l : LatencyDef) : list event → spec → spec → Prop :=
  | spec_done σ : spec_run l [] σ σ
  | spec_next e es σ1 σ2 σ3 :
      spec_step l e σ1 σ2 → spec_run l es σ2 σ3 → spec_run l (e :: es) σ1 σ3.

(** The results [m] are those of the goroutines [ws]: a location has the result of the last
    one for it, and none if there is none. *)
Definition measured (m : lat_map) (ws : list (string * Z)) : Prop := ∀ v,
  match list.last (filter (λ p, p.1 = v) ws) with
  | Some p => ∃ lat, m !! v = Some lat ∧ lat_ok lat p.2
  | None => m !! v = None
  end.

Lemma measured_nil : measured ∅ [].
Proof. intros v. apply lookup_empty. Qed.
Lemma measured_snoc m ws v to lat :
  measured m ws → lat_ok lat to → measured (<[v := lat]> m) (ws ++ [(v, to)]).
Proof.
  intros Hm Hok v'. rewrite list.filter_app, filter_cons. cbn. case_decide as Hv.
  - subst v'. rewrite list.last_snoc. exists lat. split; [by rewrite lookup_insert_eq|done].
  - rewrite app_nil_r. rewrite lookup_insert_ne by done. apply Hm.
Qed.

Section Proofs.
Context (NewSource : Z → nat → Z) (fuel : nat).
Hypothesis Hsource : source_ok NewSource.
(** The redraw loop of [Int63n] ends within [fuel] draws. *)
Hypothesis Hfuel : ∀ n r, (0 < n < 2 ^ 63)%Z → Z.land n (n - 1) ≠ 0%Z → accepts63 NewSource fuel n r.

Definition set_rand (r : Rand) (m : lmem) : lmem := LMem (l_maps m) r (l_jobs m) (l_prevented m).
Abbreviation drew w r := (World (w_js w) (set_rand r (w_ext w))).

Lemma Int63n_draw (w : world lmem) n :
  (0 < n < 2 ^ 63)%Z → ∃ v r, rand_Int63n NewSource fuel n w = Ok (v, drew w r) ∧ (0 ≤ v < n)%Z.
Proof.
  intros Hn. destruct (Int63n_run NewSource Hsource fuel n (l_rand (w_ext w)) ltac:(lia)) as (v & r & Hr & Hv & _); [by apply Hfuel|].
  exists v, r. split; [|done]. unfold rand_Int63n. by rewrite Hr.
Qed.

Lemma draw_ints_run (w : world lmem) k to :
  (0 < to < 2 ^ 63)%Z → ∃ vs r, draw_ints NewSource fuel k to w = Ok (vs, drew w r) ∧
    length vs = k ∧ Forall (λ v, 0 ≤ v < to)%Z vs.
Proof.
  intros Hto. revert w. induction k as [|k IH]; intros w; cbn [draw_ints].
  - exists [], (l_rand (w_ext w)). by destruct w as [? []].
  - destruct (Int63n_draw w to Hto) as (v & r & Hr & Hv). mstep Hr.
    destruct (IH (drew w r)) as (vs & r' & Hr' & Hl & Hvs). mstep Hr'.
    exists (v :: vs), r'. split; [done|]. split; [cbn; by rewrite Hl|by constructor].
Qed.

(** The instance [this] has the state [s] and, in it, the results [m]. *)
Definition results (w : world lmem) (this i : loc) (s : LatencyState) (m : lat_map) : Prop :=
  inst (w_js w) this i s ∧ ∃ a, latencies s = Some a ∧ frozen w a m.

Definition with_latencies (s : LatencyState) (p : ptr) : LatencyState :=
  MkState (reqId s) (output s) (url s) (altUrl s) p.

Abbreviation lat_at l := {| latency_def := mk_def l |}.

(** A goroutine of another request does nothing. *)
Lemma job_run_stale (w : world lmem) this i s j :
  inst (w_js w) this i s → j_comp j = lat_at this → j_req j ≠ reqId s →
  job_run NewSource fuel j w = Ok (tt, w).
Proof.
  intros Hi Hj Hreq. unfold job_run, State_. rewrite Hj. cbn [latency_def]. mstep (State_inst w _ _ _ Hi).
  by rewrite (proj2 (Z.eqb_neq _ _)) by congruence.
Qed.

(** One of the current request that slept adds its result. *)
Lemma job_run_run (w : world lmem) this i s m j :
  results w this i s m → j_comp j = lat_at this → j_req j = reqId s → (0 < j_to j < 2 ^ 63)%Z →
  ∃ w' lat p, job_run NewSource fuel j w = Ok (tt, w') ∧ lat_ok lat (j_to j) ∧
    results w' this i (with_latencies s p) (<[j_loc j := lat]> m) ∧
    l_jobs (w_ext w') = l_jobs (w_ext w) ∧ updates (w_js w') = updates (w_js w) ++ [this].
Proof.
  intros (Hi & a & Ha & Hm) Hj Hreq Hto. unfold job_run, State_, SetState. rewrite Hj. cbn [latency_def].
  mstep (State_inst w _ _ _ Hi). rewrite (proj2 (Z.eqb_eq _ _)) by done.
  destruct (draw_ints_run w 4 (j_to j) Hto) as (ints & r & Hr & Hl & Hints). mstep Hr.
  destruct (sorted_gaps ints (j_to j) Hl Hints) as (v0 & v1 & v2 & v3 & v4 & -> & Hok).
  set (w1 := drew w r).
  set (vs := [v0; v1; v2; v3; v4]).
  mstep (mlift_run (go_index vs 0) w1 v0 eq_refl). mstep (mlift_run (go_index vs 1) w1 v1 eq_refl).
  mstep (mlift_run (go_index vs 2) w1 v2 eq_refl). mstep (mlift_run (go_index vs 3) w1 v3 eq_refl).
  mstep (mlift_run (go_index vs 4) w1 v4 eq_refl). clear vs. set (lat := MkLatency v0 v1 v2 v3 v4 (j_to j)) in *.
  assert (cells w1 !! a = Some (ICell m false)) as Hm1 by exact Hm.
  set (m' := <[j_loc j := lat]> m). set (b := length (cells w1)).
  set (w2 := put_cells (cells w1 ++ [ICell m' false]) w1).
  assert (map_Set (latencies s) (j_loc j) lat w1 = Ok (Some b, w2)) as Hset
    by (unfold map_Set; rewrite Ha, (update_run w1 a _ _ Hm1); reflexivity).
  mstep Hset.
  assert (Some a ≠ Some b) as Hne by (intros [= ->]; apply lookup_lt_Some in Hm1; unfold b in Hm1; lia).
  destruct (SetState_evolves w2 this i s (with_latencies s (Some b)) false Hi) as (j' & Hr' & Hi' & _ & Hu' & _); [|done|].
  { cbn. rewrite bool_decide_eq_false_2; [done|]. intros Heq%(f_equal latencies). apply Hne. by rewrite <-Ha. }
  exists (World j' (w_ext w2)), lat, (Some b). split; [exact Hr'|]. split; [exact Hok|]. split; [|by split].
  split; [exact Hi'|]. exists b. split; [done|]. apply (lookup_last (cells w1)).
Qed.

Abbreviation with_jobs w js := (World (w_js w) (LMem (l_maps (w_ext w)) (l_rand (w_ext w)) js (l_prevented (w_ext w)))).

(** The next draw is 0. *)
Definition draws_zero (w : world lmem) : Prop :=
  NewSource (seed (l_rand (w_ext w))) (drawn (l_rand (w_ext w))) = 0%Z.
Lemma Int63n_zero (w w' : world lmem) v :
  draws_zero w → rand_Int63n NewSource fuel 3000 w = Ok (v, w') → v = 0%Z.
Proof.
  intros Hz. destruct (Hfuel 3000 (l_rand (w_ext w)) ltac:(lia) ltac:(done)) as (k & Hk & _).
  destruct fuel as [|fuel']; [lia|]. unfold rand_Int63n, Int63n. cbn. unfold draws_zero in Hz. rewrite Hz. cbn.
  by intros [= <- _].
Qed.

Lemma check_loop_run (w : world lmem) l req locs :
  ∃ tos r, check_loop NewSource fuel l req locs w =
      Ok (tt, with_jobs (drew w r) (l_jobs (w_ext w) ++ zip_with (Job l req) locs tos)) ∧
    length tos = length locs ∧ Forall (λ to, ∃ n, 0 ≤ n < 3000 ∧ to = n * Millisecond)%Z tos ∧
    (draws_zero w → locs ≠ [] → tos !! 0 = Some 0%Z).
Proof.
  revert w. induction locs as [|v locs IH]; intros w; cbn [check_loop].
  - exists [], (l_rand (w_ext w)). destruct w as [? []]. cbn. by rewrite app_nil_r.
  - destruct (Int63n_draw w 3000 ltac:(lia)) as (n & r & Hr & Hn). mstep Hr.
    set (j := Job l req v (n * Millisecond)).
    mstep (eq_refl : go_ j (drew w r) = Ok (tt, with_jobs (drew w r) (l_jobs (w_ext w) ++ [j]))).
    destruct (IH (with_jobs (drew w r) (l_jobs (w_ext w) ++ [j]))) as (tos & r' & -> & Hl & Ht & _).
    exists (n * Millisecond :: tos)%Z, r'. split; [|split; [cbn; by rewrite Hl|split; [constructor; [eauto|done]|]]].
    + cbn. by rewrite <-app_assoc.
    + intros Hz _. cbn. by rewrite (Int63n_zero w _ n Hz Hr).
Qed.

Lemma check_OnClick_run (w : world lmem) this i s :
  inst (w_js w) this i s →
  ∃ w' p tos, check_OnClick NewSource fuel (lat_at this) w = Ok (tt, w') ∧
    results w' this i (MkState (reqId s) true (url s) (altUrl s) p) ∅ ∧
    l_jobs (w_ext w') = l_jobs (w_ext w) ++ zip_with (Job (lat_at this) (reqId s)) locations tos ∧
    length tos = length locations ∧ Forall (λ to, ∃ n, 0 ≤ n < 3000 ∧ to = n * Millisecond)%Z tos ∧
    (draws_zero w → tos !! 0 = Some 0%Z).
Proof.
  intros Hi. unfold check_OnClick, State_, SetState. cbn [latency_def]. mstep (State_inst w _ _ _ Hi).
  destruct (check_loop_run w (lat_at this) (reqId s) locations) as (tos & r & Hr & Hl & Ht & Hz). mstep Hr.
  set (w1 := with_jobs (drew w r) _). mstep (State_inst w1 _ _ _ Hi).
  set (b := length (cells (P := lat_map) w1)). set (w2 := put_cells (P := lat_map) (cells w1 ++ [ICell ∅ false]) w1).
  mstep (eq_refl : map_New (K := string) [] w1 = Ok (Some b, w2)).
  set (s' := MkState (reqId s) true (url s) (altUrl s) (Some b)).
  destruct (SetState_evolves w2 this i s s' _ Hi eq_refl) as (j' & Hr' & Hi' & _); [by intros ?%bool_decide_eq_true_1|].
  mstep Hr'. eexists _, (Some b), tos. split; [reflexivity|]. split; [|split_and!; try done; intros; by apply Hz].
  split; [exact Hi'|]. exists b. split; [done|]. apply (lookup_last (cells w1)).
Qed.

(** A goroutine that wakes runs without those that still sleep. *)
Lemma wake_run (w : world lmem) n j :
  l_jobs (w_ext w) !! n = Some j →
  wake NewSource fuel n w = job_run NewSource fuel j (with_jobs w (delete n (l_jobs (w_ext w)))).
Proof.
  intros Hj. unfold wake. mstep (eq_refl : mget id w = Ok (w, w)). rewrite Hj. cbn [of_option].
  by mstep (mlift_run (Ok j) w j eq_refl).
Qed.

(** A goroutine of the current request that slept for no time. *)
Lemma job_run_zero (w : world lmem) this i s j :
  inst (w_js w) this i s → j_comp j = lat_at this → j_req j = reqId s → j_to j = 0%Z →
  job_run NewSource fuel j w = Panic (PanicMsg "invalid argument to Int63n").
Proof.
  intros Hi Hj Hreq Hto. unfold job_run, State_. rewrite Hj. cbn [latency_def].
  mstep (State_inst w _ _ _ Hi). rewrite (proj2 (Z.eqb_eq _ _)) by done. by rewrite Hto.
Qed.

(** The instance [this] with the state [σ] of the specification. *)
Definition spec_state (σ : spec) (p : ptr) : LatencyState :=
  MkState (sp_req σ) (sp_output σ) (sp_url σ) (sp_alt σ) p.
Record at_spec (w : world lmem) (this i : loc) (σ : spec) (p : ptr) : Prop := {
  as_inst : inst (w_js w) this i (spec_state σ p);
  as_jobs : l_jobs (w_ext w) = sp_asleep σ;
  as_asleep : Forall (λ j, j_comp j = lat_at this ∧ 0 ≤ j_to j < 2 ^ 63)%Z (sp_asleep σ);
  as_results : match sp_woke σ with
               | None => p = None ∧ sp_asleep σ = []
               | Some ws => ∃ a m, p = Some a ∧ frozen w a m ∧ measured m ws
               end;
}.

(** A change of the state that keeps the map. *)
Lemma set_spec_state (w : world lmem) this i σ σ' p :
  at_spec w this i σ p → sp_asleep σ' = sp_asleep σ → sp_woke σ' = sp_woke σ →
  ∃ w', SetState (lat_at this) (spec_state σ' p) w = Ok (tt, w') ∧ at_spec w' this i σ' p ∧ w_ext w' = w_ext w.
Proof.
  intros [Hi Hj Ha Hr] Hs Hw. unfold SetState. cbn [latency_def].
  destruct (SetState_evolves w this i (spec_state σ p) (spec_state σ' p) _ Hi eq_refl)
    as (j' & Hr' & Hi' & _); [by intros ?%bool_decide_eq_true_1|].
  exists (World j' (w_ext w)). split; [exact Hr'|]. split; [|done]. split; rewrite ?Hs, ?Hw; done.
Qed.

Lemma start_spec (w : world lmem) this i σ p :
  at_spec w this i σ p →
  ∃ w' σ' p', check_OnClick NewSource fuel (lat_at this) w = Ok (tt, w') ∧
    spec_step (lat_at this) Start σ σ' ∧ at_spec w' this i σ' p'.
Proof.
  intros [Hi Hj Ha Hr].
  destruct (check_OnClick_run w this i _ Hi) as (w' & p' & tos & Hrun & [Hi' (a & Hp & Hm)] & Hj' & Hl & Ht & _).
  exists w'. eexists. exists p'. split; [exact Hrun|]. split; [by apply (spec_start _ σ tos)|].
  split; cbn [sp_req sp_output sp_url sp_alt sp_asleep sp_woke].
  - exact Hi'.
  - by rewrite Hj', Hj.
  - apply list.Forall_app. split; [exact Ha|]. apply list.Forall_forall.
    intros j (k & v & to & -> & _ & Hto)%elem_of_lookup_zip_with. cbn. split; [done|].
    destruct (list.Forall_lookup_1 _ _ _ _ Ht Hto) as (n & Hn & ->).
    unfold Millisecond, Microsecond, Nanosecond. lia.
  - exists a, ∅. split; [exact Hp|]. split; [exact Hm|apply measured_nil].
Qed.

Lemma wake_spec (w : world lmem) this i σ p n j :
  at_spec w this i σ p → sp_asleep σ !! n = Some j →
  (∃ w' σ' p', wake NewSource fuel n w = Ok (tt, w') ∧
     spec_step (lat_at this) (Wake n) σ σ' ∧ at_spec w' this i σ' p') ∨
  (j_req j = sp_req σ ∧ j_to j = 0%Z ∧
   wake NewSource fuel n w = Panic (PanicMsg "invalid argument to Int63n")).
Proof.
  intros [Hi Hj Ha Hr] Hn. pose proof (list.Forall_lookup_1 _ _ _ _ Ha Hn) as [Hc Hto].
  pose proof (wake_run w n j ltac:(by rewrite Hj)) as Hw. rewrite Hj in Hw.
  set (w1 := with_jobs w (delete n (sp_asleep σ))) in Hw.
  assert (inst (w_js w1) this i (spec_state σ p)) as Hi1 by exact Hi.
  assert (Forall (λ j, j_comp j = lat_at this ∧ 0 ≤ j_to j < 2 ^ 63)%Z (delete n (sp_asleep σ))) as Ha1
    by by apply list.Forall_delete.
  destruct (sp_woke σ) as [ws|] eqn:Hws; [|by destruct Hr as [_ Hr]; rewrite Hr in Hn].
  destruct Hr as (a & m & Hp & Hm & Hmeas).
  destruct (decide (j_req j = sp_req σ)) as [Hreq|Hreq].
  - destruct (decide (j_to j = 0%Z)) as [Hz|Hz].
    { right. split; [done|]. split; [done|]. rewrite Hw. by apply (job_run_zero w1 this i (spec_state σ p)). }
    left. destruct (job_run_run w1 this i (spec_state σ p) m j) as (w2 & lat & p2 & H2 & Hok & Hr2 & Hj2 & _);
      [by split; [|exists a]|done|done|lia|].
    destruct Hr2 as [Hi2 (a2 & Hp2 & Hm2)]. cbn [latencies with_latencies] in Hp2.
    exists w2. eexists. exists p2. split; [by rewrite Hw|].
    split; [by apply (spec_wake _ n j ws σ Hn Hws Hreq); lia|]. split; cbn.
    + exact Hi2.
    + exact Hj2.
    + exact Ha1.
    + exists a2. eexists. split; [exact Hp2|]. split; [exact Hm2|]. by apply measured_snoc.
  - left. exists w1. eexists. exists p.
    split; [rewrite Hw; by apply (job_run_stale w1 this i (spec_state σ p))|].
    split; [by apply (spec_stale _ n j σ)|]. split; cbn; [exact Hi1|done|exact Ha1|].
    rewrite Hws. exists a, m. done.
Qed.

Lemma event_spec (w : world lmem) this i σ p e :
  at_spec w this i σ p →
  (∃ w' σ' p', lat_event NewSource fuel (lat_at this) e w = Ok (tt, w') ∧
     spec_step (lat_at this) e σ σ' ∧ at_spec w' this i σ' p') ∨
  (∃ n j, e = Wake n ∧ sp_asleep σ !! n = Some j ∧ j_req j = sp_req σ ∧ j_to j = 0%Z ∧
   lat_event NewSource fuel (lat_at this) e w = Panic (PanicMsg "invalid argument to Int63n")).
Proof.
  intros Hat. pose proof Hat as [Hi Hj Ha Hr]. destruct e as [|v|v| |n]; cbn [lat_event].
  - left. by apply start_spec with p.
  - left. set (σ' := Spec (sp_req σ) (sp_output σ) v (sp_alt σ) (sp_asleep σ) (sp_woke σ)).
    destruct (set_spec_state w this i σ σ' p Hat eq_refl eq_refl) as (w' & Hs & Hat' & _).
    exists w', σ', p. split; [|split; [constructor|exact Hat']].
    unfold urlChange_OnChange, State_. cbn [latency_def]. by mstep (State_inst w _ _ _ Hi).
  - left. set (σ' := Spec (sp_req σ) (sp_output σ) (sp_url σ) v (sp_asleep σ) (sp_woke σ)).
    destruct (set_spec_state w this i σ σ' p Hat eq_refl eq_refl) as (w' & Hs & Hat' & _).
    exists w', σ', p. split; [|split; [constructor|exact Hat']].
    unfold altUrlChange_OnChange, State_. cbn [latency_def]. by mstep (State_inst w _ _ _ Hi).
  - left. set (σ' := Spec (wrap32 (sp_req σ + 1)) false (sp_url σ) (sp_alt σ) (sp_asleep σ) (sp_woke σ)).
    destruct (set_spec_state w this i σ σ' p Hat eq_refl eq_refl) as (w' & Hs & [Hi' Hj' Ha' Hr'] & He).
    eexists _, σ', p. split; [|split; [constructor|]].
    + unfold reset, State_. cbn [latency_def]. mstep (State_inst w _ _ _ Hi). by mstep Hs.
    + by split.
  - mstep (eq_refl : mget id w = Ok (w, w)). rewrite Hj. case_bool_decide as Hn.
    + destruct (lookup_lt_is_Some_2 _ _ Hn) as [j Hjn].
      destruct (wake_spec w this i σ p n j Hat Hjn) as [H|(H1 & H2 & H3)]; [by left|right].
      by exists n, j.
    + left. exists w, σ, p. split; [done|]. split; [|exact Hat]. constructor. apply lookup_ge_None. lia.
Qed.

Lemma run_spec es (w : world lmem) this i σ p :
  at_spec w this i σ p →
  (∃ w' σ' p', lat_run NewSource fuel (lat_at this) es w = Ok (tt, w') ∧
     spec_run (lat_at this) es σ σ' ∧ at_spec w' this i σ' p') ∨
  (∃ es1 n es2 σ1 j, es = es1 ++ Wake n :: es2 ∧ spec_run (lat_at this) es1 σ σ1 ∧
     sp_asleep σ1 !! n = Some j ∧ j_req j = sp_req σ1 ∧ j_to j = 0%Z ∧
     lat_run NewSource fuel (lat_at this) es w = Panic (PanicMsg "invalid argument to Int63n")).
Proof.
  revert w σ p. induction es as [|e es IH]; intros w σ p Hat; cbn [lat_run].
  { left. exists w, σ, p. split; [done|]. split; [constructor|exact Hat]. }
  destruct (event_spec w this i σ p e Hat) as [(w1 & σ1 & p1 & H1 & Hs1 & Hat1)|(n & j & -> & H1 & H2 & H3 & H4)].
  - mstep H1. destruct (IH w1 σ1 p1 Hat1) as [(w2 & σ2 & p2 & H2 & Hs2 & Hat2)|(es1 & n & es2 & σ2 & j & -> & Hs2 & Hrest)].
    + left. exists w2, σ2, p2. split; [exact H2|]. split; [by eapply spec_next|exact Hat2].
    + right. exists (e :: es1), n, es2, σ2, j. split; [done|]. split; [by eapply spec_next|exact Hrest].
  - right. exists [], n, es, σ, j. split; [done|]. split; [constructor|]. split_and!; try done.
    unfold mbind, M_bind. by rewrite H4.
Qed.

(** Sleeping for no time.  The time is drawn with [rand.Int63n(3000)], which may be 0;
    a goroutine that slept for no time then draws below 0, and panics. *)
Theorem latency_zero_panics (w : world lmem) this i s :
  inst (w_js w) this i s → draws_zero w →
  ∃ w1, check_OnClick NewSource fuel (lat_at this) w = Ok (tt, w1) ∧
    wake NewSource fuel (length (l_jobs (w_ext w))) w1 = Panic (PanicMsg "invalid argument to Int63n").
Proof.
  intros Hi Hz. destruct (check_OnClick_run w this i s Hi) as (w1 & p & tos & Hr & Hres & Hjobs & Hl & Ht & Htz).
  exists w1. split; [exact Hr|]. specialize (Htz Hz). destruct tos as [|to tos]; [done|]. injection Htz as ->.
  destruct Hres as [Hi1 _]. set (j := Job (lat_at this) (reqId s) "Oregon" 0).
  rewrite (wake_run w1 _ j) by (by rewrite Hjobs, lookup_app_r, Nat.sub_diag).
  by eapply job_run_zero.
Qed.
End Proofs.

(** ** What is drawn *)
Lemma max_total_spec m0 lats :
  (m0 ≤ max_total m0 lats)%Z ∧ Forall (λ lat, total lat ≤ max_total m0 lats)%Z lats ∧
  (max_total m0 lats = m0 ∨ ∃ lat, lat ∈ lats ∧ total lat = max_total m0 lats).
Proof.
  revert m0. induction lats as [|lat lats IH]; intros m0; cbn; [split; [lia|]; split; [constructor|by left]|].
  destruct (IH (if (m0 <? total lat)%Z then total lat else m0)) as (H1 & H2 & H3).
  destruct (Z.ltb_spec m0 (total lat)).
  - split; [lia|]. split; [by constructor|]. right. destruct H3 as [->|(lat' & Hin & Ht)].
    + exists lat. by split; [left|].
    + exists lat'. by split; [right|].
  - split; [done|]. split; [constructor; [lia|done]|]. destruct H3 as [->|(lat' & Hin & Ht)]; [by left|right].
    exists lat'. by split; [right|].
Qed.

Lemma renderOutput_run range_map (w : world lmem) this i s m :
  results w this i s m →
  renderOutput range_map {| latency_def := mk_def this |} w =
  Ok (El.Div (Some (El.with_ClassName "Regions" El.html_zero))
        (map (λ v, region (max_total 0 (range_map m)) v (m !! v)) locations), w).
Proof.
  intros (Hi & a & Ha & Hm). unfold renderOutput, State_. cbn [latency_def]. mstep (State_inst w _ _ _ Hi). rewrite Ha.
  mstep (map_Range_run (K := string) (V := latency) w a _ Hm). mstep (map_elems_run (K := string) (V := latency) w a _ Hm). set (f := λ v, region _ v (m !! v)).
  assert (∀ vs, mmap (λ v, r ← map_Get (V := latency) (Some a) v; mret (region (max_total 0 (range_map m)) v r)) vs w =
    Ok (map f vs, w)) as Hmap.
  { induction vs as [|v vs IH]; [done|]. cbn [mmap map].
    assert (map_Get (V := latency) (Some a) v w = Ok (m !! v, w)) as Hg by (unfold map_Get; by mstep (deref_run w a _ Hm)).
    rewrite (M_bind_run _ _ w (f v) w) by (by mstep Hg). by mstep IH. }
  by mstep (Hmap locations).
Qed.

(** Without [reset] there is one request. *)
Lemma one_request l es σ σ' :
  spec_run l es σ σ' → CallReset ∉ es → Forall (λ j, j_req j = sp_req σ) (sp_asleep σ) →
  sp_req σ' = sp_req σ ∧ Forall (λ j, j_req j = sp_req σ) (sp_asleep σ').
Proof.
  induction 1 as [σ|e es σ1 σ2 σ3 Hs _ IH]; [done|]. intros [He Hes]%not_elem_of_cons Hf.
  assert (sp_req σ2 = sp_req σ1 ∧ Forall (λ j, j_req j = sp_req σ1) (sp_asleep σ2)) as [Hr2 Hf2].
  { inversion Hs; subst; cbn [sp_req sp_asleep]; try done; split; try done; try by apply list.Forall_delete.
    apply list.Forall_app. split; [done|]. apply list.Forall_forall.
    by intros j (k & v & to & -> & _)%elem_of_lookup_zip_with. }
  rewrite Hr2 in IH. by apply IH.
Qed.

Section Runs.
Context (NewSource : Z → nat → Z) (fuel : nat).
Hypothesis Hsource : source_ok NewSource.
Hypothesis Hfuel : ∀ n r, (0 < n < 2 ^ 63)%Z → Z.land n (n - 1) ≠ 0%Z → accepts63 NewSource fuel n r.

(** C16: measuring.  Mounted on a page, and whatever the user types, however often Start is
    clicked and [reset] called, and in whatever order the goroutines wake: either the run
    succeeds and the component is as the specification says, or it panics, at the first
    goroutine of the current request to wake that slept for no time at all.  When it
    succeeds, Start put one goroutine to sleep for each location, for less than three
    seconds, and the page shows for each location the result of the last goroutine for it
    that woke since then, with the time it slept as total and five parts, none negative, that
    add up to it; and no result for the other locations.  Goroutines of an earlier click count
    as well unless [reset] was called in between: without it the number of the request
    never changes, and no goroutine is ever found out of date. *)
Theorem latency_runs range_map HTMLElem (w : world lmem) es :
  heap_wf (w_js w) → l_jobs (w_ext w) = [] →
  let this := next_loc (w_js w) in
  let l := {| latency_def := mk_def this |} in
  ∃ w0, mount_instance (buildLatency range_map HTMLElem) (JObject []) w = Ok (this, w0) ∧
    ((∃ w1 σ i p, lat_run NewSource fuel l es w0 = Ok (tt, w1) ∧ spec_run l es spec0 σ ∧
        inst (w_js w1) this i (spec_state σ p) ∧ l_jobs (w_ext w1) = sp_asleep σ ∧
        (CallReset ∉ es → sp_req σ = 0%Z ∧ Forall (λ j, j_req j = 0%Z) (sp_asleep σ)) ∧
        match sp_woke σ with
        | None => p = None
        | Some ws => ∃ m, measured m ws ∧
            renderOutput range_map l w1 = Ok (El.Div (Some (El.with_ClassName "Regions" El.html_zero))
              (map (λ v, region (max_total 0 (range_map m)) v (m !! v)) locations), w1)
        end) ∨
     (∃ es1 n es2 σ j, es = es1 ++ Wake n :: es2 ∧ spec_run l es1 spec0 σ ∧
        sp_asleep σ !! n = Some j ∧ j_req j = sp_req σ ∧ j_to j = 0%Z ∧
        lat_run NewSource fuel l es w0 = Panic (PanicMsg "invalid argument to Int63n"))).
Proof.
  intros Hwf Hjobs this l.
  destruct (create_evolves (buildLatency range_map HTMLElem) (JObject []) w (MkState 0 false "" "" None) Hwf eq_refl)
    as (j0 & H0 & Hi0 & _).
  set (w0 := World j0 (w_ext w)). exists w0. split; [unfold mount_instance; by mstep H0|].
  assert (at_spec w0 this (S (S this)) spec0 None) as Hat by (split; try done; constructor).
  destruct (run_spec NewSource fuel Hsource Hfuel es w0 this (S (S this)) spec0 None Hat)
    as [(w1 & σ & p & H1 & Hs & [Hi1 Hj1 _ Hr1])|H]; [left|by right].
  exists w1, σ, (S (S this)), p. split; [exact H1|]. split; [exact Hs|]. split; [exact Hi1|]. split; [exact Hj1|].
  split.
  - intros Hno. apply (one_request l es spec0 σ Hs Hno). constructor.
  - destruct (sp_woke σ) as [ws|]; [|by destruct Hr1]. destruct Hr1 as (a & m & -> & Hm & Hmeas).
    exists m. split; [exact Hmeas|]. eapply renderOutput_run. split; [exact Hi1|]. by exists a.
Qed.
End Runs.

(** The colours.  The results are drawn in the order of the list, one region for each
    location, whatever order Go ranges over the map in.  The regions are classed the wrong
    way round: one that took longest is called fast, and one that took less than a third
    of that time is called awful. *)
Theorem latency_speeds range_map (w : world lmem) this i s m :
  (∀ m, range_map m ≡ₚ (map_to_list m).*2) → results w this i s m →
  ∃ maxTot, renderOutput range_map {| latency_def := mk_def this |} w =
      Ok (El.Div (Some (El.with_ClassName "Regions" El.html_zero))
            (map (λ v, region maxTot v (m !! v)) locations), w) ∧
    (0 ≤ maxTot)%Z ∧ (∀ v lat, m !! v = Some lat → total lat ≤ maxTot)%Z ∧
    (maxTot = 0 ∨ ∃ v lat, m !! v = Some lat ∧ total lat = maxTot)%Z ∧
    let called lat := speed (Z.quot maxTot 3) (Z.quot (maxTot * 2) 3) (total lat) in
    ∀ lat, (total lat = maxTot → called lat = " with-timings speed-fast") ∧
           (3 * total lat < maxTot - 2 → called lat = " with-timings speed-awful")%Z.
Proof.
  intros Hrange Hres. exists (max_total 0 (range_map m)). split; [by eapply renderOutput_run|].
  destruct (max_total_spec 0 (range_map m)) as (H0 & Hall & Hmax). set (t := max_total 0 (range_map m)) in *.
  split; [exact H0|]. split; [|split].
  - intros v lat Hv. rewrite Hrange, list.Forall_forall in Hall. apply Hall.
    apply list_elem_of_fmap. exists (v, lat). split; [done|]. by apply elem_of_map_to_list.
  - destruct Hmax as [Ht|(lat & Hin & Ht)]; [by left|right]. rewrite Hrange in Hin.
    apply list_elem_of_fmap in Hin as ([v lat'] & -> & Hin%elem_of_map_to_list). eauto.
  - intros called lat. unfold called, speed. rewrite !Z.quot_div_nonneg by lia. split.
    + intros ->. assert (t / 3 ≤ t)%Z by (apply Z.div_le_upper_bound; lia).
      assert (t * 2 / 3 ≤ t)%Z by (apply Z.div_le_upper_bound; lia).
      destruct (Z.ltb_spec t (t / 3)); [lia|]. by destruct (Z.ltb_spec t (t * 2 / 3)); [lia|].
    + intros Ht. assert (total lat + 1 ≤ t / 3)%Z by (apply Z.div_le_lower_bound; lia).
      by destruct (Z.ltb_spec (total lat) (t / 3)); [|lia].
Qed.

(** ** Witnesses *)

(** A source whose draws are all 1, with which no goroutine sleeps for no time, and one
    whose draws are all 0. *)
Definition ones_source (_ : Z) (_ : nat) : Z := 1.
Definition zeros_source (_ : Z) (_ : nat) : Z := 0.
Lemma const_source_fuel c n r :
  (0 ≤ c ≤ 1)%Z → (0 < n < 2 ^ 63)%Z → Z.land n (n - 1) ≠ 0%Z → accepts63 (λ _ _, c) 1 n r.
Proof.
  intros Hc Hn _. exists 0. split; [lia|]. unfold max63_for.
  pose proof (Z.div_mod (2 ^ 63) n ltac:(lia)) as Hd. pose proof (Z.mod_pos_bound (2 ^ 63) n ltac:(lia)) as Hm.
  assert (1 ≤ 2 ^ 63 / n)%Z by (apply Z.div_le_lower_bound; lia).
  assert (n * 1 ≤ n * (2 ^ 63 / n))%Z by (apply Z.mul_le_mono_nonneg_l; lia). lia.
Qed.
Lemma const_source_ok c : (0 ≤ c ≤ 1)%Z → source_ok (λ _ _, c).
Proof. intros Hc s n. lia. Qed.

Definition empty_page : world lmem :=
  World (one_instance (RV := latency_values) None (MkState 0 false "" "" None)) (LMem [] (rand_New 1) [] 0).


(** A page with nothing on it. *)
Definition blank_page : world lmem := World empty_js (LMem [] (rand_New 1) [] 0).

(** Start is clicked, the goroutine for California wakes, Start is clicked again, and then the
    goroutine of the first click for Oregon wakes: it has its result. *)
Definition two_clicks : list event := [Start; Wake 1; Start; Wake 0].

Lemma latency_runs_witness :
  ∃ w0 w1, mount_instance (buildLatency (λ m, (map_to_list m).*2) (λ _, Ok (ES ""))) (JObject []) blank_page =
      Ok (0, w0) ∧ lat_run ones_source 1 {| latency_def := mk_def 0 |} two_clicks w0 = Ok (tt, w1) ∧
    ∃ σ, spec_run {| latency_def := mk_def 0 |} two_clicks spec0 σ ∧
      length (sp_asleep σ) = 22 ∧ Forall (λ j, j_req j = 0%Z) (sp_asleep σ).
Proof.
  destruct (latency_runs ones_source 1 (const_source_ok 1 ltac:(lia)) (λ n r, const_source_fuel 1 n r ltac:(lia))
    (λ m, (map_to_list m).*2) (λ _, Ok (ES "")) blank_page two_clicks)
    as (w0 & H0 & [(w1 & σ & i & p & H1 & Hs & _ & Hj & Hreq & _)|(es1 & n & es2 & σ & j & _ & _ & _ & _ & _ & H1)]).
  - intros l. simpl. rewrite lookup_empty. by intros [? ?].
  - reflexivity.
  - exists w0, w1. split; [exact H0|]. split; [exact H1|]. exists σ. split; [exact Hs|].
    split; [|apply Hreq; unfold two_clicks; set_solver].
    rewrite <-Hj. vm_compute in H0. injection H0 as <-. vm_compute in H1. injection H1 as <-. reflexivity.
  - exfalso. vm_compute in H0. injection H0 as <-. vm_compute in H1. discriminate.
Defined.

Lemma latency_zero_panics_witness :
  ∃ w1, check_OnClick zeros_source 1 {| latency_def := mk_def 0 |} empty_page = Ok (tt, w1) ∧
    wake zeros_source 1 0 w1 = Panic (PanicMsg "invalid argument to Int63n").
Proof.
  apply (latency_zero_panics zeros_source 1 (const_source_ok 0 ltac:(lia)) (λ n r, const_source_fuel 0 n r ltac:(lia))
    empty_page 0 2 (MkState 0 false "" "" None)).
  - apply one_instance_inst.
  - reflexivity.
Defined.

(** A short wait and a long one. *)
Definition two_results : lat_map :=
  <["Oregon" := MkLatency 0 0 0 0 (10 * Millisecond) (10 * Millisecond)]>
  {["Tokyo" := MkLatency 0 0 0 0 (900 * Millisecond) (900 * Millisecond)]}.
Definition two_results_page : world lmem :=
  World (one_instance (RV := latency_values) None (MkState 0 true "" "" (Some 0)))
    (LMem [ICell two_results false] (rand_New 1) [] 0).

Lemma latency_speeds_witness :
  ∃ maxTot, renderOutput (λ m, (map_to_list m).*2) {| latency_def := mk_def 0 |} two_results_page =
      Ok (El.Div (Some (El.with_ClassName "Regions" El.html_zero))
            (map (λ v, region maxTot v (two_results !! v)) locations), two_results_page) ∧
    (maxTot = 0 ∨ ∃ v lat, two_results !! v = Some lat ∧ total lat = maxTot)%Z.
Proof.
  destruct (latency_speeds (λ m, (map_to_list m).*2) two_results_page 0 2 (MkState 0 true "" "" (Some 0)) two_results)
    as (t & H1 & _ & _ & H2 & _).
  - reflexivity.
  - split; [apply one_instance_inst|]. exists 0. split; reflexivity.
  - exists t. split; [exact H1|exact H2].
Defined.
