(* ===== verification/Present.v ===== *)
(** * The present site

    Models [examples/sites/present] of [src/_vendor/src/myitcv.io/react]: [app.go], [dir.go]
    and the generated file of the component.  The user enters the URL of slides; a goroutine
    fetches the text, renders it with the templates of package [present], and puts the
    result in the state.

    A goroutine runs until it waits for an answer of the network, so it is a job that is
    continued when an answer comes: a request is answered or fails, and rendering a
    document, which may read further files, comes to its end.  Jobs are continued in any
    order.  The text a document is rendered to, package [present], [html/template],
    [net/url] and the assets are parameters. *)

From S2P Require Import Prelude GoLib React Mount Elements.

(** ** Data *)
Definition queryParamHideAddressBar := "hideAddressBar".
Definition queryParamURL := "url".

Record AppDef := { app_def : ComponentDef }.
Record AppState := MkState { URL : string; Slides : string; Error : string; Status : string; HideAddressBar : bool }.
#[export] Instance AppState_eq_dec : EqDecision AppState.
Proof. solve_decision. Defined.

Inductive handler := urlChange (a : AppDef).

#[export] Instance present_values : ReactValues := {|
  Props := Empty_set;
  State := AppState;
  Handler := handler;
  Props_EqualsIntf p := match p with end;
  State_EqualsIntf s v := Ok (bool_decide (s = v));
|}.

(** The goroutines: the one that [ComponentWillMount] starts, one that waits for the answer
    to a request, and one that renders a text. *)
Inductive job :=
  | Init (a : AppDef)
  | Fetching (a : AppDef) (u : string)
  | Rendering (a : AppDef) (u : string) (text : string).

Section Present.
Context {Url Tmpl DocHead SecHead Other : Type}.

(** Documents, as [present] has them: sections may hold sections. *)
Inductive elem := Image (url : string) (w h : Z) | SubSection (s : section) | OtherElem (o : Other)
with section := Section_ (sh : SecHead) (es : list elem).
Record doc := Doc { d_head : DocHead; d_sections : list section }.

Record pmem := PMem { p_jobs : list job; contentTemplate : gmap string Tmpl }.
Abbreviation PM := (M (world pmem)).
Definition on_mem (f : pmem → pmem) : PM unit := mmodify (λ w, World (w_js w) (f (w_ext w))).
Definition go_ (j : job) : PM unit := on_mem (λ m, PMem (p_jobs m ++ [j]) (contentTemplate m)).
Definition add_template (ext : string) (t : Tmpl) : PM unit := on_mem (λ m, PMem (p_jobs m) (<[ext := t]> (contentTemplate m))).

(** [net/url]; [None] is an error. *)
Context (url_Parse : string → option Url) (URL_String : Url → string) (Query_Get : Url → string → string).
Context (ResolveReference : Url → Url → Url).
(** The assets, [present.Template()] with its functions, and [Parse] of a template; [inl] is
    the text of an error. *)
Context (Asset : string → string + string) (present_Template : Tmpl) (Tmpl_Parse : Tmpl → string → string + Tmpl).
(** [Context.Parse], which reads files, and [Doc.Render], which panics for a nil template. *)
Context (ctxt_Parse : (string → string + string) → string → string → string + doc).
Context (Doc_Render : doc → option Tmpl → res (string + string)).
(** The order in which Go ranges over a map of strings. *)
Context (range_files : list (string * string) → list (string * string)).

(** ** dir.go *)

(** The map literal of [initTemplates]: the template file of each extension. *)
Definition content_files : list (string * string) := [(".slide", "slides.tmpl"); (".article", "article.tmpl")].

Definition isDoc (m : pmem) (path : string) : bool := bool_decide (is_Some (contentTemplate m !! Filepath.Ext path)).

Fixpoint init_loop (base action : string) (files : list (string * string)) : PM (option string) :=
  match files with
  | [] => mret None
  | (ext, contentTmpl) :: files =>
      let contentTmpl := Filepath.Join [base; "templates"; contentTmpl] in
      match Tmpl_Parse present_Template action with
      | inl err => mret (Some err)
      | inr actionTmpl =>
          match Asset contentTmpl with
          | inl err => mret (Some err)
          | inr contents =>
              match Tmpl_Parse actionTmpl contents with
              | inl err => mret (Some err)
              | inr tmpl => _ ← add_template ext tmpl; init_loop base action files
              end
          end
      end
  end.
Definition initTemplates (base : string) : PM (option string) :=
  match Asset (Filepath.Join [base; "templates/action.tmpl"]) with
  | inl err => mret (Some err)
  | inr action =>
      _ ← on_mem (λ m, PMem (p_jobs m) ∅);
      init_loop base action (range_files content_files)
  end.

(** [ReadFile] of a document at [rootUrl]; [net] is what the network answers. *)
Definition ReadFile (net : string → string + string) (rootUrl : Url) (filename : string) : string + string :=
  match url_Parse filename with
  | None => inl "url.Parse"
  | Some v => net (URL_String (ResolveReference rootUrl v))
  end.

(** The loops over the sections and their elements. *)
Definition fix_image (u : Url) (e : elem) : res elem :=
  match e with
  | Image url w h =>
      match url_Parse url with
      | None => Panic (PanicMsg "url.Parse")
      | Some vv => Ok (Image (URL_String (ResolveReference u vv)) w h)
      end
  | _ => Ok e
  end.
Definition fix_section (u : Url) (s : section) : res section :=
  match s with Section_ sh es => es ← res_map (fix_image u) es; Ok (Section_ sh es) end.

Definition renderDoc (net : string → string + string) (templates : gmap string Tmpl) (docUrl text : string) :
    res (string + string) :=
  match url_Parse docUrl with
  | None => Ok (inl "url.Parse")
  | Some u =>
      let docFile := Filepath.Base docUrl in
      match ctxt_Parse (ReadFile net u) text docFile with
      | inl err => Ok (inl err)
      | inr doc =>
          ss ← res_map (fix_section u) (d_sections doc);
          let tmpl := templates !! Filepath.Ext docFile in
          Doc_Render (Doc (d_head doc) ss) tmpl
      end
  end.

Definition showFile (m : pmem) (n : string) : bool :=
  if bool_decide (Filepath.Ext n ∈ [".pdf"; ".html"; ".go"]) then true else isDoc m n.
Definition showDir (n : string) : bool :=
  match n with
  | String c _ => negb (bool_decide (c = "."%char) || bool_decide (c = "_"%char) || str_eqb n "present")
  | "" => true
  end.

(** ** app.go *)
Definition State_ (a : AppDef) : PM AppState := ComponentDef_State (app_def a).
Definition SetState (a : AppDef) (s : AppState) : PM unit := ComponentDef_SetState (app_def a) s.

Definition GetInitialState (location : string) : PM AppState :=
  match url_Parse location with
  | None => mpanic (PanicMsg "url.Parse")
  | Some u =>
      let hide := match Strconv.ParseBool (Query_Get u queryParamHideAddressBar) with Some b => b | None => false end in
      mret (MkState (Query_Get u queryParamURL) "" "" "" hide)
  end.

Definition App_ComponentWillMount (a : AppDef) : PM unit := go_ (Init a).

Definition with_Status (t : string) (s : AppState) : AppState := MkState (URL s) (Slides s) (Error s) t (HideAddressBar s).
Definition with_Error (t : string) (s : AppState) : AppState := MkState (URL s) (Slides s) t (Status s) (HideAddressBar s).
Definition with_Slides (t : string) (s : AppState) : AppState := MkState (URL s) t (Error s) (Status s) (HideAddressBar s).
Definition with_URL (t : string) (s : AppState) : AppState := MkState t (Slides s) (Error s) (Status s) (HideAddressBar s).

Definition newUrl (a : AppDef) (u : string) : PM unit :=
  st ← State_ a;
  _ ← SetState a (with_Status "Loading..." (with_URL u st));
  if bool_decide (u = "") then mret tt else go_ (Fetching a u).
Definition urlChange_OnChange (a : AppDef) (value : string) : PM unit := newUrl a value.

Definition contents (s : AppState) : list Element :=
  let cls c := Some (El.with_ClassName c El.html_zero) in
  if negb (bool_decide (Slides s = "")) then
    [El.IFrame (Some (El.IFrame_with_SrcDoc (Slides s) (El.IFrame_on_html
      (El.with_Style (Some (css_Width "100%" (css_Height "100%" css_zero)))) El.IFrame_zero))) []]
  else if negb (bool_decide (Error s = "")) then [El.Div (cls "placeholder error") [ES (Error s)]]
  else if negb (bool_decide (Status s = "")) then [El.Div (cls "placeholder status") [ES (Status s)]]
  else [El.Div (cls "placeholder arrow") [ES "⇧"]; El.Div (cls "placeholder text") [ES "Enter slides URL"]].
Definition app_view (a : AppDef) (s : AppState) : Element :=
  let cls c := Some (El.with_ClassName c El.html_zero) in
  let addressBar :=
    if HideAddressBar s then ENil
    else El.Input (Some (El.Input_with_Placeholder "Slides URL" (El.Input_with_Value (URL s) (El.Input_on_html
      (λ p, El.with_ID "addressbar" (El.with_OnChange (Some (urlChange a)) p)) El.Input_zero)))) [] in
  El.Div (cls "box") [El.Div (cls "row header") [addressBar]; El.Div (cls "row content") (contents s)].
Definition App_Render (a : AppDef) : PM Element := s ← State_ a; mret (app_view a s).

Definition buildApp (location : string) (cd : ComponentDef) : Component pmem :=
  let a := {| app_def := cd |} in {|
  cmp_type := RType "AppDef" "main";
  RendersElement := App_Render a;
  ComponentWillMount := Some (App_ComponentWillMount a);
  ComponentDidMount := None;
  ComponentWillReceivePropsIntf := None;
  GetInitialStateIntf := Some (GetInitialState location);
  ComponentWillUnmount := None;
|}.
Definition App (location : string) : PM Element := CreateElement (buildApp location) None [].

(** ** Goroutines *)

(** What a goroutine waits for: to be started, the answer to its request, or the answers
    that reading the files of its document needs. *)
Inductive answer := Start | Failed | Answered (text : string) | Read (net : string → string + string).

(** A goroutine goes on with an answer; one that does not wait for it goes on waiting. *)
Definition job_run (j : job) (x : answer) : PM unit :=
  match j, x with
  | Init a, Start =>
      err ← initTemplates ".";
      match err with
      | Some err => mpanic (PanicMsg err)
      | None =>
          s ← State_ a;
          let u := URL s in
          if bool_decide (u = "") then mret tt else newUrl a u
      end
  | Fetching a u, Failed =>
      st ← State_ a;
      SetState a (with_Error "Invalid URL" st)
  | Fetching a u, Answered text =>
      st ← State_ a;
      _ ← SetState a (with_Status "Loading..." st);
      go_ (Rendering a u text)
  | Rendering a u text, Read net =>
      m ← mget w_ext;
      out ← mlift (renderDoc net (contentTemplate m) u text);
      match out with
      | inl err => mpanic (PanicMsg err)
      | inr out =>
          st ← State_ a;
          SetState a (with_Slides out st)
      end
  | _, _ => go_ j
  end.

Inductive event := Type_ (u : string) | Go_on (n : nat) (x : answer).
Definition present_event (this : loc) (e : event) : PM unit :=
  match e with
  | Type_ u => urlChange_OnChange {| app_def := mk_def this |} u
  | Go_on n x =>
      m ← mget w_ext;
      match p_jobs m !! n with
      | None => mret tt
      | Some j => _ ← on_mem (λ m, PMem (delete n (p_jobs m)) (contentTemplate m)); job_run j x
      end
  end.
Fixpoint present_run (this : loc) (es : list event) : PM unit :=
  match es with [] => mret tt | e :: es => _ ← present_event this e; present_run this es end.

(** ** What it does

    The site without React: its state, the jobs and the templates. *)
Inductive task := TInit | TFetch (u : string) | TRender (u text : string).
Record site := Site { s_app : AppState; s_tasks : list task; s_templates : gmap string Tmpl }.

Definition load (u : string) (s : site) : site :=
  Site (with_Status "Loading..." (with_URL u (s_app s)))
    (s_tasks s ++ if bool_decide (u = "") then [] else [TFetch u]) (s_templates s).
(** The templates, or an error. *)
Fixpoint templates_loop (base action : string) (files : list (string * string)) (ts : gmap string Tmpl) : string + gmap string Tmpl :=
  match files with
  | [] => inr ts
  | (ext, f) :: files =>
      match Tmpl_Parse present_Template action with
      | inl err => inl err
      | inr t =>
          match Asset (Filepath.Join [base; "templates"; f]) with
          | inl err => inl err
          | inr c =>
              match Tmpl_Parse t c with
              | inl err => inl err
              | inr t => templates_loop base action files (<[ext := t]> ts)
              end
          end
      end
  end.
Definition all_templates : string + gmap string Tmpl :=
  match Asset "templates/action.tmpl" with
  | inl err => inl err
  | inr action => templates_loop "." action (range_files content_files) ∅
  end.

Definition task_step (s : site) (t : task) (x : answer) : res site :=
  match t, x with
  | TInit, Start =>
      match all_templates with
      | inl err => Panic (PanicMsg err)
      | inr ts =>
          let s := Site (s_app s) (s_tasks s) ts in
          Ok (if bool_decide (URL (s_app s) = "") then s else load (URL (s_app s)) s)
      end
  | TFetch u, Failed => Ok (Site (with_Error "Invalid URL" (s_app s)) (s_tasks s) (s_templates s))
  | TFetch u, Answered text =>
      Ok (Site (with_Status "Loading..." (s_app s)) (s_tasks s ++ [TRender u text]) (s_templates s))
  | TRender u text, Read net =>
      out ← renderDoc net (s_templates s) u text;
      match out with
      | inl err => Panic (PanicMsg err)
      | inr out => Ok (Site (with_Slides out (s_app s)) (s_tasks s) (s_templates s))
      end
  | _, _ => Ok (Site (s_app s) (s_tasks s ++ [t]) (s_templates s))
  end.
Definition site_step (s : site) (e : event) : res site :=
  match e with
  | Type_ u => Ok (load u s)
  | Go_on n x =>
      match s_tasks s !! n with
      | None => Ok s
      | Some t => task_step (Site (s_app s) (delete n (s_tasks s)) (s_templates s)) t x
      end
  end.
Fixpoint site_run (s : site) (es : list event) : res site :=
  match es with [] => Ok s | e :: es => s ← site_step s e; site_run s es end.

(** ** Proofs *)
Definition job_of (a : AppDef) (t : task) : job :=
  match t with TInit => Init a | TFetch u => Fetching a u | TRender u text => Rendering a u text end.
Abbreviation app_at this := {| app_def := mk_def this |}.

(** [w] is the site [s]. *)
Record shows (w : world pmem) (this i : loc) (s : site) : Prop := {
  sh_inst : inst (w_js w) this i (s_app s);
  sh_jobs : p_jobs (w_ext w) = map (job_of (app_at this)) (s_tasks s);
  sh_templates : contentTemplate (w_ext w) = s_templates s;
}.
(** From [w] to [w']: the site becomes [s'], and a re-render is asked for if its state changes. *)
Definition becomes (w w' : world pmem) (this i : loc) (s s' : site) : Prop :=
  shows w' this i s' ∧ ∃ us, updates (w_js w') = updates (w_js w) ++ us ∧ (s_app s' = s_app s ∨ this ∈ us).

Lemma site_State_run (w : world pmem) this i s : shows w this i s → State_ (app_at this) w = Ok (s_app s, w).
Proof. intros Hw. apply (State_inst w _ _ _ (sh_inst _ _ _ _ Hw)). Qed.

Lemma SetState_run (w : world pmem) this i s st :
  shows w this i s →
  ∃ w', SetState (app_at this) st w = Ok (tt, w') ∧ becomes w w' this i s (Site st (s_tasks s) (s_templates s)).
Proof.
  intros [Hi Hj Ht].
  destruct (SetState_evolves w this i (s_app s) st (bool_decide (st = s_app s)) Hi eq_refl) as (j' & Hr & Hi' & _ & Hu & _).
  { by intros ?%bool_decide_eq_true_1. }
  eexists. split; [exact Hr|]. split; [by split|]. eexists. split; [exact Hu|].
  destruct (bool_decide_reflect (st = s_app s)); [by left|]. right. left.
Qed.

Lemma go_run (w : world pmem) this i s t :
  shows w this i s →
  ∃ w', go_ (job_of (app_at this) t) w = Ok (tt, w') ∧ becomes w w' this i s (Site (s_app s) (s_tasks s ++ [t]) (s_templates s)).
Proof.
  intros [Hi Hj Ht]. eexists. split; [reflexivity|]. split.
  - split; [done| |done]. cbn. by rewrite Hj, map_app.
  - exists []. cbn. rewrite app_nil_r. split; [done|by left].
Qed.

Lemma becomes_trans w1 w2 w3 this i s1 s2 s3 :
  becomes w1 w2 this i s1 s2 → becomes w2 w3 this i s2 s3 → becomes w1 w3 this i s1 s3.
Proof.
  intros (_ & u1 & Hu1 & H1) (Hs & u2 & Hu2 & H2). split; [done|]. exists (u1 ++ u2).
  rewrite Hu2, Hu1, app_assoc. split; [done|]. rewrite elem_of_app.
  destruct H1 as [H1|]; [|by right; left]. destruct H2 as [H2|]; [|by right; right]. left. congruence.
Qed.
Lemma becomes_refl w this i s : shows w this i s → becomes w w this i s s.
Proof. intros Hw. split; [done|]. exists []. rewrite app_nil_r. split; [done|by left]. Qed.

Lemma newUrl_run (w : world pmem) this i s u :
  shows w this i s →
  ∃ w', newUrl (app_at this) u w = Ok (tt, w') ∧ becomes w w' this i s (load u s).
Proof.
  intros Hw. unfold newUrl, load. mstep (site_State_run _ _ _ _ Hw).
  destruct (SetState_run w this i s (with_Status "Loading..." (with_URL u (s_app s))) Hw) as (w1 & H1 & Hb1).
  mstep H1. case_bool_decide.
  - exists w1. rewrite app_nil_r. by split.
  - destruct (go_run w1 this i _ (TFetch u) (proj1 Hb1)) as (w2 & H2 & Hb2). exists w2. split; [exact H2|].
    by eapply becomes_trans.
Qed.

Lemma init_loop_run files base action (w : world pmem) :
  match templates_loop base action files (contentTemplate (w_ext w)) with
  | inl err => ∃ w', init_loop base action files w = Ok (Some err, w')
  | inr ts => init_loop base action files w = Ok (None, World (w_js w) (PMem (p_jobs (w_ext w)) ts))
  end.
Proof.
  revert w. induction files as [|[ext f] files IH]; intros w; cbn [init_loop templates_loop]; [by destruct w as [? []]|].
  destruct (Tmpl_Parse present_Template action) as [err|t]; [by exists w|].
  destruct (Asset _) as [err|c]; [by exists w|]. destruct (Tmpl_Parse t c) as [err|t']; [by exists w|].
  exact (IH (World (w_js w) (PMem (p_jobs (w_ext w)) (<[ext := t']> (contentTemplate (w_ext w)))))).
Qed.
Lemma initTemplates_run (w : world pmem) this i s :
  shows w this i s →
  match all_templates with
  | inl err => ∃ w', initTemplates "." w = Ok (Some err, w')
  | inr ts => ∃ w', initTemplates "." w = Ok (None, w') ∧ becomes w w' this i s (Site (s_app s) (s_tasks s) ts)
  end.
Proof.
  intros [Hi Hj Ht]. unfold initTemplates, all_templates.
  change (Filepath.Join [".";  "templates/action.tmpl"]) with "templates/action.tmpl".
  destruct (Asset "templates/action.tmpl") as [err|action]; [by exists w|].
  set (w1 := World (w_js w) (PMem (p_jobs (w_ext w)) ∅)).
  assert ((on_mem (λ m, PMem (p_jobs m) ∅) ≫= λ _, init_loop "." action (range_files content_files)) w = init_loop "." action (range_files content_files) w1)
    as -> by done.
  pose proof (init_loop_run (range_files content_files) "." action w1) as Hl. cbn [contentTemplate w_ext w1] in Hl.
  destruct (templates_loop _ _ _ _) as [err|ts]; [exact Hl|]. eexists. split; [exact Hl|].
  split; [by split|]. exists []. rewrite app_nil_r. split; [done|by left].
Qed.

Lemma site_job_run (w : world pmem) this i s t x :
  shows w this i s →
  match task_step s t x with
  | Ok s' => ∃ w', job_run (job_of (app_at this) t) x w = Ok (tt, w') ∧ becomes w w' this i s s'
  | Panic e => job_run (job_of (app_at this) t) x w = Panic e
  end.
Proof.
  intros Hw. destruct t as [|u|u text], x as [| |ans|net]; cbn [task_step job_run job_of];
    try (by apply (go_run w this i s TInit)); try (by apply (go_run w this i s (TFetch u)));
    try (by apply (go_run w this i s (TRender u text))).
  - pose proof (initTemplates_run w this i s Hw) as Hi. destruct all_templates as [err|ts].
    + destruct Hi as (w' & Hi). by mstep Hi.
    + destruct Hi as (w1 & H1 & Hb1). mstep H1. mstep (site_State_run _ _ _ _ (proj1 Hb1)). cbn [s_app].
      case_bool_decide; [by exists w1|].
      destruct (newUrl_run w1 this i _ (URL (s_app s)) (proj1 Hb1)) as (w2 & H2 & Hb2). exists w2. split; [exact H2|].
      by eapply becomes_trans.
  - mstep (site_State_run _ _ _ _ Hw). by apply SetState_run.
  - mstep (site_State_run _ _ _ _ Hw). destruct (SetState_run w this i s (with_Status "Loading..." (s_app s)) Hw) as (w1 & H1 & Hb1).
    mstep H1. destruct (go_run w1 this i _ (TRender u ans) (proj1 Hb1)) as (w2 & H2 & Hb2). exists w2. split; [exact H2|].
    by eapply becomes_trans.
  - mstep (eq_refl : mget w_ext w = Ok (w_ext w, w)). rewrite (sh_templates _ _ _ _ Hw).
    destruct (renderDoc net (s_templates s) u text) as [[err|out]|e] eqn:Hout; cbn.
    + by mstep (mlift_run (Ok (inl err : string + string)) w _ eq_refl).
    + mstep (mlift_run (Ok (inr out : string + string)) w _ eq_refl). mstep (site_State_run _ _ _ _ Hw). by apply SetState_run.
    + done.
Qed.

Lemma present_event_run (w : world pmem) this i s e :
  shows w this i s →
  match site_step s e with
  | Ok s' => ∃ w', present_event this e w = Ok (tt, w') ∧ becomes w w' this i s s'
  | Panic err => present_event this e w = Panic err
  end.
Proof.
  intros Hw. destruct e as [u|n x]; cbn [site_step present_event].
  - by apply newUrl_run.
  - rewrite (M_bind_run (mget w_ext) _ w (w_ext w) w eq_refl). rewrite (sh_jobs _ _ _ _ Hw), list_lookup_fmap.
    destruct (s_tasks s !! n) as [t|] eqn:Ht; cbn; [|exists w; split; [done|by apply becomes_refl]].
    set (w1 := World (w_js w) (PMem (delete n (p_jobs (w_ext w))) (contentTemplate (w_ext w)))).
    set (s1 := Site (s_app s) (delete n (s_tasks s)) (s_templates s)).
    assert (shows w1 this i s1) as Hw1.
    { destruct Hw as [Hi Hj Hts]. split; cbn; try done. rewrite Hj. symmetry. apply (list_fmap_delete (job_of (app_at this))). }
    rewrite (M_bind_run (on_mem _) _ w tt w1 eq_refl). pose proof (site_job_run w1 this i s1 t x Hw1) as Hj.
    destruct (task_step s1 t x); [|done]. destruct Hj as (w' & Hr & Hs & us & Hu & Hch). exists w'. split; [done|]. split; [done|].
    by exists us.
Qed.

Lemma present_run_run (w : world pmem) this i s es :
  shows w this i s →
  match site_run s es with
  | Ok s' => ∃ w', present_run this es w = Ok (tt, w') ∧ shows w' this i s'
  | Panic err => present_run this es w = Panic err
  end.
Proof.
  revert w s. induction es as [|e es IH]; intros w s Hw; cbn [site_run present_run]; [by exists w|].
  pose proof (present_event_run w this i s e Hw) as He. destruct (site_step s e) as [s1|err]; cbn.
  - destruct He as (w1 & H1 & Hb1). rewrite (M_bind_run _ _ _ _ _ H1). by apply IH, (proj1 Hb1).
  - unfold mbind, M_bind. by rewrite He.
Qed.

Lemma mount_run (w : world pmem) location u0 :
  heap_wf (w_js w) → p_jobs (w_ext w) = [] → url_Parse location = Some u0 →
  let this := next_loc (w_js w) in
  ∃ w' s0, mount_instance (buildApp location) (JObject []) w = Ok (this, w') ∧
    GetInitialState location w = Ok (s0, w) ∧ shows w' this (S (S this)) (Site s0 [TInit] (contentTemplate (w_ext w))).
Proof.
  intros Hwf Hj Hu this. unfold mount_instance.
  destruct (create_evolves_with (buildApp location) (JObject []) w (GetInitialState location)
    (MkState (Query_Get u0 queryParamURL) "" "" ""
       (match Strconv.ParseBool (Query_Get u0 queryParamHideAddressBar) with Some b => b | None => false end))
    (w_ext w) Hwf eq_refl) as (j1 & Hr1 & Hi1 & _).
  { intros j. unfold GetInitialState. by rewrite Hu. }
  mstep Hr1. cbn [buildApp ComponentWillMount opt_call]. eexists _, _. split; [reflexivity|].
  split; [unfold GetInitialState; by rewrite Hu|]. split; cbn; try done. by rewrite Hj.
Qed.

(** *** What the page can show *)
Definition typed (es : list event) : list string := omap (λ e, match e with Type_ u => Some u | _ => None end) es.
Definition task_url (t : task) : option string :=
  match t with TInit => None | TFetch u | TRender u _ => Some u end.
(** The text of the slides is what a document of one of the URLs [us] was rendered to. *)
Definition slides_of (us : list string) (slides : string) : Prop :=
  slides = "" ∨ ∃ u text net ts, u ∈ us ∧ renderDoc net ts u text = Ok (inr slides).
Record sound (hide : bool) (us : list string) (s : site) : Prop := {
  so_url : list.last us = Some (URL (s_app s));
  so_tasks : ∀ t u, t ∈ s_tasks s → task_url t = Some u → u ∈ us;
  so_slides : slides_of us (Slides (s_app s));
  so_error : Error (s_app s) = "" ∨ Error (s_app s) = "Invalid URL";
  so_hide : HideAddressBar (s_app s) = hide;
}.

Lemma slides_of_mono us us' slides : us ⊆ us' → slides_of us slides → slides_of us' slides.
Proof. intros Hs [->|(u & text & net & ts & Hu & Hr)]; [by left|right]. exists u, text, net, ts. auto. Qed.

Lemma load_sound hide us s u :
  sound hide us s → sound hide (us ++ [u]) (load u s).
Proof.
  intros [_ Ht Hs He Hh]. split; cbn; try done.
  - by rewrite list.last_snoc.
  - intros t v [Hin|Hin]%elem_of_app Hv; apply elem_of_app; [left; by eapply Ht|].
    case_bool_decide; [by apply elem_of_nil in Hin|]. apply list_elem_of_singleton in Hin as ->. injection Hv as <-.
    right. left.
  - eapply slides_of_mono, Hs. intros x Hx. apply elem_of_app. by left.
Qed.

Lemma sound_tasks hide us s ts' tm :
  sound hide us s → (∀ t u, t ∈ ts' → task_url t = Some u → u ∈ us) → sound hide us (Site (s_app s) ts' tm).
Proof. intros [Hu _ Hs He Hh] Ht. by split. Qed.

Lemma task_sound hide us s t x s' :
  sound hide us s → (∀ u, task_url t = Some u → u ∈ us) → task_step s t x = Ok s' → sound hide us s'.
Proof.
  intros Hso Htu. pose proof Hso as [Hu Ht Hs He Hh].
  assert (∀ t' app, task_url t' = task_url t →
    list.last us = Some (URL app) → slides_of us (Slides app) → (Error app = "" ∨ Error app = "Invalid URL") → HideAddressBar app = hide →
    sound hide us (Site app (s_tasks s ++ [t']) (s_templates s))) as Hsnoc.
  { intros t' app Ht' ????. split; cbn; try done. intros t0 u [Hin| ->%list_elem_of_singleton]%elem_of_app Hv; [by eapply Ht|].
    apply Htu. by rewrite <-Ht'. }
  destruct t as [|u|u text], x as [| |ans|net]; cbn [task_step]; try (intros [= <-]; by apply Hsnoc).
  - destruct all_templates as [err|ts]; [done|]. intros [= <-]. cbn [s_app].
    case_bool_decide; [by split|].
    pose proof (load_sound hide us (Site (s_app s) (s_tasks s) ts) (URL (s_app s)) ltac:(by split)) as [_ Ht' Hs' He' Hh'].
    assert (∀ x, x ∈ us ++ [URL (s_app s)] → x ∈ us) as Hin.
    { intros y [Hy| ->%list_elem_of_singleton]%elem_of_app; [done|]. by apply list.last_Some_elem_of. }
    split; try done. intros t0 u0 Hin0 Hv. apply Hin. by eapply Ht'.
  - intros [= <-]. split; cbn; try done. by right.
  - destruct (renderDoc net (s_templates s) u text) as [[err|out]|e] eqn:Hout; cbn; try done. intros [= <-].
    split; cbn; try done. right. exists u, text, net, (s_templates s). split; [|done]. by apply Htu.
Qed.

Lemma site_step_sound hide us s e s' :
  sound hide us s → site_step s e = Ok s' → sound hide (us ++ typed [e]) s'.
Proof.
  intros Hso. destruct e as [u|n x]; cbn [site_step typed omap list_omap]; [intros [= <-]; by apply load_sound|].
  rewrite app_nil_r. destruct (s_tasks s !! n) as [t|] eqn:Ht; [|by intros [= <-]].
  apply task_sound.
  - apply (sound_tasks _ _ s); [done|]. intros t0 u Hin. apply (so_tasks _ _ _ Hso).
    by apply (list_elem_of_delete_inv _ n).
  - intros u Hu. eapply (so_tasks _ _ _ Hso); [|exact Hu]. by eapply list_elem_of_lookup_2.
Qed.
Lemma site_run_sound hide us s es s' :
  sound hide us s → site_run s es = Ok s' → sound hide (us ++ typed es) s'.
Proof.
  revert us s. induction es as [|e es IH]; intros us s Hso; cbn [site_run].
  - intros [= <-]. by rewrite app_nil_r.
  - intros (s1 & H1 & H2)%bind_Ok. pose proof (IH _ _ (site_step_sound _ _ _ _ _ Hso H1) H2) as Hr.
    rewrite <-app_assoc in Hr. by destruct e.
Qed.

(** *** A page on which nothing is going on *)
Definition no_input (e : event) : Prop := match e with Type_ _ => False | _ => True end.
Lemma idle_run s es : s_tasks s = [] → Forall no_input es → site_run s es = Ok s.
Proof. intros Hs. induction 1 as [|[u|n x] es He _ IH]; cbn; [done..|]. by rewrite Hs. Qed.

(** C13: the present site.  From a page whose URL parses, whatever the user types and in
    whatever order the goroutines go on and with whatever answers, the site does what
    [site_run] says, panics included: it draws that state, with the URL that was entered
    last; slides are what a document of one of the URLs entered was rendered to; the only
    error is a URL that is not valid, and it stays; the address bar stays or is away. *)
Theorem present_shows (w : world pmem) location u0 es :
  heap_wf (w_js w) → p_jobs (w_ext w) = [] → url_Parse location = Some u0 →
  let this := next_loc (w_js w) in
  ∃ w0 s0, mount_instance (buildApp location) (JObject []) w = Ok (this, w0) ∧
    GetInitialState location w = Ok (s0, w) ∧
    match site_run (Site s0 [TInit] (contentTemplate (w_ext w))) es with
    | Ok s =>
        ∃ w', present_run this es w0 = Ok (tt, w') ∧
          App_Render (app_at this) w' = Ok (app_view (app_at this) (s_app s), w') ∧
          p_jobs (w_ext w') = map (job_of (app_at this)) (s_tasks s) ∧
          let us := URL s0 :: typed es in
          list.last us = Some (URL (s_app s)) ∧ slides_of us (Slides (s_app s)) ∧
          (Error (s_app s) = "" ∨ Error (s_app s) = "Invalid URL") ∧ HideAddressBar (s_app s) = HideAddressBar s0
    | Panic err => present_run this es w0 = Panic err
    end.
Proof.
  intros Hwf Hj Hu this. destruct (mount_run w location u0 Hwf Hj Hu) as (w0 & s0 & H0 & Hs0 & Hw0).
  exists w0, s0. split; [exact H0|]. split; [exact Hs0|].
  pose proof (present_run_run w0 _ _ _ es Hw0) as Hrun.
  destruct (site_run _ es) as [s|err] eqn:Hsite; [|exact Hrun]. destruct Hrun as (w' & H1 & Hw'). exists w'.
  split; [exact H1|]. split; [unfold App_Render; by mstep (site_State_run _ _ _ _ Hw')|]. split; [apply Hw'|].
  unfold GetInitialState in Hs0. rewrite Hu in Hs0. injection Hs0 as Hs0.
  destruct (site_run_sound (HideAddressBar s0) [URL s0] (Site s0 [TInit] (contentTemplate (w_ext w))) es s) as [Hl Ht Hsl He Hh];
    [|exact Hsite|done].
  split; try done; subst s0; cbn; [|by left|by left]. intros t u ->%list_elem_of_singleton. done.
Qed.

(** Slides of another URL.  When a second URL is entered while the first is fetched, and
    the first is answered last, the page ends with the second URL and the slides of the
    first, and nothing but more input changes it.  And when the URL is removed before
    there are slides, the page says that it is loading, with nothing being loaded. *)
Theorem present_stale (s : site) u1 u2 text1 text2 net1 net2 slides1 slides2 :
  s_tasks s = [] → u1 ≠ "" → u2 ≠ "" →
  renderDoc net1 (s_templates s) u1 text1 = Ok (inr slides1) →
  renderDoc net2 (s_templates s) u2 text2 = Ok (inr slides2) →
  (∃ s', site_run s [Type_ u1; Type_ u2; Go_on 1 (Answered text2); Go_on 1 (Read net2); Go_on 0 (Answered text1); Go_on 0 (Read net1)] =
      Ok s' ∧ URL (s_app s') = u2 ∧ Slides (s_app s') = slides1 ∧ s_tasks s' = [] ∧
      ∀ es, Forall no_input es → site_run s' es = Ok s') ∧
  (Slides (s_app s) = "" → Error (s_app s) = "" →
    ∃ s', site_run s [Type_ ""] = Ok s' ∧ s_tasks s' = [] ∧
      contents (s_app s') = [El.Div (Some (El.with_ClassName "placeholder status" El.html_zero)) [ES "Loading..."]] ∧
      ∀ es, Forall no_input es → site_run s' es = Ok s').
Proof.
  destruct s as [app ts tm]. cbn [s_app s_tasks s_templates]. intros -> Hu1 Hu2 Hr1 Hr2. split.
  - eexists. split.
    + cbn. unfold load. rewrite !bool_decide_eq_false_2 by done. cbn. rewrite Hr2. cbn. rewrite Hr1. reflexivity.
    + split_and!; try done. intros es. by apply idle_run.
  - intros Hsl Her. eexists. split; [reflexivity|]. split; [done|]. split.
    + unfold contents. cbn. by rewrite Hsl, Her.
    + intros es. by apply idle_run.
Qed.

(** The images of sections are given absolute URLs, those of sections in sections are left
    as they are. *)
Theorem renderDoc_images net templates docUrl text u d :
  url_Parse docUrl = Some u → ctxt_Parse (ReadFile net u) text (Filepath.Base docUrl) = inr d →
  (∀ sh es url w h, Section_ sh es ∈ d_sections d → Image url w h ∈ es → is_Some (url_Parse url)) →
  ∃ ss, renderDoc net templates docUrl text = Doc_Render (Doc (d_head d) ss) (templates !! Filepath.Ext (Filepath.Base docUrl)) ∧
    Forall2 (λ s s', match s, s' with Section_ sh es, Section_ sh' es' => sh' = sh ∧
      Forall2 (λ e e', match e with
        | Image url w h => ∃ v, url_Parse url = Some v ∧ e' = Image (URL_String (ResolveReference u v)) w h
        | _ => e' = e
        end) es es' end) (d_sections d) ss.
Proof.
  intros Hu Hd Himg. destruct d as [hd ss0]. cbn [d_sections d_head] in *.
  assert (Forall (λ s, ∃ s', fix_section u s = Ok s') ss0) as Hall.
  { apply list.Forall_forall. intros [sh es] Hin.
    destruct (res_map_total (fix_image u) es) as [es' He]; [|exists (Section_ sh es'); cbn; by rewrite He].
    apply list.Forall_forall. intros [url w h|s|o] Hes; cbn; [|by eexists..].
    destruct (Himg sh es url w h Hin Hes) as [v ->]. by eexists. }
  destruct (res_map_total _ _ Hall) as [ss Hss]. exists ss. unfold renderDoc. rewrite Hu, Hd. cbn [d_sections d_head].
  rewrite Hss. split; [done|]. apply res_map_Forall2 in Hss. eapply Forall2_impl; [|exact Hss].
  intros [sh es] s' (es' & He & [= <-])%bind_Ok. split; [done|]. apply res_map_Forall2 in He.
  eapply Forall2_impl; [|exact He]. intros [url w h|s|o] e'; cbn; [|by intros [= <-]..].
  destruct (url_Parse url) as [v|]; [|done]. intros [= <-]. by exists v.
Qed.
End Present.

(** ** Witnesses *)

(** URLs as their text, with a query of [url] alone; documents of no section, drawn as
    their text. *)
Module Toy.
Definition parse (s : string) : option string := Some s.
Definition query (u k : string) : string :=
  if bool_decide (k = queryParamURL) then default "" (list.last (Strings.Split u "?"%char)) else "".
Definition asset (s : string) : string + string := inr s.
Definition tmpl_parse (t s : string) : string + string := inr (t +:+ s).
Abbreviation tdoc := (doc (DocHead := string) (SecHead := unit) (Other := unit)).
Definition ctxt (read : string → string + string) (text name : string) : string + tdoc := inr (Doc text []).
Definition draw (d : tdoc) (t : option string) : res (string + string) :=
  match t with Some _ => Ok (inr ("<h1>" +:+ d_head d)) | None => Panic NilDeref end.
Definition no_net (u : string) : string + string := inl "no network".
Definition empty_page : world (pmem (Tmpl := string)) := World empty_js (PMem [] ∅).
Lemma empty_page_wf : heap_wf (w_js empty_page).
Proof. intros l. cbn. rewrite lookup_empty. by intros []. Qed.
End Toy.

Lemma present_shows_witness :
  ∃ w0 w', mount_instance (buildApp Toy.parse Toy.query "http://p/?a.slide") (JObject []) Toy.empty_page = Ok (0, w0) ∧
    present_run Toy.parse id (λ _ v, v) Toy.asset "T" Toy.tmpl_parse Toy.ctxt Toy.draw id 0
      [Go_on 0 Start; Go_on 0 (Answered "Title"); Go_on 0 (Read Toy.no_net)] w0 = Ok (tt, w') ∧
    App_Render {| app_def := mk_def 0 |} w' =
      Ok (app_view {| app_def := mk_def 0 |} (MkState "a.slide" "<h1>Title" "" "Loading..." false), w').
Proof.
  destruct (present_shows Toy.parse id Toy.query (λ _ v, v) Toy.asset "T" Toy.tmpl_parse Toy.ctxt Toy.draw id Toy.empty_page
    "http://p/?a.slide" "http://p/?a.slide"
    [Go_on 0 Start; Go_on 0 (Answered "Title"); Go_on 0 (Read Toy.no_net)]) as (w0 & s0 & H0 & Hs & Hrun).
  - apply Toy.empty_page_wf.
  - reflexivity.
  - reflexivity.
  - vm_compute in Hs. injection Hs as <-. destruct (site_run _ _ _ _ _ _ _ _ _ _ _) as [s|e] eqn:Hsite; vm_compute in Hsite; [|discriminate].
    injection Hsite as <-. destruct Hrun as (w' & H1 & H2 & _). exists w0, w'.
    split; [exact H0|]. split; [exact H1|exact H2].
Defined.

Definition ready_site : site (Tmpl := string) := Site (MkState "" "" "" "" false) [] {[".slide" := "T"]}.
Lemma present_stale_witness :
  ∃ s', site_run (DocHead := string) (SecHead := unit) (Other := unit) Toy.parse id (λ _ v, v) Toy.asset "T" Toy.tmpl_parse Toy.ctxt
      Toy.draw id ready_site
      [Type_ "a.slide"; Type_ "b.slide"; Go_on 1 (Answered "B"); Go_on 1 (Read Toy.no_net); Go_on 0 (Answered "A"); Go_on 0 (Read Toy.no_net)] =
      Ok s' ∧ URL (s_app s') = "b.slide" ∧ Slides (s_app s') = "<h1>A".
Proof.
  destruct (present_stale (DocHead := string) (SecHead := unit) (Other := unit) Toy.parse id (λ _ v, v) Toy.asset "T" Toy.tmpl_parse
    Toy.ctxt Toy.draw id ready_site "a.slide" "b.slide" "A" "B" Toy.no_net Toy.no_net "<h1>A" "<h1>B")
    as [(s' & H1 & H2 & H3 & _) _].
  - reflexivity.
  - discriminate.
  - discriminate.
  - vm_compute. reflexivity.
  - vm_compute. reflexivity.
  - exists s'. split; [exact H1|]. split; [exact H2|exact H3].
Defined.
