(* ===== verification/SyntaxViewer.v ===== *)
(** * The syntax viewer

    Models [examples/sites/syntaxviewer] of [src/_vendor/src/myitcv.io/react]: [app.go] and
    its generated files.  The page shows a text in one of two languages next to its syntax
    tree; the fragment of the page's URL says which language, and a listener of the window
    follows it.

    What the page keeps for a language is an immutable struct, in a store of [Immutable].
    The listeners are a store too: [v_attached] holds those that the window calls when the
    fragment changes, in the order they were added.  [handleEvent] leaves its work to a
    deferred function: every [return] of its body runs it, and a panic ends the event. *)

From S2P Require Import Prelude GoLib React Mount Elements Immutable.

(** ** Data *)
Definition langGo := "Go".
Definition langShell := "Shell".

Record langState := LS { Code : string; Ast : string; Error : bool }.

Record AppDef := { app_def : ComponentDef }.
Record AppState := MkState { Go : ptr; Shell : ptr; Choice : string; listener : ptr }.
#[export] Instance AppState_eq_dec : EqDecision AppState.
Proof. solve_decision. Defined.

Inductive handler := languageChangeEvent (a : AppDef) (l : string) | inputChangeEvent (a : AppDef).

#[export] Instance viewer_values : ReactValues := {|
  Props := Empty_set;
  State := AppState;
  Handler := handler;
  Props_EqualsIntf p := match p with end;
  State_EqualsIntf s v := Ok (bool_decide (s = v));
|}.

Record hashListener := { hl_a : AppDef }.

(** The structs, the listeners there are, the fragment of the URL, the listeners the window
    calls, and the events that were prevented. *)
Record vmem := VMem {
  v_langs : list (icell langState);
  v_listeners : list hashListener;
  v_hash : string;
  v_attached : list nat;
  v_prevented : nat;
}.
Abbreviation VM := (M (world vmem)).

#[export] Instance lang_cells : HasCells langState vmem.
Proof.
  refine {| cells := v_langs;
    put_cells l m := VMem l (v_listeners m) (v_hash m) (v_attached m) (v_prevented m) |}; by repeat intros [].
Defined.

Definition on_mem (f : vmem → vmem) : VM unit := mmodify (λ w, World (w_js w) (f (w_ext w))).
Definition with_attached (l : list nat) (m : vmem) : vmem :=
  VMem (v_langs m) (v_listeners m) (v_hash m) l (v_prevented m).
Definition with_hash (h : string) (m : vmem) : vmem :=
  VMem (v_langs m) (v_listeners m) h (v_attached m) (v_prevented m).
Definition PreventDefault : VM unit :=
  on_mem (λ m, VMem (v_langs m) (v_listeners m) (v_hash m) (v_attached m) (S (v_prevented m))).

(** ** The component *)
Definition State_ (a : AppDef) : VM AppState := ComponentDef_State (app_def a).
Definition SetState (a : AppDef) (s : AppState) : VM unit := ComponentDef_SetState (app_def a) s.

(** *** The struct of a language *)
Definition Code_ (s : ptr) : VM string := c ← imm_deref s; mret (Code (payload c)).
Definition Ast_ (s : ptr) : VM string := c ← imm_deref s; mret (Ast (payload c)).
Definition Error_ (s : ptr) : VM bool := c ← imm_deref s; mret (Error (payload c)).
Definition SetCode (s : ptr) (n : string) : VM ptr := imm_update s (λ l, Ok (LS n (Ast l) (Error l))).
Definition SetAst (s : ptr) (n : string) : VM ptr := imm_update s (λ l, Ok (LS (Code l) n (Error l))).
Definition SetError (s : ptr) (n : bool) : VM ptr := imm_update s (λ l, Ok (LS (Code l) (Ast l) n)).
(** [new(langState)] *)
Definition new_langState : VM ptr := imm_new (ICell (LS "" "" false) false).

(** *** Listeners *)
Definition newHashListenener (a : AppDef) : VM ptr := λ w,
  let m := w_ext w in
  Ok (Some (length (v_listeners m)),
      World (w_js w) (VMem (v_langs m) (v_listeners m ++ [{| hl_a := a |}]) (v_hash m) (v_attached m) (v_prevented m))).
Definition deref_listener (h : ptr) : VM hashListener := λ w,
  l ← store_deref (v_listeners (w_ext w)) h; Ok (l, w).

Definition handleEventImpl (h : ptr) : VM unit :=
  w ← mget id;
  let hash := Strings.TrimPrefix (v_hash (w_ext w)) "#" in
  let hash := if bool_decide (hash = langGo) || bool_decide (hash = langShell) then hash else langGo in
  l ← deref_listener h;
  st ← State_ (hl_a l);
  SetState (hl_a l) (MkState (Go st) (Shell st) hash (listener st)).

(** The window has each listener at most once. *)
Definition addEventListener (h : nat) : VM unit :=
  on_mem (λ m, with_attached (if bool_decide (h ∈ v_attached m) then v_attached m else v_attached m ++ [h]) m).
Definition removeEventListener (h : nat) : VM unit :=
  on_mem (λ m, with_attached (filter (λ k, k ≠ h) (v_attached m)) m).

Definition attach (h : ptr) : VM unit :=
  _ ← handleEventImpl h;
  k ← mlift (of_option NilDeref h);
  addEventListener k.
Definition detach (h : ptr) : VM unit :=
  k ← mlift (of_option NilDeref h);
  removeEventListener k.

(** *** The language on show *)
Definition currLangState (a : AppState) : res ptr :=
  if bool_decide (Choice a = langGo) then Ok (Go a)
  else if bool_decide (Choice a = langShell) then Ok (Shell a)
  else Panic (PanicMsg ("unable to handle language " +:+ Choice a)).
Definition setCurrLangState (a : AppState) (ls : ptr) : res AppState :=
  if bool_decide (Choice a = langGo) then Ok (MkState ls (Shell a) (Choice a) (listener a))
  else if bool_decide (Choice a = langShell) then Ok (MkState (Go a) ls (Choice a) (listener a))
  else Panic (PanicMsg ("unable to handle language " +:+ Choice a)).

Definition GetInitialState (a : AppDef) : VM AppState :=
  g ← new_langState;
  s ← new_langState;
  l ← newHashListenener a;
  mret (MkState g s langGo l).

Definition App_ComponentDidMount (a : AppDef) : VM unit := s ← State_ a; attach (listener s).
(** The method is called [ComponentDidUmount]: React has no such method, and the bindings
    look for another name. *)
Definition App_ComponentDidUmount (a : AppDef) : VM unit := s ← State_ a; detach (listener s).

Section Viewer.
(** The parsers and the printers of syntax trees; [inl] is the text of an error. *)
Context {GoFile ShFile : Type}.
Context (parser_ParseFile : string → string + GoFile) (ast_Fprint : GoFile → string + string).
Context (syntax_Parse : string → string + ShFile) (syntax_DebugPrint : ShFile → string + string).

(** Up to the assignments after the switch: the text of the tree, unless there is an error,
    which then is set. *)
Definition parse_with {F : Type} (parse : string → string + F) (print : F → string + string) (st : ptr) :
    VM (option string) :=
  c ← Code_ st;
  match parse c with
  | inl err => _ ← SetAst st err; mret None
  | inr f =>
      match print f with
      | inl err => _ ← SetAst st err; mret None
      | inr b => mret (Some b)
      end
  end.

Definition handleEvent_body (a : AppDef) (st : ptr) : VM unit :=
  _ ← SetError st true;
  _ ← SetAst st "";
  c ← Code_ st;
  if bool_decide (c = "") then mret tt
  else
    s ← State_ a;
    b ← if bool_decide (Choice s = langGo) then parse_with parser_ParseFile ast_Fprint st
        else if bool_decide (Choice s = langShell) then parse_with syntax_Parse syntax_DebugPrint st
        else mpanic (PanicMsg ("don't know how to handleEvent for " +:+ Choice s));
    match b with
    | None => mret tt
    | Some b => _ ← SetAst st b; _ ← SetError st false; mret tt
    end.

Definition handleEvent (a : AppDef) : VM unit :=
  s ← State_ a;
  p ← mlift (currLangState s);
  st ← struct_AsMutable p;
  _ ← handleEvent_body a st;
  _ ← AsImmutable st None;
  s ← State_ a;
  s ← mlift (setCurrLangState s st);
  SetState a s.

Definition languageChangeEvent_OnClick (a : AppDef) (l : string) : VM unit :=
  _ ← PreventDefault;
  st ← State_ a;
  _ ← SetState a (MkState (Go st) (Shell st) l (listener st));
  handleEvent a.

Definition inputChangeEvent_OnChange (a : AppDef) (value : string) : VM unit :=
  st ← State_ a;
  p ← mlift (currLangState st);
  p ← SetCode p value;
  st ← mlift (setCurrLangState st p);
  _ ← SetState a st;
  handleEvent a.

(** *** Drawing *)
Definition buildLi (l : string) : Element :=
  El.Li None [El.A (Some (El.A_with_Href ("#" +:+ l) El.A_zero)) [ES l]].

Definition viewer_view (a : AppDef) (choice : string) (curr : langState) : Element :=
  let outputClass := if Error curr then "ast" +:+ " asterror" else "ast" in
  let cls c := Some (El.with_ClassName c El.html_zero) in
  El.Div (cls "grid-container") [
    El.Div (cls "header") [
      ES "Syntax Viewer";
      El.Div (Some (El.with_ClassName "dropdown" (El.with_Style (Some (css_Float "right" css_zero)) El.html_zero))) [
        El.Button (Some (El.Button_with_Type "button" (El.Button_on_html (λ p,
            El.with_ClassName "btn btn-default dropdown-toggle" (El.with_ID "dropdownMenu1"
              (El.with_DataSet [("toggle", "dropdown")] (El.with_AriaHasPopup true (El.with_AriaExpanded true p)))))
            El.Button_zero)))
          [ES (choice +:+ " "); El.Span (cls "caret") []];
        El.Ul (Some (El.with_ClassName "dropdown-menu dropdown-menu-right" (El.with_AriaLabelledBy "dropdownMenu1"
            El.html_zero)))
          [buildLi langGo; buildLi langShell]
      ]
    ];
    El.Div (cls "left") [
      El.TextArea (Some (El.TextArea_with_Placeholder ("Your " +:+ choice +:+ " code here...")
        (El.TextArea_with_Value (Code curr) (El.TextArea_on_html (λ p,
          El.with_ClassName "codeinput" (El.with_OnChange (Some (inputChangeEvent a)) p)) El.TextArea_zero)))) []
    ];
    El.Div (cls "right") [El.Pre (cls outputClass) [ES (Ast curr)]]
  ].

Definition App_Render (a : AppDef) : VM Element :=
  s ← State_ a;
  curr ← mlift (currLangState s);
  e ← Error_ curr;
  c ← Code_ curr;
  t ← Ast_ curr;
  mret (viewer_view a (Choice s) (LS c t e)).

Definition buildApp (cd : ComponentDef) : Component vmem :=
  let a := {| app_def := cd |} in {|
  cmp_type := RType "AppDef" "main";
  RendersElement := App_Render a;
  ComponentWillMount := None;
  ComponentDidMount := Some (App_ComponentDidMount a);
  ComponentWillReceivePropsIntf := None;
  GetInitialStateIntf := Some (GetInitialState a);
  ComponentWillUnmount := None;
|}.
Definition App : VM Element := CreateElement buildApp None [].

(** ** What happens *)

(** React draws an instance before it tells it that it was mounted. *)
Definition mount_viewer : VM loc :=
  this ← mount_instance buildApp (JObject []);
  _ ← RendersElement (buildApp (mk_def this));
  _ ← opt_call (ComponentDidMount (buildApp (mk_def this)));
  mret this.

Fixpoint call_listeners (hs : list nat) : VM unit :=
  match hs with [] => mret tt | h :: hs => _ ← handleEventImpl (Some h); call_listeners hs end.
Definition hash_change (h : string) : VM unit :=
  _ ← on_mem (with_hash h);
  w ← mget id;
  call_listeners (v_attached (w_ext w)).

(** The user types, and the fragment of the URL changes, as it does when one of the links
    is clicked; [Pick] is the handler for clicks that [app.go] has. *)
Inductive lang := LGo | LShell.
#[export] Instance lang_eq_dec : EqDecision lang.
Proof. solve_decision. Defined.
Definition lang_name (l : lang) : string := match l with LGo => langGo | LShell => langShell end.
Inductive event := Edit (v : string) | HashChange (h : string) | Pick (l : lang).

Definition viewer_event (this : loc) (e : event) : VM unit :=
  let a := {| app_def := mk_def this |} in
  match e with
  | Edit v => inputChangeEvent_OnChange a v
  | HashChange h => hash_change h
  | Pick l => languageChangeEvent_OnClick a (lang_name l)
  end.
Fixpoint viewer_run (this : loc) (es : list event) : VM unit :=
  match es with [] => mret tt | e :: es => _ ← viewer_event this e; viewer_run this es end.

(** ** What it is to show

    For each language the text that was last looked at, if any, and the language of the
    fragment. *)
Definition hash_lang (h : string) : lang :=
  if bool_decide (Strings.TrimPrefix h "#" = langShell) then LShell else LGo.

Definition tree_of {F : Type} (parse : string → string + F) (print : F → string + string) (t : string) : string + string :=
  match parse t with inl err => inl err | inr f => print f end.
Definition outcome (l : lang) (t : string) : langState :=
  if bool_decide (t = "") then LS t "" true
  else match (match l with LGo => tree_of parser_ParseFile ast_Fprint t
                         | LShell => tree_of syntax_Parse syntax_DebugPrint t end) with
       | inl err => LS t err true
       | inr b => LS t b false
       end.
Definition pane (l : lang) (o : option string) : langState :=
  match o with None => LS "" "" false | Some t => outcome l t end.

Record view := View { on_go : option string; on_shell : option string; choice : lang }.
Definition looked (v : view) (l : lang) : option string := match l with LGo => on_go v | LShell => on_shell v end.
Definition look (v : view) (t : string) : view :=
  match choice v with LGo => View (Some t) (on_shell v) LGo | LShell => View (on_go v) (Some t) LShell end.
Definition view_step (v : view) (e : event) : view :=
  match e with
  | Edit t => look v t
  | HashChange h => View (on_go v) (on_shell v) (hash_lang h)
  | Pick l => let v := View (on_go v) (on_shell v) l in look v (default "" (looked v l))
  end.
Definition view_run : view → list event → view := foldl view_step.
End Viewer.

(** ** Proofs *)
Definition lang_ptr (s : AppState) (l : lang) : ptr := match l with LGo => Go s | LShell => Shell s end.
Lemma choice_curr s l :
  Choice s = lang_name l → currLangState s = Ok (lang_ptr s l).
Proof. intros Hc. unfold currLangState. rewrite Hc. by destruct l. Qed.
Definition set_lang (s : AppState) (l : lang) (p : ptr) : AppState :=
  match l with LGo => MkState p (Shell s) (Choice s) (listener s) | LShell => MkState (Go s) p (Choice s) (listener s) end.
Lemma choice_set s l p : Choice s = lang_name l → setCurrLangState s p = Ok (set_lang s l p).
Proof. intros Hc. unfold setCurrLangState, set_lang. rewrite Hc. by destruct l. Qed.
Lemma lang_ptr_set s l p : lang_ptr (set_lang s l p) l = p.
Proof. by destruct l. Qed.
Lemma lang_ptr_other s l l' p : l ≠ l' → lang_ptr (set_lang s l p) l' = lang_ptr s l'.
Proof. by destruct l, l'. Qed.
Lemma set_lang_choice s l p : Choice (set_lang s l p) = Choice s.
Proof. by destruct l. Qed.
Lemma set_lang_set s l p q : set_lang (set_lang s l p) l q = set_lang s l q.
Proof. by destruct l. Qed.

(** The world [w] with one struct more. *)
Definition push (c : icell langState) (w : world vmem) : world vmem := put_cells (cells w ++ [c]) w.
Lemma push_last c w : cells (push c w) !! length (cells w) = Some c.
Proof. unfold push. rewrite cells_put. apply lookup_last. Qed.
Lemma push_put c d w : put_cells (<[length (cells w) := d]> (cells (push c w))) (push c w) = push d w.
Proof. unfold push. by rewrite cells_put, insert_last, put_put. Qed.
Lemma push_frozen c w a (p : langState) : frozen w a p → frozen (push c w) a p.
Proof. apply frozen_put. by eexists. Qed.

Section EditStruct.
Context (w : world vmem) (c t : string) (e : bool).
Let n := Some (length (cells w)).
Let wm := push (ICell (LS c t e) true) w.

Lemma Code_push b : Code_ n (push (ICell (LS c t e) b) w) = Ok (c, push (ICell (LS c t e) b) w).
Proof. unfold Code_. by mstep (deref_run _ _ _ (push_last (ICell (LS c t e) b) w)). Qed.
Lemma SetAst_push t' : SetAst n t' wm = Ok (n, push (ICell (LS c t' e) true) w).
Proof. unfold SetAst, n, wm. rewrite (update_run _ _ _ _ (push_last _ _)). cbn [payload mutable mbind res_bind]. by rewrite push_put. Qed.
Lemma SetError_push e' : SetError n e' wm = Ok (n, push (ICell (LS c t e') true) w).
Proof. unfold SetError, n, wm. rewrite (update_run _ _ _ _ (push_last _ _)). cbn [payload mutable mbind res_bind]. by rewrite push_put. Qed.
Lemma AsImmutable_push : AsImmutable n None wm = Ok (n, push (ICell (LS c t e) false) w).
Proof.
  unfold n, wm. rewrite (AsImmutable_run _ _ _ _ (push_last _ _)), bool_decide_eq_false_2 by done.
  cbn [payload]. by rewrite push_put.
Qed.
End EditStruct.

(** The listener runs. *)
Lemma handleEventImpl_run (w : world vmem) this i h s :
  inst (w_js w) this i s → v_listeners (w_ext w) !! h = Some {| hl_a := {| app_def := mk_def this |} |} →
  let l := hash_lang (v_hash (w_ext w)) in
  let s' := MkState (Go s) (Shell s) (lang_name l) (listener s) in
  ∃ j', handleEventImpl (Some h) w = Ok (tt, World j' (w_ext w)) ∧ inst j' this i s' ∧ evolves {[i]} ∅ (w_js w) j' ∧
    updates j' = updates (w_js w) ++ (if bool_decide (s' = s) then [] else [this]).
Proof.
  intros Hi Hh l s'. unfold handleEventImpl. mstep (eq_refl : mget id w = Ok (w, w)).
  assert (deref_listener (Some h) w = Ok ({| hl_a := {| app_def := mk_def this |} |}, w)) as Hd
    by (unfold deref_listener; cbn; by rewrite Hh).
  mstep Hd. unfold State_, SetState. cbn [hl_a app_def]. mstep (State_inst w _ _ _ Hi).
  set (hash := Strings.TrimPrefix (v_hash (w_ext w)) "#").
  assert ((if bool_decide (hash = langGo) || bool_decide (hash = langShell) then hash else langGo) = lang_name l) as ->.
  { unfold l, hash_lang. fold hash. repeat case_bool_decide; cbn; congruence. }
  destruct (SetState_evolves w this i s s' (bool_decide (s' = s)) Hi eq_refl) as (j' & Hr & Hi' & Hev & Hu & _).
  { by intros ?%bool_decide_eq_true_1. }
  exists j'. by split; [exact Hr|].
Qed.

(** Mounting: two empty structs and a listener, which is attached. *)
Lemma mount_syntax_run (w : world vmem) :
  heap_wf (w_js w) →
  let this := next_loc (w_js w) in
  let h := length (v_listeners (w_ext w)) in
  h ∉ v_attached (w_ext w) →
  ∃ w' s, mount_viewer w = Ok (this, w') ∧ inst (w_js w') this (S (S this)) s ∧
    (∀ l, ∃ a, lang_ptr s l = Some a ∧ frozen w' a (LS "" "" false)) ∧
    Choice s = lang_name (hash_lang (v_hash (w_ext w))) ∧ listener s = Some h ∧
    v_listeners (w_ext w') !! h = Some {| hl_a := {| app_def := mk_def this |} |} ∧
    v_attached (w_ext w') = v_attached (w_ext w) ++ [h] ∧ heap_wf (w_js w') ∧
    v_listeners (w_ext w') = v_listeners (w_ext w) ++ [{| hl_a := {| app_def := mk_def this |} |}].
Proof.
  intros Hwf this h Hfresh. unfold mount_viewer. set (n := length (v_langs (w_ext w))).
  set (s0 := MkState (Some n) (Some (S n)) langGo (Some h)).
  set (m1 := VMem (v_langs (w_ext w) ++ [ICell (LS "" "" false) false; ICell (LS "" "" false) false])
    (v_listeners (w_ext w) ++ [{| hl_a := {| app_def := mk_def this |} |}]) (v_hash (w_ext w)) (v_attached (w_ext w)) (v_prevented (w_ext w))).
  destruct (create_evolves_with buildApp (JObject []) w
    (GetInitialState {| app_def := mk_def this |}) s0 m1 Hwf eq_refl) as (j1 & Hr1 & Hi1 & [_ _ Hwf1 _ _ _] & _).
  { intros j. unfold GetInitialState, new_langState, imm_new, newHashListenener, mbind, M_bind, mret, M_ret. cbn.
    unfold s0, m1, n, h. rewrite length_app, <-app_assoc. cbn. by rewrite Nat.add_comm. }
  set (w1 := World j1 m1).
  assert (mount_instance buildApp (JObject []) w = Ok (this, w1))
    as Hm by (unfold mount_instance; by mstep Hr1).
  mstep Hm. cbn [RendersElement ComponentDidMount buildApp opt_call].
  assert (∀ l, frozen w1 (match l with LGo => n | LShell => S n end) (LS "" "" false)) as Hfr.
  { intros l. unfold frozen. cbn. unfold n. destruct l; [by apply list_lookup_middle|].
    rewrite lookup_app_r, Nat.sub_succ_l, Nat.sub_diag by lia. done. }
  assert (App_Render {| app_def := mk_def this |} w1 =
    Ok (viewer_view {| app_def := mk_def this |} langGo (LS "" "" false), w1)) as Hdraw.
  { unfold App_Render, State_. cbn [app_def]. mstep (State_inst w1 _ _ _ Hi1).
    mstep (mlift_run (currLangState s0) w1 (Some n) eq_refl).
    assert (∀ {B} (g : langState → B), (c ← imm_deref (P := langState) (Some n); mret (g (payload c))) w1 = Ok (g (LS "" "" false), w1))
      as Hg by (intros B g; by mstep (deref_run w1 n _ (Hfr LGo))).
    mstep (Hg _ Error). mstep (Hg _ Code). by mstep (Hg _ Ast). }
  mstep Hdraw. unfold App_ComponentDidMount, State_. cbn [app_def].
  assert (v_listeners (w_ext w1) !! h = Some {| hl_a := {| app_def := mk_def this |} |}) as Hlis by (by apply list_lookup_middle).
  destruct (handleEventImpl_run w1 this _ h s0 Hi1 Hlis) as (j2 & Hr2 & Hi2 & [_ _ Hwf2 _ _ _] & _).
  set (w2 := World j2 (with_attached (v_attached m1 ++ [h]) m1)).
  assert ((s ← ComponentDef_State (mk_def this); attach (listener s)) w1 = Ok (tt, w2)) as Hatt.
  { mstep (State_inst w1 _ _ _ Hi1). unfold attach. cbn [listener s0]. mstep Hr2.
    mstep (mlift_run (of_option NilDeref (Some h)) (World j2 (w_ext w1)) h eq_refl). unfold addEventListener, on_mem, mmodify.
    cbn [w_ext w1 w_js]. by rewrite bool_decide_eq_false_2. }
  mstep Hatt. eexists _, _. split; [reflexivity|]. split; [exact Hi2|]. split; [|split_and!; try done; auto].
  intros l. eexists. split; [|exact (Hfr l)]. by destruct l.
Qed.

(** C36: the listener is never removed.  Unmounting does nothing, since the method that is
    to detach the listener has a name nobody calls; so the window goes on calling the
    listener of an instance that is gone, which asks for it to be drawn whenever the
    fragment says the other language.  Called, the method would have removed it. *)
Theorem viewer_leaks (w : world vmem) hash :
  heap_wf (w_js w) → v_attached (w_ext w) = [] →
  hash_lang hash ≠ hash_lang (v_hash (w_ext w)) →
  let this := next_loc (w_js w) in
  let h := length (v_listeners (w_ext w)) in
  ∃ w0, mount_viewer w = Ok (this, w0) ∧
    unmount_instance buildApp this w0 = Ok (tt, w0) ∧
    v_attached (w_ext w0) = [h] ∧
    (∃ w1, hash_change hash w0 = Ok (tt, w1) ∧ updates (w_js w1) = updates (w_js w0) ++ [this]) ∧
    ∃ w2, App_ComponentDidUmount {| app_def := mk_def this |} w0 = Ok (tt, w2) ∧ v_attached (w_ext w2) = [] ∧
      ∃ w3, hash_change hash w2 = Ok (tt, w3) ∧ updates (w_js w3) = updates (w_js w0).
Proof.
  intros Hwf Hat Hne this h.
  destruct (mount_syntax_run w Hwf) as (w0 & s & H0 & Hi & _ & Hc & Hl & Hlis & Hat' & _).
  { rewrite Hat. apply not_elem_of_nil. }
  rewrite Hat in Hat'. fold this h in Hi, Hlis, Hl, Hat'. cbn [app] in Hat'.
  exists w0. split; [exact H0|]. split; [done|]. split; [exact Hat'|]. split.
  - unfold hash_change. set (w1 := World (w_js w0) (with_hash hash (w_ext w0))).
    mstep (eq_refl : on_mem (with_hash hash) w0 = Ok (tt, w1)). mstep (eq_refl : mget id w1 = Ok (w1, w1)).
    cbn [w1 w_ext with_hash v_attached]. rewrite Hat'. cbn [call_listeners].
    destruct (handleEventImpl_run w1 this _ h s Hi Hlis) as (j' & Hr & _ & _ & Hu). mstep Hr.
    eexists. split; [reflexivity|]. rewrite bool_decide_eq_false_2 in Hu; [exact Hu|].
    intros Heq%(f_equal Choice). cbn in Heq. rewrite Hc in Heq.
    by destruct (hash_lang hash), (hash_lang (v_hash (w_ext w))).
  - unfold App_ComponentDidUmount, State_. cbn [app_def]. mstep (State_inst w0 _ _ _ Hi). unfold detach. rewrite Hl.
    mstep (mlift_run (of_option NilDeref (Some h)) w0 h eq_refl). eexists. split; [reflexivity|].
    assert (filter (λ k, k ≠ h) (v_attached (w_ext w0)) = []) as Hf
      by (rewrite Hat', filter_cons_False by (intros Hx; by apply Hx); done).
    cbn. split; [exact Hf|]. eexists. split; [|].
    + unfold hash_change, on_mem, mmodify, mget, mbind, M_bind. cbn. rewrite Hf. reflexivity.
    + done.
Qed.
Section Proofs.
Context {GoFile ShFile : Type}.
Context (parser_ParseFile : string → string + GoFile) (ast_Fprint : GoFile → string + string).
Context (syntax_Parse : string → string + ShFile) (syntax_DebugPrint : ShFile → string + string).
Abbreviation out := (outcome parser_ParseFile ast_Fprint syntax_Parse syntax_DebugPrint).
Abbreviation panes := (pane parser_ParseFile ast_Fprint syntax_Parse syntax_DebugPrint).
Abbreviation handle := (handleEvent parser_ParseFile ast_Fprint syntax_Parse syntax_DebugPrint).

Lemma parse_with_run {F} (parse : string → string + F) print w c :
  parse_with parse print (Some (length (cells w))) (push (ICell (LS c "" true) true) w) =
  Ok (match tree_of parse print c with inl _ => None | inr b => Some b end,
      push (ICell (LS c (match tree_of parse print c with inl err => err | inr _ => "" end) true) true) w).
Proof.
  unfold parse_with, tree_of. mstep (Code_push w c "" true true).
  destruct (parse c) as [err|f]; [by mstep (SetAst_push w c "" true err)|].
  destruct (print f) as [err|b]; [by mstep (SetAst_push w c "" true err)|]. done.
Qed.

Lemma handleEvent_body_run (w : world vmem) this i s l c t e :
  inst (w_js w) this i s → Choice s = lang_name l →
  handleEvent_body parser_ParseFile ast_Fprint syntax_Parse syntax_DebugPrint {| app_def := mk_def this |}
    (Some (length (cells w))) (push (ICell (LS c t e) true) w) =
  Ok (tt, push (ICell (out l c) true) w).
Proof.
  intros Hi Hc. unfold handleEvent_body, outcome. mstep (SetError_push w c t e true). mstep (SetAst_push w c t true "").
  mstep (Code_push w c "" true true). case_bool_decide; [done|]. unfold State_. cbn [app_def].
  mstep (State_inst (push (ICell (LS c "" true) true) w) _ _ _ Hi). rewrite Hc. destruct l; cbn [lang_name bool_decide decide].
  - rewrite bool_decide_eq_true_2 by done.
    mstep (parse_with_run parser_ParseFile ast_Fprint w c). destruct (tree_of parser_ParseFile _ c) as [err|b]; [done|].
    mstep (SetAst_push w c "" true b). by mstep (SetError_push w c b true false).
  - rewrite bool_decide_eq_false_2, bool_decide_eq_true_2 by done.
    mstep (parse_with_run syntax_Parse syntax_DebugPrint w c). destruct (tree_of syntax_Parse _ c) as [err|b]; [done|].
    mstep (SetAst_push w c "" true b). by mstep (SetError_push w c b true false).
Qed.

(** Looking at the text of the language on show: a new struct, which nobody else has. *)
Lemma handleEvent_run (w : world vmem) this i s l a p :
  inst (w_js w) this i s → Choice s = lang_name l →
  lang_ptr s l = Some a → frozen w a p →
  let n := length (cells w) in
  ∃ j', handle {| app_def := mk_def this |} w =
      Ok (tt, World j' (w_ext (push (ICell (out l (Code p)) false) w))) ∧
    inst j' this i (set_lang s l (Some n)) ∧ evolves {[i]} ∅ (w_js w) j' ∧ updates j' = updates (w_js w) ++ [this].
Proof.
  intros Hi Hc Ha Hp n. unfold handleEvent, State_, SetState. cbn [app_def]. mstep (State_inst _ _ _ _ Hi).
  mstep (mlift_run (currLangState s) w _ (choice_curr s l Hc)). rewrite Ha. destruct p as [c t e].
  assert (struct_AsMutable (Some a) w = Ok (Some n, push (ICell (LS c t e) true) w)) as Hm
    by (by rewrite (struct_AsMutable_run w a _ Hp)).
  mstep Hm. mstep (handleEvent_body_run w this i s l c t e Hi Hc). cbn [Code].
  assert (AsImmutable (Some n) None (push (ICell (out l c) true) w) = Ok (Some n, push (ICell (out l c) false) w)) as Hf
    by (destruct (out l c); apply AsImmutable_push).
  mstep Hf. set (w1 := push (ICell (out l c) false) w). mstep (State_inst w1 _ _ _ Hi).
  mstep (mlift_run (setCurrLangState s (Some n)) w1 _ (choice_set s l _ Hc)).
  assert (a < n) as Hlt by (by eapply lookup_lt_Some).
  destruct (SetState_evolves w1 this i s (set_lang s l (Some n)) false Hi) as (j' & Hr & Hi' & Hev & Hu & _); try done.
  { cbn. rewrite bool_decide_eq_false_2; [done|]. intros Heq.
    apply (f_equal (λ s, lang_ptr s l)) in Heq. rewrite lang_ptr_set, Ha in Heq. injection Heq as Heq. change (n = a) in Heq. lia. }
  exists j'. split; [exact Hr|]. done.
Qed.

(** [w] holds in [s] what [v] says of the languages in [ls]. *)
Definition holds (ls : lang → Prop) (w : world vmem) (s : AppState) (v : view) : Prop :=
  ∀ l, ls l → ∃ a, lang_ptr s l = Some a ∧ frozen w a (panes l (looked v l)).
(** The listener [h] of [this] is the only one of the window. *)
Definition listening (w : world vmem) (this h : loc) : Prop :=
  v_listeners (w_ext w) !! h = Some {| hl_a := {| app_def := mk_def this |} |} ∧ v_attached (w_ext w) = [h].
(** [w] shows [v]. *)
Record shows (w : world vmem) (this i h : loc) (v : view) : Prop := {
  sh_state : ∃ s, inst (w_js w) this i s ∧ holds (λ _, True) w s v ∧ Choice s = lang_name (choice v) ∧ listener s = Some h;
  sh_listening : listening w this h;
}.

Lemma pane_code l o : Code (panes l o) = default "" o.
Proof.
  destruct o as [t|]; [|done]. cbn [pane default]. unfold outcome. case_bool_decide; [done|].
  by destruct l; destruct (tree_of _ _ t).
Qed.
Lemma look_at v t : looked (look v t) (choice v) = Some t.
Proof. unfold look. by destruct (choice v). Qed.
Lemma look_other v l t : choice v ≠ l → looked (look v t) l = looked v l.
Proof. unfold look. by destruct (choice v), l. Qed.
Lemma look_choice v t : choice (look v t) = choice v.
Proof. unfold look. by destruct (choice v) eqn:Hc. Qed.

(** Whatever the language on show held before, it now shows its text. *)
Lemma handleEvent_shows (w : world vmem) this i h s v a p :
  inst (w_js w) this i s → holds (λ l, choice v ≠ l) w s v → Choice s = lang_name (choice v) → listener s = Some h →
  listening w this h → lang_ptr s (choice v) = Some a → frozen w a p →
  ∃ w', handle {| app_def := mk_def this |} w = Ok (tt, w') ∧ shows w' this i h (look v (Code p)) ∧
    updates (w_js w') = updates (w_js w) ++ [this].
Proof.
  intros Hi Ho Hc Hl Hlis Ha Hp.
  destruct (handleEvent_run w this i s _ a p Hi Hc Ha Hp) as (j' & Hr & Hi' & _ & Hu).
  eexists. split; [exact Hr|]. split; [|exact Hu]. split; [|exact Hlis].
  eexists. split; [exact Hi'|]. split; [|split; [by rewrite set_lang_choice, look_choice|by destruct (choice v)]].
  intros l _. destruct (decide (choice v = l)) as [<-|Hne].
  - rewrite lang_ptr_set, look_at. eexists. split; [done|]. apply push_last.
  - rewrite lang_ptr_other, look_other by done. destruct (Ho l Hne) as (b & Hb & Hf). exists b. split; [done|].
    by apply (push_frozen (ICell (out (choice v) (Code p)) false)) in Hf.
Qed.

Lemma holds_ext ls (w w' : world vmem) s s' v v' :
  v_langs (w_ext w') = v_langs (w_ext w) → Go s' = Go s → Shell s' = Shell s →
  (∀ l, ls l → looked v' l = looked v l) → holds ls w s v → holds ls w' s' v'.
Proof.
  intros Hw Hg Hs Hv Hh l Hl. destruct (Hh l Hl) as (a & Ha & Hf). exists a. rewrite (Hv l Hl).
  split; [unfold lang_ptr in *; destruct l; congruence|]. unfold frozen in *. cbn in *. by rewrite Hw.
Qed.

(** Every event is handled, and asks for a re-render unless nothing has changed. *)
Lemma viewer_event_run (w : world vmem) this i h v e :
  shows w this i h v →
  ∃ w' us, viewer_event parser_ParseFile ast_Fprint syntax_Parse syntax_DebugPrint this e w = Ok (tt, w') ∧
    shows w' this i h (view_step v e) ∧ updates (w_js w') = updates (w_js w) ++ us ∧ (view_step v e = v ∨ this ∈ us).
Proof.
  intros [(s & Hi & Hh & Hc & Hl) [Hlis Hat]]. destruct e as [t|hash|l]; cbn [viewer_event view_step].
  - unfold inputChangeEvent_OnChange, State_, SetState. cbn [app_def]. mstep (State_inst w _ _ _ Hi).
    mstep (mlift_run (currLangState s) w _ (choice_curr s _ Hc)).
    destruct (Hh (choice v) I) as (a & Ha & Hf). rewrite Ha. set (p := panes (choice v) (looked v (choice v))) in *.
    set (w1 := push (ICell (LS t (Ast p) (Error p)) false) w). set (n := length (cells w)).
    assert (SetCode (Some a) t w = Ok (Some n, w1)) as Hset
      by (unfold SetCode; by rewrite (update_run w a (ICell p false) _ Hf)).
    mstep Hset. mstep (mlift_run (setCurrLangState s (Some n)) w1 _ (choice_set s _ _ Hc)).
    destruct (SetState_evolves w1 this i s (set_lang s (choice v) (Some n))
      (bool_decide (set_lang s (choice v) (Some n) = s)) Hi eq_refl) as (j1 & Hr1 & Hi1 & _ & Hu1 & _).
    { by intros ?%bool_decide_eq_true_1. }
    mstep Hr1.
    destruct (handleEvent_shows (World j1 (w_ext w1)) this i h _ v n (LS t (Ast p) (Error p)) Hi1) as (w' & Hr & Hs & Hu).
    + intros l Hne. rewrite lang_ptr_other by done. destruct (Hh l I) as (b & Hb & Hfb). exists b. split; [done|].
      by apply (push_frozen (ICell (LS t (Ast p) (Error p)) false)) in Hfb.
    + by rewrite set_lang_choice.
    + by destruct (choice v).
    + done.
    + apply lang_ptr_set.
    + apply push_last.
    + eexists w', _. split; [exact Hr|]. split; [exact Hs|]. cbn [w_js] in Hu. rewrite Hu1, <-app_assoc in Hu.
      split; [exact Hu|]. right. apply elem_of_app. right. left.
  - unfold hash_change. set (w1 := World (w_js w) (with_hash hash (w_ext w))).
    mstep (eq_refl : on_mem (with_hash hash) w = Ok (tt, w1)). mstep (eq_refl : mget id w1 = Ok (w1, w1)).
    cbn [w1 w_ext with_hash v_attached]. rewrite Hat. cbn [call_listeners].
    destruct (handleEventImpl_run w1 this i h s Hi Hlis) as (j' & Hr & Hi' & _ & Hu). mstep Hr.
    eexists _, _. split; [reflexivity|]. split; [|split; [exact Hu|]].
    + split; [|done]. eexists. split; [exact Hi'|]. split; [|by split]. by eapply holds_ext; [..|exact Hh].
    + cbn [w1 w_ext with_hash v_hash]. destruct (bool_decide_reflect (MkState (Go s) (Shell s) (lang_name (hash_lang hash)) (listener s) = s)) as [Heq|];
        [left|right; left].
      apply (f_equal Choice) in Heq. cbn [Choice] in Heq. rewrite Hc in Heq. destruct v as [g sh c]. cbn in *.
      by destruct (hash_lang hash), c.
  - unfold languageChangeEvent_OnClick, State_, SetState. cbn [app_def].
    set (m1 := VMem (v_langs (w_ext w)) (v_listeners (w_ext w)) (v_hash (w_ext w)) (v_attached (w_ext w)) (S (v_prevented (w_ext w)))).
    set (w1 := World (w_js w) m1). mstep (eq_refl : PreventDefault w = Ok (tt, w1)). mstep (State_inst w1 _ _ _ Hi).
    set (s1 := MkState (Go s) (Shell s) (lang_name l) (listener s)). set (v1 := View (on_go v) (on_shell v) l).
    destruct (SetState_evolves w1 this i s s1 (bool_decide (s1 = s)) Hi eq_refl) as (j1 & Hr1 & Hi1 & _ & Hu1 & _).
    { by intros ?%bool_decide_eq_true_1. }
    mstep Hr1. assert (holds (λ _, True) (World j1 m1) s1 v1) as Hh1 by (by eapply holds_ext; [..|exact Hh]).
    destruct (Hh1 l I) as (a & Ha & Hf).
    destruct (handleEvent_shows (World j1 m1) this i h s1 v1 a (panes l (looked v1 l)) Hi1) as (w' & Hr & Hs & Hu); try done.
    { intros l' _. by apply Hh1. }
    rewrite pane_code in Hs. eexists w', _. split; [exact Hr|]. split; [exact Hs|]. cbn [w_js] in Hu.
    rewrite Hu1, <-app_assoc in Hu. split; [exact Hu|]. right. apply elem_of_app. right. left.
Qed.

Abbreviation run := (viewer_run parser_ParseFile ast_Fprint syntax_Parse syntax_DebugPrint).
Abbreviation step_ := (viewer_event parser_ParseFile ast_Fprint syntax_Parse syntax_DebugPrint).

Lemma viewer_run_run (w : world vmem) this i h v es :
  shows w this i h v → ∃ w', run this es w = Ok (tt, w') ∧ shows w' this i h (view_run v es).
Proof.
  revert w v. induction es as [|e es IH]; intros w v Hw; cbn [viewer_run view_run foldl]; [by exists w|].
  destruct (viewer_event_run w this i h v e Hw) as (w1 & us & H1 & Hw1 & _). mstep H1. by apply IH.
Qed.

Lemma viewer_Render_run (w : world vmem) this i h v :
  shows w this i h v →
  App_Render {| app_def := mk_def this |} w =
  Ok (viewer_view {| app_def := mk_def this |} (lang_name (choice v)) (panes (choice v) (looked v (choice v))), w).
Proof.
  intros [(s & Hi & Hh & Hc & _) _]. unfold App_Render, State_. cbn [app_def]. mstep (State_inst w _ _ _ Hi).
  mstep (mlift_run (currLangState s) w _ (choice_curr s _ Hc)). destruct (Hh (choice v) I) as (a & -> & Hf).
  set (p := panes (choice v) (looked v (choice v))) in *.
  assert (∀ {B} (g : langState → B), (c ← imm_deref (P := langState) (Some a); mret (g (payload c))) w = Ok (g p, w)) as Hg
    by (intros B g; by mstep (deref_run w a _ Hf)).
  mstep (Hg _ Error). mstep (Hg _ Code). mstep (Hg _ Ast). rewrite Hc. by destruct p.
Qed.

Definition view_start (h : string) : view := View None None (hash_lang h).

(** C11: the syntax viewer.  Mounted on a page, and whatever the user types and however the
    fragment changes, nothing panics; the page shows the language of the fragment, with
    the text that was last looked at in it and what the parser made of that text, and
    what happens in one language leaves the other alone.  An event that changes what is
    shown asks for a re-render. *)
Theorem viewer_refines (w : world vmem) es :
  heap_wf (w_js w) → v_attached (w_ext w) = [] →
  let this := next_loc (w_js w) in
  let a := {| app_def := mk_def this |} in
  ∃ w0 w', mount_viewer w = Ok (this, w0) ∧ run this es w0 = Ok (tt, w') ∧
    let v := view_run (view_start (v_hash (w_ext w))) es in
    App_Render a w' =
      Ok (viewer_view a (lang_name (choice v)) (panes (choice v) (looked v (choice v))), w') ∧
    ∀ e, ∃ w'' us, step_ this e w' = Ok (tt, w'') ∧ updates (w_js w'') = updates (w_js w') ++ us ∧
      (view_step v e = v ∨ this ∈ us).
Proof.
  intros Hwf Hat this a.
  destruct (mount_syntax_run w Hwf) as (w0 & s & H0 & Hi & Hh & Hc & Hl & Hlis & Hat' & _).
  { rewrite Hat. apply not_elem_of_nil. }
  rewrite Hat in Hat'.
  assert (shows w0 this (S (S this)) (length (v_listeners (w_ext w))) (view_start (v_hash (w_ext w)))) as Hw0.
  { split; [|done]. exists s. split; [done|]. split; [|done]. intros l _. destruct (Hh l) as (b & ? & ?). exists b. by destruct l. }
  destruct (viewer_run_run w0 _ _ _ _ es Hw0) as (w' & H1 & Hw'). exists w0, w'. split; [exact H0|]. split; [exact H1|].
  split; [by apply (viewer_Render_run w' _ _ _ _ Hw')|]. intros e.
  destruct (viewer_event_run w' _ _ _ _ e Hw') as (w'' & us & He & _ & Hu & Hch). by exists w'', us.
Qed.

End Proofs.

(** ** Witnesses *)

(** Parsers that accept what begins with the name of a package, and anything. *)
Definition toy_go (t : string) : string + string :=
  if Strings.HasPrefix t "package" then inr t else inl "expected 'package'".
Definition toy_shell (t : string) : string + string := inr t.
Definition toy_print (f : string) : string + string := inr ("*" +:+ f).

Definition empty_viewer (hash : string) : world vmem := World empty_js (VMem [] [] hash [] 0).
Lemma empty_viewer_wf hash : heap_wf (w_js (empty_viewer hash)).
Proof. intros l. cbn. rewrite lookup_empty. by intros []. Qed.

(** A wrong Go file, then a shell script, and back to Go. *)
Lemma viewer_refines_witness :
  ∃ w0 w', mount_viewer (empty_viewer "#Ruby") = Ok (0, w0) ∧
    viewer_run toy_go toy_print toy_shell toy_print 0 [Edit "x"; HashChange "#Shell"; Edit "ls"; HashChange "#Go"] w0 = Ok (tt, w') ∧
    App_Render {| app_def := mk_def 0 |} w' =
      Ok (viewer_view {| app_def := mk_def 0 |} "Go" (LS "x" "expected 'package'" true), w').
Proof.
  destruct (viewer_refines toy_go toy_print toy_shell toy_print (empty_viewer "#Ruby")
    [Edit "x"; HashChange "#Shell"; Edit "ls"; HashChange "#Go"]) as (w0 & w' & H0 & H1 & H2 & _).
  - apply empty_viewer_wf.
  - reflexivity.
  - exists w0, w'. split; [exact H0|]. split; [exact H1|exact H2].
Defined.

Lemma viewer_leaks_witness :
  ∃ w0, mount_viewer (empty_viewer "") = Ok (0, w0) ∧
    (∃ w1, hash_change "#Shell" w0 = Ok (tt, w1) ∧ updates (w_js w1) = updates (w_js w0) ++ [0]).
Proof.
  destruct (viewer_leaks (empty_viewer "") "#Shell") as (w0 & H0 & _ & _ & H1 & _).
  - apply empty_viewer_wf.
  - reflexivity.
  - done.
  - exists w0. split; [exact H0|exact H1].
Defined.
