(* ===== verification/ExamplesText.v ===== *)
(** * The texts of the page of examples

    The constants of [examples/source.go] of [src/_vendor/src/myitcv.io/react], line by
    line, and the HTML that the three pages begin with. *)

From S2P Require Import Prelude GoLib.

(** A quotation mark. *)
Definition dq_str : string := String Strconv.dq "".

Definition helloMessageJsx : string := Strings.Join [
  "class HelloMessage extends React.Component {";
  "  render() {";
  "    return <div>Hello {this.props.name}</div>;";
  "  }";
  "}"] nl.
Definition timerJsx : string := Strings.Join [
  "class Timer extends React.Component {";
  "  constructor(props) {";
  "    super(props);";
  "    this.state = {secondsElapsed: 0};";
  "  }";
  "";
  "  tick() {";
  "    this.setState((prevState) => ({";
  "      secondsElapsed: prevState.secondsElapsed + 1";
  "    }));";
  "  }";
  "";
  "  componentDidMount() {";
  "    this.interval = setInterval(() => this.tick(), 1000);";
  "  }";
  "";
  "  componentWillUnmount() {";
  "    clearInterval(this.interval);";
  "  }";
  "";
  "  render() {";
  "    return (";
  "      <div>Seconds Elapsed: {this.state.secondsElapsed}</div>";
  "    );";
  "  }";
  "}"] nl.
Definition applicationJsx : string := Strings.Join [
  "class TodoApp extends React.Component {";
  "  constructor(props) {";
  "    super(props);";
  "    this.handleChange = this.handleChange.bind(this);";
  "    this.handleSubmit = this.handleSubmit.bind(this);";
  "    this.state = {items: [], text: ''};";
  "  }";
  "";
  "  render() {";
  "    return (";
  "      <div>";
  "        <h3>TODO</h3>";
  "        <TodoList items={this.state.items} />";
  "        <form onSubmit={this.handleSubmit}>";
  "          <input onChange={this.handleChange} value={this.state.text} />";
  "          <button>{'Add #' + (this.state.items.length + 1)}</button>";
  "        </form>";
  "      </div>";
  "    );";
  "  }";
  "";
  "  handleChange(e) {";
  "    this.setState({text: e.target.value});";
  "  }";
  "";
  "  handleSubmit(e) {";
  "    e.preventDefault();";
  "    var newItem = {";
  "      text: this.state.text,";
  "      id: Date.now()";
  "    };";
  "    this.setState((prevState) => ({";
  "      items: prevState.items.concat(newItem),";
  "      text: ''";
  "    }));";
  "  }";
  "}";
  "";
  "class TodoList extends React.Component {";
  "  render() {";
  "    return (";
  "      <ul>";
  "        {this.props.items.map(item => (";
  "          <li key={item.id}>{item.text}</li>";
  "        ))}";
  "      </ul>";
  "    );";
  "  }";
  "}"] nl.
Definition markdownEditorJsx : string := Strings.Join [
  "class MarkdownEditor extends React.Component {";
  "  constructor(props) {";
  "    super(props);";
  "    this.handleChange = this.handleChange.bind(this);";
  "    this.state = {value: 'Type some *markdown* here!'};";
  "  }";
  "";
  "  handleChange() {";
  "    this.setState({value: this.refs.textarea.value});";
  "  }";
  "";
  "  getRawMarkup() {";
  "    var md = new Remarkable();";
  "    return { __html: md.render(this.state.value) };";
  "  }";
  "";
  "  render() {";
  "    return (";
  "      <div className=" +:+ dq_str +:+ "MarkdownEditor" +:+ dq_str +:+ ">";
  "        <h3>Input</h3>";
  "        <textarea";
  "          onChange={this.handleChange}";
  "          ref=" +:+ dq_str +:+ "textarea" +:+ dq_str +:+ "";
  "          defaultValue={this.state.value} />";
  "        <h3>Output</h3>";
  "        <div";
  "          className=" +:+ dq_str +:+ "content" +:+ dq_str +:+ "";
  "          dangerouslySetInnerHTML={this.getRawMarkup()}";
  "        />";
  "      </div>";
  "    );";
  "  }";
  "}"] nl.
Definition latencyJsx : string := Strings.Join [
  "n/a"] nl.
Definition examples_html : string := Strings.Join [
  "";
  "		<h3>Introduction</h3>";
  "";
  "		<p>This entire page is a React application. An outer <code>Examples</code> component";
  "		contains a number of inner components.</p>";
  "";
  "		<p>For the source code, raising issues, questions etc, please see";
  "		<a href=" +:+ dq_str +:+ "https://github.com/myitcv/react/tree/master/examples" +:+ dq_str +:+ " target=" +:+ dq_str +:+ "_blank" +:+ dq_str +:+ ">the Github repo</a>.</p>";
  "";
  "		<p>Note the examples below show the Go source code from <code>master</code>.</p>";
  "		"] nl.
Definition imm_html : string := Strings.Join [
  "";
  "		<h3>Using immutable data structures</h3>";
  "";
  "		<p>This page focuses on using <a href=" +:+ dq_str +:+ "https://myitcv.io/immutable" +:+ dq_str +:+ "><code>myitcv.io/immutable</code></a>";
  "		(specifically <a href=" +:+ dq_str +:+ "https://github.com/myitcv/immutable/wiki/immutableGen" +:+ dq_str +:+ "><code>immutableGen</code></a>) to";
  "		help make building components easier. The pattern of immutable data structures lends itself well to React's style";
  "		of composition.</p>";
  "";
  "		<p>For the source code, raising issues, questions etc, please see";
  "		<a href=" +:+ dq_str +:+ "https://github.com/myitcv/react/tree/master/examples" +:+ dq_str +:+ " target=" +:+ dq_str +:+ "_blank" +:+ dq_str +:+ ">the Github repo</a>.</p>";
  "";
  "		<p>Note the examples below show the Go source code from <code>master</code>.</p>";
  "		"] nl.
Definition global_html : string := Strings.Join [
  "";
  "		<h3>Introduction</h3>";
  "";
  "		<p>State can be local to components; we can share that state with descendent components";
  "		by passing props.</p>";
  "";
  "		<p>But this can either lead to passing around a lot of props, or not be possible at all because";
  "		two components are in very different parts of the component (ultimately DOM) tree.</p>";
  "";
  "		<p>State trees generated by <a href=" +:+ dq_str +:+ "https://github.com/myitcv/react/tree/master/cmd/stateGen" +:+ dq_str +:+ ">";
  "		<code>stateGen</code></a> exist to fill this gap.</p>";
  "";
  "		<p>This example is best considered as a standalone web app (because the state tree is effectively)";
  "		a global in the application).</p>";
  "";
  "		<p><a role=" +:+ dq_str +:+ "button" +:+ dq_str +:+ " href=" +:+ dq_str +:+ "../globalstate" +:+ dq_str +:+ " target=" +:+ dq_str +:+ "_blank" +:+ dq_str +:+ " class=" +:+ dq_str +:+ "btn btn-primary" +:+ dq_str +:+ ">Launch Example</a></p>";
  "";
  "		<p>The source code for the example that follows can be found <a href=" +:+ dq_str +:+ "https://github.com/myitcv/react/tree/master/examples/globalstate" +:+ dq_str +:+ ">";
  "		Github repo</a>.";
  "		"] nl.
