(* ===== verification/Examples.v ===== *)
(** * The page of examples

    Models [examples/examples.go], [imm_examples.go], [global_state_examples.go] and
    [source.go] of [src/_vendor/src/myitcv.io/react] with their generated files, and the
    site [examples/sites/examplesshowcase] that shows the three pages: each page shows
    examples next to their source, which goroutines fetch into a global map of immutable
    values.

    The three pages have the same fields, the same initial state and, word for word, the
    same [ComponentWillMount] and handlers: a definition that takes a [page] stands for
    the three.  They differ in what they render.

    The components that the pages show have files of their own ([SmallExamples], [Timer],
    [Todo]), with values and a world of their own; here their constructors are defined, over
    builders that are an interface, [Shown], without laws. *)

From S2P Require Import Prelude GoLib React Mount Elements Immutable ExamplesText.

(** ** Data *)
Definition exampleHello : Z := 0.
Definition exampleTimer : Z := 1.
Definition exampleTodo : Z := 2.
Definition exampleImmTodo : Z := 3.
Definition exampleMarkdown : Z := 4.
Definition exampleLatency : Z := 5.

Definition tabGo : Z := 0.
Definition tabJsx : Z := 1.

Record source := Source { file : string; src : string }.
Abbreviation exampleSource := (gmap Z ptr).
Abbreviation tabS := (gmap Z Z).

Inductive page := PExamples | PImm | PGlobal.
#[export] Instance page_eq_dec : EqDecision page.
Proof. solve_decision. Defined.

(** [ExamplesDef], [ImmExamplesDef] and [GlobalStateExamplesDef], and their states. *)
Record PageDef := { page_of : page; page_def : ComponentDef }.
Record PageState := MkState { examples : ptr; selectedTabs : ptr }.

(** The application of the site; its state embeds the tab. *)
Definition tabShowcase : Z := 0.
Definition tabImmutable : Z := 1.
Definition tabGlobalState : Z := 2.
Record AppDef := { app_def : ComponentDef }.

Inductive state := SPage (k : page) (s : PageState) | SApp (t : Z).
#[export] Instance PageState_eq_dec : EqDecision PageState.
Proof. solve_decision. Defined.
#[export] Instance state_eq_dec : EqDecision state.
Proof. solve_decision. Defined.

(** [tabChange] and [immTabChange], and the [tabChange] of the application. *)
Inductive handler := tabChange (p : PageDef) (key t : Z) | navChange (a : AppDef) (t : Z).

(** The props of the one component on show that has any. *)
Record HelloMessageProps := { Name : string }.
#[export] Instance HelloMessageProps_eq_dec : EqDecision HelloMessageProps.
Proof. solve_decision. Defined.

#[export] Instance examples_values : ReactValues := {|
  Props := HelloMessageProps;
  State := state;
  Handler := handler;
  Props_EqualsIntf p q := match q with Some q => Ok (bool_decide (p = q)) | None => Panic TypeAssertion end;
  State_EqualsIntf s v :=
    match s, v with
    | SPage k s, SPage k' v => if bool_decide (k = k') then Ok (bool_decide (s = v)) else Panic TypeAssertion
    | SApp t, SApp t' => Ok (bool_decide (t = t'))
    | _, _ => Panic TypeAssertion
    end;
|}.

(** A goroutine that fetches a source. *)
Record job := Job { j_page : PageDef; j_key : Z; j_src : ptr }.

Record emem := EMem {
  e_structs : list (icell source);
  e_maps : list (icell exampleSource);
  e_tabs : list (icell tabS);
  sources : ptr;
  fetchStarted : bool;
  e_jobs : list job;
  e_prevented : nat;
}.
Abbreviation EM := (M (world emem)).

#[export] Instance struct_cells : HasCells source emem.
Proof.
  refine {| cells := e_structs;
    put_cells l m := EMem l (e_maps m) (e_tabs m) (sources m) (fetchStarted m) (e_jobs m) (e_prevented m) |};
    by repeat intros [].
Defined.
#[export] Instance map_cells : HasCells exampleSource emem.
Proof.
  refine {| cells := e_maps;
    put_cells l m := EMem (e_structs m) l (e_tabs m) (sources m) (fetchStarted m) (e_jobs m) (e_prevented m) |};
    by repeat intros [].
Defined.
#[export] Instance tab_cells : HasCells tabS emem.
Proof.
  refine {| cells := e_tabs;
    put_cells l m := EMem (e_structs m) (e_maps m) l (sources m) (fetchStarted m) (e_jobs m) (e_prevented m) |};
    by repeat intros [].
Defined.

Definition on_mem (f : emem → emem) : EM unit := mmodify (λ w, World (w_js w) (f (w_ext w))).
Definition set_sources (p : ptr) (m : emem) : emem :=
  EMem (e_structs m) (e_maps m) (e_tabs m) p (fetchStarted m) (e_jobs m) (e_prevented m).
Definition set_fetchStarted (b : bool) (m : emem) : emem :=
  EMem (e_structs m) (e_maps m) (e_tabs m) (sources m) b (e_jobs m) (e_prevented m).
Definition set_jobs (l : list job) (m : emem) : emem :=
  EMem (e_structs m) (e_maps m) (e_tabs m) (sources m) (fetchStarted m) l (e_prevented m).
Definition go_ (j : job) : EM unit := on_mem (λ m, set_jobs (e_jobs m ++ [j]) m).
Definition PreventDefault : EM unit :=
  on_mem (λ m, EMem (e_structs m) (e_maps m) (e_tabs m) (sources m) (fetchStarted m) (e_jobs m) (S (e_prevented m))).

(** ** Sources *)
Definition file_ (s : ptr) : EM string := c ← imm_deref s; mret (file (payload c)).
Definition src_ (s : ptr) : EM string := c ← imm_deref s; mret (src (payload c)).
Definition setFile (s : ptr) (n : string) : EM ptr := imm_update s (λ c, Ok (Source n (src c))).
Definition setSrc (s : ptr) (n : string) : EM ptr := imm_update s (λ c, Ok (Source (file c) n)).
(** [new(source)] *)
Definition new_source : EM ptr := imm_new (ICell (Source "" "") false).

(** The map that [sources] starts as, key by key. *)
Definition files : list (Z * string) :=
  [(exampleHello, "hellomessage/hello_message.go");
   (exampleTimer, "timer/timer.go");
   (exampleTodo, "todoapp/todo_app.go");
   (exampleImmTodo, "immtodoapp/todo_app.go");
   (exampleMarkdown, "markdowneditor/markdown_editor.go");
   (exampleLatency, "sites/latency/latency.go")].
Fixpoint set_files (fs : list (Z * string)) (es : ptr) : EM unit :=
  match fs with
  | [] => mret tt
  | (k, f) :: fs =>
      s ← new_source;
      s ← setFile s f;
      _ ← map_Set es k s;
      set_files fs es
  end.
Definition init_sources : EM unit :=
  p ← map_New (K := Z) (V := ptr) [set_files files];
  on_mem (set_sources p).

(** ** The pages *)
Definition State_ (p : PageDef) : EM PageState :=
  s ← ComponentDef_State (page_def p);
  match s with
  | SPage k s => if bool_decide (k = page_of p) then mret s else mpanic TypeAssertion
  | SApp _ => mpanic TypeAssertion
  end.
Definition SetState (p : PageDef) (s : PageState) : EM unit :=
  ComponentDef_SetState (page_def p) (SPage (page_of p) s).

Definition raw_url : string := "https://raw.githubusercontent.com/myitcv/react/master/examples/".

(** A goroutine when its request is answered: [net] is what the network answers. *)
Definition job_run (j : job) (net : string → string + string) : EM unit :=
  let p := j_page j in
  f ← file_ (j_src j);
  match net (raw_url +:+ f) with
  | inl err => mpanic (PanicMsg err)
  | inr ResponseText =>
      e ← setSrc (j_src j) ResponseText;
      m ← mget w_ext;
      s ← map_Set (sources m) (j_key j) e;
      _ ← on_mem (set_sources s);
      newSt ← State_ p;
      m ← mget w_ext;
      SetState p (MkState (sources m) (selectedTabs newSt))
  end.

Section Pages.
(** The order Go ranges over a map in. *)
Context (range_map : exampleSource → list (Z * ptr)).

Fixpoint start_fetching (p : PageDef) (l : list (Z * ptr)) : EM unit :=
  match l with [] => mret tt | (i, e) :: l => _ ← go_ (Job p i e); start_fetching p l end.
Definition Page_ComponentWillMount (p : PageDef) : EM unit :=
  m ← mget w_ext;
  if fetchStarted m then mret tt
  else
    r ← map_Range (K := Z) (V := ptr) (sources m);
    t ← map_elems (K := Z) (V := ptr) r;
    _ ← start_fetching p (range_map t);
    on_mem (set_fetchStarted true).

Definition Page_GetInitialState (k : page) : EM state :=
  m ← mget w_ext;
  t ← map_New (K := Z) (V := Z) [];
  mret (SPage k (MkState (sources m) t)).

Definition tabChange_OnClick (p : PageDef) (key t : Z) : EM unit :=
  s ← State_ p;
  let cts := selectedTabs s in
  newSt ← State_ p;
  l ← map_Set cts key t;
  _ ← SetState p (MkState (examples newSt) l);
  PreventDefault.

(** *** Drawing *)

(** [highlightjs.Highlight], and [jsx.HTML], which file [Jsx] models and shows to be a
    function of its argument. *)
Context (Highlight : string → string → string) (HTML : string → res (list Element)).

(** The components that are shown: the builders their constructors hand to
    [CreateElement]. *)
Class Shown := {
  buildHelloMessage : ComponentBuilder emem;
  buildTimer : ComponentBuilder emem;
  buildTodoApp : ComponentBuilder emem;
  buildMarkdownEditor : ComponentBuilder emem;
  buildImmTodoApp : ComponentBuilder emem;
}.
Context {sh : Shown}.

Definition HelloMessage (p : HelloMessageProps) : EM Element := CreateElement buildHelloMessage (Some p) [].
Definition Timer : EM Element := CreateElement buildTimer None [].
Definition TodoApp : EM Element := CreateElement buildTodoApp None [].
Definition MarkdownEditor : EM Element := CreateElement buildMarkdownEditor None [].
Definition ImmTodoApp : EM Element := CreateElement buildImmTodoApp None [].

Definition cls (c : string) : option El.HTMLProps := Some (El.with_ClassName c El.html_zero).

Definition buildExampleNavTab (p : PageDef) (key t : Z) (title : string) : EM Element :=
  s ← State_ p;
  v ← map_Get (K := Z) (V := Z) (selectedTabs s) key;
  let lip := El.with_Role "presentation" El.html_zero in
  let lip := if (default 0%Z v =? t)%Z then El.with_ClassName "active" lip else lip in
  mret (El.Li (Some lip)
    [El.A (Some (El.A_with_Href "#" (El.A_on_html (El.with_OnClick (Some (tabChange p key t))) El.A_zero))) [ES title]]).

Definition plainPanel (children : list Element) : Element := El.Div (cls "panel panel-default panel-body") children.

Definition example_code (t : Z) (goSrc jsxSrc : string) : option object :=
  if (t =? tabGo)%Z then Some (NewDangerousInnerHTML (Highlight "go" goSrc))
  else if (t =? tabJsx)%Z then Some (NewDangerousInnerHTML (Highlight "javascript" jsxSrc))
  else None.
Definition example_view (title msg elem : Element) (code : option object) (t1 t2 : Element) : Element :=
  El.Div None [
    El.H3 None [title];
    msg;
    El.Div (cls "row") [
      El.Div (cls "col-md-8") [
        El.Div (cls "panel panel-default with-nav-tabs") [
          El.Div (cls "panel-heading") [El.Ul (cls "nav nav-tabs") [t1; t2]];
          El.Div (cls "panel-body") [
            El.Pre (Some (El.with_Style (Some (css_MaxHeight "400px" css_zero))
              (El.with_DangerouslySetInnerHTML code El.html_zero))) []
          ]
        ]
      ];
      El.Div (cls "col-md-4") [plainPanel [elem]]
    ]
  ].
Definition renderExample (p : PageDef) (key : Z) (title msg : Element) (jsxSrc : string) (elem : Element) : EM Element :=
  s ← State_ p;
  v ← map_Get (K := Z) (V := ptr) (examples s) key;
  goSrc ← match default None v with None => mret "" | Some a => src_ (Some a) end;
  s ← State_ p;
  t ← map_Get (K := Z) (V := Z) (selectedTabs s) key;
  let code := example_code (default 0%Z t) goSrc jsxSrc in
  t1 ← buildExampleNavTab p key tabGo "GopherJS";
  t2 ← buildExampleNavTab p key tabJsx "JSX";
  mret (example_view title msg elem code t1 t2).

Definition link (href target text : string) : Element :=
  El.A (Some (El.A_with_Href href (El.A_with_Target target El.A_zero))) [ES text].
Definition para (s : string) : Element := El.P None [ES s].

Definition Examples_Render (p : PageDef) : EM Element :=
  dc ← mlift (HTML examples_html);
  e1 ← HelloMessage {| Name := "Jane" |};
  x1 ← renderExample p exampleHello (ES "A Simple Example")
    (para "The hellomessage.HelloMessage component demonstrates the simple use of a Props type.") helloMessageJsx e1;
  e2 ← Timer;
  x2 ← renderExample p exampleTimer (ES "A Stateful Component")
    (para "The timer.Timer component demonstrates the use of a State type.") timerJsx e2;
  e3 ← TodoApp;
  x3 ← renderExample p exampleTodo (ES "An Application")
    (para ("The todoapp.TodoApp component demonstrates the use of state and event handling, but also the " +:+
      "problems of having a non-comparable state struct type.")) applicationJsx e3;
  e4 ← MarkdownEditor;
  x4 ← renderExample p exampleMarkdown (ES "A Component Using External Plugins")
    (para "The markdowneditor.MarkdownEditor component demonstrates the use of an external Javascript library.")
    markdownEditorJsx e4;
  x5 ← renderExample p exampleLatency (ES "Latency Checker")
    (El.P None [ES "By kind permission of "; link "http://tjholowaychuk.com/" "" "TJ Holowaychuk";
      ES ", a basic, component-based version of the beautiful APEX "; link "https://latency.apex.sh/" "" "Latency Tool";
      ES " that uses randomly generated latency values."])
    latencyJsx (link "../latency" "_blank" "Launch in new tab");
  mret (El.Div (cls "container") (dc ++ [x1; El.Hr None; x2; El.Hr None; x3; El.Hr None; x4; El.Hr None; x5])).

Definition ImmExamples_Render (p : PageDef) : EM Element :=
  dc ← mlift (HTML imm_html);
  e ← ImmTodoApp;
  x ← renderExample p exampleImmTodo (El.Span None [ES "A simple TODO app"])
    (para "The immtodoapp.TodoApp component is a reimplementation of todoapp.TodoApp using immutable data structures.")
    "n/a" e;
  mret (El.Div (cls "container") (dc ++ [x])).

Definition GlobalStateExamples_Render : EM Element :=
  mret (El.Div (cls "container")
    [El.Div (Some (El.with_DangerouslySetInnerHTML (Some (NewDangerousInnerHTML global_html)) El.html_zero)) []]).

Definition Page_Render (p : PageDef) : EM Element :=
  match page_of p with
  | PExamples => Examples_Render p
  | PImm => ImmExamples_Render p
  | PGlobal => GlobalStateExamples_Render
  end.

Definition page_type (k : page) : string :=
  match k with PExamples => "ExamplesDef" | PImm => "ImmExamplesDef" | PGlobal => "GlobalStateExamplesDef" end.
Definition buildPage (k : page) (cd : ComponentDef) : Component emem :=
  let p := {| page_of := k; page_def := cd |} in {|
  cmp_type := RType (page_type k) "myitcv.io/react/examples";
  RendersElement := Page_Render p;
  ComponentWillMount := Some (Page_ComponentWillMount p);
  ComponentDidMount := None;
  ComponentWillReceivePropsIntf := None;
  GetInitialStateIntf := Some (Page_GetInitialState k);
  ComponentWillUnmount := None;
|}.
Definition Page (k : page) : EM Element := CreateElement (buildPage k) None [].

(** ** The site, [app.go] *)
Definition App_State (a : AppDef) : EM Z :=
  s ← ComponentDef_State (app_def a);
  match s with SApp t => mret t | SPage _ _ => mpanic TypeAssertion end.
Definition navChange_OnClick (a : AppDef) (t : Z) : EM unit :=
  _ ← ComponentDef_SetState (app_def a) (SApp t);
  PreventDefault.

Definition page_of_tab (t : Z) : option page :=
  if (t =? tabShowcase)%Z then Some PExamples
  else if (t =? tabImmutable)%Z then Some PImm
  else if (t =? tabGlobalState)%Z then Some PGlobal
  else None.
Definition buildLink (a : AppDef) (n : string) (t : Z) : EM Element :=
  s ← App_State a;
  let lip := if (s =? t)%Z then cls "active" else None in
  mret (El.Li lip [El.A (Some (El.A_with_Href "#" (El.A_on_html (El.with_OnClick (Some (navChange a t))) El.A_zero))) [ES n]]).
Definition App_Render (a : AppDef) : EM Element :=
  t ← App_State a;
  view ← match page_of_tab t with Some k => Page k | None => mret ENil end;
  l1 ← buildLink a "Simple" tabShowcase;
  l2 ← buildLink a "Immutable" tabImmutable;
  l3 ← buildLink a "Global State" tabGlobalState;
  mret (Fragment [
    El.Nav (cls "navbar navbar-inverse navbar-fixed-top") [
      El.Div (cls "container") [
        El.Div (cls "navbar-header") [
          El.A (Some (El.A_with_Href "#" (El.A_on_html (El.with_ClassName "navbar-brand") El.A_zero))) [ES "GopherJS React Examples"]
        ];
        El.Div (Some (El.with_ClassName "collapse navbar-collapse" (El.with_ID "navbar" El.html_zero))) [
          El.Ul (cls "nav navbar-nav") [l1; l2; l3]
        ]
      ]
    ];
    El.Div (cls "container") [El.Div (cls "starter-template") [view]]
  ]).
Definition buildApp (cd : ComponentDef) : Component emem :=
  let a := {| app_def := cd |} in {|
  cmp_type := RType "AppDef" "main";
  RendersElement := App_Render a;
  ComponentWillMount := None;
  ComponentDidMount := None;
  ComponentWillReceivePropsIntf := None;
  GetInitialStateIntf := Some (mret (SApp 0));
  ComponentWillUnmount := None;
|}.

(** ** The site while it runs

    React mounts the page whose element it is given in place of an element of another
    class; a click that changes no state is not drawn. *)
Definition show_page (app : loc) : EM (option (page * loc)) :=
  _ ← App_Render {| app_def := mk_def app |};
  t ← App_State {| app_def := mk_def app |};
  match page_of_tab t with
  | Some k => this ← mount_instance (buildPage k) (JObject []); mret (Some (k, this))
  | None => mret None
  end.
Definition mount_site : EM (loc * option (page * loc)) :=
  app ← mount_instance buildApp (JObject []);
  cur ← show_page app;
  mret (app, cur).

(** A request is answered; a tab of an example is clicked; a link of the site is clicked. *)
Inductive event := Fetched (n : nat) (net : string → string + string) | Tab (key t : Z) | Nav (t : Z).
Definition site_event (app : loc) (cur : option (page * loc)) (e : event) : EM (option (page * loc)) :=
  match e with
  | Fetched n net =>
      m ← mget w_ext;
      match e_jobs m !! n with
      | None => mret cur
      | Some j => _ ← on_mem (λ m, set_jobs (delete n (e_jobs m)) m); _ ← job_run j net; mret cur
      end
  | Tab key t =>
      match cur with
      | Some (k, this) => _ ← tabChange_OnClick {| page_of := k; page_def := mk_def this |} key t; mret cur
      | None => mret cur
      end
  | Nav t =>
      t0 ← App_State {| app_def := mk_def app |};
      _ ← navChange_OnClick {| app_def := mk_def app |} t;
      if (t0 =? t)%Z then mret cur else show_page app
  end.
Fixpoint site_run (app : loc) (cur : option (page * loc)) (es : list event) : EM (option (page * loc)) :=
  match es with [] => mret cur | e :: es => cur ← site_event app cur e; site_run app cur es end.
End Pages.
Arguments Shown : clear implicits.

(** The program starts with the map of files. *)
Definition empty_mem : emem := EMem [] [] [] None false [] 0.

(** ** What is to be on show

    The texts fetched so far, the keys of the requests that are not answered, the tab of the
    site, and the texts the current page can show: a page that did not start the requests
    has those that were there when it was mounted. *)
Record spec := Spec { fetched : gmap Z string; waiting : list Z; on_tab : Z; snapshot : option (gmap Z string) }.
Definition shown (s : spec) : gmap Z string := default (fetched s) (snapshot s).
Definition file_of (k : Z) : string := default "" ((list_to_map files : gmap Z string) !! k).
Definition answer_of (net : string → string + string) (k : Z) : option string :=
  match net (raw_url +:+ file_of k) with inl _ => None | inr t => Some t end.
Definition spec_step (s : spec) (e : event) : spec :=
  match e with
  | Fetched n net =>
      match waiting s !! n with
      | None => s
      | Some k => Spec (<[k := default "" (answer_of net k)]> (fetched s)) (delete n (waiting s)) (on_tab s) (snapshot s)
      end
  | Tab _ _ => s
  | Nav t => if (on_tab s =? t)%Z then s else Spec (fetched s) (waiting s) t (Some (fetched s))
  end.
Definition spec_run : spec → list event → spec := foldl spec_step.

(** The network answers every request, and the links are those of the site. *)
Definition good (e : event) : Prop :=
  match e with
  | Fetched _ net => ∀ u, ∃ t, net u = inr t
  | Tab _ _ => True
  | Nav t => is_Some (page_of_tab t)
  end.
