(* ===== verification/ExamplesRun.v ===== *)
(** * The page of examples: what happens on it

    Proofs about [Examples]: the relation between the globals, the page that started
    the requests, the current page and the requests that are not answered ([site]), which
    every event preserves; what a page draws in it. *)

From S2P Require Import Prelude GoLib React Mount Elements Immutable ExamplesText Examples.

Section Proofs.
Implicit Types (w : world emem) (d : gmap Z string).

(** Nothing that is frozen changes. *)
Record grows w w' : Prop := {
  gr_struct : ∀ a (p : source), frozen w a p → frozen w' a p;
  gr_map : ∀ a (p : exampleSource), frozen w a p → frozen w' a p;
  gr_tab : ∀ a (p : tabS), frozen w a p → frozen w' a p;
}.
Lemma grows_refl w : grows w w.
Proof. by split. Qed.
Lemma grows_trans w1 w2 w3 : grows w1 w2 → grows w2 w3 → grows w1 w3.
Proof. intros [] []. split; auto. Qed.
Lemma grows_eq w w' :
  e_structs (w_ext w') = e_structs (w_ext w) → e_maps (w_ext w') = e_maps (w_ext w) → e_tabs (w_ext w') = e_tabs (w_ext w) →
  grows w w'.
Proof. intros H1 H2 H3. split; intros a p; unfold frozen; cbn; congruence. Qed.
Lemma grows_struct w c : grows w (put_cells (P := source) (cells w ++ [c]) w).
Proof. split; intros a p Ha; [|exact Ha..]. apply frozen_put; [by eexists|done]. Qed.
Lemma grows_map w c : grows w (put_cells (P := exampleSource) (cells w ++ [c]) w).
Proof. split; intros a p Ha; [exact Ha| |exact Ha]. apply frozen_put; [by eexists|done]. Qed.
Lemma grows_tab w c : grows w (put_cells (P := tabS) (cells w ++ [c]) w).
Proof. split; intros a p Ha; [exact Ha..|]. apply frozen_put; [by eexists|done]. Qed.

(** [p] is a map of the files, with the texts [d]. *)
Definition repr w (p : ptr) d : Prop :=
  ∃ a m, p = Some a ∧ frozen w a m ∧
    ∀ k f, (k, f) ∈ files → ∃ b, m !! k = Some (Some b) ∧ frozen w b (Source f (default "" (d !! k))).
Lemma repr_grows w w' p d : grows w w' → repr w p d → repr w' p d.
Proof.
  intros Hg (a & m & -> & Ha & Hm). exists a, m. split; [done|]. split; [by apply Hg|]. intros k f Hf.
  destruct (Hm k f Hf) as (b & Hb & Hs). exists b. split; [done|]. by apply Hg.
Qed.

(** The instance [this] is a page with the texts [d] and the tabs [tm]. *)
Definition page_at w (k : page) (this i : loc) (p : ptr) (tm : tabS) : Prop :=
  ∃ b, inst (w_js w) this i (SPage k (MkState p (Some b))) ∧ frozen w b tm.
Abbreviation page_on k this := {| page_of := k; page_def := mk_def this |}.

Lemma page_State w k this i st : inst (w_js w) this i (SPage k st) → State_ (page_on k this) w = Ok (st, w).
Proof. intros Hi. unfold State_. cbn [page_def page_of]. mstep (State_inst w _ _ _ Hi). by rewrite bool_decide_eq_true_2. Qed.

(** *** Drawing an example *)
Definition nav_tab (p : PageDef) (key t v : Z) (title : string) : Element :=
  let lip := El.with_Role "presentation" El.html_zero in
  El.Li (Some (if (v =? t)%Z then El.with_ClassName "active" lip else lip))
    [El.A (Some (El.A_with_Href "#" (El.A_on_html (El.with_OnClick (Some (tabChange p key t))) El.A_zero))) [ES title]].
Definition example_drawn (Highlight : string → string → string) (p : PageDef) (tm : tabS) d (key : Z) (title msg : Element)
    (jsxSrc : string) (elem : Element) : Element :=
  let v := default 0%Z (tm !! key) in
  example_view title msg elem (example_code Highlight v (default "" (d !! key)) jsxSrc)
    (nav_tab p key tabGo v "GopherJS") (nav_tab p key tabJsx v "JSX").

Lemma renderExample_run Highlight w k this i p tm d key f title msg jsxSrc elem :
  page_at w k this i p tm → repr w p d → (key, f) ∈ files →
  renderExample Highlight (page_on k this) key title msg jsxSrc elem w =
  Ok (example_drawn Highlight (page_on k this) tm d key title msg jsxSrc elem, w).
Proof.
  intros (b & Hi & Hb) (a & m & -> & Ha & Hm) Hf. destruct (Hm key f Hf) as (c & Hc & Hs). unfold renderExample.
  pose proof (page_State w k this i _ Hi) as HS. mstep HS. cbn [examples selectedTabs].
  assert (map_Get (K := Z) (V := ptr) (Some a) key w = Ok (Some (Some c), w)) as Hg
    by (unfold map_Get; mstep (deref_run w a _ Ha); cbn; by rewrite Hc).
  mstep Hg. cbn [default].
  assert (src_ (Some c) w = Ok (default "" (d !! key), w)) as Hsrc by (unfold src_; by mstep (deref_run w c _ Hs)).
  mstep Hsrc. mstep HS. cbn [selectedTabs].
  assert (map_Get (K := Z) (V := Z) (Some b) key w = Ok (tm !! key, w)) as Ht
    by (unfold map_Get; by mstep (deref_run w b _ Hb)).
  mstep Ht.
  assert (∀ t s, buildExampleNavTab (page_on k this) key t s w = Ok (nav_tab (page_on k this) key t (default 0%Z (tm !! key)) s, w)) as Hn
    by (intros t s; unfold buildExampleNavTab; mstep HS; cbn [selectedTabs]; by mstep Ht).
  mstep (Hn tabGo "GopherJS"). by mstep (Hn tabJsx "JSX").
Qed.

(** *** State changes *)
Lemma set_page_state w k this i st st' :
  inst (w_js w) this i (SPage k st) →
  ∃ j', SetState (page_on k this) st' w = Ok (tt, World j' (w_ext w)) ∧ inst j' this i (SPage k st') ∧
    evolves {[i]} ∅ (w_js w) j'.
Proof.
  intros Hi. destruct (SetState_evolves w this i (SPage k st) (SPage k st') (bool_decide (st' = st)) Hi) as (j' & Hr & Hi' & Hev & _).
  - cbn. by rewrite bool_decide_eq_true_2.
  - by intros ->%bool_decide_eq_true_1.
  - by exists j'.
Qed.
Lemma App_State_run w app ia t : inst (w_js w) app ia (SApp t) → App_State {| app_def := mk_def app |} w = Ok (t, w).
Proof. intros Hi. unfold App_State. cbn [app_def]. by mstep (State_inst w _ _ _ Hi). Qed.

Lemma page_at_grows w w' k this i p tm :
  grows w w' → (∀ s, inst (w_js w) this i s → inst (w_js w') this i s) → page_at w k this i p tm → page_at w' k this i p tm.
Proof. intros Hg Hinst (b & Hi & Hb). exists b. split; [by apply Hinst|]. by apply Hg. Qed.

(** A request is answered. *)
Lemma fetch_job_run w first i1 tm d j key f b net text :
  page_at w PExamples first i1 (sources (w_ext w)) tm → repr w (sources (w_ext w)) d →
  j = Job (page_on PExamples first) key (Some b) → frozen w b (Source f "") → (key, f) ∈ files →
  net (raw_url +:+ f) = inr text →
  ∃ w', job_run j net w = Ok (tt, w') ∧ grows w w' ∧ evolves {[i1]} ∅ (w_js w) (w_js w') ∧
    page_at w' PExamples first i1 (sources (w_ext w')) tm ∧ repr w' (sources (w_ext w')) (<[key := text]> d) ∧
    e_jobs (w_ext w') = e_jobs (w_ext w) ∧ fetchStarted (w_ext w') = fetchStarted (w_ext w).
Proof.
  intros (bt & Hi & Hbt) (a & m & Hsrc & Ha & Hm) -> Hb Hf Hnet. unfold job_run. cbn [j_page j_key j_src].
  assert (file_ (Some b) w = Ok (f, w)) as Hfile by (unfold file_; by mstep (deref_run w b _ Hb)).
  mstep Hfile. rewrite Hnet.
  set (n := length (e_structs (w_ext w))). set (w1 := put_cells (P := source) (cells w ++ [ICell (Source f text) false]) w).
  assert (setSrc (Some b) text w = Ok (Some n, w1)) as H1 by (unfold setSrc; by rewrite (update_run w b _ _ Hb)).
  mstep H1. mstep (eq_refl : mget w_ext w1 = Ok (w_ext w1, w1)).
  rewrite (Hsrc : sources (w_ext w1) = Some a).
  set (w2 := put_cells (P := exampleSource) (cells w1 ++ [ICell (<[key := Some n]> m) false]) w1).
  set (a2 := length (e_maps (w_ext w))). assert (frozen w1 a m) as Ha1 by (by apply grows_struct).
  assert (map_Set (K := Z) (V := ptr) (Some a) key (Some n) w1 = Ok (Some a2, w2)) as H2
    by (unfold map_Set; by rewrite (update_run (P := exampleSource) w1 a (ICell m false) _ Ha1)).
  mstep H2. set (w3 := World (w_js w2) (set_sources (Some a2) (w_ext w2))).
  mstep (eq_refl : on_mem (set_sources (Some a2)) w2 = Ok (tt, w3)).
  mstep (page_State w3 _ _ _ _ Hi). mstep (eq_refl : mget w_ext w3 = Ok (w_ext w3, w3)). cbn [selectedTabs].
  destruct (set_page_state w3 PExamples first i1 _ (MkState (Some a2) (Some bt)) Hi) as (j4 & H4 & Hi4 & Hev).
  assert (grows w w3) as Hg.
  { apply (grows_trans w w1); [apply grows_struct|]. apply (grows_trans w1 w2); [apply grows_map|by apply grows_eq]. }
  eexists. split; [exact H4|]. split; [by eapply grows_trans; [exact Hg|apply grows_eq]|]. split; [exact Hev|].
  split; [exists bt; split; [exact Hi4|by apply Hg]|]. split; [|done].
  exists a2, (<[key := Some n]> m). split; [done|]. split; [by apply lookup_last|]. intros k f' Hf'.
  destruct (decide (k = key)) as [->|Hne].
  - exists n. rewrite !lookup_insert_eq. split; [done|].
    assert (f' = f) as -> by (repeat match goal with H : (_, _) ∈ _ |- _ =>
      unfold files in H; repeat (apply elem_of_cons in H as [H|H]; [simplify_eq|]); try (by apply elem_of_nil in H) end; done).
    by apply lookup_last.
  - rewrite !lookup_insert_ne by done. destruct (Hm k f' Hf') as (c & Hc & Hs). exists c. split; [done|].
    by apply Hg in Hs.
Qed.

(** A tab of an example is clicked. *)
Lemma tabChange_run w k this i p tm key t :
  page_at w k this i p tm →
  ∃ w', tabChange_OnClick (page_on k this) key t w = Ok (tt, w') ∧ grows w w' ∧ evolves {[i]} ∅ (w_js w) (w_js w') ∧
    page_at w' k this i p (<[key := t]> tm) ∧ sources (w_ext w') = sources (w_ext w) ∧
    e_jobs (w_ext w') = e_jobs (w_ext w) ∧ fetchStarted (w_ext w') = fetchStarted (w_ext w).
Proof.
  intros (b & Hi & Hb). unfold tabChange_OnClick. pose proof (page_State w k this i _ Hi) as HS. mstep HS. mstep HS.
  cbn [selectedTabs examples].
  set (n := length (e_tabs (w_ext w))). set (w1 := put_cells (P := tabS) (cells w ++ [ICell (<[key := t]> tm) false]) w).
  assert (map_Set (K := Z) (V := Z) (Some b) key t w = Ok (Some n, w1)) as H1
    by (unfold map_Set; by rewrite (update_run (P := tabS) w b _ _ Hb)).
  mstep H1. destruct (set_page_state w1 k this i _ (MkState p (Some n)) Hi) as (j2 & H2 & Hi2 & Hev). mstep H2.
  eexists. split; [reflexivity|]. split; [apply (grows_trans w w1); [apply grows_tab|by apply grows_eq]|]. split; [exact Hev|].
  split; [|done]. exists n. split; [exact Hi2|]. by apply lookup_last.
Qed.

(** *** The site *)
Section Site.
Context (range_map : exampleSource → list (Z * ptr)) (Highlight : string → string → string).
Context (HTML : string → res (list Element)) {sh : Shown}.
Hypothesis range_ok : ∀ m, range_map m ≡ₚ map_to_list m.

(** Making an element changes no state. *)
Definition makes (m : EM Element) : Prop :=
  ∀ w, classes_wf (w_js w) → ∃ e j', m w = Ok (e, World j' (w_ext w)) ∧ evolves ∅ ∅ (w_js w) j'.
Context (dc1 dc2 : list Element).
Hypothesis html_ok : HTML examples_html = Ok dc1 ∧ HTML imm_html = Ok dc2.

Lemma CreateElement_makes builder p es : makes (CreateElement builder p es).
Proof.
  intros w Hw. destruct (CreateElement_eq builder p es w Hw) as (c & j' & Hr & Hreg). eexists _, j'.
  split; [exact Hr|]. by eapply registered_evolves.
Qed.

(** What a page draws; the elements of the components it shows may be any. *)
Abbreviation drawn p tm d := (example_drawn Highlight p tm d).
Definition page_drawn (p : PageDef) (tm : tabS) d (e : Element) : Prop :=
  match page_of p with
  | PExamples =>
      ∃ e1 e2 e3 e4, e = El.Div (cls "container") (dc1 ++ [
        drawn p tm d exampleHello (ES "A Simple Example")
          (para "The hellomessage.HelloMessage component demonstrates the simple use of a Props type.") helloMessageJsx e1;
        El.Hr None;
        drawn p tm d exampleTimer (ES "A Stateful Component")
          (para "The timer.Timer component demonstrates the use of a State type.") timerJsx e2;
        El.Hr None;
        drawn p tm d exampleTodo (ES "An Application")
          (para ("The todoapp.TodoApp component demonstrates the use of state and event handling, but also the " +:+
            "problems of having a non-comparable state struct type.")) applicationJsx e3;
        El.Hr None;
        drawn p tm d exampleMarkdown (ES "A Component Using External Plugins")
          (para "The markdowneditor.MarkdownEditor component demonstrates the use of an external Javascript library.")
          markdownEditorJsx e4;
        El.Hr None;
        drawn p tm d exampleLatency (ES "Latency Checker")
          (El.P None [ES "By kind permission of "; link "http://tjholowaychuk.com/" "" "TJ Holowaychuk";
            ES ", a basic, component-based version of the beautiful APEX "; link "https://latency.apex.sh/" "" "Latency Tool";
            ES " that uses randomly generated latency values."])
          latencyJsx (link "../latency" "_blank" "Launch in new tab")])
  | PImm =>
      ∃ e1, e = El.Div (cls "container") (dc2 ++ [
        drawn p tm d exampleImmTodo (El.Span None [ES "A simple TODO app"])
          (para "The immtodoapp.TodoApp component is a reimplementation of todoapp.TodoApp using immutable data structures.")
          "n/a" e1])
  | PGlobal =>
      e = El.Div (cls "container")
        [El.Div (Some (El.with_DangerouslySetInnerHTML (Some (NewDangerousInnerHTML global_html)) El.html_zero)) []]
  end.

Lemma page_at_evolves w j' k this i p tm :
  evolves ∅ ∅ (w_js w) j' → page_at w k this i p tm → page_at (World j' (w_ext w)) k this i p tm.
Proof. intros Hev (b & Hi & Hb). exists b. split; [by apply Hev|done]. Qed.

Ltac file_in := unfold files; repeat (first [left|right]).

Lemma Page_Render_run w k this i p tm d :
  classes_wf (w_js w) → page_at w k this i p tm → repr w p d →
  ∃ e j', Page_Render Highlight HTML (page_on k this) w = Ok (e, World j' (w_ext w)) ∧ page_drawn (page_on k this) tm d e.
Proof.
  intros Hcl Hp Hd. destruct html_ok as [Hh1 Hh2]. destruct k; cbn [Page_Render page_of page_drawn].
  - unfold Examples_Render. mstep (mlift_run _ w _ Hh1).
    destruct (CreateElement_makes buildHelloMessage (Some {| Name := "Jane" |}) [] w Hcl) as (e1 & j1 & H1 & Hv1). mstep H1.
    set (w1 := World j1 (w_ext w)). assert (page_at w1 PExamples this i p tm) as Hp1 by by apply page_at_evolves.
    mstep (renderExample_run Highlight w1 _ _ _ _ _ d exampleHello "hellomessage/hello_message.go" (ES "A Simple Example")
      (para "The hellomessage.HelloMessage component demonstrates the simple use of a Props type.") helloMessageJsx e1 Hp1 Hd
      ltac:(file_in)).
    destruct (CreateElement_makes buildTimer None [] w1 (ev_classes _ _ _ _ Hv1 Hcl)) as (e2 & j2 & H2 & Hv2). mstep H2.
    set (w2 := World j2 (w_ext w)). assert (page_at w2 PExamples this i p tm) as Hp2 by by apply (page_at_evolves w1).
    mstep (renderExample_run Highlight w2 _ _ _ _ _ d exampleTimer "timer/timer.go" (ES "A Stateful Component")
      (para "The timer.Timer component demonstrates the use of a State type.") timerJsx e2 Hp2 Hd ltac:(file_in)).
    pose proof (ev_classes _ _ _ _ Hv2 (ev_classes _ _ _ _ Hv1 Hcl)) as Hcl2.
    destruct (CreateElement_makes buildTodoApp None [] w2 Hcl2) as (e3 & j3 & H3 & Hv3). mstep H3.
    set (w3 := World j3 (w_ext w)). assert (page_at w3 PExamples this i p tm) as Hp3 by by apply (page_at_evolves w2).
    mstep (renderExample_run Highlight w3 _ _ _ _ _ d exampleTodo "todoapp/todo_app.go" (ES "An Application")
      (para ("The todoapp.TodoApp component demonstrates the use of state and event handling, but also the " +:+
        "problems of having a non-comparable state struct type.")) applicationJsx e3 Hp3 Hd ltac:(file_in)).
    destruct (CreateElement_makes buildMarkdownEditor None [] w3 (ev_classes _ _ _ _ Hv3 Hcl2)) as (e4 & j4 & H4 & Hv4). mstep H4.
    set (w4 := World j4 (w_ext w)). assert (page_at w4 PExamples this i p tm) as Hp4 by by apply (page_at_evolves w3).
    mstep (renderExample_run Highlight w4 _ _ _ _ _ d exampleMarkdown "markdowneditor/markdown_editor.go"
      (ES "A Component Using External Plugins")
      (para "The markdowneditor.MarkdownEditor component demonstrates the use of an external Javascript library.")
      markdownEditorJsx e4 Hp4 Hd ltac:(file_in)).
    mstep (renderExample_run Highlight w4 _ _ _ _ _ d exampleLatency "sites/latency/latency.go" (ES "Latency Checker")
      (El.P None [ES "By kind permission of "; link "http://tjholowaychuk.com/" "" "TJ Holowaychuk";
        ES ", a basic, component-based version of the beautiful APEX "; link "https://latency.apex.sh/" "" "Latency Tool";
        ES " that uses randomly generated latency values."])
      latencyJsx (link "../latency" "_blank" "Launch in new tab") Hp4 Hd ltac:(file_in)).
    eexists _, j4. split; [reflexivity|]. by exists e1, e2, e3, e4.
  - unfold ImmExamples_Render. mstep (mlift_run _ w _ Hh2). destruct (CreateElement_makes buildImmTodoApp None [] w Hcl) as (e1 & j1 & H1 & Hv1). mstep H1.
    set (w1 := World j1 (w_ext w)). assert (page_at w1 PImm this i p tm) as Hp1 by by apply page_at_evolves.
    mstep (renderExample_run Highlight w1 _ _ _ _ _ d exampleImmTodo "immtodoapp/todo_app.go" (El.Span None [ES "A simple TODO app"])
      (para "The immtodoapp.TodoApp component is a reimplementation of todoapp.TodoApp using immutable data structures.")
      "n/a" e1 Hp1 Hd ltac:(file_in)).
    eexists _, j1. split; [reflexivity|]. by exists e1.
  - eexists _, (w_js w). split; [|reflexivity]. by destruct w.
Qed.

(** *** Mounting a page *)
Abbreviation bpage := (buildPage range_map Highlight HTML).

(** A new instance of a page has the sources there are. *)
Lemma create_page w k :
  heap_wf (w_js w) →
  let this := next_loc (w_js w) in
  ∃ w', create_instance (bpage k) (JObject []) w = Ok (this, w') ∧
    page_at w' k this (S (S this)) (sources (w_ext w)) ∅ ∧ evolves ∅ ∅ (w_js w) (w_js w') ∧ grows w w' ∧
    sources (w_ext w') = sources (w_ext w) ∧ e_jobs (w_ext w') = e_jobs (w_ext w) ∧
    fetchStarted (w_ext w') = fetchStarted (w_ext w) ∧ e_maps (w_ext w') = e_maps (w_ext w).
Proof.
  intros Hwf this. set (n := length (e_tabs (w_ext w))).
  set (w1 := put_cells (P := tabS) (cells w ++ [ICell ∅ false]) w).
  destruct (create_evolves_with (bpage k) (JObject []) w (Page_GetInitialState k)
    (SPage k (MkState (sources (w_ext w)) (Some n))) (w_ext w1) Hwf) as (j' & Hr & Hi & Hev & _); [by destruct k|done|].
  exists (World j' (w_ext w1)). split; [exact Hr|]. split; [|split_and!; try done].
  - exists n. split; [exact Hi|]. by apply lookup_last.
  - apply (grows_trans w w1); [apply grows_tab|by apply grows_eq].
Qed.

Lemma start_fetching_run w p l :
  start_fetching p l w =
  Ok (tt, World (w_js w) (set_jobs (e_jobs (w_ext w) ++ map (λ '(i, e), Job p i e) l) (w_ext w))).
Proof.
  revert w. induction l as [|[i e] l IH]; intros w; cbn [start_fetching map].
  - rewrite app_nil_r. by destruct w as [? []].
  - set (w1 := World (w_js w) (set_jobs (e_jobs (w_ext w) ++ [Job p i e]) (w_ext w))).
    mstep (eq_refl : go_ (Job p i e) w = Ok (tt, w1)). rewrite IH. cbn. by rewrite <-app_assoc.
Qed.

(** Once the fetching has started, mounting a page starts nothing. *)
Lemma mount_page w k :
  heap_wf (w_js w) → fetchStarted (w_ext w) = true →
  let this := next_loc (w_js w) in
  ∃ w', mount_instance (bpage k) (JObject []) w = Ok (this, w') ∧
    page_at w' k this (S (S this)) (sources (w_ext w)) ∅ ∧ evolves ∅ ∅ (w_js w) (w_js w') ∧ grows w w' ∧
    sources (w_ext w') = sources (w_ext w) ∧ e_jobs (w_ext w') = e_jobs (w_ext w) ∧ fetchStarted (w_ext w') = true.
Proof.
  intros Hwf Hst this. destruct (create_page w k Hwf) as (w' & Hr & Hp & Hev & Hg & Hs & Hj & Hf & _). exists w'.
  unfold mount_instance. fold this in Hr, Hp. mstep Hr. cbn [buildPage ComponentWillMount opt_call].
  assert (Page_ComponentWillMount range_map {| page_of := k; page_def := mk_def this |} w' = Ok (tt, w')) as Hm.
  { unfold Page_ComponentWillMount. mstep (eq_refl : mget w_ext w' = Ok (w_ext w', w')). by rewrite Hf, Hst. }
  mstep Hm. rewrite Hf, Hst in *. done.
Qed.
(** The first page that is mounted starts it. *)
Lemma mount_first w k a m :
  heap_wf (w_js w) → fetchStarted (w_ext w) = false → sources (w_ext w) = Some a → frozen w a m →
  let this := next_loc (w_js w) in
  ∃ w', mount_instance (bpage k) (JObject []) w = Ok (this, w') ∧
    page_at w' k this (S (S this)) (sources (w_ext w)) ∅ ∧ evolves ∅ ∅ (w_js w) (w_js w') ∧ grows w w' ∧
    sources (w_ext w') = sources (w_ext w) ∧ fetchStarted (w_ext w') = true ∧
    e_jobs (w_ext w') = e_jobs (w_ext w) ++ map (λ '(i, e), Job (page_on k this) i e) (range_map m).
Proof.
  intros Hwf Hst Hsrc Ha this. destruct (create_page w k Hwf) as (w1 & Hr & Hp & Hev & Hg & Hs & Hj & Hf & _).
  fold this in Hr, Hp. set (l := map (λ '(i, e), Job (page_on k this) i e) (range_map m)).
  set (w2 := World (w_js w1) (set_fetchStarted true (set_jobs (e_jobs (w_ext w1) ++ l) (w_ext w1)))).
  exists w2. unfold mount_instance. mstep Hr. cbn [buildPage ComponentWillMount opt_call].
  assert (Page_ComponentWillMount range_map (page_on k this) w1 = Ok (tt, w2)) as Hm.
  { unfold Page_ComponentWillMount. mstep (eq_refl : mget w_ext w1 = Ok (w_ext w1, w1)). rewrite Hf, Hst, Hs, Hsrc.
    pose proof (gr_map _ _ Hg _ _ Ha) as Ha1.
    mstep (map_Range_run (K := Z) (V := ptr) w1 a _ Ha1). mstep (map_elems_run (K := Z) (V := ptr) w1 a _ Ha1). by mstep (start_fetching_run w1 (page_on k this) (range_map m)). }
  mstep Hm. split; [done|]. split; [exact Hp|]. split; [exact Hev|].
  split; [apply (grows_trans w w1); [exact Hg|by apply grows_eq]|]. split; [exact Hs|]. split; [done|]. cbn. by rewrite Hj.
Qed.

(** *** Drawing the site *)
Lemma nav_Render_run w app ia t k :
  classes_wf (w_js w) → inst (w_js w) app ia (SApp t) → page_of_tab t = Some k →
  ∃ e j', App_Render range_map Highlight HTML {| app_def := mk_def app |} w = Ok (e, World j' (w_ext w)) ∧
    evolves ∅ ∅ (w_js w) j'.
Proof.
  intros Hcl Hi Hk. unfold App_Render. mstep (App_State_run w _ _ _ Hi). rewrite Hk.
  destruct (CreateElement_makes (bpage k) None [] w Hcl) as (e & j' & Hr & Hev).
  rewrite (M_bind_run (Page range_map Highlight HTML k) _ w e (World j' (w_ext w)) Hr).
  assert (∀ n t', ∃ l, buildLink {| app_def := mk_def app |} n t' (World j' (w_ext w)) = Ok (l, World j' (w_ext w))) as Hl.
  { intros n t'. unfold buildLink. assert (inst j' app ia (SApp t)) as Hi' by (by apply Hev).
    mstep (App_State_run (World j' (w_ext w)) app ia t Hi'). by eexists. }
  destruct (Hl "Simple" tabShowcase) as [l1 H1]. destruct (Hl "Immutable" tabImmutable) as [l2 H2].
  destruct (Hl "Global State" tabGlobalState) as [l3 H3]. mstep H1. mstep H2. mstep H3. by eexists _, j'.
Qed.

(** [w] is the site [s]: [first] is the page that started the requests, and [this], of the
    kind [k], the current one. *)
Record site w (app ia first i1 : loc) (k : page) (this i : loc) (s : spec) : Prop := {
  st_wf : heap_wf (w_js w);
  st_classes : classes_wf (w_js w);
  st_started : fetchStarted (w_ext w) = true;
  st_sources : repr w (sources (w_ext w)) (fetched s);
  st_app : inst (w_js w) app ia (SApp (on_tab s));
  st_tab : page_of_tab (on_tab s) = Some k;
  st_first : ∃ tm, page_at w PExamples first i1 (sources (w_ext w)) tm;
  st_cur : match snapshot s with
           | None => k = PExamples ∧ this = first ∧ i = i1
           | Some d => i ≠ i1 ∧ ∃ p tm, page_at w k this i p tm ∧ repr w p d
           end;
  st_ne : ia ≠ i1 ∧ ia ≠ i;
  st_jobs : Forall2 (λ j key, ∃ f b, j = Job (page_on PExamples first) key (Some b) ∧ (key, f) ∈ files ∧
              frozen w b (Source f "")) (e_jobs (w_ext w)) (waiting s);
}.

(** What the current page can show. *)
Lemma site_cur w app ia first i1 k this i s :
  site w app ia first i1 k this i s → ∃ p tm, page_at w k this i p tm ∧ repr w p (shown s).
Proof.
  intros [_ _ _ Hsrc _ _ [tm Hf] Hc _ _]. unfold shown. destruct (snapshot s) as [d|]; cbn.
  - by destruct Hc as [_ ?].
  - destruct Hc as (-> & -> & ->). by exists (sources (w_ext w)), tm.
Qed.

Lemma jobs_grow w w' first js ks :
  grows w w' →
  Forall2 (λ j key, ∃ f b, j = Job (page_on PExamples first) key (Some b) ∧ (key, f) ∈ files ∧ frozen w b (Source f "")) js ks →
  Forall2 (λ j key, ∃ f b, j = Job (page_on PExamples first) key (Some b) ∧ (key, f) ∈ files ∧ frozen w' b (Source f "")) js ks.
Proof. intros Hg. apply Forall2_impl. intros j k (f & b & ? & ? & ?). exists f, b. split_and!; try done. by apply Hg. Qed.

Lemma file_of_spec k f : (k, f) ∈ files → file_of k = f.
Proof.
  intros Hf. unfold files in Hf. repeat (apply elem_of_cons in Hf as [Hf|Hf]; [simplify_eq; reflexivity|]).
  by apply elem_of_nil in Hf.
Qed.

(** Every event is handled. *)
Lemma fetched_run w app ia first i1 k this i s n net :
  site w app ia first i1 k this i s → good (Fetched n net) →
  ∃ w', site_event range_map Highlight HTML app (Some (k, this)) (Fetched n net) w = Ok (Some (k, this), w') ∧
    site w' app ia first i1 k this i (spec_step s (Fetched n net)).
Proof.
  intros Hw Hgood. pose proof Hw as [Hwf Hcl Hst Hsrc Happ Htab [tm Hf] Hcur [Hne1 Hne2] Hjobs].
  cbn [site_event spec_step]. mstep (eq_refl : mget w_ext w = Ok (w_ext w, w)).
  destruct (e_jobs (w_ext w) !! n) as [j|] eqn:Hj.
  2: { assert (waiting s !! n = None) as ->
      by (apply lookup_ge_None_2; rewrite <-(Forall2_length Hjobs); by apply lookup_ge_None_1). by exists w. }
  destruct (Forall2_lookup_l _ _ _ _ _ Hjobs Hj) as (key & Hkey & f & b & Hjeq & Hfile & Hb). rewrite Hkey.
  set (w1 := World (w_js w) (set_jobs (delete n (e_jobs (w_ext w))) (w_ext w))).
  rewrite (M_bind_run (on_mem (λ m, set_jobs (delete n (e_jobs m)) m)) _ w tt w1 eq_refl).
  destruct (Hgood (raw_url +:+ f)) as [text Hnet].
  destruct (fetch_job_run w1 first i1 tm (fetched s) j key f b net text Hf Hsrc Hjeq Hb Hfile Hnet)
    as (w2 & Hr & Hg & Hev & Hf2 & Hsrc2 & Hj2 & Hst2).
  mstep Hr. exists w2. split; [done|].
  assert (default "" (answer_of net key) = text) as -> by (unfold answer_of; by rewrite (file_of_spec _ _ Hfile), Hnet).
  split; cbn [fetched waiting on_tab snapshot]; try done.
  - by apply Hev.
  - by apply Hev.
  - by rewrite Hst2.
  - apply Hev; [by apply not_elem_of_singleton|done].
  - by exists tm.
  - destruct (snapshot s) as [d|]; [|done]. destruct Hcur as (Hi & p & tm' & Hp & Hd). split; [done|]. exists p, tm'.
    split; [|by eapply repr_grows; [exact Hg|]]. eapply page_at_grows; [exact Hg| |exact Hp]. intros s'.
    apply Hev. by apply not_elem_of_singleton.
  - rewrite Hj2. eapply jobs_grow; [exact Hg|]. by apply Forall2_delete.
Qed.

Lemma tab_run w app ia first i1 k this i s key t :
  site w app ia first i1 k this i s →
  ∃ w', site_event range_map Highlight HTML app (Some (k, this)) (Tab key t) w = Ok (Some (k, this), w') ∧
    site w' app ia first i1 k this i s.
Proof.
  intros Hw. pose proof Hw as [Hwf Hcl Hst Hsrc Happ Htab [tm Hf] Hcur [Hne1 Hne2] Hjobs]. cbn [site_event].
  destruct (site_cur _ _ _ _ _ _ _ _ _ Hw) as (p & tm' & Hp & _).
  destruct (tabChange_run w k this i p tm' key t Hp) as (w' & Hr & Hg & Hev & Hp' & Hs' & Hj' & Hst').
  mstep Hr. exists w'. split; [done|]. split; try done.
  - by apply Hev.
  - by apply Hev.
  - by rewrite Hst'.
  - rewrite Hs'. by eapply repr_grows.
  - apply Hev; [by apply not_elem_of_singleton|done].
  - rewrite Hs'. destruct (snapshot s) as [d|].
    + destruct Hcur as (Hne & _). exists tm. eapply page_at_grows; [exact Hg| |exact Hf]. intros s'. apply Hev.
      by apply not_elem_of_singleton.
    + destruct Hcur as (-> & -> & ->). destruct Hf as (b & Hb & _), Hp as (b' & Hb' & _), Hp' as (c & Hc & Hct).
      pose proof (inst_state_fun _ _ _ _ _ _ Hb Hb') as [= -> ->]. exists (<[key := t]> tm'). by exists c.
  - destruct (snapshot s) as [d|]; [|done]. destruct Hcur as (Hne & q & tm2 & Hq & Hd). split; [done|].
    destruct Hp as (b & Hb & _), Hq as (b' & Hb' & _). pose proof (inst_state_fun _ _ _ _ _ _ Hb Hb') as [= -> ->].
    exists q, (<[key := t]> tm'). split; [exact Hp'|]. by eapply repr_grows.
  - rewrite Hj'. by eapply jobs_grow.
Qed.

Lemma nav_run w app ia first i1 k this i s t :
  site w app ia first i1 k this i s → good (Nav t) →
  ∃ w' k' this' i', site_event range_map Highlight HTML app (Some (k, this)) (Nav t) w = Ok (Some (k', this'), w') ∧
    site w' app ia first i1 k' this' i' (spec_step s (Nav t)).
Proof.
  intros Hw [k' Hk']. pose proof Hw as [Hwf Hcl Hst Hsrc Happ Htab [tm Hf] Hcur [Hne1 Hne2] Hjobs].
  cbn [site_event spec_step]. mstep (App_State_run w app ia _ Happ).
  destruct (SetState_evolves w app ia (SApp (on_tab s)) (SApp t) (bool_decide (t = on_tab s)) Happ eq_refl)
    as (j1 & Hr1 & Hi1 & Hev1 & _); [by intros ->%bool_decide_eq_true_1|].
  set (w1 := World j1 (EMem (e_structs (w_ext w)) (e_maps (w_ext w)) (e_tabs (w_ext w)) (sources (w_ext w))
    (fetchStarted (w_ext w)) (e_jobs (w_ext w)) (S (e_prevented (w_ext w))))).
  assert (navChange_OnClick {| app_def := mk_def app |} t w = Ok (tt, w1)) as Hnav
    by (unfold navChange_OnClick; cbn [app_def]; by mstep Hr1).
  mstep Hnav. destruct (Z.eqb_spec (on_tab s) t) as [<-|Hne].
  - exists w1, k, this, i. split; [done|].
    assert (∀ k this i p tm, ia ≠ i → page_at w k this i p tm → page_at w1 k this i p tm) as Hpg.
    { intros ????? Hn. apply page_at_grows; [by apply grows_eq|]. intros s'. apply Hev1. by apply not_elem_of_singleton. }
    split; cbn; try done.
    + by apply Hev1.
    + by apply Hev1.
    + exists tm. by apply Hpg.
    + destruct (snapshot s) as [d|]; [|done]. destruct Hcur as (? & p & tm' & Hp & Hd). split; [done|]. exists p, tm'.
      split; [by apply Hpg|done].
  - destruct (nav_Render_run w1 app ia t k' (ev_classes _ _ _ _ Hev1 Hcl) Hi1 Hk') as (e & j2 & Hr2 & Hev2).
    set (w2 := World j2 (w_ext w1)). assert (inst j2 app ia (SApp t)) as Hi2 by (by apply Hev2).
    assert (heap_wf j2) as Hwf2 by (by apply Hev2, Hev1).
    destruct (mount_page w2 k' Hwf2 Hst) as (w3 & Hr3 & Hp3 & Hev3 & Hg3 & Hs3 & Hj3 & Hst3).
    pose proof (evolves_trans _ _ _ _ _ _ _ (evolves_trans _ _ _ _ _ _ _ Hev1 Hev2) Hev3) as Hev.
    assert (evolves {[ia]} ∅ (w_js w) (w_js w3)) as Hev' by (eapply evolves_mono; [..|exact Hev]; set_solver).
    assert (grows w w3) as Hg by (apply (grows_trans w w2); [by apply grows_eq|exact Hg3]).
    exists w3, k', (next_loc j2), (S (S (next_loc j2))). split.
    { unfold show_page. mstep Hr2. mstep (App_State_run w2 app ia _ Hi2). rewrite Hk'. by mstep Hr3. }
    destruct Hf as (bf & Hbf & Htm). assert (inst j2 first i1 (SPage PExamples (MkState (sources (w_ext w)) (Some bf)))) as Hf2.
    { apply Hev2; [set_solver|]. apply Hev1; [by apply not_elem_of_singleton|exact Hbf]. }
    pose proof (inst_bound _ _ _ _ Hwf2 Hf2) as [_ Hb1]. pose proof (inst_bound _ _ _ _ Hwf2 Hi2) as [_ Hba].
    split; cbn [fetched waiting on_tab snapshot]; try done.
    + by apply Hev3.
    + by apply Hev'.
    + rewrite Hs3. by eapply repr_grows.
    + by apply Hev3.
    + rewrite Hs3. exists tm, bf. split; [apply Hev3; [set_solver|exact Hf2]|by apply Hg].
    + split; [lia|]. exists (sources (w_ext w)), ∅. split; [exact Hp3|by eapply repr_grows].
    + split; [done|lia].
    + rewrite Hj3. by eapply jobs_grow.
Qed.

Lemma site_run_run w app ia first i1 k this i s es :
  site w app ia first i1 k this i s → Forall good es →
  ∃ w' k' this' i', site_run range_map Highlight HTML app (Some (k, this)) es w = Ok (Some (k', this'), w') ∧
    site w' app ia first i1 k' this' i' (spec_run s es).
Proof.
  intros Hw Hes. revert w k this i s Hw. induction Hes as [|e es He _ IH]; intros w k this i s Hw; cbn [site_run spec_run foldl].
  - by exists w, k, this, i.
  - assert (∃ w1 k1 this1 i2, site_event range_map Highlight HTML app (Some (k, this)) e w = Ok (Some (k1, this1), w1) ∧
      site w1 app ia first i1 k1 this1 i2 (spec_step s e)) as (w1 & k1 & this1 & i2 & H1 & Hw1).
    { destruct e as [n net|key t|t].
      - destruct (fetched_run _ _ _ _ _ _ _ _ _ n net Hw He) as (w1 & ? & ?). by exists w1, k, this, i.
      - destruct (tab_run _ _ _ _ _ _ _ _ _ key t Hw) as (w1 & ? & ?). by exists w1, k, this, i.
      - exact (nav_run _ _ _ _ _ _ _ _ _ t Hw He). }
    mstep H1. eapply IH, Hw1.
Qed.

(** *** The start *)
Definition start_list : list (Z * ptr) :=
  [(0%Z, Some 1); (1%Z, Some 3); (2%Z, Some 5); (3%Z, Some 7); (4%Z, Some 9); (5%Z, Some 11)].
Definition start_map : exampleSource :=
  list_to_map start_list.
Lemma start_perm : map_to_list start_map ≡ₚ start_list.
Proof. apply map_to_list_to_map, (bool_decide_unpack _). vm_compute. exact I. Qed.
Lemma start_entry k p : (k, p) ∈ start_list → ∃ f b, p = Some b ∧ (k, f) ∈ files.
Proof.
  unfold start_list. intros Hk. repeat (apply elem_of_cons in Hk as [[= -> ->]|Hk]; [eexists _, _; split; [reflexivity|file_in]|]).
  by apply elem_of_nil in Hk.
Qed.
Lemma init_sources_run :
  ∃ m, init_sources (World empty_js empty_mem) = Ok (tt, World empty_js m) ∧
    sources m = Some 1 ∧ frozen (World empty_js m) 1 start_map ∧ fetchStarted m = false ∧ e_jobs m = [] ∧
    ∀ k f, (k, f) ∈ files → ∃ b, start_map !! k = Some (Some b) ∧ frozen (World empty_js m) b (Source f "").
Proof.
  eexists. split; [vm_compute; reflexivity|]. split; [done|]. split; [vm_compute; reflexivity|]. split; [done|].
  split; [done|]. intros k f Hf. unfold files in Hf.
  repeat (apply elem_of_cons in Hf as [[= -> ->]|Hf]; [eexists; split; vm_compute; reflexivity|]).
  by apply elem_of_nil in Hf.
Qed.

Lemma showcase_mount_run :
  ∃ w app ia this i ks, (init_sources ≫= λ _, mount_site range_map Highlight HTML) (World empty_js empty_mem) =
      Ok ((app, Some (PExamples, this)), w) ∧
    ks ≡ₚ files.*1 ∧ site w app ia this i PExamples this i (Spec ∅ ks 0 None).
Proof.
  destruct init_sources_run as (m0 & H0 & Hs0 & Ha0 & Hst0 & Hj0 & Hm0). mstep H0. unfold mount_site.
  set (w0 := World empty_js m0) in *. assert (heap_wf (w_js w0)) as Hwf0 by (intros l; cbn; rewrite lookup_empty; by intros []).
  destruct (create_evolves (buildApp range_map Highlight HTML) (JObject []) w0 (SApp 0) Hwf0 eq_refl)
    as (j1 & Hr1 & Hi1 & Hev1 & _).
  set (w1 := World j1 m0). assert (mount_instance (buildApp range_map Highlight HTML) (JObject []) w0 = Ok (next_loc (w_js w0), w1))
    as Hm1 by (unfold mount_instance; by mstep Hr1).
  mstep Hm1. set (app := next_loc (w_js w0)) in *.
  assert (classes_wf (w_js w0)) as Hcl0 by apply classes_wf_empty.
  destruct (nav_Render_run w1 app _ 0 PExamples (ev_classes _ _ _ _ Hev1 Hcl0) Hi1 eq_refl) as (e & j2 & Hr2 & Hev2).
  set (w2 := World j2 m0). assert (inst j2 app (S (S app)) (SApp 0)) as Hi2 by (by apply Hev2).
  assert (heap_wf j2) as Hwf2 by (by apply Hev2, Hev1).
  destruct (mount_first w2 PExamples 1 start_map Hwf2 Hst0 Hs0 Ha0) as (w3 & Hr3 & Hp3 & Hev3 & Hg3 & Hs3 & Hst3 & Hj3).
  set (this := next_loc (w_js w2)) in *.
  exists w3, app, (S (S app)), this, (S (S this)), ((range_map start_map).*1). split.
  { unfold show_page. rewrite (M_bind_run (App_Render range_map Highlight HTML {| app_def := mk_def app |} ≫= _) _ w1 (Some (PExamples, this)) w3);
      [done|]. mstep Hr2. mstep (App_State_run w2 app _ _ Hi2). change (page_of_tab 0) with (Some PExamples). cbv beta iota. by mstep Hr3. }
  split; [rewrite range_ok, start_perm; apply reflexivity|]. pose proof (inst_bound _ _ _ _ Hwf2 Hi2) as [_ Hba].
  split; cbn [fetched waiting on_tab snapshot].
  - by apply Hev3.
  - by apply Hev3, Hev2, Hev1.
  - exact Hst3.
  - rewrite Hs3. exists 1, start_map. split; [exact Hs0|]. split; [by apply Hg3|]. intros k f Hf.
    destruct (Hm0 k f Hf) as (b & Hb & Hfr). exists b. split; [exact Hb|]. rewrite lookup_empty. by apply Hg3.
  - apply Hev3; [apply not_elem_of_empty|exact Hi2].
  - reflexivity.
  - exists ∅. rewrite Hs3. exact Hp3.
  - by split_and!.
  - unfold this. cbn. lia.
  - rewrite Hj3, (Hj0 : e_jobs (w_ext w2) = []). cbn [app]. apply Forall2_fmap_l, Forall2_fmap_r.
    apply Forall2_same_length_lookup. split; [done|]. intros n [k p] [k' p'] Hk Hk'. rewrite Hk in Hk'. injection Hk' as <- <-.
    assert (start_map !! k = Some p) as Hkp.
    { apply elem_of_map_to_list. rewrite <-range_ok. by eapply list_elem_of_lookup_2. }
    destruct (start_entry k p) as (f & b & Hp & Hf); [|subst p].
    { apply elem_of_map_to_list in Hkp. by rewrite start_perm in Hkp. }
    destruct (Hm0 k f Hf) as (b' & Hb' & Hfr). rewrite Hkp in Hb'. injection Hb' as <-. exists f, b.
    split; [done|]. split; [done|]. by apply Hg3.
Qed.

(** *** What becomes of the texts *)

(** The source of [key] is still waited for, or is the answer of one of [es]. *)
Definition accounted (es : list event) (s : spec) (key : Z) (f : string) : Prop :=
  key ∈ waiting s ∨
  ∃ n net text, Fetched n net ∈ es ∧ net (raw_url +:+ f) = inr text ∧ fetched s !! key = Some text.
Lemma spec_accounted es s key f :
  Forall good es → (key, f) ∈ files → key ∈ waiting s → accounted es (spec_run s es) key f.
Proof.
  intros Hes Hf Hkey. cut (∀ es', accounted es' s key f → accounted (es' ++ es) (spec_run s es) key f).
  { intros Hall. apply (Hall []). by left. }
  clear Hkey. revert s. induction Hes as [|e es He _ IH]; intros s es' Hs; cbn [spec_run foldl]; [by rewrite app_nil_r|].
  rewrite (cons_middle e es' es), app_assoc. apply IH. clear IH.
  assert (accounted (es' ++ [e]) s key f) as Hs'.
  { destruct Hs as [Hw|(n & net & text & Hin & Hrest)]; [by left|right]. exists n, net, text. split; [|done].
    apply elem_of_app. by left. }
  destruct e as [n net|key' t|t]; cbn [spec_step]; [|done|by destruct (on_tab s =? t)%Z].
  destruct (waiting s !! n) as [k|] eqn:Hk; [|done]. destruct (decide (k = key)) as [->|Hne].
  - right. destruct (He (raw_url +:+ f)) as [text Hnet]. exists n, net, text.
    split; [apply elem_of_app; right; left|]. split; [done|]. cbn [fetched].
    by rewrite lookup_insert_eq; unfold answer_of; rewrite (file_of_spec _ _ Hf), Hnet.
  - destruct Hs' as [Hw|(n' & net' & text & Hin & Hnet & Hfe)].
    + left. cbn [waiting]. rewrite (delete_Permutation _ _ _ Hk) in Hw. apply elem_of_cons in Hw as [->|Hw]; [done|exact Hw].
    + right. exists n', net', text. split; [done|]. split; [done|]. cbn [fetched]. by rewrite lookup_insert_ne.
Qed.

Definition no_nav (e : event) : Prop := match e with Nav _ => False | _ => True end.
Lemma spec_no_nav es s :
  Forall no_nav es → snapshot (spec_run s es) = snapshot s ∧ on_tab (spec_run s es) = on_tab s.
Proof.
  intros Hes. revert s. induction Hes as [|[n net|key t|t] es He _ IH]; intros s; cbn [spec_run foldl]; [done| |apply IH|done].
  destruct (IH (spec_step s (Fetched n net))) as [H1 H2]. fold (spec_run (spec_step s (Fetched n net)) es).
  rewrite H1, H2. cbn [spec_step]. by destruct (waiting s !! n).
Qed.

Lemma keys_files ks key f : ks ≡ₚ files.*1 → (key, f) ∈ files → key ∈ ks.
Proof. intros -> Hf. apply list_elem_of_fmap. by exists (key, f). Qed.

(** The page on show is drawn with what it can show. *)
Lemma site_draws w app ia first i1 k this i s :
  site w app ia first i1 k this i s →
  ∃ tm e j', Page_Render Highlight HTML (page_on k this) w = Ok (e, World j' (w_ext w)) ∧
    page_drawn (page_on k this) tm (shown s) e.
Proof.
  intros Hw. destruct (site_cur _ _ _ _ _ _ _ _ _ Hw) as (p & tm & Hp & Hd).
  destruct (Page_Render_run w k this i p tm (shown s) (st_classes _ _ _ _ _ _ _ _ _ Hw) Hp Hd) as (e & j' & He & Hdr).
  by exists tm, e, j'.
Qed.

Abbreviation start := ((init_sources ≫= λ _, mount_site range_map Highlight HTML) (World empty_js empty_mem)).
Abbreviation run := (site_run range_map Highlight HTML).
Abbreviation render := (Page_Render Highlight HTML).

(** C12: no source is lost.  Whatever the order in which the requests are answered, and
    whatever the user clicks in between, nothing panics; each source is still waited for
    or in the global map, as it was answered; the page that started the requests draws
    what is in the map, and a page that was mounted later what was in it then. *)
Theorem examples_fetched es :
  Forall good es →
  ∃ w0 app this0 ks, start = Ok ((app, Some (PExamples, this0)), w0) ∧ ks ≡ₚ files.*1 ∧
    let s := spec_run (Spec ∅ ks tabShowcase None) es in
    ∃ w k this tm e j', run app (Some (PExamples, this0)) es w0 = Ok (Some (k, this), w) ∧
      page_of_tab (on_tab s) = Some k ∧ render (page_on k this) w = Ok (e, World j' (w_ext w)) ∧
      page_drawn (page_on k this) tm (shown s) e ∧ repr w (sources (w_ext w)) (fetched s) ∧
      ∀ key f, (key, f) ∈ files → accounted es s key f.
Proof.
  intros Hes. destruct showcase_mount_run as (w0 & app & ia & this0 & i1 & ks & H0 & Hks & Hw0).
  exists w0, app, this0, ks. split; [exact H0|]. split; [exact Hks|]. intros s.
  destruct (site_run_run _ _ _ _ _ _ _ _ _ es Hw0 Hes) as (w & k & this & i & Hr & Hw). fold s in Hw.
  destruct (site_draws _ _ _ _ _ _ _ _ _ Hw) as (tm & e & j' & He & Hd). exists w, k, this, tm, e, j'.
  split; [exact Hr|]. split; [apply Hw|]. split; [exact He|]. split; [exact Hd|]. split; [apply Hw|].
  intros key f Hf. apply spec_accounted; [done..|]. cbn. by eapply keys_files.
Qed.

(** C35: but a page can miss them.  If the user goes to another page before the sources are
    there, that page draws its examples without source, whatever is answered then: even
    when the global map has every source.  Leaving it and coming back shows them. *)
Theorem examples_missed es :
  Forall good es → Forall no_nav es →
  ∃ w0 app this0 ks, start = Ok ((app, Some (PExamples, this0)), w0) ∧ ks ≡ₚ files.*1 ∧
    let s := spec_run (Spec ∅ ks tabImmutable (Some ∅)) es in
    ∃ w1 this1 tm1 e1 j1, run app (Some (PExamples, this0)) (Nav tabImmutable :: es) w0 = Ok (Some (PImm, this1), w1) ∧
      render (page_on PImm this1) w1 = Ok (e1, World j1 (w_ext w1)) ∧
      page_drawn (page_on PImm this1) tm1 ∅ e1 ∧ repr w1 (sources (w_ext w1)) (fetched s) ∧
      (waiting s = [] → ∀ key f, (key, f) ∈ files → is_Some (fetched s !! key)) ∧
    ∃ w2 this2 tm2 e2 j2, run app (Some (PImm, this1)) [Nav tabShowcase; Nav tabImmutable] w1 = Ok (Some (PImm, this2), w2) ∧
      render (page_on PImm this2) w2 = Ok (e2, World j2 (w_ext w2)) ∧ page_drawn (page_on PImm this2) tm2 (fetched s) e2.
Proof.
  intros Hes Hnav. destruct showcase_mount_run as (w0 & app & ia & this0 & i1 & ks & H0 & Hks & Hw0).
  exists w0, app, this0, ks. split; [exact H0|]. split; [exact Hks|]. intros s.
  assert (good (Nav tabImmutable)) as Hg1 by (by eexists). assert (good (Nav tabShowcase)) as Hg0 by (by eexists).
  destruct (site_run_run _ _ _ _ _ _ _ _ _ (Nav tabImmutable :: es) Hw0 ltac:(by constructor)) as (w1 & k1 & this1 & i2 & Hr1 & Hw1).
  change (spec_run (Spec ∅ ks 0 None) (Nav tabImmutable :: es)) with s in Hw1.
  destruct (spec_no_nav es (Spec ∅ ks tabImmutable (Some ∅)) Hnav) as [Hsnap Htab]. fold s in Hsnap, Htab. cbn in Hsnap, Htab.
  pose proof (st_tab _ _ _ _ _ _ _ _ _ Hw1) as Hk1. rewrite Htab in Hk1. injection Hk1 as <-.
  destruct (site_draws _ _ _ _ _ _ _ _ _ Hw1) as (tm1 & e1 & j1 & He1 & Hd1).
  exists w1, this1, tm1, e1, j1. split; [exact Hr1|]. split; [exact He1|].
  split; [unfold shown in Hd1; by rewrite Hsnap in Hd1|]. split; [apply Hw1|]. split.
  - intros Hwait key f Hf.
    destruct (spec_accounted es (Spec ∅ ks tabImmutable (Some ∅)) key f Hes Hf) as [Hin|(n & net & text & _ & _ & Ht)].
    + cbn. by eapply keys_files.
    + fold s in Hin. rewrite Hwait in Hin. destruct (not_elem_of_nil key Hin).
    + fold s in Ht. by eexists.
  - destruct (site_run_run _ _ _ _ _ _ _ _ _ [Nav tabShowcase; Nav tabImmutable] Hw1 ltac:(by repeat constructor))
      as (w2 & k2 & this2 & i3 & Hr2 & Hw2).
    assert (spec_run s [Nav tabShowcase; Nav tabImmutable] = Spec (fetched s) (waiting s) tabImmutable (Some (fetched s))) as Hs2
      by (cbn; by rewrite Htab).
    rewrite Hs2 in Hw2. pose proof (st_tab _ _ _ _ _ _ _ _ _ Hw2) as Hk2. injection Hk2 as <-.
    destruct (site_draws _ _ _ _ _ _ _ _ _ Hw2) as (tm2 & e2 & j2 & He2 & Hd2).
    exists w2, this2, tm2, e2, j2. split; [exact Hr2|]. split; [exact He2|exact Hd2].
Qed.
End Site.
End Proofs.

(** ** Witnesses *)

(** Components that draw nothing, under the names of those that are shown. *)
Definition build_named (name path : string) (cd : ComponentDef) : Component emem := {|
  cmp_type := RType name path;
  RendersElement := mret (El.Div None []);
  ComponentWillMount := None;
  ComponentDidMount := None;
  ComponentWillReceivePropsIntf := None;
  GetInitialStateIntf := None;
  ComponentWillUnmount := None;
|}.
Definition named_components : Shown := {|
  buildHelloMessage := build_named "HelloMessageDef" "myitcv.io/react/examples/hellomessage";
  buildTimer := build_named "TimerDef" "myitcv.io/react/examples/timer";
  buildTodoApp := build_named "TodoAppDef" "myitcv.io/react/examples/todoapp";
  buildMarkdownEditor := build_named "MarkdownEditorDef" "myitcv.io/react/examples/markdowneditor";
  buildImmTodoApp := build_named "TodoAppDef" "myitcv.io/react/examples/immtodoapp";
|}.

(** A network that answers every request with its URL; two answers and a click in between. *)
Definition echo (u : string) : string + string := inr u.
Definition some_events : list event := [Fetched 5 echo; Nav tabImmutable; Tab exampleImmTodo tabJsx; Fetched 0 echo].
Definition plain_html (s : string) : res (list Element) := Ok [ES s].

Lemma some_events_good : Forall good some_events.
Proof. repeat constructor; try (intros u; by exists u). by exists PImm. Qed.

Lemma examples_fetched_witness :
  ∃ w0 app this0 ks, (init_sources ≫= λ _, mount_site (sh := named_components) map_to_list (λ _ s, s) plain_html)
      (World empty_js empty_mem) = Ok ((app, Some (PExamples, this0)), w0) ∧ ks ≡ₚ files.*1 ∧
    ∃ w k this, site_run (sh := named_components) map_to_list (λ _ s, s) plain_html app (Some (PExamples, this0)) some_events w0 =
      Ok (Some (k, this), w) ∧
      ∀ key f, (key, f) ∈ files → accounted some_events (spec_run (Spec ∅ ks tabShowcase None) some_events) key f.
Proof.
  destruct (examples_fetched (sh := named_components) map_to_list (λ _ s, s) plain_html (λ m, reflexivity _)
    [ES examples_html] [ES imm_html] (conj eq_refl eq_refl) some_events some_events_good)
    as (w0 & app & this0 & ks & H0 & Hks & w & k & this & tm & e & j & H1 & _ & _ & _ & _ & Hall).
  exists w0, app, this0, ks. split; [exact H0|]. split; [exact Hks|]. exists w, k, this. split; [exact H1|exact Hall].
Defined.

Definition all_answers : list event := replicate 6 (Fetched 0 echo).
Lemma all_answers_good : Forall good all_answers.
Proof. repeat constructor; intros u; by exists u. Qed.

(** Every request is answered after the user went to the second page. *)
Lemma examples_missed_witness :
  ∃ w0 app this0 w1 this1 tm1 e1 j1,
    (init_sources ≫= λ _, mount_site (sh := named_components) map_to_list (λ _ s, s) plain_html)
      (World empty_js empty_mem) = Ok ((app, Some (PExamples, this0)), w0) ∧
    site_run (sh := named_components) map_to_list (λ _ s, s) plain_html app (Some (PExamples, this0)) (Nav tabImmutable :: all_answers) w0 =
      Ok (Some (PImm, this1), w1) ∧
    Page_Render (sh := named_components) (λ _ s, s) plain_html {| page_of := PImm; page_def := mk_def this1 |} w1 =
      Ok (e1, World j1 (w_ext w1)) ∧
    page_drawn (λ _ s, s) [ES examples_html] [ES imm_html] {| page_of := PImm; page_def := mk_def this1 |} tm1 ∅ e1.
Proof.
  destruct (examples_missed (sh := named_components) map_to_list (λ _ s, s) plain_html (λ m, reflexivity _)
    [ES examples_html] [ES imm_html] (conj eq_refl eq_refl) all_answers all_answers_good)
    as (w0 & app & this0 & ks & H0 & Hks & w1 & this1 & tm1 & e1 & j1 & H1 & H2 & H3 & _).
  - repeat constructor.
  - exists w0, app, this0, w1, this1, tm1, e1, j1. split; [exact H0|]. split; [exact H1|]. split; [exact H2|exact H3].
Defined.
