(* ===== verification/SmallExamples.v ===== *)
(** * The small examples

    Models, of [examples] in [src/_vendor/src/myitcv.io/react]: [hellomessage] (module
    [Hello]), [markdowneditor] (module [Markdown]), and the page of [helloworld] and of
    [helloworldbootstrap], which are the same (module [HelloWorld]). *)

From S2P Require Import Prelude React Mount Elements.

(** ** hellomessage: a component with props and children *)
Module Hello.
Record HelloMessageDef := { hello_def : ComponentDef }.
Record HelloMessageProps := { Name : string }.
#[export] Instance HelloMessageProps_eq_dec : EqDecision HelloMessageProps.
Proof. solve_decision. Defined.

#[export] Instance hello_values : ReactValues := {|
  Props := HelloMessageProps;
  State := Empty_set;
  Handler := Empty_set;
  Props_EqualsIntf p q := match q with Some q => Ok (bool_decide (p = q)) | None => Panic TypeAssertion end;
  State_EqualsIntf s _ := match s with end;
|}.
Abbreviation HM := (M (world unit)).

Definition Props_ (h : HelloMessageDef) : HM HelloMessageProps := ComponentDef_Props (hello_def h).

Definition Render (h : HelloMessageDef) : HM Element :=
  p ← Props_ h;
  let kids := [ES ("Hello " +:+ Name p)] in
  cs ← ComponentDef_Children (hello_def h);
  mret (El.Div None (kids ++ cs)).

Definition buildHelloMessage (cd : ComponentDef) : Component unit := {|
  cmp_type := RType "HelloMessageDef" "myitcv.io/react/examples/hellomessage";
  RendersElement := Render {| hello_def := cd |};
  ComponentWillMount := None;
  ComponentDidMount := None;
  ComponentWillReceivePropsIntf := None;
  GetInitialStateIntf := None;
  ComponentWillUnmount := None;
|}.
Definition HelloMessage (p : HelloMessageProps) (children : list Element) : HM Element :=
  CreateElement buildHelloMessage (Some p) children.

(** *** What it draws *)
Definition hello_view (p : HelloMessageProps) (children : list Element) : Element :=
  El.Div None (ES ("Hello " +:+ Name p) :: children).

(** [this] was given the props object of an element [HelloMessage p children]. *)
Definition given (j : js) (this : loc) (p : HelloMessageProps) (children : list Element) : Prop :=
  ∃ o, heap j !! this = Some o ∧ obj_get o reactCompProps = JObject (wrap_props (Some p) children).

Lemma given_has_props j this p cs : given j this p cs → has_props j this p.
Proof. intros (o & Ho & Hp). exists o, (wrap_props (RV := hello_values) (Some p) cs). destruct (wrap_props_get (RV := hello_values) (Some p) cs) as [-> ->]. by split_and!. Qed.

Lemma Children_run (w : world unit) this p cs :
  given (w_js w) this p cs → ComponentDef_Children (mk_def this) w = Ok (cs, w).
Proof.
  intros (o & Ho & Hp). unfold ComponentDef_Children, mbind, M_bind. cbn [elem_val mk_def cd_elem].
  rewrite (js_Get_ref _ _ _ _ Ho), Hp. cbn [js_Get]. unfold mret, M_ret. by destruct cs.
Qed.

Lemma Render_run (w : world unit) this p cs :
  given (w_js w) this p cs → Render {| hello_def := mk_def this |} w = Ok (hello_view p cs, w).
Proof.
  intros Hg. unfold Render, Props_. cbn [hello_def]. mstep (Props_has_props _ _ _ (given_has_props _ _ _ _ Hg)).
  by mstep (Children_run w this p cs Hg).
Qed.

(** A parent hands it the props object of another element. *)
Lemma hello_update_run (w : world unit) this p cs p' cs' :
  given (w_js w) this p cs →
  ∃ j', update_instance buildHelloMessage this (JObject (wrap_props (Some p') cs')) w =
      Ok (negb (bool_decide (p = p')), World j' (w_ext w)) ∧ given j' this p' cs'.
Proof.
  intros Hg. pose proof Hg as (o & Ho & Hp).
  destruct (update_evolves buildHelloMessage w this o p p' cs' (bool_decide (p = p')) Ho (given_has_props _ _ _ _ Hg) eq_refl eq_refl)
    as (j' & Hr & _ & Hj').
  exists j'. split; [exact Hr|]. exists (obj_set o reactCompProps (JObject (wrap_props (Some p') cs'))).
  split; [exact Hj'|]. by rewrite obj_get_set_eq.
Qed.

(** C26: children that change.  A message draws its name and then the children it was given.
    When its parent gives it other props and children it is drawn again if the name has
    changed, and only then: children that change under the same name are not drawn,
    although the component would draw them. *)
Theorem hello_children (w : world unit) this p cs p' cs' :
  given (w_js w) this p cs →
  Render {| hello_def := mk_def this |} w = Ok (hello_view p cs, w) ∧
  ∃ b w', update_instance buildHelloMessage this (JObject (wrap_props (Some p') cs')) w = Ok (b, w') ∧
    (b = true ↔ p ≠ p') ∧
    Render {| hello_def := mk_def this |} w' = Ok (hello_view p' cs', w') ∧
    (p = p' → cs ≠ cs' → b = false ∧ hello_view p' cs' ≠ hello_view p cs).
Proof.
  intros Hg. split; [by apply Render_run|]. destruct (hello_update_run w this p cs p' cs' Hg) as (j' & Hr & Hg').
  eexists _, _. split; [exact Hr|]. split; [case_bool_decide; naive_solver|]. split; [by apply Render_run|].
  intros -> Hne. rewrite bool_decide_eq_true_2 by done. split; [done|]. unfold hello_view. intros [= Heq]. by apply Hne.
Qed.

Definition jane : HelloMessageProps := {| Name := "Jane" |}.
Definition jane_page : world unit := World (JS {[0 := [(reactCompProps, JObject (wrap_props (Some jane) [ES "one"]))]]} 1 ∅ [] []) tt.
Lemma hello_children_witness :
  ∃ w', update_instance buildHelloMessage 0 (JObject (wrap_props (Some jane) [ES "two"])) jane_page = Ok (false, w') ∧
    Render {| hello_def := mk_def 0 |} w' = Ok (hello_view jane [ES "two"], w') ∧
    hello_view jane [ES "two"] ≠ hello_view jane [ES "one"].
Proof.
  destruct (hello_children jane_page 0 jane [ES "one"] jane [ES "two"]) as (_ & b & w' & H1 & _ & H2 & H3).
  - eexists. split; [reflexivity|reflexivity].
  - destruct (H3 eq_refl ltac:(discriminate)) as [-> Hne]. exists w'. split; [exact H1|]. split; [exact H2|exact Hne].
Defined.
End Hello.

(** ** markdowneditor: another library, and a reference to a node *)
Module Markdown.
Record MarkdownEditorDef := { md_def : ComponentDef }.
(** [remark] and [div] are pointers. *)
Record MarkdownEditorState := MkState { value : string; remark : nat; div : ptr }.
#[export] Instance MarkdownEditorState_eq_dec : EqDecision MarkdownEditorState.
Proof. solve_decision. Defined.

(** Nodes of the document: a [div], by its identity, or another one. *)
Inductive node := DivNode (id : nat) | OtherNode.
Record divRef := DivRef { dr_m : MarkdownEditorDef; dr_div : option nat }.

Inductive handler := inputChange (m : MarkdownEditorDef) | Ref_of (d : ptr).
#[export] Instance md_values : ReactValues := {|
  Props := Empty_set;
  State := MarkdownEditorState;
  Handler := handler;
  Props_EqualsIntf p := match p with end;
  State_EqualsIntf s v := Ok (bool_decide (s = v));
|}.

(** The converters made by [NewRemarkable], which are all the same, the references, and
    what was printed. *)
Record mmem := MMem { m_remarks : nat; m_refs : list divRef; m_printed : list nat }.
Abbreviation MM := (M (world mmem)).
Definition on_mem (f : mmem → mmem) : MM unit := mmodify (λ w, World (w_js w) (f (w_ext w))).

Definition State_ (m : MarkdownEditorDef) : MM MarkdownEditorState := ComponentDef_State (md_def m).
Definition SetState (m : MarkdownEditorDef) (s : MarkdownEditorState) : MM unit := ComponentDef_SetState (md_def m) s.

Definition NewRemarkable : MM nat := λ w,
  Ok (m_remarks (w_ext w), World (w_js w) (MMem (S (m_remarks (w_ext w))) (m_refs (w_ext w)) (m_printed (w_ext w)))).
Definition new_divRef (m : MarkdownEditorDef) : MM ptr := λ w,
  Ok (Some (length (m_refs (w_ext w))),
      World (w_js w) (MMem (m_remarks (w_ext w)) (m_refs (w_ext w) ++ [DivRef m None]) (m_printed (w_ext w)))).
Definition GetInitialState (m : MarkdownEditorDef) : MM MarkdownEditorState :=
  r ← NewRemarkable;
  d ← new_divRef m;
  mret (MkState "Type some *markdown* here!" r d).

Section Markdown.
(** [Render] of a converter. *)
Context (remarkable_Render : string → string).

Definition getRawMarkup (m : MarkdownEditorDef) : MM object :=
  st ← State_ m;
  mret (NewDangerousInnerHTML (remarkable_Render (value st))).

Definition md_view (m : MarkdownEditorDef) (d : ptr) (val : string) (markup : object) : Element :=
  El.Div (Some (El.with_Ref (Some (Ref_of d)) El.html_zero)) [
    El.H3 None [ES "Input"];
    El.TextArea (Some (El.TextArea_with_Value val (El.TextArea_on_html (λ p,
      El.with_ClassName "form-control" (El.with_OnChange (Some (inputChange m)) p)) El.TextArea_zero))) [];
    El.H3 None [ES "Output"];
    El.Div (Some (El.with_ClassName "well" (El.with_DangerouslySetInnerHTML (Some markup) El.html_zero))) []
  ].
Definition Render (m : MarkdownEditorDef) : MM Element :=
  s ← State_ m;
  let val := value s in
  s ← State_ m;
  markup ← getRawMarkup m;
  mret (md_view m (div s) val markup).

Definition inputChange_OnChange (m : MarkdownEditorDef) (target : string) : MM unit :=
  st ← State_ m;
  SetState m (MkState target (remark st) (div st)).

(** [Ref]: React hands over the node, or nil when it is gone. *)
Definition divRef_Ref (d : ptr) (h : option node) : MM unit :=
  match h with
  | None => mret tt
  | Some OtherNode => mpanic TypeAssertion
  | Some (DivNode id) =>
      w ← mget w_ext;
      r ← mlift (store_deref (m_refs w) d);
      _ ← on_mem (λ m, MMem (m_remarks m)
        (match d with Some a => <[a := DivRef (dr_m r) (Some id)]> (m_refs m) | None => m_refs m end) (m_printed m ++ [id]));
      ComponentDef_ForceUpdate (md_def (dr_m r))
  end.

Definition buildMarkdownEditor (cd : ComponentDef) : Component mmem :=
  let m := {| md_def := cd |} in {|
  cmp_type := RType "MarkdownEditorDef" "myitcv.io/react/examples/markdowneditor";
  RendersElement := Render m;
  ComponentWillMount := None;
  ComponentDidMount := None;
  ComponentWillReceivePropsIntf := None;
  GetInitialStateIntf := Some (GetInitialState m);
  ComponentWillUnmount := None;
|}.
Definition MarkdownEditor : MM Element := CreateElement buildMarkdownEditor None [].

(** What happens: the user types, React hands over the [div] or takes it away. *)
Inductive event := Input_ (v : string) | Node_ (h : option nat).
Definition md_event (this : loc) (e : event) : MM unit :=
  match e with
  | Input_ v => inputChange_OnChange {| md_def := mk_def this |} v
  | Node_ h =>
      s ← State_ {| md_def := mk_def this |};
      divRef_Ref (div s) (DivNode <$> h)
  end.
Fixpoint md_run (this : loc) (es : list event) : MM unit :=
  match es with [] => mret tt | e :: es => _ ← md_event this e; md_run this es end.

Definition typed (t : string) (es : list event) : string := foldl (λ t e, match e with Input_ v => v | Node_ _ => t end) t es.
Definition nodes (es : list event) : list nat := omap (λ e, match e with Node_ h => h | Input_ _ => None end) es.

Record editing (w : world mmem) (this i a : loc) (r : nat) (t : string) : Prop := {
  ed_inst : inst (w_js w) this i (MkState t r (Some a));
  ed_ref : ∃ n, m_refs (w_ext w) !! a = Some (DivRef {| md_def := mk_def this |} n);
}.

Lemma md_event_run w this i a r t e :
  editing w this i a r t →
  ∃ w' us, md_event this e w = Ok (tt, w') ∧ editing w' this i a r (typed t [e]) ∧
    m_printed (w_ext w') = m_printed (w_ext w) ++ nodes [e] ∧ updates (w_js w') = updates (w_js w) ++ us ∧
    (typed t [e] = t ∧ nodes [e] = [] ∨ this ∈ us).
Proof.
  intros [Hi (n & Hn)]. destruct e as [v|h]; cbn [md_event typed foldl].
  - unfold inputChange_OnChange, State_, SetState. cbn [md_def]. mstep (State_inst w _ _ _ Hi). cbn [remark div].
    destruct (SetState_evolves w this i _ (MkState v r (Some a)) (bool_decide (MkState v r (Some a) = MkState t r (Some a))) Hi eq_refl)
      as (j' & Hr & Hi' & _ & Hu & _); [by intros ?%bool_decide_eq_true_1|].
    eexists _, _. split; [exact Hr|]. split; [split; [exact Hi'|by exists n]|]. split; [by rewrite app_nil_r|].
    split; [exact Hu|]. destruct (bool_decide_reflect (MkState v r (Some a) = MkState t r (Some a))) as [[= ->]|]; [by left|].
    right. left.
  - mstep (State_inst w _ _ _ Hi : State_ {| md_def := mk_def this |} w = _). cbn [div]. destruct h as [id|]; cbn [fmap option_fmap option_map divRef_Ref].
    + mstep (eq_refl : mget w_ext w = Ok (w_ext w, w)).
      assert (store_deref (m_refs (w_ext w)) (Some a) = Ok (DivRef {| md_def := mk_def this |} n)) as Hd by (cbn; by rewrite Hn).
      mstep (mlift_run _ w _ Hd). eexists _, [this]. split; [reflexivity|]. split; [|split; [done|split; [done|right; left]]].
      split; [done|]. exists (Some id). cbn. apply list_lookup_insert_eq. by eapply lookup_lt_Some.
    + exists w, []. split; [done|]. split; [by split; [|exists n]|]. rewrite !app_nil_r. split; [done|]. split; [done|by left].
Qed.

Lemma md_run_run w this i a r t es :
  editing w this i a r t →
  ∃ w', md_run this es w = Ok (tt, w') ∧ editing w' this i a r (typed t es) ∧
    m_printed (w_ext w') = m_printed (w_ext w) ++ nodes es.
Proof.
  revert w t. induction es as [|e es IH]; intros w t Hw; cbn [md_run]; [exists w; by rewrite app_nil_r|].
  destruct (md_event_run w this i a r t e Hw) as (w1 & us & H1 & Hw1 & Hp1 & _). mstep H1.
  destruct (IH w1 _ Hw1) as (w' & Hr & Hw' & Hp). exists w'. split; [exact Hr|]. split; [exact Hw'|].
  rewrite Hp, Hp1, <-app_assoc. by destruct e as [|[]].
Qed.

(** The editor.  Mounted, and whatever the user types and however often React hands over
    the node or takes it away, nothing panics; the editor draws the text typed last and
    what the converter makes of it, and an event that changes the text, or hands over
    the node, asks for a re-render. *)
Theorem markdown_shows (w : world mmem) es :
  heap_wf (w_js w) →
  let this := next_loc (w_js w) in
  let m := {| md_def := mk_def this |} in
  let t := typed "Type some *markdown* here!" es in
  ∃ w0 w' d, mount_instance buildMarkdownEditor (JObject []) w = Ok (this, w0) ∧ md_run this es w0 = Ok (tt, w') ∧
    Render m w' = Ok (md_view m d t (NewDangerousInnerHTML (remarkable_Render t)), w') ∧
    m_printed (w_ext w') = m_printed (w_ext w) ++ nodes es ∧
    ∀ e, ∃ w'' us, md_event this e w' = Ok (tt, w'') ∧ updates (w_js w'') = updates (w_js w') ++ us ∧
      (typed t [e] = t ∧ nodes [e] = [] ∨ this ∈ us).
Proof.
  intros Hwf this m t. set (a := length (m_refs (w_ext w))).
  destruct (create_evolves_with buildMarkdownEditor (JObject []) w (GetInitialState m)
    (MkState "Type some *markdown* here!" (m_remarks (w_ext w)) (Some a))
    (MMem (S (m_remarks (w_ext w))) (m_refs (w_ext w) ++ [DivRef m None]) (m_printed (w_ext w))) Hwf eq_refl) as (j1 & Hr1 & Hi1 & _);
    [done|].
  set (w0 := World j1 _) in Hr1. assert (editing w0 this (S (S this)) a (m_remarks (w_ext w)) "Type some *markdown* here!") as Hw0
    by (split; [exact Hi1|]; exists None; by apply list_lookup_middle).
  destruct (md_run_run w0 _ _ _ _ _ es Hw0) as (w' & H1 & Hw' & Hp). exists w0, w', (Some a).
  split; [unfold mount_instance; by mstep Hr1|]. split; [exact H1|]. split; [|split; [exact Hp|]].
  - unfold Render, getRawMarkup, State_. cbn [md_def m]. pose proof (State_inst w' _ _ _ (ed_inst _ _ _ _ _ _ Hw')) as HS.
    do 2 mstep HS. rewrite (M_bind_run _ _ w' (NewDangerousInnerHTML (remarkable_Render t)) w'); [done|]. by mstep HS.
  - intros e. destruct (md_event_run w' _ _ _ _ _ e Hw') as (w'' & us & He & _ & _ & Hu & Hch). by exists w'', us.
Qed.
End Markdown.

Lemma markdown_shows_witness :
  ∃ w0 w' d, mount_instance (buildMarkdownEditor (λ s, "<p>" +:+ s)) (JObject []) (World empty_js (MMem 0 [] [])) = Ok (0, w0) ∧
    md_run 0 [Node_ (Some 7); Input_ "a"; Input_ "b"; Node_ None] w0 = Ok (tt, w') ∧
    Render (λ s, "<p>" +:+ s) {| md_def := mk_def 0 |} w' =
      Ok (md_view {| md_def := mk_def 0 |} d "b" (NewDangerousInnerHTML "<p>b"), w').
Proof.
  destruct (markdown_shows (λ s, "<p>" +:+ s) (World empty_js (MMem 0 [] [])) [Node_ (Some 7); Input_ "a"; Input_ "b"; Node_ None])
    as (w0 & w' & d & H0 & H1 & H2 & _).
  - intros l. cbn. rewrite lookup_empty. by intros [].
  - exists w0, w', d. split; [exact H0|]. split; [exact H1|exact H2].
Defined.
End Markdown.

(** ** helloworld and helloworldbootstrap *)
Module HelloWorld.
Section HelloWorld.
Context {RV : ReactValues} {E : Type}.
Definition Render : M (world E) Element :=
  mret (El.Div None [El.H1 None [ES "Hello World"]; El.P None [ES "This is my first GopherJS React App."]]).
Definition buildApp (cd : ComponentDef) : Component E := {|
  cmp_type := RType "AppDef" "main";
  RendersElement := Render;
  ComponentWillMount := None;
  ComponentDidMount := None;
  ComponentWillReceivePropsIntf := None;
  GetInitialStateIntf := None;
  ComponentWillUnmount := None;
|}.
Definition App : M (world E) Element := CreateElement buildApp None [].
End HelloWorld.
End HelloWorld.
