(* ===== verification/Blog.v ===== *)
(** * The component of the blog

    Models [examples/blog/2017_04_16] of [src/_vendor/src/myitcv.io/react]: [foo_bar.go],
    [app.go] and the generated file of [FooBar], a component with both props and state, and
    no [GetInitialState] of its own. *)

From stdpp Require Import pretty.
From S2P Require Import Prelude GoLib React Mount Elements.

(** ** Data *)
Record FooBarDef := { foobar_def : ComponentDef }.
Record FooBarProps := { Name : string }.
#[export] Instance FooBarProps_eq_dec : EqDecision FooBarProps.
Proof. solve_decision. Defined.
Record FooBarState := { Age : Z }.
#[export] Instance FooBarState_eq_dec : EqDecision FooBarState.
Proof. solve_decision. Defined.

Inductive handler := ageClick (f : FooBarDef).

#[export] Instance blog_values : ReactValues := {|
  Props := FooBarProps;
  State := FooBarState;
  Handler := handler;
  Props_EqualsIntf p q := match q with Some q => Ok (bool_decide (p = q)) | None => Panic TypeAssertion end;
  State_EqualsIntf s v := Ok (bool_decide (s = v));
|}.
Abbreviation BM := (M (world unit)).

(** ** The component *)
Definition State_ (f : FooBarDef) : BM FooBarState := ComponentDef_State (foobar_def f).
Definition SetState (f : FooBarDef) (s : FooBarState) : BM unit := ComponentDef_SetState (foobar_def f) s.
Definition Props_ (f : FooBarDef) : BM FooBarProps := ComponentDef_Props (foobar_def f).

Definition foobar_view (f : FooBarDef) (name : string) (age : Z) : Element :=
  let details := "My name is " +:+ name +:+ ". My age is " +:+ pretty age in
  El.Div None [
    El.P None [ES details];
    El.Button (Some (El.Button_on_html (El.with_OnClick (Some (ageClick f))) El.Button_zero)) [ES "Bump age"]
  ].
Definition FooBar_Render (f : FooBarDef) : BM Element :=
  p ← Props_ f;
  s ← State_ f;
  mret (foobar_view f (Name p) (Age s)).

Definition ageClick_OnClick (f : FooBarDef) : BM unit :=
  s ← State_ f;
  SetState f {| Age := wrap32 (Age s + 1) |}.

Definition buildFooBar (cd : ComponentDef) : Component unit := {|
  cmp_type := RType "FooBarDef" "main";
  RendersElement := FooBar_Render {| foobar_def := cd |};
  ComponentWillMount := None;
  ComponentDidMount := None;
  ComponentWillReceivePropsIntf := None;
  GetInitialStateIntf := Some (mret {| Age := 0 |});
  ComponentWillUnmount := None;
|}.
Definition FooBar (p : FooBarProps) : BM Element := CreateElement buildFooBar (Some p) [].

Definition App_Render : BM Element :=
  e ← FooBar {| Name := "Peter" |};
  mret (El.Div None [
    El.H1 None [ES "Hello World"];
    El.P None [ES "This is my first GopherJS React App."];
    e
  ]).

(** ** What happens: a click, or a parent that hands over the props of another element *)
Inductive event := Bump | Named (p : FooBarProps).
Definition foobar_event (this : loc) (e : event) : BM unit :=
  match e with
  | Bump => ageClick_OnClick {| foobar_def := mk_def this |}
  | Named p => _ ← update_instance buildFooBar this (JObject (wrap_props (Some p) [])); mret tt
  end.
Fixpoint foobar_run (this : loc) (es : list event) : BM unit :=
  match es with [] => mret tt | e :: es => _ ← foobar_event this e; foobar_run this es end.

Definition name_after (p : FooBarProps) : list event → FooBarProps :=
  foldl (λ p e, match e with Named q => q | Bump => p end) p.
Definition bumps (es : list event) : Z :=
  Z.of_nat (length (omap (λ e, match e with Bump => Some tt | Named _ => None end) es)).

(** ** Proofs *)
Lemma wrap32_small z : (- 2 ^ 31 ≤ z < 2 ^ 31)%Z → wrap32 z = z.
Proof. intros Hz. unfold wrap32. rewrite Z.mod_small; lia. Qed.
Lemma wrap32_succ z : wrap32 (wrap32 z + 1) = wrap32 (z + 1).
Proof.
  unfold wrap32. f_equal. replace ((z + 2 ^ 31) mod 2 ^ 32 - 2 ^ 31 + 1 + 2 ^ 31)%Z with ((z + 2 ^ 31) mod 2 ^ 32 + 1)%Z by ring.
  rewrite Z.add_mod_idemp_l by lia. f_equal. ring.
Qed.
Lemma wrap32_succ_ne z : wrap32 (z + 1) ≠ z.
Proof.
  unfold wrap32. intros H. pose proof (Z.div_mod (z + 1 + 2 ^ 31) (2 ^ 32) ltac:(lia)) as Hd.
  pose proof (Z.mod_pos_bound (z + 1 + 2 ^ 31) (2 ^ 32) ltac:(lia)). lia.
Qed.

Record drawn (w : world unit) (this i : loc) (p : FooBarProps) (n : Z) : Prop := {
  dr_inst : inst (w_js w) this i {| Age := wrap32 n |};
  dr_props : has_props (w_js w) this p;
}.

Lemma FooBar_Render_run w this i p n :
  drawn w this i p n →
  FooBar_Render {| foobar_def := mk_def this |} w = Ok (foobar_view {| foobar_def := mk_def this |} (Name p) (wrap32 n), w).
Proof.
  intros Hd. unfold FooBar_Render, Props_, State_. cbn [foobar_def].
  mstep (Props_has_props _ _ _ (dr_props _ _ _ _ _ Hd)). by mstep (State_inst _ _ _ _ (dr_inst _ _ _ _ _ Hd)).
Qed.

Lemma Bump_run (w : world unit) this i p n :
  drawn w this i p n →
  ∃ w', foobar_event this Bump w = Ok (tt, w') ∧ drawn w' this i p (n + 1) ∧ updates (w_js w') = updates (w_js w) ++ [this].
Proof.
  intros [Hi Hp]. cbn [foobar_event]. unfold ageClick_OnClick, State_, SetState. cbn [foobar_def]. mstep (State_inst _ _ _ _ Hi).
  cbn [Age]. rewrite wrap32_succ.
  assert ({| Age := wrap32 (n + 1) |} ≠ {| Age := wrap32 n |}) as Hne
    by (intros [= H]; rewrite <-wrap32_succ in H; by apply wrap32_succ_ne in H).
  destruct (SetState_evolves w this i _ {| Age := wrap32 (n + 1) |} false Hi) as (j' & Hr & Hi' & Hev & Hu & _);
    [by cbn; rewrite bool_decide_eq_false_2|done|].
  exists (World j' (w_ext w)). split; [exact Hr|]. split; [|exact Hu]. split; [exact Hi'|by apply (ev_props _ _ _ _ Hev)].
Qed.

Lemma Named_run (w : world unit) this i p n q :
  drawn w this i p n →
  ∃ w', update_instance buildFooBar this (JObject (wrap_props (Some q) [])) w = Ok (bool_decide (p ≠ q), w') ∧ drawn w' this i q n.
Proof.
  intros [Hi Hp]. pose proof Hp as (o & _ & Ho & _).
  destruct (update_evolves buildFooBar w this o p q [] (bool_decide (p = q)) Ho Hp eq_refl eq_refl) as (j' & Hr & Hev & Hj').
  rewrite bool_decide_not. exists (World j' (w_ext w)). split; [exact Hr|]. split; [by apply (ev_inst _ _ _ _ Hev)|].
  eapply elem_props; [exact Hj'|]. by rewrite obj_get_set_eq.
Qed.

Lemma foobar_run_run (w : world unit) this i p n es :
  drawn w this i p n →
  ∃ w', foobar_run this es w = Ok (tt, w') ∧ drawn w' this i (name_after p es) (n + bumps es).
Proof.
  revert w p n. induction es as [|e es IH]; intros w p n Hd; cbn [foobar_run];
    [exists w; split; [done|]; by rewrite Z.add_0_r|].
  assert (∃ w1, foobar_event this e w = Ok (tt, w1) ∧ drawn w1 this i (name_after p [e]) (n + bumps [e])) as (w1 & H1 & Hd1).
  { destruct e as [|q]; [destruct (Bump_run w this i p n Hd) as (w1 & H1 & Hd1 & _)|
      destruct (Named_run w this i p n q Hd) as (w1 & H1 & Hd1)]; exists w1; (split; [|by rewrite ?Z.add_0_r]).
    - exact H1.
    - cbn [foobar_event]. by mstep H1. }
  mstep H1. destruct (IH w1 _ _ Hd1) as (w' & Hr & Hd'). exists w'. split; [exact Hr|].
  replace (n + bumps (e :: es))%Z with (n + bumps [e] + bumps es)%Z by (unfold bumps; destruct e; cbn [omap list_omap length]; lia).
  exact Hd'.
Qed.

(** A component with props and state.  Mounted with a name, and whatever clicks and new
    names come, it draws the latest name and the number of clicks, as a 32-bit integer; a
    click always asks for a re-render, and other props make it render exactly when
    the name differs. *)
Theorem foobar_counts (w : world unit) p es :
  heap_wf (w_js w) →
  let this := next_loc (w_js w) in
  let f := {| foobar_def := mk_def this |} in
  let q := name_after p es in
  ∃ w0 w', mount_instance buildFooBar (JObject (wrap_props (Some p) [])) w = Ok (this, w0) ∧
    foobar_run this es w0 = Ok (tt, w') ∧
    FooBar_Render f w' = Ok (foobar_view f (Name q) (wrap32 (bumps es)), w') ∧
    (bumps es < 2 ^ 31 → wrap32 (bumps es) = bumps es)%Z ∧
    (∃ w'', foobar_event this Bump w' = Ok (tt, w'') ∧ updates (w_js w'') = updates (w_js w') ++ [this]) ∧
    (∀ q', ∃ w'', update_instance buildFooBar this (JObject (wrap_props (Some q') [])) w' = Ok (bool_decide (q ≠ q'), w'')).
Proof.
  intros Hwf this f q.
  destruct (create_evolves buildFooBar (JObject (wrap_props (RV := blog_values) (Some p) [])) w {| Age := 0 |} Hwf eq_refl) as (j0 & Hr & Hi & _ & (o & Ho & Hp)).
  assert (drawn (World j0 (w_ext w)) this (S (S this)) p 0) as Hd0 by (split; [exact Hi|by eapply elem_props]).
  destruct (foobar_run_run _ _ _ _ _ es Hd0) as (w' & Hrun & Hd). fold q in Hd. rewrite Z.add_0_l in Hd.
  exists (World j0 (w_ext w)), w'. split; [unfold mount_instance; by mstep Hr|]. split; [exact Hrun|].
  split; [by eapply FooBar_Render_run|]. split; [intros; apply wrap32_small; unfold bumps in *; lia|]. split.
  - destruct (Bump_run _ _ _ _ _ Hd) as (w'' & H1 & _ & H2). by exists w''.
  - intros q'. destruct (Named_run _ _ _ _ _ q' Hd) as (w'' & H1 & _). by exists w''.
Qed.

Lemma foobar_counts_witness :
  ∃ w0 w', mount_instance buildFooBar (JObject (wrap_props (Some {| Name := "Peter" |}) [])) (World empty_js tt) = Ok (0, w0) ∧
    foobar_run 0 [Bump; Named {| Name := "Ann" |}; Bump] w0 = Ok (tt, w') ∧
    FooBar_Render {| foobar_def := mk_def 0 |} w' = Ok (foobar_view {| foobar_def := mk_def 0 |} "Ann" 2, w').
Proof.
  destruct (foobar_counts (World empty_js tt) {| Name := "Peter" |} [Bump; Named {| Name := "Ann" |}; Bump]) as (w0 & w' & H0 & H1 & H2 & _).
  - intros l. cbn. rewrite lookup_empty. by intros [].
  - exists w0, w'. split; [exact H0|]. split; [exact H1|exact H2].
Defined.
