(* ===== verification/SiteMains.v ===== *)
(** * Sites of one component

    The [main] functions of the sites of [src/_vendor/src/myitcv.io/react/examples/sites] that
    show one component, up to the call of [react.Render] with the result; [query] is
    the query of the document's URL, nil if the URL does not parse. *)

From S2P Require Import Prelude React Mount Elements Timer Immutable Todo Latency SmallExamples.

Definition site_main {RV : ReactValues} {E} (src_url : string) (elem : M (world E) Element) (query : option (string → string)) :
    M (world E) Element :=
  match query with
  | None => mpanic (PanicMsg "url.Parse")
  | Some get =>
      let elems := if bool_decide (get "hideGithubRibbon" ≠ "true") then
          [El.A (Some (El.A_with_Target "_blank" (El.A_with_Href src_url (El.A_with_Title "Source on GitHub"
             (El.A_on_html (El.with_ClassName "github-fork-ribbon right-top") El.A_zero)))))
             [ES "Source on GitHub"]]
        else [] in
      e ← elem;
      mret (El.Div None (elems ++ [e]))
  end.
Definition main_go (site : string) : string :=
  "https://github.com/myitcv/react/blob/master/examples/sites/" +:+ site +:+ "/main.go".

Definition timer_main := site_main (main_go "timer") Timer.
Definition todoapp_main := site_main (main_go "todoapp") TodoApp.TodoApp.
Definition immtodoapp_main := site_main (main_go "immtodoapp") ImmTodoApp.TodoApp.
Definition latency_main range_map HTMLElem :=
  site_main (main_go "latency") (Latency_ range_map HTMLElem).
Definition markdowneditor_main remark := site_main (main_go "markdowneditor") (Markdown.MarkdownEditor remark).
(** Its link is to the source of another site. *)
Definition hellomessage_main :=
  site_main (main_go "timer") (Hello.HelloMessage {| Hello.Name := "Jane" |} [El.Div None [ES "Hello"]]).
