(* ===== verification/GeneratorMain.v ===== *)
(** * The main functions of the generators

    Models [cmd/reactGen/react_gen.go], [cmd/stateGen/state_gen.go] and
    [cmd/coreGen/coreGen.go] of [src/_vendor/src/myitcv.io/react], on top of
    [FilesContainingCmd] and [CommentLicenseHeader], and [cmd/reactGen/init.go]: the mode
    of [reactGen] that writes a new application.

    What the generators then do ([dogen]) is in the files [ReactGen], [StateGen] and
    [CoreGen]; here it is an argument.  [fatalf] panics with its message. *)

From S2P Require Import Prelude GoLib GoGenerate GoDirective ExamplesText.

(** ** Generating *)
Definition reactGenCmd := "reactGen".
Definition stateGenCmd := "stateGen".
Definition coreGenCmd := "coreGen".
Definition GOFILE := "GOFILE".
Definition GOPACKAGE := "GOPACKAGE".
Definition LogFatal := "fatal".

(** [DefaultLogLevel]: the value of the flag afterwards; nil stays nil. *)
Definition DefaultLogLevel (f : option string) (ll : string) : option string :=
  match f with Some l => Some (if str_eqb l "" then ll else l) | None => None end.

Section Main.
Context (Getenv : string → string) (GOARCH GOOS : string).
Context (Open : string → string + string) (ImportDir : string → string + Package).
(** [os.LookupEnv], and [%v] of the counts. *)
Context (LookupEnv : string → option string) (fmt_counts : gmap string nat → string).

(** The checks that the three programs make, and the license header they then read. *)
Definition fatalf {A} (msg : string) : res A := Panic (PanicMsg msg).
Definition checked {R} (cmd wd : string) (fLicenseFile : option string) (dogen : string → res R) (envFile : string) : res R :=
  match FilesContainingCmd Getenv GOARCH GOOS Open ImportDir wd cmd with
  | inl err => fatalf ("could not determine if we are the first file: " +:+ err)
  | inr None => fatalf ("cannot find any files containing the " +:+ cmd +:+ " directive")
  | inr (Some dirFiles) =>
      if negb (default 0 (dirFiles !! envFile) =? 1) then
        fatalf ("expected a single occurrence of " +:+ cmd +:+ " directive in " +:+ envFile +:+ ". Got: " +:+ fmt_counts dirFiles)
      else
        match CommentLicenseHeader Open fLicenseFile with
        | inl err => fatalf ("could not comment license file: " +:+ err)
        | inr license => dogen license
        end
  end.

(** [mainGen] of [reactGen], and what [main] of [stateGen] does with its working
    directory. *)
Definition mainGen {R} (cmd wd : string) (fLicenseFile : option string) (dogen : string → string → res R) : res R :=
  match LookupEnv GOFILE with
  | None => fatalf ("env not correct; missing " +:+ GOFILE)
  | Some envFile => checked cmd wd fLicenseFile (dogen wd) envFile
  end.
(** [mainGen] of [coreGen], which also needs the name of the package. *)
Definition core_mainGen {R} (wd : string) (fLicenseFile : option string) (dogen : string → string → string → res R) : res R :=
  match LookupEnv GOFILE with
  | None => fatalf ("env not correct; missing " +:+ GOFILE)
  | Some envFile =>
      match LookupEnv GOPACKAGE with
      | None => fatalf ("env not correct; missing " +:+ GOPACKAGE)
      | Some envPkg => checked coreGenCmd wd fLicenseFile (dogen wd envPkg) envFile
      end
  end.

(** *** When a generator runs *)
Context (dir : string) (pkg : Package) (source : string → list src_line) (files : list string).
Hypothesis Hpkg : ImportDir dir = inr pkg.
Hypothesis Hfiles : files = GoFiles pkg ++ CgoFiles pkg ++ TestGoFiles pkg ++ XTestGoFiles pkg.
Hypothesis Hnodup : NoDup files.
Hypothesis Hread : readable_files Open dir source files.

Lemma checked_run {R} cmd fLicenseFile license (dogen : string → res R) envFile :
  CommentLicenseHeader Open fLicenseFile = inr license →
  (envFile ∈ files ∧ hits (Filepath.Base (Strings.TrimSpace cmd)) (source envFile) = 1 ∧
     checked cmd dir fLicenseFile dogen envFile = dogen license) ∨
  (¬ (envFile ∈ files ∧ hits (Filepath.Base (Strings.TrimSpace cmd)) (source envFile) = 1) ∧
     ∃ m, checked cmd dir fLicenseFile dogen envFile =
       fatalf ("expected a single occurrence of " +:+ cmd +:+ " directive in " +:+ envFile +:+ ". Got: " +:+ fmt_counts m)).
Proof.
  intros Hlic. unfold checked, FilesContainingCmd, str_eqb.
  rewrite bool_decide_eq_false_2 by apply Base_ne. rewrite Hpkg, <-Hfiles.
  set (c := Filepath.Base (Strings.TrimSpace cmd)).
  destruct (match_files_count Getenv GOARCH GOOS Open ImportDir dir pkg source c files ∅ Hnodup Hread) as (m & -> & Hm);
    [intros f _; apply lookup_empty|].
  rewrite Hm, Hlic. case_decide as Hd; cbn [default id].
  - destruct Hd as [Hin Hpos]. destruct (Nat.eqb_spec (hits c (source envFile)) 1) as [H1|H1]; cbn [negb]; [left|right].
    + done.
    + split; [by intros []|by exists m].
  - rewrite lookup_empty. cbn. right. split; [|by exists m]. intros [Hin H1]. destruct Hd. split; [done|lia].
Qed.

(** C24: when a generator runs.  In a package whose files can be read, and whose directives
    are quoted or plain words without shorthands and variables, [mainGen] hands the
    directory and the license header to [dogen] exactly when the file it was called for
    belongs to the package and has exactly one directive that runs it; otherwise it
    panics and says so.  Nothing tells whether the file is the first with a directive:
    [dogen] runs for each of two files with one directive each. *)
Theorem generator_runs {R} cmd fLicenseFile license (dogen : string → string → res R) :
  CommentLicenseHeader Open fLicenseFile = inr license →
  match LookupEnv GOFILE with
  | None => mainGen cmd dir fLicenseFile dogen = fatalf ("env not correct; missing " +:+ GOFILE)
  | Some envFile =>
      let once := envFile ∈ files ∧ hits (Filepath.Base (Strings.TrimSpace cmd)) (source envFile) = 1 in
      (once → mainGen cmd dir fLicenseFile dogen = dogen dir license) ∧
      (¬ once → ∃ m, mainGen cmd dir fLicenseFile dogen =
        fatalf ("expected a single occurrence of " +:+ cmd +:+ " directive in " +:+ envFile +:+ ". Got: " +:+ fmt_counts m))
  end.
Proof.
  intros Hlic. unfold mainGen. destruct (LookupEnv GOFILE) as [envFile|]; [|done].
  destruct (checked_run cmd fLicenseFile license (dogen dir) envFile Hlic) as [(H1 & H2 & H3)|[H1 H2]]; split; try done.
  intros Hno. by destruct Hno.
Qed.
End Main.

(** ** A new application, [init.go] *)
Definition templateHeader : string := "Template generated by " +:+ reactGenCmd.
Definition templateMinimal := "minimal".
Definition templateBootstrap := "bootstrap".

Definition app_go : string := Strings.Join [
  "// " +:+ templateHeader +:+ "";
  "";
  "package main";
  "";
  "import (";
  "	" +:+ dq_str +:+ "myitcv.io/react" +:+ dq_str +:+ "";
  ")";
  "";
  "type AppDef struct {";
  "	react.ComponentDef";
  "}";
  "";
  "func App() *AppElem {";
  "	return buildAppElem()";
  "}";
  "";
  "func (a AppDef) Render() react.Element {";
  "	return react.Div(nil,";
  "		react.H1(nil,";
  "			react.S(" +:+ dq_str +:+ "Hello World" +:+ dq_str +:+ "),";
  "		),";
  "		react.P(nil,";
  "			react.S(" +:+ dq_str +:+ "This is my first GopherJS React App." +:+ dq_str +:+ "),";
  "		),";
  "	)";
  "}";
  ""] nl.
Definition main_go : string := Strings.Join [
  "// " +:+ templateHeader +:+ "";
  "";
  "package main";
  "";
  "import (";
  "	" +:+ dq_str +:+ "myitcv.io/react" +:+ dq_str +:+ "";
  "";
  "	" +:+ dq_str +:+ "honnef.co/go/js/dom" +:+ dq_str +:+ "";
  ")";
  "";
  "  //go:generate reactGen";
  "";
  "var document = dom.GetWindow().Document()";
  "";
  "func main() {";
  "	domTarget := document.GetElementByID(" +:+ dq_str +:+ "app" +:+ dq_str +:+ ")";
  "";
  "	react.Render(App(), domTarget)";
  "}";
  ""] nl.
Definition index_html : string := Strings.Join [
  "<!--" +:+ templateHeader +:+ "-->";
  "";
  "<!doctype html>";
  "<html lang=" +:+ dq_str +:+ "en" +:+ dq_str +:+ ">";
  "  <head>";
  "	 <meta charset=" +:+ dq_str +:+ "utf-8" +:+ dq_str +:+ ">";
  "	 <meta http-equiv=" +:+ dq_str +:+ "X-UA-Compatible" +:+ dq_str +:+ " content=" +:+ dq_str +:+ "IE=edge" +:+ dq_str +:+ ">";
  "	 <meta name=" +:+ dq_str +:+ "viewport" +:+ dq_str +:+ " content=" +:+ dq_str +:+ "width=device-width, initial-scale=1" +:+ dq_str +:+ ">";
  "";
  "	 {{if .Bootstrap}}";
  "    <title>Hello World Bootstrap</title>";
  "";
  "	 <!-- START BOOTSTRAP -->";
  "";
  "	 <link rel=" +:+ dq_str +:+ "stylesheet" +:+ dq_str +:+ " href=" +:+ dq_str +:+ "https://maxcdn.bootstrapcdn.com/bootstrap/3.3.7/css/bootstrap.min.css" +:+ dq_str +:+ " integrity=" +:+ dq_str +:+ "sha384-BVYiiSIFeK1dGmJRAkycuHAHRg32OmUcww7on3RYdg4Va+PmSTsz/K68vbdEjh4u" +:+ dq_str +:+ " crossorigin=" +:+ dq_str +:+ "anonymous" +:+ dq_str +:+ ">";
  "	 <script src=" +:+ dq_str +:+ "https://ajax.googleapis.com/ajax/libs/jquery/1.12.4/jquery.min.js" +:+ dq_str +:+ "></script>";
  "	 <script src=" +:+ dq_str +:+ "https://maxcdn.bootstrapcdn.com/bootstrap/3.3.7/js/bootstrap.min.js" +:+ dq_str +:+ " integrity=" +:+ dq_str +:+ "sha384-Tc5IQib027qvyjSMfHjOMaLkfuWVxZxUPnCJA7l2mCWNIpG9mGCD8wGNIcPD7Txa" +:+ dq_str +:+ " crossorigin=" +:+ dq_str +:+ "anonymous" +:+ dq_str +:+ "></script>";
  "";
  "";
  "	 <!-- HTML5 shim and Respond.js for IE8 support of HTML5 elements and media queries -->";
  "	 <!-- WARNING: Respond.js doesn't work if you view the page via file:// -->";
  "	 <!--[if lt IE 9]>";
  "		 <script src=" +:+ dq_str +:+ "https://oss.maxcdn.com/html5shiv/3.7.3/html5shiv.min.js" +:+ dq_str +:+ "></script>";
  "		 <script src=" +:+ dq_str +:+ "https://oss.maxcdn.com/respond/1.4.2/respond.min.js" +:+ dq_str +:+ "></script>";
  "	 <![endif]-->";
  "";
  "	 <!-- END BOOTSTRAP -->";
  "	 {{else}}";
  "    <title>Hello World</title>";
  "	 {{end}}";
  "";
  "  </head>";
  "  <body>";
  "	 {{if .Bootstrap}}";
  "	 <div class=" +:+ dq_str +:+ "container-fluid" +:+ dq_str +:+ ">";
  "	 {{end}}";
  "    <div id=" +:+ dq_str +:+ "app" +:+ dq_str +:+ "></div>";
  "	 {{if .Bootstrap}}";
  "	 </div>";
  "	 {{end}}";
  "    <script src=" +:+ dq_str +:+ "{{.DirName}}.js" +:+ dq_str +:+ "></script>";
  "  </body>";
  "</html>";
  ""] nl.

(** The files of a new application, before their templates are executed. *)
Definition minimal : list (string * string) := [("app.go", app_go); ("main.go", main_go); ("index.html", index_html)].

(** The values the templates use. *)
Record tmpl := { DirName : string; Bootstrap : bool }.

Section Init.
(** Executing a template, [gofmt], and the errors of writing a file and of [go generate]. *)
Context (tmpl_exec : string → string → tmpl → string + string) (goFmtBuf : string → string + string).
Context (write_err : string → option string) (go_generate : string → option string).
(** [minimal] in the order it is ranged over. *)
Context (range : list (string * string)).

Abbreviation FM := (M (gmap string string)).
Definition WriteFile (fp : string) (data : string) : FM (option string) := λ fs,
  match write_err fp with
  | Some err => Ok (Some err, fs)
  | None => Ok (None, <[fp := data]> fs)
  end.

Fixpoint init_files (wd : string) (t : tmpl) (fns : list (string * string)) : FM unit :=
  match fns with
  | [] => mret tt
  | (fn, c) :: fns =>
      match tmpl_exec fn c t with
      | inl err => mpanic (PanicMsg err)
      | inr b =>
          let fp := Filepath.Join [wd; fn] in
          let toWrite :=
            if Strings.HasSuffix fn ".go" then match goFmtBuf b with inr out => out | inl _ => b end else b in
          err ← WriteFile fp toWrite;
          match err with
          | Some err => mpanic (PanicMsg ("failed to write file " +:+ fp +:+ ": " +:+ err))
          | None => init_files wd t fns
          end
      end
  end.
Definition doinit (wd tmplName : string) : FM unit :=
  let t := {| DirName := Filepath.Base wd; Bootstrap := false |} in
  t ← (if str_eqb tmplName templateMinimal then mret t
       else if str_eqb tmplName templateBootstrap then mret {| DirName := DirName t; Bootstrap := true |}
       else mpanic (PanicMsg ("unknown template " +:+ Strconv.Quote tmplName)));
  _ ← init_files wd t range;
  match go_generate wd with
  | Some err => mpanic (PanicMsg ("failed to run go generate: " +:+ err))
  | None => mret tt
  end.

(** [main] of [reactGen], in the working directory [wd]: [fInit] is the value of the flag. *)
Definition reactGen_main {R} (wd : string) (fInit : option string) (gen : FM R) : FM (option R) :=
  match fInit with
  | Some name => _ ← doinit wd name; mret None
  | None => r ← gen; mret (Some r)
  end.

(** *** What is written *)
Definition formatted (fn b : string) : string :=
  if Strings.HasSuffix fn ".go" then match goFmtBuf b with inr out => out | inl _ => b end else b.

Lemma init_files_run wd t fns fs :
  (∀ fn c, (fn, c) ∈ fns → (∃ b, tmpl_exec fn c t = inr b) ∧ write_err (Filepath.Join [wd; fn]) = None) →
  NoDup (map (λ f, Filepath.Join [wd; f.1]) fns) →
  ∃ fs', init_files wd t fns fs = Ok (tt, fs') ∧
    (∀ fn c b, (fn, c) ∈ fns → tmpl_exec fn c t = inr b → fs' !! Filepath.Join [wd; fn] = Some (formatted fn b)) ∧
    (∀ p, p ∉ map (λ f, Filepath.Join [wd; f.1]) fns → fs' !! p = fs !! p).
Proof.
  revert fs. induction fns as [|[fn c] fns IH]; intros fs Hall Hnd; cbn [init_files].
  { exists fs. split; [done|]. split; [by intros ??? ?%elem_of_nil|done]. }
  apply list.NoDup_cons in Hnd as [Hni Hnd]. cbn [fst] in Hni.
  destruct (Hall fn c) as [[b Hb] Hw]; [by left|]. rewrite Hb. cbv zeta. fold (formatted fn b).
  set (fs1 := <[Filepath.Join [wd; fn] := formatted fn b]> fs).
  assert (WriteFile (Filepath.Join [wd; fn]) (formatted fn b) fs = Ok (None, fs1)) as H1
    by (unfold WriteFile; by rewrite Hw).
  mstep H1. destruct (IH fs1) as (fs' & Hr & Hin & Hout); [intros fn' c' Hin; apply Hall; by right|done|].
  exists fs'. split; [done|]. split.
  - intros fn' c' b' [[= -> ->]|Hin']%elem_of_cons Hb'; [|by eapply Hin]. rewrite Hb in Hb'. injection Hb' as <-.
    rewrite Hout by done. unfold fs1. by rewrite lookup_insert_eq.
  - cbn [map fst]. intros p Hp. apply not_elem_of_cons in Hp as [Hp1 Hp2]. rewrite Hout by done. unfold fs1.
    by rewrite lookup_insert_ne.
Qed.

Lemma minimal_paths wd : NoDup (map (λ f, Filepath.Join [wd; f.1]) minimal).
Proof.
  assert (∀ f, f ∈ ["app.go"; "main.go"; "index.html"] → Filepath.Base (Filepath.Join [wd; f]) = f) as Hb.
  { intros f Hf. apply Base_Join. repeat (apply elem_of_cons in Hf as [->|Hf]; [by split_and!|]). by apply elem_of_nil in Hf. }
  apply (NoDup_fmap_1 Filepath.Base). unfold minimal. cbn [map fst fmap list_fmap].
  rewrite !Hb by (repeat (first [left|right])). apply (bool_decide_unpack _). vm_compute. exact I.
Qed.

(** A new application.  For the two templates it knows, and when executing templates,
    writing files and [go generate] do not fail, [doinit] ends with the three files in the
    directory, the Go files formatted if [gofmt] accepts them, and no other file touched,
    whatever order the map is ranged over; for any other name it panics before it writes
    anything. *)
Theorem doinit_writes wd tmplName fs :
  range ≡ₚ minimal →
  let t := {| DirName := Filepath.Base wd; Bootstrap := str_eqb tmplName templateBootstrap |} in
  if str_eqb tmplName templateMinimal || str_eqb tmplName templateBootstrap then
    (∀ fn c, (fn, c) ∈ minimal → (∃ b, tmpl_exec fn c t = inr b) ∧ write_err (Filepath.Join [wd; fn]) = None) →
    go_generate wd = None →
    ∃ fs', doinit wd tmplName fs = Ok (tt, fs') ∧
      (∀ fn c b, (fn, c) ∈ minimal → tmpl_exec fn c t = inr b → fs' !! Filepath.Join [wd; fn] = Some (formatted fn b)) ∧
      (∀ p, Filepath.Base p ∉ map fst minimal → fs' !! p = fs !! p)
  else doinit wd tmplName fs = Panic (PanicMsg ("unknown template " +:+ Strconv.Quote tmplName)).
Proof.
  intros Hrange t. unfold doinit.
  set (pick := if str_eqb tmplName templateMinimal then _ else _).
  assert (∀ fs, str_eqb tmplName templateMinimal || str_eqb tmplName templateBootstrap = true → pick fs = Ok (t, fs)) as Hpick.
  { intros fs0 Hk. unfold pick, t. unfold str_eqb in *. repeat case_bool_decide; subst; done. }
  destruct (str_eqb tmplName templateMinimal || str_eqb tmplName templateBootstrap) eqn:Hk.
  - intros Hall Hgg. mstep (Hpick fs eq_refl).
    destruct (init_files_run wd t range fs) as (fs' & Hr & Hin & Hout).
    + intros fn c. rewrite Hrange. apply Hall.
    + rewrite Hrange. apply minimal_paths.
    + mstep Hr. rewrite Hgg. exists fs'. split; [done|]. split.
      * intros fn c b. rewrite <-Hrange. apply Hin.
      * intros p Hp. apply Hout. rewrite Hrange. intros (f & -> & Hf)%list_elem_of_fmap. apply Hp.
        rewrite Base_Join; [by apply list_elem_of_fmap_2|].
        unfold minimal in Hf. repeat (apply elem_of_cons in Hf as [->|Hf]; [by split_and!|]). by apply elem_of_nil in Hf.
  - unfold pick, mbind, M_bind. apply orb_false_iff in Hk as [-> ->]. done.
Qed.
End Init.

(** ** Witnesses *)

(** A package of two files with a directive each. *)
Definition two_lines : list src_line := [Text "package main"; Directive ["reactGen"] ["reactGen"]].
Definition two_pkg : Package := MkPackage "app" ["a.go"; "b.go"] [] [] [].
Definition two_open (p : string) : string + string :=
  if bool_decide (p ∈ ["app/a.go"; "app/b.go"]) then inr (content two_lines) else inl "file does not exist".
Lemma two_readable : readable_files two_open "app" (λ _, two_lines) ["a.go"; "b.go"].
Proof.
  intros f Hf. split.
  - apply elem_of_cons in Hf as [->| ->%list_elem_of_singleton]; reflexivity.
  - assert (plain "reactGen") as Hp by (eapply eg_plain; [reflexivity|discriminate|reflexivity]).
    unfold two_lines. repeat (apply list.Forall_cons; split); [by split| |by apply Forall_nil_2].
    split; [constructor; [by right|constructor]|]. split; [by constructor|].
    split; [apply Nat.ltb_lt; vm_compute; reflexivity|]. by exists "reactGen", [].
Qed.
Lemma two_nodup : NoDup ["a.go"; "b.go"].
Proof. apply (bool_decide_unpack _). vm_compute. exact I. Qed.

(** It runs for the first and for the second. *)
Lemma generator_runs_witness :
  let run file := mainGen (λ _, "") "amd64" "linux" two_open (λ _, inr two_pkg)
    (λ k, if str_eqb k GOFILE then Some file else None) (λ _, "map") reactGenCmd "app" None (λ wd license, Ok (wd, license)) in
  run "a.go" = Ok ("app", "") ∧ run "b.go" = Ok ("app", "").
Proof.
  split.
  - apply (generator_runs (λ _, "") "amd64" "linux" two_open (λ _, inr two_pkg)
      (λ k, if str_eqb k GOFILE then Some "a.go" else None) (λ _, "map") "app" two_pkg (λ _, two_lines) ["a.go"; "b.go"]
      eq_refl eq_refl two_nodup two_readable reactGenCmd None "" (λ wd license, Ok (wd, license)) eq_refl).
    split; [left|vm_compute; reflexivity].
  - apply (generator_runs (λ _, "") "amd64" "linux" two_open (λ _, inr two_pkg)
      (λ k, if str_eqb k GOFILE then Some "b.go" else None) (λ _, "map") "app" two_pkg (λ _, two_lines) ["a.go"; "b.go"]
      eq_refl eq_refl two_nodup two_readable reactGenCmd None "" (λ wd license, Ok (wd, license)) eq_refl).
    split; [right; left|vm_compute; reflexivity].
Defined.

(** Templates that are written as they are, and a [gofmt] that adds a line. *)
Lemma doinit_writes_witness :
  ∃ fs', doinit (λ _ c _, inr c) (λ s, inr (s +:+ nl)) (λ _, None) (λ _, None) minimal "/home/me/app" templateMinimal ∅ = Ok (tt, fs') ∧
    fs' !! "/home/me/app/app.go" = Some (app_go +:+ nl) ∧ fs' !! "/home/me/app/index.html" = Some index_html ∧
    fs' !! "/home/me/app/other.go" = None.
Proof.
  destruct (doinit_writes (λ _ c _, inr c) (λ s, inr (s +:+ nl)) (λ _, None) (λ _, None) minimal "/home/me/app" templateMinimal ∅
    (reflexivity _)) as (fs' & Hr & Hin & Hout).
  - intros fn c _. split; [by exists c|reflexivity].
  - reflexivity.
  - exists fs'. split; [exact Hr|]. split; [|split].
    + exact (Hin "app.go" app_go app_go ltac:(left) eq_refl).
    + exact (Hin "index.html" index_html index_html ltac:(right; right; left) eq_refl).
    + rewrite Hout; [reflexivity|]. vm_compute. intros Hc.
      repeat (apply elem_of_cons in Hc as [Hc|Hc]; [discriminate|]). by apply elem_of_nil in Hc.
Defined.
