(* ===== verification/Flags.v ===== *)
(** * Flags

    Models package [flag] of Go's standard library as the generators use it (module
    [Flag]), the functions of [src/_vendor/src/myitcv.io/gogenerate/gogenerate.go] that
    define flags, and the flags and command lines of [reactGen], [stateGen] and [coreGen]
    ([cmd/reactGen/flag.go], [cmd/coreGen/flag.go], [cmd/stateGen/state_gen.go]).

    A flag and the variable it sets are one entry of a map, under the name of the flag;
    that name also stands for the pointer to the variable. *)

From S2P Require Import Prelude GoLib GoGenerate GoDirective ExamplesText GeneratorMain.

(** ** Package flag *)
Module Flag.
(** A [string], a [bool], an [initFlag] and [outputs], which have their own [Set]. *)
Inductive value := VString (s : string) | VBool (b : bool) | VInit (val : option string) | VOutputs (o : list string).
#[export] Instance value_eq_dec : EqDecision value.
Proof. solve_decision. Defined.

(** [inl] is an error: only a [bool] refuses a value. *)
Definition Set_ (v : value) (s : string) : string + value :=
  match v with
  | VString _ => inr (VString s)
  | VBool _ =>
      match Strconv.ParseBool s with
      | Some b => inr (VBool b)
      | None => inl ("strconv.ParseBool: parsing " +:+ Strconv.Quote s +:+ ": invalid syntax")
      end
  | VInit _ => inr (VInit (Some s))
  | VOutputs o => inr (VOutputs (o ++ [s]))
  end.
Definition is_bool (v : value) : bool := match v with VBool _ => true | _ => false end.

(** The flags of the command line, and [outputsSet] of gogenerate. *)
Record flags := Flags { formal : gmap string value; outputsSet : gset string }.
Definition no_flags : flags := Flags ∅ ∅.
Abbreviation FM := (M flags).
Definition on_formal (f : gmap string value → gmap string value) (st : flags) : flags :=
  Flags (f (formal st)) (outputsSet st).

Definition Var (v : value) (name : string) : FM unit :=
  st ← mget id;
  match formal st !! name with
  | Some _ => mpanic (PanicMsg ("flag redefined: " +:+ name))
  | None => mmodify (on_formal <[name := v]>)
  end.
Definition String_ (name v : string) : FM string := _ ← Var (VString v) name; mret name.
Definition Bool (name : string) (v : bool) : FM string := _ ← Var (VBool v) name; mret name.

(** An argument, as [parseOne] reads it. *)
Inductive arg := NotFlag | Terminator | BadSyntax | FlagArg (name : string) (value : option string).
Fixpoint cut_eq (s : string) : string * option string :=
  match s with
  | EmptyString => (EmptyString, None)
  | String c s =>
      if bool_decide (c = "="%char) then (EmptyString, Some s)
      else let '(n, v) := cut_eq s in (String c n, v)
  end.
Definition flag_arg (name : string) : arg :=
  match name with
  | EmptyString => BadSyntax
  | String c s =>
      if bool_decide (c = "-"%char ∨ c = "="%char) then BadSyntax
      else let '(n, v) := cut_eq s in FlagArg (String c n) v
  end.
Definition read_arg (s : string) : arg :=
  match s with
  | String m (String c r) =>
      if bool_decide (m = "-"%char) then
        if bool_decide (c = "-"%char) then if str_eqb r "" then Terminator else flag_arg r
        else flag_arg (String c r)
      else NotFlag
  | _ => NotFlag
  end.

(** [flag.Parse]: the flags and the remaining arguments, or what the program says before
    it exits. *)
Fixpoint Parse (args : list string) (m : gmap string value) : string + (gmap string value * list string) :=
  match args with
  | [] => inr (m, [])
  | s :: rest =>
      match read_arg s with
      | NotFlag => inr (m, s :: rest)
      | Terminator => inr (m, rest)
      | BadSyntax => inl ("bad flag syntax: " +:+ s)
      | FlagArg name value =>
          match m !! name with
          | None =>
              if bool_decide (name = "help" ∨ name = "h") then inl "flag: help requested"
              else inl ("flag provided but not defined: -" +:+ name)
          | Some fv =>
              if is_bool fv then
                let v := default "true" value in
                match Set_ fv v with
                | inr fv => Parse rest (<[name := fv]> m)
                | inl err => inl ("invalid boolean value " +:+ Strconv.Quote v +:+ " for -" +:+ name +:+ ": " +:+ err)
                end
              else
                let set v rest' :=
                  match Set_ fv v with
                  | inr fv => rest' (<[name := fv]> m)
                  | inl err => inl ("invalid value " +:+ Strconv.Quote v +:+ " for flag -" +:+ name +:+ ": " +:+ err)
                  end in
                match value, rest with
                | Some v, _ => set v (Parse rest)
                | None, v :: rest => set v (Parse rest)
                | None, [] => inl ("flag needs an argument: -" +:+ name)
                end
          end
      end
  end.
End Flag.
Import Flag.

(** ** gogenerate *)
Definition FlagLog := "gglog".
Definition FlagOutPkgPrefix := "outpkg:".
Definition FlagLicenseFile := "licenseFile".

Definition OutPkgFlag (key : string) : FM string :=
  st ← mget id;
  if bool_decide (key ∈ outputsSet st) then
    mpanic (PanicMsg ("already defined outpkg flag for key " +:+ Strconv.Quote key))
  else
    _ ← mmodify (λ st, Flags (formal st) ({[key]} ∪ outputsSet st));
    _ ← Var (VOutputs []) (FlagOutPkgPrefix +:+ key);
    mret (FlagOutPkgPrefix +:+ key).
Definition LogFlag : FM string := String_ FlagLog LogFatal.
Definition LicenseFileFlag : FM string := String_ FlagLicenseFile "".

(** ** The flags of the generators *)
Definition flagInit := "init".
Definition flagCore := "core".
Definition react_flags : FM unit :=
  _ ← LicenseFileFlag;
  _ ← LogFlag;
  Var (VInit None) flagInit.
Definition state_flags : FM unit :=
  _ ← LicenseFileFlag;
  _ ← LogFlag;
  mret tt.
Definition core_flags : FM unit :=
  _ ← LicenseFileFlag;
  _ ← LogFlag;
  _ ← Bool flagCore false;
  Var (VInit None) flagInit.

(** The variables. *)
Definition string_at (m : gmap string value) (p : string) : option string :=
  match m !! p with Some (VString s) => Some s | _ => None end.
Definition fLicenseFile (m : gmap string value) : option string := string_at m FlagLicenseFile.
Definition fGoGenLog (m : gmap string value) : option string := string_at m FlagLog.
Definition fInit (m : gmap string value) : option string := match m !! flagInit with Some (VInit v) => v | _ => None end.

(** [main] of [reactGen] with the arguments of the command line: [init] is the mode that
    writes an application, [gen] the other, with the license file and the log level. *)
Definition reactGen_command {R} (args : list string) (init : string → R) (gen : option string → option string → R) :
    res (string + R) :=
  '(_, st) ← react_flags no_flags;
  Ok (match Parse args (formal st) with
      | inl err => inl err
      | inr (m, _) =>
          match fInit m with
          | Some t => inr (init t)
          | None => inr (gen (fLicenseFile m) (DefaultLogLevel (fGoGenLog m) LogFatal))
          end
      end).

(** ** Settings of flags, and what they come to *)
Record setting := Setting { s_name : string; s_val : string; two_dashes : bool; with_eq : bool }.
Definition render (x : setting) : list string :=
  let d := if two_dashes x then "--" else "-" in
  if with_eq x then [d +:+ s_name x +:+ "=" +:+ s_val x] else [d +:+ s_name x; s_val x].
Definition values (n : string) (xs : list setting) : list string :=
  omap (λ x, if str_eqb (s_name x) n then Some (s_val x) else None) xs.

Definition good_name (n : string) : bool :=
  match n with String c _ => bool_decide (c ≠ "-"%char) && negb (str_has "="%char n) | EmptyString => false end.
Definition apply (m : gmap string value) (x : setting) : gmap string value :=
  match m !! s_name x with
  | Some v => match Set_ v (s_val x) with inr v => <[s_name x := v]> m | inl _ => m end
  | None => m
  end.
Definition takes (m : gmap string value) (n : string) : Prop := ∃ v, m !! n = Some v ∧ is_bool v = false.

(** ** Proofs *)
Lemma cut_eq_none n : str_has "="%char n = false → cut_eq n = (n, None).
Proof.
  induction n as [|c n IH]; [done|]. cbn [str_has cut_eq]. intros [H1 H2]%orb_false_iff. rewrite IH by done.
  apply bool_decide_eq_false in H1. by rewrite bool_decide_eq_false_2.
Qed.
Lemma cut_eq_some n v : str_has "="%char n = false → cut_eq (n +:+ "=" +:+ v) = (n, Some v).
Proof.
  induction n as [|c n IH]; [done|]. cbn [str_has]. intros [H1 H2]%orb_false_iff. specialize (IH H2).
  change (cut_eq (String c (n +:+ "=" +:+ v)) = (String c n, Some v)). cbn [cut_eq]. rewrite IH.
  apply bool_decide_eq_false in H1. by rewrite bool_decide_eq_false_2.
Qed.

(** Names are read back. *)
Lemma read_setting (dd : bool) n tail :
  good_name n = true → tail = "" ∨ (∃ v, tail = "=" +:+ v) →
  read_arg ((if dd then "--" else "-") +:+ n +:+ tail) =
    FlagArg n (match tail with EmptyString => None | String _ v => Some v end).
Proof.
  intros Hn Ht. destruct n as [|c n]; [done|]. cbn [good_name] in Hn. apply andb_true_iff in Hn as [Hc%bool_decide_eq_true Hn%negb_true_iff].
  assert (c ≠ "="%char) as Hc' by (by intros ->).
  pose proof Hn as Hn'. cbn [str_has] in Hn'. apply orb_false_iff in Hn' as [_ Hn'].
  assert (cut_eq (n +:+ tail) = (n, match tail with EmptyString => None | String _ v => Some v end)) as Hcut.
  { destruct Ht as [->|[v ->]]; [rewrite str_app_nil; by apply cut_eq_none|by apply cut_eq_some]. }
  assert (flag_arg (String c n +:+ tail) = FlagArg (String c n) (match tail with EmptyString => None | String _ v => Some v end)) as Hf.
  { change (flag_arg (String c (n +:+ tail)) = FlagArg (String c n) (match tail with EmptyString => None | String _ v => Some v end)).
    unfold flag_arg. rewrite bool_decide_eq_false_2 by naive_solver. by rewrite Hcut. }
  destruct dd.
  - change (read_arg (String "-" (String "-" (String c n +:+ tail))) = FlagArg (String c n) (match tail with EmptyString => None | String _ v => Some v end)).
    unfold read_arg. rewrite !bool_decide_eq_true_2 by done. exact Hf.
  - change (read_arg (String "-" (String c (n +:+ tail))) = FlagArg (String c n) (match tail with EmptyString => None | String _ v => Some v end)).
    unfold read_arg. rewrite bool_decide_eq_true_2, bool_decide_eq_false_2 by done. exact Hf.
Qed.

Lemma apply_takes m x n : takes m n → takes (apply m x) n.
Proof.
  intros (v & Hv & Hb). unfold apply, takes. destruct (m !! s_name x) as [fv|] eqn:Hx; [|eauto].
  destruct (Set_ fv (s_val x)) as [|fv'] eqn:Hs; [eauto|]. destruct (decide (s_name x = n)) as [<-|Hne].
  - exists fv'. rewrite lookup_insert_eq. split; [done|]. rewrite Hx in Hv. injection Hv as ->.
    by destruct v; cbn in Hs; try discriminate; injection Hs as <-.
  - exists v. by rewrite lookup_insert_ne.
Qed.

(** Settings are read in order, in whatever of the four ways each is written. *)
Lemma Parse_settings xs m rest :
  Forall (λ x, good_name (s_name x) = true ∧ takes m (s_name x)) xs →
  Parse (concat (map render xs) ++ rest) m = Parse rest (foldl apply m xs).
Proof.
  revert m. induction xs as [|x xs IH]; intros m Hxs; [done|]. apply list.Forall_cons in Hxs as [[Hn Ht] Hxs].
  assert (Parse (concat (map render xs) ++ rest) (apply m x) = Parse rest (foldl apply m (x :: xs))) as <-.
  { apply IH. eapply list.Forall_impl; [exact Hxs|]. intros y [Hy1 Hy2]. split; [done|by apply apply_takes]. }
  destruct Ht as (v & Hv & Hb). unfold apply. rewrite Hv. cbn [map concat]. unfold render at 1. rewrite <-app_assoc.
  assert (∃ v', Set_ v (s_val x) = inr v') as (v' & Hs) by (destruct v; try discriminate Hb; by eexists). rewrite Hs.
  destruct (with_eq x).
  - pose proof (read_setting (two_dashes x) (s_name x) ("=" +:+ s_val x) Hn (or_intror (ex_intro _ _ eq_refl))) as Hr.
    cbn [app Parse]. rewrite Hr. rewrite Hv, Hb. cbv beta iota zeta. change (String.append "=" (s_val x)) with (String "=" (s_val x)). cbv beta iota. by rewrite Hs.
  - pose proof (read_setting (two_dashes x) (s_name x) "" Hn (or_introl eq_refl)) as Hr. rewrite str_app_nil in Hr.
    cbn [app Parse]. rewrite Hr, Hv, Hb. cbv beta iota zeta. by rewrite Hs.
Qed.

(** What the settings of one flag come to. *)
Lemma foldl_other xs m n : Forall (λ x, s_name x ≠ n) xs → foldl apply m xs !! n = m !! n.
Proof.
  revert m. induction xs as [|x xs IH]; intros m; [done|]. intros [Hx Hxs]%list.Forall_cons. cbn [foldl]. rewrite IH by done.
  unfold apply. destruct (m !! s_name x) as [v|]; [|done]. destruct (Set_ v (s_val x)); [done|]. by rewrite lookup_insert_ne.
Qed.
Definition set_value (v : value) (s : string) : value :=
  match Set_ v s with inr v => v | inl _ => v end.
Lemma set_value_ok v s : is_bool v = false → Set_ v s = inr (set_value v s) ∧ is_bool (set_value v s) = false.
Proof. by destruct v. Qed.
Lemma foldl_values xs m n v :
  m !! n = Some v → is_bool v = false → foldl apply m xs !! n = Some (foldl set_value v (values n xs)).
Proof.
  revert m v. induction xs as [|x xs IH]; intros m v Hm Hb; [done|]. cbn [foldl values omap list_omap].
  unfold str_eqb. case_bool_decide as Hx.
  - destruct (set_value_ok v (s_val x) Hb) as [Hs Hb']. cbn [foldl]. apply IH; [|done]. unfold apply. rewrite Hx, Hm, Hs. by rewrite lookup_insert_eq.
  - apply IH; [|done]. unfold apply. destruct (m !! s_name x) as [w|]; [|done].
    destruct (Set_ w (s_val x)); [done|]. by rewrite lookup_insert_ne.
Qed.
Lemma set_strings s l : foldl set_value (VString s) l = VString (default s (list.last l)).
Proof. revert s. induction l as [|t l IH]; intros s; [done|]. cbn [foldl set_value Set_]. rewrite IH, list.last_cons. by destruct (list.last l). Qed.
Lemma set_inits v l : foldl set_value (VInit v) l = VInit (match list.last l with Some t => Some t | None => v end).
Proof. revert v. induction l as [|t l IH]; intros v; [done|]. cbn [foldl set_value Set_]. rewrite IH, list.last_cons. by destruct (list.last l). Qed.
Lemma set_outputs o l : foldl set_value (VOutputs o) l = VOutputs (o ++ l).
Proof.
  revert o. induction l as [|t l IH]; intros o; [by rewrite app_nil_r|]. cbn [foldl set_value Set_]. by rewrite IH, <-app_assoc.
Qed.

(** ** The command line of reactGen *)
Definition react_names : list string := [FlagLicenseFile; FlagLog; flagInit].
Definition react_formal : gmap string value :=
  {[flagInit := VInit None; FlagLog := VString LogFatal; FlagLicenseFile := VString ""]}.
Lemma react_flags_run : react_flags no_flags = Ok (tt, Flags react_formal ∅).
Proof. vm_compute. reflexivity. Qed.
Lemma react_takes n : n ∈ react_names → good_name n = true ∧ takes react_formal n.
Proof.
  intros Hn. unfold react_names in Hn. repeat (apply elem_of_cons in Hn as [->|Hn];
    [split; [reflexivity|]; (eexists; split; [vm_compute; reflexivity|reflexivity])|]). by apply not_elem_of_nil in Hn.
Qed.

(** The log level that a last value comes to. *)
Definition level (l : option string) : string := match l with Some l => if str_eqb l "" then LogFatal else l | None => LogFatal end.
(** No argument, or one that is no flag. *)
Definition no_flag_next (args : list string) : Prop := match args with [] => True | s :: _ => read_arg s = NotFlag end.

Lemma Parse_no_flag args m : no_flag_next args → Parse args m = inr (m, args).
Proof. destruct args as [|s args]; [done|]. cbn. by intros ->. Qed.

(** C25: the command line of reactGen.  Whatever flags it is given, in any order, any number
    of times, with one dash or two and with the value behind an equals sign or as the
    next argument, the program does what the last value of each flag says: it writes an
    application if there is a template, and generates otherwise, with the license file
    and the log level, which is fatal if it is empty or not given.  The flag [-core],
    which its usage text lists, ends it. *)
Theorem reactGen_flags {R} xs files (init : string → R) gen :
  Forall (λ x, s_name x ∈ react_names) xs → no_flag_next files →
  reactGen_command (concat (map render xs) ++ files) init gen =
    Ok (inr (match list.last (values flagInit xs) with
             | Some t => init t
             | None => gen (Some (default "" (list.last (values FlagLicenseFile xs)))) (Some (level (list.last (values FlagLog xs))))
             end)) ∧
  ∀ args, reactGen_command (concat (map render xs) ++ "-core" :: args) init gen =
    Ok (inl "flag provided but not defined: -core").
Proof.
  intros Hxs Hfiles. unfold reactGen_command. rewrite react_flags_run. cbn [mbind res_bind formal].
  assert (Forall (λ x, good_name (s_name x) = true ∧ takes react_formal (s_name x)) xs) as Hok
    by (eapply list.Forall_impl; [exact Hxs|]; intros x; apply react_takes).
  split; [|intros args]; rewrite (Parse_settings xs react_formal _ Hok).
  - rewrite (Parse_no_flag _ _ Hfiles). unfold fInit, fLicenseFile, fGoGenLog, string_at.
    rewrite (foldl_values xs react_formal flagInit (VInit None) eq_refl eq_refl), (foldl_values xs react_formal FlagLicenseFile (VString "") eq_refl eq_refl),
      (foldl_values xs react_formal FlagLog (VString LogFatal) eq_refl eq_refl), set_inits, !set_strings.
    destruct (list.last (values flagInit xs)); [done|]. by destruct (list.last (values FlagLog xs)).
  - assert (foldl apply react_formal xs !! flagCore = None) as Hcore.
    { rewrite foldl_other; [reflexivity|]. eapply list.Forall_impl; [exact Hxs|]. intros x Hx Heq. cbv beta in Hx. rewrite Heq in Hx. unfold react_names in Hx. by repeat (apply elem_of_cons in Hx as [?|Hx]; [done|]); apply not_elem_of_nil in Hx. }
    cbn [Parse]. change (read_arg "-core") with (FlagArg flagCore None). cbv beta iota. by rewrite Hcore.
Qed.

Lemma reactGen_flags_witness :
  reactGen_command ["-gglog="; "--licenseFile"; "l.txt"; "-gglog"; "info"; "x.go"] (λ t, (t, None, None)) (λ f l, ("", f, l)) =
    Ok (inr ("", Some "l.txt", Some "info")).
Proof.
  destruct (reactGen_flags
    [Setting FlagLog "" false true; Setting FlagLicenseFile "l.txt" true false; Setting FlagLog "info" false false] ["x.go"]
    (λ t, (t, None, None)) (λ f l, ("", f, l))) as [H _].
  - repeat constructor; vm_compute; try (left; reflexivity); right; left.
  - reflexivity.
  - exact H.
Defined.

(** ** Output packages *)
Lemma outpkg_name key : str_has "="%char key = false → good_name (FlagOutPkgPrefix +:+ key) = true.
Proof.
  intros H. change (bool_decide ("o"%char ≠ "-"%char) && negb (str_has "="%char (FlagOutPkgPrefix +:+ key)) = true).
  by rewrite str_has_app, H.
Qed.

(** The variable of an [outpkg] flag collects the values of its settings in order; a second
    definition under the same key panics. *)
Theorem OutPkgFlag_collects key (st : flags) xs rest :
  key ∉ outputsSet st → formal st !! (FlagOutPkgPrefix +:+ key) = None → str_has "="%char key = false →
  Forall (λ x, s_name x = FlagOutPkgPrefix +:+ key) xs → no_flag_next rest →
  ∃ p st', OutPkgFlag key st = Ok (p, st') ∧
    (∃ m, Parse (concat (map render xs) ++ rest) (formal st') = inr (m, rest) ∧ m !! p = Some (VOutputs (map s_val xs))) ∧
    OutPkgFlag key st' = Panic (PanicMsg ("already defined outpkg flag for key " +:+ Strconv.Quote key)).
Proof.
  intros Hk Hf Hkey Hxs Hrest. set (p := FlagOutPkgPrefix +:+ key) in *. set (m0 := <[p := VOutputs []]> (formal st)).
  exists p, (Flags m0 ({[key]} ∪ outputsSet st)). split; [|split].
  - unfold OutPkgFlag, Var. mstep (eq_refl : mget id st = Ok (st, st)). rewrite bool_decide_eq_false_2 by done.
    set (st1 := Flags (formal st) ({[key]} ∪ outputsSet st)). mstep (eq_refl : mmodify (λ st, Flags (formal st) ({[key]} ∪ outputsSet st)) st = Ok (tt, st1)).
    unfold mbind at 1, M_bind. mstep (eq_refl : mget id st1 = Ok (st1, st1)). cbn [formal st1]. fold p. by rewrite Hf.
  - assert (m0 !! p = Some (VOutputs [])) as Hm by (unfold m0; by rewrite lookup_insert_eq).
    exists (foldl apply m0 xs). cbn [formal]. rewrite Parse_settings, Parse_no_flag by
      (done || (eapply list.Forall_impl; [exact Hxs|]; intros x ->; split; [by apply outpkg_name|by eexists])).
    split; [done|]. rewrite (foldl_values xs m0 p _ Hm eq_refl), set_outputs. cbn [app]. do 2 f_equal.
    clear -Hxs. induction Hxs as [|x xs Hx _ IH]; [done|]. cbn [values omap list_omap map]. unfold str_eqb.
    rewrite bool_decide_eq_true_2 by done. by f_equal.
  - unfold OutPkgFlag. set (st' := Flags m0 _). mstep (eq_refl : mget id st' = Ok (st', st')). by rewrite bool_decide_eq_true_2 by (cbn; set_solver).
Qed.
