(* ===== verification/Witnesses.v ===== *)
(** * Concrete instances of the properties

    A mounted page with the shipped configuration, written out: [Outer] at 0,
    [Chooser] at 3, a [Preview] at 6 and a [Panel] at 7.  The random source
    always returns 0, and parsing a fragment returns an empty text.  Every
    property of the client with hypotheses is applied here. *)

From S2P Require Import Prelude GoLib React Elements HtmlNode JsxWalk Jsx JsxGen Gopher Rand Client ClientState ClientRender ClientJsx Mount Runtime ClientTypes.

Definition zero_source (_ : Z) (_ : nat) : Z := 0.
Definition no_html (_ : string) : res Element := Ok (ES "").

Definition page_locs : locs := locs_of (0, 3).
Definition page_chooser : ChooserProps := MkChooserProps (Some 0) hackConfig_ptr (outer_at 0).
Definition page_preview : PreviewProps := MkPreviewProps (Some 0).
Definition page_panel : PanelProps :=
  MkPanelProps (Some 0) true 0 "010-Body/blue_gopher" (outer_at 0) (chooser_at 3).

(** A component instance: its props and its state object. *)
Definition instance_obj (p : option client_props) (st : option loc) : object :=
  (reactCompProps, JObject (wrap_props p [])) ::
  (match st with Some l => [(reactCompState, JRef l)] | None => [] end).

Definition page_heap (os : OuterState) (n : Z) (cp : ChooserProps) : gmap loc object :=
  list_to_map [
    (0, instance_obj None (Some 1));
    (1, [(nestedState, JRef 2)]);
    (2, [(reactCompLastState, JState (SOuter os))]);
    (3, instance_obj (Some (PChooser cp)) (Some 4));
    (4, [(nestedState, JRef 5)]);
    (5, [(reactCompLastState, JState (SChooser (MkChooserState n)))]);
    (6, instance_obj (Some (PPreview page_preview)) None);
    (7, instance_obj (Some (PPanel page_panel)) None)].

Definition page_mem (gs : list Gopher) : mem :=
  Mem gs [hackConfig] hackCategories [rand_New 0] [] 0.

Definition page : cworld :=
  World (JS (page_heap mounted_outer 0 page_chooser) 8 ∅ [] []) (page_mem [default_hack]).

(** The page after the eyes were changed with the second panel open. *)
Definition googly : Gopher :=
  {| Parts := <[1 := "020-Eyes/goofy_eyes"]> (Parts default_hack) |}.
Definition page' : cworld :=
  World (JS (page_heap (MkOuterState (Some 1) hackConfig_ptr (Some 0)) 1
               (MkChooserProps (Some 1) hackConfig_ptr (outer_at 0))) 8 ∅ [] [])
    (page_mem [default_hack; googly]).

Lemma page_outer : inst (w_js page) 0 2 (SOuter mounted_outer).
Proof. unfold inst. eexists _, _, _, _. split_and!; vm_compute; reflexivity. Qed.
Lemma page_chooser_inst : inst (w_js page) 3 5 (SChooser (MkChooserState 0)).
Proof. unfold inst. eexists _, _, _, _. split_and!; vm_compute; reflexivity. Qed.
Lemma page_chooser_inst' : inst (w_js page') 3 5 (SChooser (MkChooserState 1)).
Proof. unfold inst. eexists _, _, _, _. split_and!; vm_compute; reflexivity. Qed.
Lemma page_chooser_props : has_props (w_js page) 3 (PChooser page_chooser).
Proof. unfold has_props. eexists _, _. split_and!; vm_compute; reflexivity. Qed.
Lemma page_chooser_props' :
  has_props (w_js page') 3 (PChooser (MkChooserProps (Some 1) hackConfig_ptr (outer_at 0))).
Proof. unfold has_props. eexists _, _. split_and!; vm_compute; reflexivity. Qed.
Lemma page_preview_props : has_props (w_js page) 6 (PPreview page_preview).
Proof. unfold has_props. eexists _, _. split_and!; vm_compute; reflexivity. Qed.
Lemma page_panel_props : has_props (w_js page) 7 (PPanel page_panel).
Proof. unfold has_props. eexists _, _. split_and!; vm_compute; reflexivity. Qed.
Lemma page_panel_props' : has_props (w_js page') 7 (PPanel page_panel).
Proof. unfold has_props. eexists _, _. split_and!; vm_compute; reflexivity. Qed.

Lemma page_app : App hackCategories hackConfig page page_locs mounted_outer default_hack 0.
Proof.
  constructor; try done.
  - apply page_outer.
  - apply page_chooser_inst.
  - exists page_chooser. split; [apply page_chooser_props|done].
  - by exists (rand_New 0).
  - apply is_default_ok; [apply hackConfig_ok|apply default_hack_ok].
Qed.

Lemma zero_source_ok : source_ok zero_source.
Proof. intros s n. unfold zero_source. lia. Qed.

Lemma zero_fuel : fuel_enough zero_source 1 hackCategories.
Proof.
  intros r p cat Hcat. exists 0. split; [lia|]. unfold zero_source. simpl.
  destruct p as [p|]; [|done].
  do 8 (destruct p as [|p]; [vm_compute in Hcat; injection Hcat as <-; vm_compute; discriminate|]).
  done.
Qed.

Lemma page_classes : classes_wf (w_js page).
Proof. apply (classes_wf_eq empty_js); [done|done|apply classes_wf_empty]. Qed.
Lemma page_classes' : classes_wf (w_js page').
Proof. apply (classes_wf_eq empty_js); [done|done|apply classes_wf_empty]. Qed.
Lemma page_le : mem_le (w_ext page) (w_ext page').
Proof. split; [by exists [googly]|done..]. Qed.
Lemma page_heap_wf : heap_wf (w_js page).
Proof.
  intros l [o Ho%elem_of_list_to_map_2]. simpl.
  repeat (apply elem_of_cons in Ho as [[= -> ->]|Ho]; [lia|]). by apply elem_of_nil in Ho.
Qed.

(** ** The bindings *)
Lemma getInitialState_mounts_witness :
  ∃ w' i, init_instance (buildChooser no_html) 7 page = Ok (tt, w') ∧
    inst (w_js w') 7 i (SChooser ChooserState_zero).
Proof.
  destruct (getInitialState_mounts (buildChooser no_html) 7 page
    (instance_obj (Some (PPanel page_panel)) None) (SChooser ChooserState_zero))
    as (w' & i & Hrun & Hi & _).
  - exact page_heap_wf.
  - vm_compute. reflexivity.
  - reflexivity.
  - exists w', i. split; [exact Hrun|exact Hi].
Defined.

Lemma SetState_State_witness :
  ∃ w', ComponentDef_SetState (mk_def 3) (SChooser (MkChooserState 4)) page = Ok (tt, w') ∧
    ComponentDef_State (mk_def 3) w' = Ok (SChooser (MkChooserState 4), w') ∧
    updates (w_js w') = [3].
Proof.
  destruct (SetState_State page 3 5 (SChooser (MkChooserState 0)) (SChooser (MkChooserState 4)) false)
    as (w' & Hrun & Hst & Hu & _).
  - exact page_chooser_inst.
  - reflexivity.
  - exists w'. split; [exact Hrun|]. split; [exact Hst|exact Hu].
Defined.

Lemma shouldComponentUpdate_props_witness :
  class_shouldComponentUpdate 6 [JObject (wrap_props (Some (PPreview (MkPreviewProps (Some 1)))) [])]
    page = Ok (true, page) ∧
  class_shouldComponentUpdate 0 [] page = Ok (false, page).
Proof.
  split.
  - apply (proj1 (shouldComponentUpdate_props page 6 (PPreview page_preview) _
      (PPreview (MkPreviewProps (Some 1))) false)); [exact page_preview_props|done..].
  - apply (proj2 (shouldComponentUpdate_props page 0 (PPreview page_preview) []
      (PPreview page_preview) true)).
    exists (instance_obj None (Some 1)), []. split; [vm_compute; reflexivity|done].
Defined.

Lemma CreateElement_class_witness :
  ∃ e1 w1 e2 w2 k1 k2 o1 o2,
    CreateElement (buildPreview) (Some (PPreview page_preview)) [] page = Ok (e1, w1) ∧
    CreateElement (buildChooser no_html) (Some (PChooser page_chooser)) [] w1 = Ok (e2, w2) ∧
    e1 = Elem (ClassT k1) o1 [] ∧ e2 = Elem (ClassT k2) o2 [] ∧ k1 ≠ k2.
Proof.
  destruct (CreateElement_eq buildPreview (Some (PPreview page_preview)) [] page page_classes)
    as (k & j & Hrun & [Hwf _ _ _ _ _]).
  destruct (CreateElement_class buildPreview (Some (PPreview page_preview)) [] page
    (buildChooser no_html) (Some (PChooser page_chooser)) []
    (World j (w_ext page)) page_classes _ _ Hrun Hwf (reflexivity _))
    as (e2 & w2 & k1 & k2 & o1 & o2 & H2 & He1 & He2 & Hiff).
  eexists _, _, e2, w2, k1, k2, o1, o2. split; [exact Hrun|]. split; [exact H2|].
  split; [exact He1|]. split; [exact He2|]. intros Hk. apply Hiff in Hk. discriminate Hk.
Defined.

(** ** The client *)
Lemma click_refines_spec_witness :
  ∃ w' os' g' n', OnClick zero_source 1 (chooseItemClick (outer_at 0) 0 "010-Body/pink_gopher") page
      = Ok (tt, w') ∧
    App hackCategories hackConfig w' page_locs os' g' n' ∧ prevented (w_ext w') = 1.
Proof.
  destruct (click_refines_spec zero_source 1 hackCategories hackConfig hackConfig_ok
    zero_source_ok zero_fuel page page_locs mounted_outer default_hack 0
    (chooseItemClick (outer_at 0) 0 "010-Body/pink_gopher") page_app)
    as (w' & os' & g' & n' & Hrun & HA & _ & _ & Hp).
  - apply (offered_item hackCategories hackConfig page_locs 0 0 (Some 0) cat_Body); [done..|].
    apply (bool_decide_unpack _). vm_compute. exact I.
  - exists w', os', g', n'. split; [exact Hrun|]. split; [exact HA|exact Hp].
Defined.

Lemma UpdateGopher_bounds_witness :
  OuterDef_UpdateGopher (outer_at 0) 8 "027-Extras/watch" page = Panic IndexOutOfRange ∧
  ∃ w' os', OuterDef_UpdateGopher (outer_at 0) 7 "027-Extras/watch" page = Ok (tt, w') ∧
    store_deref (gophers (w_ext w')) (current os') =
      Ok {| Parts := <[7 := "027-Extras/watch"]> (Parts default_hack) |}.
Proof.
  split.
  - exact (UpdateGopher_bounds hackCategories hackConfig page page_locs mounted_outer default_hack 0 8
      "027-Extras/watch" page_app).
  - destruct (UpdateGopher_bounds hackCategories hackConfig page page_locs mounted_outer default_hack 0 7
      "027-Extras/watch" page_app) as (w' & os' & Hrun & _ & Hg & _).
    exists w', os'. split; [exact Hrun|exact Hg].
Defined.

Lemma Panel_Render_items_witness :
  ∃ e, PanelDef_Render (panel_at 7) page = Ok (e, page) ∧
    handlers e = expandClick (chooser_at 3) 0 ::
      map (chooseItemClick (outer_at 0) 0) (Options cat_Body) ∧
    length (filter (λ e, item_class e = Some "item selected") (find_tag "label" e)) = 1.
Proof.
  destruct (Panel_Render_items page 7 page_panel cat_Body) as (e & Hrun & Hh & _ & Hsel).
  - exact page_panel_props.
  - reflexivity.
  - exists e. split; [exact Hrun|]. split; [exact Hh|].
    destruct Hsel as (item & -> & _); [done|..|done];
      apply (bool_decide_unpack _); vm_compute; exact I.
Defined.

Lemma Panel_skip_sound_witness :
  PanelDef_Render (panel_at 7) page' = Ok (panel_view page_panel cat_Body, page').
Proof.
  apply (Panel_skip_sound page page' 7 page_panel page_panel).
  - exact page_panel_props.
  - exact page_panel_props'.
  - vm_compute. reflexivity.
  - exact page_le.
  - apply Panel_Render_run; [exact page_panel_props|done].
Defined.

Lemma Preview_Render_images_witness :
  ∃ e, PreviewDef_Render (preview_at 6) page = Ok (e, page) ∧
    find_tag "img" e = [preview_img "010-Body/blue_gopher"; preview_img "020-Eyes/crazy_eyes"].
Proof.
  destruct (Preview_Render_images page 6 page_preview default_hack) as (e & Hrun & Hi & _).
  - exact page_preview_props.
  - reflexivity.
  - exists e. split; [exact Hrun|exact Hi].
Defined.

Lemma panel_rerender_iff_witness :
  ∃ e w1 e' w1', ChooserDef_Render no_html (chooser_at 3) page = Ok (e, w1) ∧
    ChooserDef_Render no_html (chooser_at 3) page' = Ok (e', w1') ∧
    ∀ p p' l (wp : cworld), class_props e !! 2 = Some p → class_props e' !! 2 = Some p' →
      has_props (w_js wp) l p →
      class_shouldComponentUpdate l [JObject (wrap_props (Some p') [])] wp = Ok (false, wp).
Proof.
  destruct (panel_rerender_iff no_html page page' 3 5 5 0 1 page_chooser
    (MkChooserProps (Some 1) hackConfig_ptr (outer_at 0)) hackConfig default_hack googly (ES ""))
    as (e & w1 & e' & w1' & H1 & H2 & Hsh).
  - exact page_classes.
  - exact page_classes'.
  - exact page_chooser_inst.
  - exact page_chooser_inst'.
  - exact page_chooser_props.
  - exact page_chooser_props'.
  - reflexivity.
  - reflexivity.
  - reflexivity.
  - reflexivity.
  - vm_compute. lia.
  - vm_compute. lia.
  - reflexivity.
  - reflexivity.
  - exists e, w1, e', w1'. split; [exact H1|]. split; [exact H2|].
    intros p p' l wp Hp Hp' Hl. apply (Hsh 2 p p' l wp); [vm_compute; lia|done..].
Defined.

(** A parser that finds one empty footer in every text. *)
Definition footer_trees (_ : string) : string + list itree :=
  inr [INode 0 (MkData ElementNode 0 "footer" "" []) []].

Lemma page_offers_witness :
  ∃ e w1, ChooserDef_Render (html_elem footer_trees) (chooser_at 3) page = Ok (e, w1) ∧
    ∀ c, offered hackCategories hackConfig page_locs 0 c ↔
      c ∈ handlers e ∨
      ∃ p cat, PPanel p ∈ class_props e ∧ cat_at hackCategories (panel_Category p) cat ∧
               c ∈ handlers (panel_view p cat).
Proof.
  apply (page_offers footer_trees page hackCategories hackConfig page_locs mounted_outer default_hack 0
    (El.Footer None []) page_chooser).
  - exact page_app.
  - exact hackConfig_ok.
  - exact page_classes.
  - exact page_chooser_props.
  - reflexivity.
  - reflexivity.
Defined.

(** ** JSX *)

(** A parser that knows one fragment. *)
Definition hi : itree :=
  INode 0 (MkData ElementNode 0 "p" "" []) [INode 1 (MkData TextNode 0 "hi" "" []) []].
Definition hi_dom : dom := list_to_map [
  (0, node_of None None None hi);
  (1, node_of (Some 0) None None (INode 1 (MkData TextNode 0 "hi" "" []) []))].
Definition hi_fragment (s : string) : string + (dom * list nid) :=
  if str_eqb s "<p>hi</p>" then inr (hi_dom, [0]) else inl "unknown fragment".
Definition hi_trees (s : string) : string + list itree :=
  if str_eqb s "<p>hi</p>" then inr [hi] else inl "unknown fragment".

Lemma hi_fragment_ok : ParseFragment_ok hi_fragment hi_trees.
Proof.
  intros s. unfold hi_trees, hi_fragment. destruct (str_eqb s _); [|done].
  exists hi_dom, [0]. split; [done|]. split; [done|]. split.
  - constructor; [|constructor]. by repeat split.
  - simpl. repeat constructor; set_solver.
Qed.

Lemma HTML_spec_witness :
  ∃ c', HTML hi_fragment " <p>hi</p> " ∅ = Ok ([El.P None [ES "hi"]], c') ∧ coherent hi_trees c'.
Proof.
  destruct (HTML_spec hi_fragment hi_trees hi_fragment_ok " <p>hi</p> " ∅)
    as (c' & Hrun & Hc & _).
  - intros s es H. rewrite lookup_empty in H. discriminate.
  - exists c'. split; [exact Hrun|exact Hc].
Defined.

Lemma HTMLElem_spec_witness :
  ∃ c', HTMLElem hi_fragment " <p>hi</p> " ∅ = Ok (El.P None [ES "hi"], c').
Proof.
  destruct (HTMLElem_spec hi_fragment hi_trees hi_fragment_ok " <p>hi</p> " ∅)
    as (c' & Hrun & _).
  - intros s es H. rewrite lookup_empty in H. discriminate.
  - exists c'. exact Hrun.
Defined.

Definition blank_text (i : nid) : itree := INode i (MkData TextNode 0 " " "" []) [].
Definition empty_li (i : nid) : itree := INode i (MkData ElementNode 0 "li" "" []) [].

(** A parser that knows a list with one item and white space around it. *)
Definition spaced_ul : itree :=
  INode 0 (MkData ElementNode 0 "ul" "" []) [blank_text 1; empty_li 2; blank_text 3].
Definition spaced_dom : dom := list_to_map [
  (0, node_of None None None spaced_ul);
  (1, node_of (Some 0) None (Some 2) (blank_text 1));
  (2, node_of (Some 0) (Some 1) (Some 3) (empty_li 2));
  (3, node_of (Some 0) (Some 2) None (blank_text 3))].
Definition spaced_fragment (s : string) : string + (dom * list nid) :=
  if str_eqb s "<ul> <li></li> </ul>" then inr (spaced_dom, [0]) else inl "unknown fragment".
Definition spaced_trees (s : string) : string + list itree :=
  if str_eqb s "<ul> <li></li> </ul>" then inr [spaced_ul] else inl "unknown fragment".

Lemma spaced_fragment_ok : ParseFragment_ok spaced_fragment spaced_trees.
Proof.
  intros s. unfold spaced_trees, spaced_fragment. destruct (str_eqb s _); [|done].
  exists spaced_dom, [0]. split; [done|]. split; [done|]. split.
  - constructor; [|constructor]. by repeat split.
  - simpl. repeat constructor; set_solver.
Qed.

Lemma ul_second_blank_panics_witness :
  HTML spaced_fragment "<ul> <li></li> </ul>" ∅ = Panic TypeAssertion ∧
  ∃ h vn h', spaced_fragment "<ul> <li></li> </ul>" = inr (h, [0]) ∧ get h 0 = Ok vn ∧
    walk_children (size h) 0 (FirstChild vn) [] h = Ok ([1], h') ∧
    linked h' None None None
      (INode 0 (MkData ElementNode 0 "ul" "" []) [empty_li 2; blank_text 3]).
Proof.
  apply (ul_second_blank_panics spaced_fragment spaced_trees "<ul> <li></li> </ul>" ∅
    0 0 "" [] (blank_text 1) [empty_li 2] (blank_text 3) []).
  - exact spaced_fragment_ok.
  - intros s es H. rewrite lookup_empty in H. discriminate.
  - reflexivity.
  - constructor.
  - reflexivity.
  - reflexivity.
  - constructor; [|constructor]. eexists. reflexivity.
Defined.

Lemma HTML_inert_witness : Forall inert [El.P None [ES "hi"]].
Proof. apply (HTML_inert [hi]). reflexivity. Defined.

(** ** Runs *)
Lemma reachable_safe_witness :
  ∃ w os g n, mount_app 0 no_html (Some (λ _, "")) init_world = Ok ((0, 3), w) ∧
    Running hackCategories hackConfig w (locs_of (0, 3)) os g n ∧
    gopher_ok hackCategories hackConfig g.
Proof.
  destruct (mount_app_run 0 no_html (λ _, "")) as (w & Hrun & _).
  destruct (reachable_safe zero_source 0 1 no_html zero_source_ok zero_fuel (locs_of (0, 3)) w)
    as (os & g & n & HR & Hok & _).
  - exact (reach_mount zero_source 0 1 no_html _ _ _ Hrun).
  - exists w, os, g, n. split; [exact Hrun|]. split; [exact HR|exact Hok].
Defined.

Lemma mount_shows_default_witness :
  ∃ L divs w, first_render 0 no_html 3 (Some (λ _, "")) init_world =
      Ok (page_view (λ _, "") default_hack (chooser_at (l_chooser L)) divs (ES ""), w) ∧
    length divs = 8.
Proof.
  destruct (mount_shows_default 0 no_html (λ _, "") 3 (ES "")) as (_ & _ & L & divs & w & Hr & [Hd _] & _).
  - lia.
  - reflexivity.
  - reflexivity.
  - exists L, divs, w. split; [exact Hr|exact Hd].
Defined.

Lemma client_well_typed_witness :
  ∃ w e1 w1 e2 w2, mount_app 0 no_html (Some (λ _, "")) init_world = Ok ((0, 3), w) ∧
    OuterDef_Render no_html (outer_at 0) w = Ok (e1, w1) ∧ well_typed (w_js w1) e1 ∧
    ChooserDef_Render no_html (chooser_at 3) w1 = Ok (e2, w2) ∧ well_typed (w_js w2) e2 ∧
    length (class_elems e2) = 8.
Proof.
  destruct (mount_app_run 0 no_html (λ _, "")) as (w & Hrun & _).
  destruct (client_well_typed zero_source 0 1 no_html zero_source_ok zero_fuel (locs_of (0, 3)) w (ES ""))
    as (os & g & n & _ & e1 & w1 & e2 & w2 & c1 & c2 & c & H1 & H2 & T1 & T2 & _ & _ & _ & H3 & _).
  - exact (reach_mount zero_source 0 1 no_html _ _ _ Hrun).
  - reflexivity.
  - reflexivity.
  - exists w, e1, w1, e2, w2. rewrite H3.
    exact (conj Hrun (conj H1 (conj T1 (conj H2 (conj T2 eq_refl))))).
Defined.

Definition pink : Gopher :=
  {| Parts := ["010-Body/pink_gopher"; "020-Eyes/goofy_eyes"; ""; ""; ""; ""; ""; ""] |}.

Lemma every_gopher_reachable_witness :
  ∃ w os n, reachable zero_source 0 1 no_html (locs_of (0, 3)) w ∧
    Running hackCategories hackConfig w (locs_of (0, 3)) os pink n.
Proof.
  destruct (mount_app_run 0 no_html (λ _, "")) as (w & Hrun & _).
  apply (every_gopher_reachable zero_source 0 1 no_html zero_source_ok zero_fuel (λ _, "") w pink).
  - exact Hrun.
  - unfold gopher_ok.
    repeat (constructor; [eexists; split; [reflexivity|];
      apply (bool_decide_unpack _); vm_compute; exact I|]). constructor.
Defined.
